(** * Linux-kernel debug-information discovery (libdrgn/linux_kernel.c)

    A shallow embedding of the VMCOREINFO reader, the module and section
    iterators, the depmod index parser and the discovery coordinator of
    [libdrgn/linux_kernel.c], with the properties of its specification
    stated and settled against the embedded code.

    Conventions.
    - A byte buffer is a [list byte]; a pointer into a buffer is the
      suffix of the buffer starting at the pointer ([drop]), so that
      pointer differences are list lengths.  Reading past the end of a
      list reads a NUL, which is how the C-string functions below see
      the terminator.
    - [uint64_t] and [uint32_t] values are [Z] with the wrap-around
      written out ([wrap64], [wrap32]).
    - A [struct drgn_error *] result is a [result]: [Ok] for [NULL],
      [Err e] otherwise.  Out parameters are returned in the [Ok] value,
      or threaded through when the function leaves them unwritten. *)

From Stdlib Require Import ZArith Lia ZifyBool List Bool String Ascii.
From Stdlib Require Import Strings.Byte.
From stdpp Require Import base option list gmap.

Local Open Scope Z_scope.

(** ** Machine integers and bytes *)

Definition wrap64 (z : Z) : Z := z mod 2 ^ 64.
Definition wrap32 (z : Z) : Z := z mod 2 ^ 32.
Definition UINT64_MAX : Z := 2 ^ 64 - 1.

(** The numeric value of a byte, as an [unsigned char]. *)
Definition u8 (b : byte) : Z := Z.of_N (Byte.to_N b).

#[global] Instance byte_eq_dec : EqDecision byte.
Proof.
  intros x y. destruct (Byte.eqb x y) eqn:E.
  - left. now apply Byte.byte_dec_bl.
  - right. now apply Byte.eqb_false.
Defined.

#[global] Instance byte_countable : Countable byte.
Proof.
  refine (inj_countable' Byte.to_N (fun n => default x00 (Byte.of_N n)) _).
  intros b. now rewrite Byte.of_to_N.
Defined.

(** A string literal as the bytes of a C string, without its terminator. *)
Definition bytes (s : string) : list byte := list_byte_of_string s.

(** [*p] for a pointer into a NUL-terminated or bounded buffer. *)
Definition deref (p : list byte) : byte := hd x00 p.

(** ** Errors (drgn.h, error.h)

    The error codes are those the specification lists in its section 7;
    [drgn_enomem], [drgn_stop] and [drgn_not_found] are the statically
    allocated errors the code compares by address. *)

Inductive drgn_error_code :=
| DRGN_ERROR_NO_MEMORY
| DRGN_ERROR_STOP
| DRGN_ERROR_OTHER
| DRGN_ERROR_OVERFLOW
| DRGN_ERROR_OS
| DRGN_ERROR_LOOKUP
| DRGN_ERROR_NOT_FOUND.

(** An argument of a [printf]-style message, kept unformatted: a C
    string, an integer, or a message that was itself formatted. *)
Inductive format_arg :=
| arg_str (s : list byte)
| arg_int (z : Z)
| arg_msg (format : string) (ints : list Z).

Inductive drgn_error :=
| drgn_enomem
| drgn_stop
| drgn_not_found
| drgn_error_create (code : drgn_error_code) (message : string)
| drgn_error_format (code : drgn_error_code) (format : string)
    (args : list format_arg)
| drgn_error_create_os (func : string) (errno : Z) (path : option (list byte))
| drgn_error_format_os (func : string) (errno : Z) (format : string)
    (args : list format_arg).

Definition error_code (e : drgn_error) : drgn_error_code :=
  match e with
  | drgn_enomem => DRGN_ERROR_NO_MEMORY
  | drgn_stop => DRGN_ERROR_STOP
  | drgn_not_found => DRGN_ERROR_NOT_FOUND
  | drgn_error_create c _ => c
  | drgn_error_format c _ _ => c
  | drgn_error_create_os _ _ _ => DRGN_ERROR_OS
  | drgn_error_format_os _ _ _ _ => DRGN_ERROR_OS
  end.

#[global] Instance drgn_error_code_eq_dec : EqDecision drgn_error_code.
Proof. solve_decision. Defined.

#[global] Instance format_arg_eq_dec : EqDecision format_arg.
Proof. solve_decision. Defined.

#[global] Instance drgn_error_eq_dec : EqDecision drgn_error.
Proof. solve_decision. Defined.

Inductive result (A : Type) :=
| Ok (a : A)
| Err (e : drgn_error).
Arguments Ok {A} a.
Arguments Err {A} e.

Definition bind {A B} (r : result A) (k : A -> result B) : result B :=
  match r with
  | Ok a => k a
  | Err e => Err e
  end.

Notation "'let*' x ':=' r 'in' k" := (bind r (fun x => k))
  (at level 10, x pattern, r at level 100, k at level 200).

(** Code that threads a state [S] through calls that can fail: the
    state after the call is returned on both outcomes, as a C function
    leaves the structure it was working on. *)
Definition M (S A : Type) : Type := S -> result A * S.

Definition st_ret {S A} (a : A) : M S A := fun s => (Ok a, s).

Definition st_bind {S A B} (m : M S A) (k : A -> M S B) : M S B :=
  fun s => match m s with
           | (Ok a, s') => k a s'
           | (Err e, s') => (Err e, s')
           end.

Definition st_fail {S A} (e : drgn_error) : M S A := fun s => (Err e, s).
Definition st_get {S} : M S S := fun s => (Ok s, s).
Definition st_put {S} (s : S) : M S unit := fun _ => (Ok tt, s).
Definition st_lift {S A} (r : result A) : M S A := fun s => (r, s).

Notation "x <- m ;; k" := (st_bind m (fun x => k))
  (at level 100, m at next level, right associativity).
Notation "m ;;; k" := (st_bind m (fun _ => k))
  (at level 100, right associativity).

(** ** libc

    The C library functions the code calls, on list-represented memory. *)

(** [memchr(p, c, length p)]: the offset of the first [c], if any. *)
Fixpoint memchr (c : byte) (p : list byte) : option nat :=
  match p with
  | [] => None
  | b :: p' => if decide (b = c) then Some 0%nat else S <$> memchr c p'
  end.

(** [strncmp(s1, s2, n) == 0]. *)
Fixpoint strncmp_eq (s1 s2 : list byte) (n : nat) : bool :=
  match n with
  | O => true
  | S n' =>
      if decide (deref s1 = deref s2)
      then if decide (deref s1 = x00) then true
           else strncmp_eq (tl s1) (tl s2) n'
      else false
  end.

(** [memcmp(s1, s2, n) == 0], for [n] bytes available at both pointers. *)
Definition memcmp_eq (s1 s2 : list byte) (n : nat) : bool :=
  bool_decide (take n s1 = take n s2).

(** [isspace] in the C locale. *)
Definition isspace (b : byte) : bool :=
  let c := u8 b in (c =? 32) || ((9 <=? c) && (c <=? 13)).

Fixpoint skip_spaces (p : list byte) : list byte :=
  match p with
  | b :: p' => if isspace b then skip_spaces p' else p
  | [] => []
  end.

(** The value of a character as a digit, for bases up to 36. *)
Definition digit_value (b : byte) : option Z :=
  let c := u8 b in
  if (48 <=? c) && (c <=? 57) then Some (c - 48)
  else if (97 <=? c) && (c <=? 122) then Some (c - 97 + 10)
  else if (65 <=? c) && (c <=? 90) then Some (c - 65 + 10)
  else None.

Definition digit_in (base : Z) (b : byte) : option Z :=
  match digit_value b with
  | Some d => if d <? base then Some d else None
  | None => None
  end.

(** The longest run of digits of [base] at [p]: the accumulated value
    (not yet clamped) and the number of characters in the run. *)
Fixpoint scan_digits (base : Z) (p : list byte) (acc : Z) (n : nat) : Z * nat :=
  match p with
  | b :: p' =>
      match digit_in base b with
      | Some d => scan_digits base p' (acc * base + d) (S n)
      | None => (acc, n)
      end
  | [] => (acc, n)
  end.

Record strtoull_result := {
  st_value : Z;       (* the returned unsigned long long *)
  st_end : nat;       (* end - nptr *)
  st_erange : bool;   (* errno == ERANGE afterwards *)
}.

Definition is_x (b : byte) : bool := (u8 b =? 120) || (u8 b =? 88).

(** Whether [p] starts with [0x] or [0X]. *)
Definition has_0x (p : list byte) : bool :=
  match p with
  | z :: x :: _ => bool_decide (z = "0"%byte) && is_x x
  | _ => false
  end.

(** [strtoull(nptr, &end, base)] for base 0, 8, 10 or 16: white space,
    an optional sign, an optional [0x] (base 0 or 16) or [0] (base 0)
    prefix, then the digits.  With no digit there is no conversion and
    [end == nptr], except after [0x], where the [0] alone is converted.
    A value above [ULLONG_MAX] is clamped with [ERANGE]; a minus sign
    negates the value modulo [2^64]. *)
Definition strtoull (nptr : list byte) (base : Z) : strtoull_result :=
  let p := skip_spaces nptr in
  let ws := (length nptr - length p)%nat in
  let '(neg, p1, sg) :=
    match p with
    | b :: p' =>
        if decide (b = "-"%byte) then (true, p', 1%nat)
        else if decide (b = "+"%byte) then (false, p', 1%nat)
        else (false, p, 0%nat)
    | [] => (false, p, 0%nat)
    end in
  let '(base', p2, pre) :=
    if has_0x p1 && ((base =? 0) || (base =? 16)) then (16, drop 2 p1, 2%nat)
    else if base =? 0
         then (if decide (deref p1 = "0"%byte) then 8 else 10, p1, 0%nat)
         else (base, p1, 0%nat) in
  let '(v, n) := scan_digits base' p2 0 0%nat in
  match n, pre with
  | O, O => {| st_value := 0; st_end := 0; st_erange := false |}
  | O, _ => {| st_value := 0; st_end := (ws + sg + 1)%nat; st_erange := false |}
  | _, _ =>
      if UINT64_MAX <? v
      then {| st_value := UINT64_MAX; st_end := (ws + sg + pre + n)%nat;
              st_erange := true |}
      else {| st_value := if neg then wrap64 (- v) else v;
              st_end := (ws + sg + pre + n)%nat; st_erange := false |}
  end.

(** ** VMCOREINFO (lines 41-135) *)

Record vmcoreinfo := {
  osrelease : list byte;       (* the C string held in [char osrelease[]] *)
  page_size : Z;
  kaslr_offset : Z;
  swapper_pg_dir : Z;
  pgtable_l5_enabled : bool;
}.

(** [linematch(&line, prefix)]: [Some line'] with the advanced pointer
    when the prefix matches, [None] (pointer unchanged) otherwise. *)
Definition linematch (line : list byte) (prefix : string) : option (list byte) :=
  let len := length (bytes prefix) in
  if strncmp_eq line (bytes prefix) len then Some (drop len line) else None.

(** [line_to_u64(line, newline, base, &ret)], with [newline] given as
    its offset from [line]. *)
Definition line_to_u64 (line : list byte) (newline : nat) (base : Z) : result Z :=
  let r := strtoull line base in
  if st_erange r then
    Err (drgn_error_create DRGN_ERROR_OVERFLOW "number in VMCOREINFO is too large")
  else if (st_end r =? 0)%nat || negb (st_end r =? newline)%nat then
    Err (drgn_error_create DRGN_ERROR_OVERFLOW "number in VMCOREINFO is invalid")
  else Ok (st_value r).

Definition set_osrelease v ret :=
  {| osrelease := v; page_size := page_size ret; kaslr_offset := kaslr_offset ret;
     swapper_pg_dir := swapper_pg_dir ret;
     pgtable_l5_enabled := pgtable_l5_enabled ret |}.
Definition set_page_size v ret :=
  {| osrelease := osrelease ret; page_size := v; kaslr_offset := kaslr_offset ret;
     swapper_pg_dir := swapper_pg_dir ret;
     pgtable_l5_enabled := pgtable_l5_enabled ret |}.
Definition set_kaslr_offset v ret :=
  {| osrelease := osrelease ret; page_size := page_size ret; kaslr_offset := v;
     swapper_pg_dir := swapper_pg_dir ret;
     pgtable_l5_enabled := pgtable_l5_enabled ret |}.
Definition set_swapper_pg_dir v ret :=
  {| osrelease := osrelease ret; page_size := page_size ret;
     kaslr_offset := kaslr_offset ret; swapper_pg_dir := v;
     pgtable_l5_enabled := pgtable_l5_enabled ret |}.
Definition set_pgtable_l5_enabled v ret :=
  {| osrelease := osrelease ret; page_size := page_size ret;
     kaslr_offset := kaslr_offset ret; swapper_pg_dir := swapper_pg_dir ret;
     pgtable_l5_enabled := v |}.

Section Vmcoreinfo.

(** [sizeof(ret->osrelease)]; the structure is declared in a header. *)
Variable sizeof_osrelease : nat.

(** The body of the [while] loop of [parse_vmcoreinfo] for the line at
    [line] whose newline is [newline] bytes further. *)
Definition parse_vmcoreinfo_line (line : list byte) (newline : nat)
    (ret : vmcoreinfo) : result vmcoreinfo :=
  match linematch line "OSRELEASE=" with
  | Some line =>
      let n := (newline - 10)%nat in
      if (sizeof_osrelease <=? n)%nat then
        Err (drgn_error_create DRGN_ERROR_OTHER "OSRELEASE in VMCOREINFO is too long")
      else Ok (set_osrelease (take n line) ret)
  | None =>
  match linematch line "PAGESIZE=" with
  | Some line =>
      let* v := line_to_u64 line (newline - 9) 0 in
      Ok (set_page_size v ret)
  | None =>
  match linematch line "KERNELOFFSET=" with
  | Some line =>
      let* v := line_to_u64 line (newline - 13) 16 in
      Ok (set_kaslr_offset v ret)
  | None =>
  match linematch line "SYMBOL(swapper_pg_dir)=" with
  | Some line =>
      let* v := line_to_u64 line (newline - 23) 16 in
      Ok (set_swapper_pg_dir v ret)
  | None =>
  match linematch line "NUMBER(pgtable_l5_enabled)=" with
  | Some line =>
      let* tmp := line_to_u64 line (newline - 27) 0 in
      Ok (set_pgtable_l5_enabled (negb (tmp =? 0)) ret)
  | None => Ok ret
  end end end end end.

(** The [while (line < end)] loop.  Every iteration moves [line] past a
    newline, so [S (length line)] iterations always suffice; [None] is
    the loop running out of [fuel]. *)
Fixpoint parse_vmcoreinfo_loop (fuel : nat) (line : list byte)
    (ret : vmcoreinfo) : option (result vmcoreinfo) :=
  match fuel with
  | O => None
  | S fuel' =>
      match memchr x0a line with
      | None => Some (Ok ret)
      | Some newline =>
          match parse_vmcoreinfo_line line newline ret with
          | Err e => Some (Err e)
          | Ok ret' => parse_vmcoreinfo_loop fuel' (drop (S newline) line) ret'
          end
      end
  end.

(** The checks after the loop (lines 121-134). *)
Definition check_vmcoreinfo (ret : vmcoreinfo) : result vmcoreinfo :=
  if decide (deref (osrelease ret) = x00) then
    Err (drgn_error_create DRGN_ERROR_OTHER
           "VMCOREINFO does not contain valid OSRELEASE")
  else if page_size ret =? 0 then
    Err (drgn_error_create DRGN_ERROR_OTHER
           "VMCOREINFO does not contain valid PAGESIZE")
  else if swapper_pg_dir ret =? 0 then
    Err (drgn_error_create DRGN_ERROR_OTHER
           "VMCOREINFO does not contain valid swapper_pg_dir")
  else Ok ret.

(** [parse_vmcoreinfo(desc, descsz, ret)] with [descsz = length desc].
    [ret] is the record the caller passes in: the function resets four
    of its fields and leaves [swapper_pg_dir] as it found it. *)
Definition parse_vmcoreinfo (desc : list byte) (ret : vmcoreinfo)
    : option (result vmcoreinfo) :=
  let ret0 := {| osrelease := []; page_size := 0; kaslr_offset := 0;
                 swapper_pg_dir := swapper_pg_dir ret;
                 pgtable_l5_enabled := false |} in
  match parse_vmcoreinfo_loop (S (length desc)) desc ret0 with
  | None => None
  | Some (Err e) => Some (Err e)
  | Some (Ok ret') => Some (check_vmcoreinfo ret')
  end.

End Vmcoreinfo.

(** ** The VMCOREINFO fallback (lines 197-244) *)

(** A little- or big-endian 32-bit field at the start of [p]. *)
Definition le32 (p : list byte) : Z :=
  match p with
  | b0 :: b1 :: b2 :: b3 :: _ =>
      u8 b0 + 2 ^ 8 * u8 b1 + 2 ^ 16 * u8 b2 + 2 ^ 24 * u8 b3
  | _ => 0
  end.

Definition be32 (p : list byte) : Z :=
  match p with
  | b0 :: b1 :: b2 :: b3 :: _ =>
      2 ^ 24 * u8 b0 + 2 ^ 16 * u8 b1 + 2 ^ 8 * u8 b2 + u8 b3
  | _ => 0
  end.

(** A [uint32_t] loaded from memory in the byte order given. *)
Definition load32 (little_endian : bool) (p : list byte) : Z :=
  if little_endian then le32 p else be32 p.

(** One unsigned conversion of [scanf] ([%lx], [%zx], [%lu]): white
    space is skipped and the longest numeral converted as [strtoull]
    does; no numeral is a matching failure. *)
Definition scan_unsigned (base : Z) (p : list byte) : option (Z * list byte) :=
  let r := strtoull p base in
  if (st_end r =? 0)%nat then None else Some (st_value r, drop (st_end r) p).

(** What the fallback needs of its surroundings: the sysfs file ([Err]
    carries the [errno] of a failed [fopen]) and the target's memory
    reader, [drgn_program_read_memory(prog, buf, address, size, physical)],
    which fills all [size] bytes or fails. *)
Record fallback_env := {
  sys_kernel_vmcoreinfo : Z + list byte;
  read_memory : Z -> Z -> bool -> result (list byte);
}.

(** The test of lines 232-234 on the [size] bytes read: [true] when the
    note is refused.  [Elf64_Nhdr] is read in host byte order. *)
Definition vmcoreinfo_note_invalid (host_le : bool) (buf : list byte) (size : Z)
    : bool :=
  (size <? 24) || negb (load32 host_le buf =? 11)
  || negb (memcmp_eq (drop 12 buf) (bytes "VMCOREINFO") 10)
  || (size - 24 <? load32 host_le (drop 4 buf)).

Definition read_vmcoreinfo_fallback (sizeof_osrelease : nat) (host_le : bool)
    (env : fallback_env) (prog_vmcoreinfo : vmcoreinfo)
    : option (result vmcoreinfo) :=
  match sys_kernel_vmcoreinfo env with
  | inl errno =>
      Some (Err (drgn_error_create_os "fopen" errno (Some (bytes "/sys/kernel/vmcoreinfo"))))
  | inr file =>
      match scan_unsigned 16 file with
      | None =>
          Some (Err (drgn_error_create DRGN_ERROR_OTHER
                       "could not parse /sys/kernel/vmcoreinfo"))
      | Some (address, file') =>
          match scan_unsigned 16 file' with
          | None =>
              Some (Err (drgn_error_create DRGN_ERROR_OTHER
                           "could not parse /sys/kernel/vmcoreinfo"))
          | Some (size, _) =>
              match read_memory env address size true with
              | Err e => Some (Err e)
              | Ok buf =>
                  if vmcoreinfo_note_invalid host_le buf size then
                    Some (Err (drgn_error_create DRGN_ERROR_OTHER
                                 "VMCOREINFO is invalid"))
                  else
                    parse_vmcoreinfo sizeof_osrelease
                      (take (Z.to_nat (load32 host_le (drop 4 buf))) (drop 24 buf))
                      prog_vmcoreinfo
              end
          end
      end
  end.

(** ** Binary buffer (binary_buffer.h) *)

(** Modelled from the spec: binary_buffer.h is missing from the sources.
    Section 4.1 of the specification: a buffer is constructed over
    (base, length, little-endian flag) and exposes the reads [u8], [u32],
    NUL-terminated string and skip-N; each is bounds-checked, then
    advances the cursor, or fails with a position-annotated error built
    by the owner's callback.  The byte order affects integer reads only.
    [bb_prev] is the position of the item read last, which
    [binary_buffer_error] reports. *)
Record binary_buffer := {
  bb_data : list byte;
  bb_pos : nat;
  bb_prev : nat;
  bb_little_endian : bool;
  bb_error_fn : nat -> format_arg -> drgn_error;
}.

(** Modelled from the spec: construction over the base, the length (that
    of [buf]) and the byte-order flag, with the owner's error callback. *)
Definition binary_buffer_init (buf : list byte) (little_endian : bool)
    (error_fn : nat -> format_arg -> drgn_error) : binary_buffer :=
  {| bb_data := buf; bb_pos := 0; bb_prev := 0;
     bb_little_endian := little_endian; bb_error_fn := error_fn |}.

(** Modelled from the spec: the cursor is moved by the owner
    ([buffer.bb.pos = ...] in the source). *)
Definition bb_set_pos (pos : nat) (bb : binary_buffer) : binary_buffer :=
  {| bb_data := bb_data bb; bb_pos := pos; bb_prev := bb_prev bb;
     bb_little_endian := bb_little_endian bb; bb_error_fn := bb_error_fn bb |}.

(** Modelled from the spec: a successful read advances the cursor and
    remembers where the item started. *)
Definition bb_advance (n : nat) (bb : binary_buffer) : binary_buffer :=
  {| bb_data := bb_data bb; bb_pos := (bb_pos bb + n)%nat; bb_prev := bb_pos bb;
     bb_little_endian := bb_little_endian bb; bb_error_fn := bb_error_fn bb |}.

(** Modelled from the spec: the bytes from the cursor to the end. *)
Definition bb_rest (bb : binary_buffer) : list byte := drop (bb_pos bb) (bb_data bb).

(** Modelled from the spec: the error built by the owner's callback at
    the position of the item read last. *)
Definition binary_buffer_error {A} (format : string) (ints : list Z)
    : M binary_buffer A :=
  fun bb => (Err (bb_error_fn bb (bb_prev bb) (arg_msg format ints)), bb).

(** Modelled from the spec: the bounds check every read starts with. *)
Definition binary_buffer_check_bounds (n : Z) : M binary_buffer unit :=
  fun bb =>
    if n <=? Z.of_nat (length (bb_rest bb)) then (Ok tt, bb)
    else (Err (bb_error_fn bb (bb_pos bb)
                 (arg_msg "expected at least %lu bytes" [n])), bb).

(** Modelled from the spec: skip-N. *)
Definition binary_buffer_skip (n : Z) : M binary_buffer unit :=
  binary_buffer_check_bounds n ;;;
  fun bb => (Ok tt, bb_advance (Z.to_nat n) bb).

(** Modelled from the spec: the [u8] read. *)
Definition binary_buffer_next_u8 : M binary_buffer Z :=
  binary_buffer_check_bounds 1 ;;;
  fun bb => (Ok (u8 (deref (bb_rest bb))), bb_advance 1 bb).

(** Modelled from the spec: the [u32] read, in the buffer's byte order. *)
Definition binary_buffer_next_u32 : M binary_buffer Z :=
  binary_buffer_check_bounds 4 ;;;
  fun bb => (Ok (load32 (bb_little_endian bb) (bb_rest bb)), bb_advance 4 bb).

(** Modelled from the spec: the NUL-terminated string read; the string
    at the cursor is returned as its position and its length. *)
Definition binary_buffer_next_string : M binary_buffer (nat * nat) :=
  fun bb =>
    match memchr x00 (bb_rest bb) with
    | None =>
        (Err (bb_error_fn bb (bb_pos bb)
                (arg_msg "expected null-terminated string" [])), bb)
    | Some len => (Ok (bb_pos bb, len), bb_advance (S len) bb)
    end.

(** ** The depmod index (lines 953-1151) *)

Record depmod_index := {
  depmod_addr : option (list byte);   (* the mapping, or NULL *)
  depmod_len : nat;
  depmod_path : list byte;
}.

(** The mapped bytes; nothing when there is no mapping. *)
Definition depmod_data (depmod : depmod_index) : list byte :=
  default [] (depmod_addr depmod).

Definition depmod_index_buffer_error (depmod : depmod_index) (pos : nat)
    (message : format_arg) : drgn_error :=
  drgn_error_format DRGN_ERROR_OTHER "%s: %#tx: %s"
    [arg_str (depmod_path depmod); arg_int (Z.of_nat pos); message].

Definition depmod_index_buffer_init (depmod : depmod_index) : binary_buffer :=
  binary_buffer_init (take (depmod_len depmod) (depmod_data depmod)) false
    (depmod_index_buffer_error depmod).

Definition depmod_index_validate (depmod : depmod_index) : result unit :=
  fst ((magic <- binary_buffer_next_u32 ;;
        (if negb (magic =? 0xb007f457)
         then binary_buffer_error "invalid magic 0x%x" [magic]
         else st_ret tt) ;;;
        version <- binary_buffer_next_u32 ;;
        (if negb (version =? 0x00020001)
         then binary_buffer_error "unknown version 0x%x" [version]
         else st_ret tt))
       (depmod_index_buffer_init depmod)).

(** *** Opening the index (lines 1012-1050) *)

(** The host's answers to the system calls of [depmod_index_init] on one
    path: [open] fails with an [errno] or yields a file, whose [fstat]
    and [mmap] may fail in turn.  [mmap] of a length of zero fails with
    [EINVAL] on Linux. *)
Record host_file := {
  f_data : list byte;
  f_fstat_errno : option Z;
  f_mmap_errno : option Z;
}.

Definition EINVAL : Z := 22.
Definition SIZE_MAX : Z := 2 ^ 64 - 1.

Inductive syscall :=
| sys_open (path : list byte)
| sys_fstat
| sys_mmap (len : Z)
| sys_munmap (len : Z)
| sys_close.

(** Whether a mapping made in the trace is still in place after it. *)
Definition mapping_live (trace : list syscall) : bool :=
  fold_left (fun live c => match c with
                           | sys_mmap _ => true
                           | sys_munmap _ => false
                           | _ => live
                           end) trace false.

Definition depmod_index_init (host_open : list byte -> Z + host_file)
    (depmod : depmod_index) (osrelease : list byte)
    : result unit * depmod_index * list syscall :=
  let path := take 255 (bytes "/lib/modules/" ++ osrelease
                          ++ bytes "/modules.dep.bin") in
  let depmod := {| depmod_addr := depmod_addr depmod;
                   depmod_len := depmod_len depmod; depmod_path := path |} in
  match host_open path with
  | inl errno =>
      (Err (drgn_error_create_os "open" errno (Some path)), depmod,
       [sys_open path])
  | inr file =>
      match f_fstat_errno file with
      | Some errno =>
          (Err (drgn_error_create_os "fstat" errno (Some path)), depmod,
           [sys_open path; sys_fstat; sys_close])
      | None =>
          let st_size := Z.of_nat (length (f_data file)) in
          if (st_size <? 0) || (SIZE_MAX <? st_size) then
            (Err drgn_enomem, depmod, [sys_open path; sys_fstat; sys_close])
          else
            match (if st_size =? 0 then Some EINVAL else f_mmap_errno file) with
            | Some errno =>
                (Err (drgn_error_create_os "mmap" errno (Some path)), depmod,
                 [sys_open path; sys_fstat; sys_close])
            | None =>
                let depmod := {| depmod_addr := Some (f_data file);
                                 depmod_len := Z.to_nat st_size;
                                 depmod_path := path |} in
                match depmod_index_validate depmod with
                | Err e =>
                    (Err e, depmod,
                     [sys_open path; sys_fstat; sys_mmap st_size;
                      sys_munmap (Z.of_nat (depmod_len depmod)); sys_close])
                | Ok _ =>
                    (Ok tt, depmod,
                     [sys_open path; sys_fstat; sys_mmap st_size; sys_close])
                end
            end
      end
  end.

(** *** Looking a module up (lines 1061-1151) *)

Definition INDEX_NODE_MASK : Z := 0x0fffffff.
Definition INDEX_NODE_CHILDS : Z := 0x20000000.
Definition INDEX_NODE_VALUES : Z := 0x40000000.
Definition INDEX_NODE_PREFIX : Z := 0x80000000.

(** How one iteration of the [for (;;)] loop ends: [continue] with the
    rest of the name, [break] at the node whose tagged offset is
    [offset], or [goto not_found]. *)
Inductive node_step :=
| step_continue (name : list byte)
| step_break (offset : Z)
| step_not_found.

(** Lines 1087-1097: the prefix of the node, when it has one; the rest
    of the name, or [None] for [goto not_found]. *)
Definition depmod_index_find_prefix (depmod : depmod_index) (offset : Z)
    (name : list byte) : M binary_buffer (option (list byte)) :=
  if negb (Z.land offset INDEX_NODE_PREFIX =? 0) then
    str <- binary_buffer_next_string ;;
    let '(prefix, prefix_len) := str in
    if strncmp_eq name (drop prefix (depmod_data depmod)) prefix_len
    then st_ret (Some (drop prefix_len name))
    else st_ret None
  else st_ret (Some name).

(** Lines 1099-1123: the child table of the node, when it has one. *)
Definition depmod_index_find_childs (offset : Z) (name : list byte)
    : M binary_buffer node_step :=
  if negb (Z.land offset INDEX_NODE_CHILDS =? 0) then
    first <- binary_buffer_next_u8 ;;
    last <- binary_buffer_next_u8 ;;
    if negb (u8 (deref name) =? 0) then
      let cur := u8 (deref name) in
      if (cur <? first) || (last <? cur) then st_ret step_not_found
      else
        binary_buffer_skip (4 * (cur - first)) ;;;
        st_ret (step_continue (tl name))
    else
      binary_buffer_skip (wrap64 (4 * (last - first + 1))) ;;;
      st_ret (step_break offset)
  else if negb (u8 (deref name) =? 0) then st_ret step_not_found
  else st_ret (step_break offset).

(** The body of the [for (;;)] loop. *)
Definition depmod_index_find_node (depmod : depmod_index) (name : list byte)
    : M binary_buffer node_step :=
  offset <- binary_buffer_next_u32 ;;
  if Z.of_nat (depmod_len depmod) <? Z.land offset INDEX_NODE_MASK then
    binary_buffer_error "offset is out of bounds" []
  else
    (fun bb => (Ok tt, bb_set_pos (Z.to_nat (Z.land offset INDEX_NODE_MASK)) bb)) ;;;
    name <- depmod_index_find_prefix depmod offset name ;;
    match name with
    | None => st_ret step_not_found
    | Some name => depmod_index_find_childs offset name
    end.

(** The loop itself.  Every [continue] has consumed a byte of the name,
    so [S (length name)] iterations suffice; [None] is the loop running
    out of [fuel].  [Ok None] is [goto not_found]. *)
Fixpoint depmod_index_find_loop (fuel : nat) (depmod : depmod_index)
    (name : list byte) (bb : binary_buffer)
    : option (result (option Z) * binary_buffer) :=
  match fuel with
  | O => None
  | S fuel' =>
      match depmod_index_find_node depmod name bb with
      | (Err e, bb') => Some (Err e, bb')
      | (Ok (step_continue name'), bb') =>
          depmod_index_find_loop fuel' depmod name' bb'
      | (Ok (step_break offset), bb') => Some (Ok (Some offset), bb')
      | (Ok step_not_found, bb') => Some (Ok None, bb')
      end
  end.

(** After the loop (lines 1125-1146): the first value of the node the
    walk stopped at, as the position and length of its path, or [None]
    for [goto not_found]. *)
Definition depmod_index_find_value (offset : Z)
    : M binary_buffer (option (nat * nat)) :=
  if Z.land offset INDEX_NODE_VALUES =? 0 then st_ret None
  else
    value_count <- binary_buffer_next_u32 ;;
    if value_count =? 0 then st_ret None
    else
      binary_buffer_skip 4 ;;;
      fun bb =>
        match memchr ":"%byte (bb_rest bb) with
        | None => binary_buffer_error "expected string containing ':'" [] bb
        | Some colon => (Ok (Some (bb_pos bb, colon)), bb)
        end.

(** The two out parameters: [*path_ret], a position in the mapping or
    [NULL], and [*len_ret]. *)
Record depmod_out := {
  path_ret : option nat;
  len_ret : nat;
}.

(** [depmod_index_find(depmod, name, path_ret, len_ret)]; [out] holds
    what the out parameters contain when the function is called. *)
Definition depmod_index_find (depmod : depmod_index) (name : list byte)
    (out : depmod_out) : option (result unit * depmod_out) :=
  let bb := bb_set_pos 8 (depmod_index_buffer_init depmod) in
  match depmod_index_find_loop (S (length name)) depmod name bb with
  | None => None
  | Some (Err e, _) => Some (Err e, out)
  | Some (Ok None, _) =>
      Some (Ok tt, {| path_ret := None; len_ret := len_ret out |})
  | Some (Ok (Some offset), bb) =>
      match depmod_index_find_value offset bb with
      | (Err e, _) => Some (Err e, out)
      | (Ok None, _) =>
          Some (Ok tt, {| path_ret := None; len_ret := len_ret out |})
      | (Ok (Some (path, len)), _) =>
          Some (Ok tt, {| path_ret := Some path; len_ret := len |})
      end
  end.

(** The bytes a successful lookup designates. *)
Definition depmod_path_bytes (depmod : depmod_index) (out : depmod_out)
    : option (list byte) :=
  match path_ret out with
  | Some path => Some (take (len_ret out) (drop path (depmod_data depmod)))
  | None => None
  end.

(** ** The typed-object collaborator (drgn.h) *)

(** Modelled from the spec: the object API of drgn.h is missing from the
    sources.  Section 6 of the specification lists its operations;
    each writes its result object on success and fails with an error
    whose kind tells an absent member ([DRGN_ERROR_LOOKUP]) from any
    other failure.  [drgn_object_read_unsigned] yields a [uint64_t]. *)
Class TypedObjects := {
  drgn_object : Type;
  drgn_qualified_type : Type;
  drgn_object_init : drgn_object;
  drgn_program_find_type : string -> result drgn_qualified_type;
  drgn_program_find_object : string -> result drgn_object;
  drgn_object_address_of : drgn_object -> result drgn_object;
  drgn_object_read : drgn_object -> result drgn_object;
  drgn_object_read_unsigned : drgn_object -> result Z;
  drgn_object_read_c_string : drgn_object -> result (list byte);
  drgn_object_member : drgn_object -> string -> result drgn_object;
  drgn_object_member_dereference : drgn_object -> string -> result drgn_object;
  drgn_object_container_of :
    drgn_object -> drgn_qualified_type -> string -> result drgn_object;
  drgn_object_subscript : drgn_object -> Z -> result drgn_object;
  drgn_object_read_unsigned_range :
    forall o v, drgn_object_read_unsigned o = Ok v -> 0 <= v < 2 ^ 64;
}.

(** ** The module iterator (lines 342-539) *)

(** A [FILE] open for reading: the bytes not yet read, and the [errno]
    of the read error met once they are exhausted, if any. *)
Record FILE := {
  file_rest : list byte;
  file_errno : option Z;
}.

(** [getline]: the next line with its newline, [inl None] at end of
    file, [inl (Some errno)] on a read error. *)
Definition getline (f : FILE) : option Z + list byte * FILE :=
  match file_rest f with
  | [] => inl (file_errno f)
  | rest =>
      let n := match memchr x0a rest with
               | Some i => S i
               | None => length rest
               end in
      inr (take n rest, {| file_rest := drop n rest; file_errno := file_errno f |})
  end.

(** [strchr(s, c)] on a C string, for [c] other than NUL. *)
Fixpoint strchr (s : list byte) (c : byte) : option nat :=
  match s with
  | [] => None
  | b :: s' =>
      if decide (b = c) then Some 0%nat
      else if decide (b = x00) then None
      else S <$> strchr s' c
  end.

(** The C string at [p]: its bytes before the first NUL. *)
Fixpoint c_string (p : list byte) : list byte :=
  match p with
  | [] => []
  | b :: p' => if decide (b = x00) then [] else b :: c_string p'
  end.

Fixpoint skip_nonspaces (p : list byte) : list byte :=
  match p with
  | b :: p' => if isspace b then p else skip_nonspaces p'
  | [] => []
  end.

(** The [%*s] conversion of [scanf]. *)
Definition scan_skip_word (p : list byte) : option (list byte) :=
  match skip_spaces p with
  | [] => None
  | p' => Some (skip_nonspaces p')
  end.

(** [sscanf(s, "%" SCNu64 " %*s %*s %*s %" SCNx64, &end, &start)]: the
    number of conversions assigned and the two variables afterwards. *)
Definition sscanf_proc_modules (s : list byte) (end_ start : Z) : Z * Z * Z :=
  match scan_unsigned 10 (c_string s) with
  | None => (0, end_, start)
  | Some (v1, p) =>
      match scan_skip_word p with
      | None => (1, v1, start)
      | Some p =>
      match scan_skip_word p with
      | None => (1, v1, start)
      | Some p =>
      match scan_skip_word p with
      | None => (1, v1, start)
      | Some p =>
      match scan_unsigned 16 p with
      | None => (1, v1, start)
      | Some (v2, _) => (2, v1, v2)
      end end end end
  end.

Section Iterators.

Context `{TypedObjects}.

Record kernel_module_iterator := {
  it_name : option (list byte);
  it_modules_file : option FILE;
  it_start : Z;
  it_end : Z;
  it_module_type : drgn_qualified_type;
  it_mod : drgn_object;
  it_node : drgn_object;
  it_tmp1 : drgn_object;
  it_tmp2 : drgn_object;
  it_tmp3 : drgn_object;
  it_head : Z;
}.

Definition set_name v it :=
  {| it_name := v; it_modules_file := it_modules_file it; it_start := it_start it;
     it_end := it_end it; it_module_type := it_module_type it; it_mod := it_mod it;
     it_node := it_node it; it_tmp1 := it_tmp1 it; it_tmp2 := it_tmp2 it;
     it_tmp3 := it_tmp3 it; it_head := it_head it |}.
Definition set_modules_file v it :=
  {| it_name := it_name it; it_modules_file := v; it_start := it_start it;
     it_end := it_end it; it_module_type := it_module_type it; it_mod := it_mod it;
     it_node := it_node it; it_tmp1 := it_tmp1 it; it_tmp2 := it_tmp2 it;
     it_tmp3 := it_tmp3 it; it_head := it_head it |}.
Definition set_start v it :=
  {| it_name := it_name it; it_modules_file := it_modules_file it; it_start := v;
     it_end := it_end it; it_module_type := it_module_type it; it_mod := it_mod it;
     it_node := it_node it; it_tmp1 := it_tmp1 it; it_tmp2 := it_tmp2 it;
     it_tmp3 := it_tmp3 it; it_head := it_head it |}.
Definition set_end v it :=
  {| it_name := it_name it; it_modules_file := it_modules_file it;
     it_start := it_start it; it_end := v; it_module_type := it_module_type it;
     it_mod := it_mod it; it_node := it_node it; it_tmp1 := it_tmp1 it;
     it_tmp2 := it_tmp2 it; it_tmp3 := it_tmp3 it; it_head := it_head it |}.
Definition set_module_type v it :=
  {| it_name := it_name it; it_modules_file := it_modules_file it;
     it_start := it_start it; it_end := it_end it; it_module_type := v;
     it_mod := it_mod it; it_node := it_node it; it_tmp1 := it_tmp1 it;
     it_tmp2 := it_tmp2 it; it_tmp3 := it_tmp3 it; it_head := it_head it |}.
Definition set_mod v it :=
  {| it_name := it_name it; it_modules_file := it_modules_file it;
     it_start := it_start it; it_end := it_end it;
     it_module_type := it_module_type it; it_mod := v; it_node := it_node it;
     it_tmp1 := it_tmp1 it; it_tmp2 := it_tmp2 it; it_tmp3 := it_tmp3 it;
     it_head := it_head it |}.
Definition set_node v it :=
  {| it_name := it_name it; it_modules_file := it_modules_file it;
     it_start := it_start it; it_end := it_end it;
     it_module_type := it_module_type it; it_mod := it_mod it; it_node := v;
     it_tmp1 := it_tmp1 it; it_tmp2 := it_tmp2 it; it_tmp3 := it_tmp3 it;
     it_head := it_head it |}.
Definition set_tmp1 v it :=
  {| it_name := it_name it; it_modules_file := it_modules_file it;
     it_start := it_start it; it_end := it_end it;
     it_module_type := it_module_type it; it_mod := it_mod it;
     it_node := it_node it; it_tmp1 := v; it_tmp2 := it_tmp2 it;
     it_tmp3 := it_tmp3 it; it_head := it_head it |}.
Definition set_tmp2 v it :=
  {| it_name := it_name it; it_modules_file := it_modules_file it;
     it_start := it_start it; it_end := it_end it;
     it_module_type := it_module_type it; it_mod := it_mod it;
     it_node := it_node it; it_tmp1 := it_tmp1 it; it_tmp2 := v;
     it_tmp3 := it_tmp3 it; it_head := it_head it |}.
Definition set_tmp3 v it :=
  {| it_name := it_name it; it_modules_file := it_modules_file it;
     it_start := it_start it; it_end := it_end it;
     it_module_type := it_module_type it; it_mod := it_mod it;
     it_node := it_node it; it_tmp1 := it_tmp1 it; it_tmp2 := it_tmp2 it;
     it_tmp3 := v; it_head := it_head it |}.
Definition set_head v it :=
  {| it_name := it_name it; it_modules_file := it_modules_file it;
     it_start := it_start it; it_end := it_end it;
     it_module_type := it_module_type it; it_mod := it_mod it;
     it_node := it_node it; it_tmp1 := it_tmp1 it; it_tmp2 := it_tmp2 it;
     it_tmp3 := it_tmp3 it; it_head := v |}.

(** [err = f(&it->field, ...); if (err) return err;]: the field is
    written when the call succeeds. *)
Definition call {S A} (set : A -> S -> S) (f : S -> result A) : M S unit :=
  fun s => match f s with
           | Ok a => (Ok tt, set a s)
           | Err e => (Err e, s)
           end.

(** [kernel_module_iterator_init(it, prog, use_proc_and_sys)]; [it] is
    the caller's uninitialised structure and [proc_modules] the outcome
    of [fopen("/proc/modules", "r")]. *)
Definition kernel_module_iterator_init (proc_modules : Z + FILE)
    (use_proc_and_sys : bool) : M kernel_module_iterator unit :=
  (fun it => (Ok tt, set_name None it)) ;;;
  if use_proc_and_sys then
    match proc_modules with
    | inl errno =>
        fun it => (Err (drgn_error_create_os "fopen" errno
                          (Some (bytes "/proc/modules"))),
                   set_modules_file None it)
    | inr file => fun it => (Ok tt, set_modules_file (Some file) it)
    end
  else
    (fun it => (Ok tt, set_modules_file None it)) ;;;
    call set_module_type (fun _ => drgn_program_find_type "struct module") ;;;
    (fun it => (Ok tt, set_mod drgn_object_init
                         (set_node drgn_object_init
                            (set_tmp1 drgn_object_init
                               (set_tmp2 drgn_object_init
                                  (set_tmp3 drgn_object_init it)))))) ;;;
    call set_node (fun _ => drgn_program_find_object "modules") ;;;
    call set_node (fun it => drgn_object_address_of (it_node it)) ;;;
    call set_node (fun it => drgn_object_read (it_node it)) ;;;
    call set_head (fun it => drgn_object_read_unsigned (it_node it)).

Definition kernel_module_iterator_next_live (file : FILE)
    : M kernel_module_iterator unit :=
  fun it =>
    match getline file with
    | inl (Some errno) =>
        (Err (drgn_error_create_os "getline" errno (Some (bytes "/proc/modules"))),
         it)
    | inl None => (Err drgn_stop, it)
    | inr (line, file') =>
        let it := set_modules_file (Some file') (set_name (Some line) it) in
        match strchr line " "%byte with
        | None =>
            (Err (drgn_error_create DRGN_ERROR_OTHER "could not parse /proc/modules"),
             it)
        | Some p =>
            let '(n, end_, start) :=
              sscanf_proc_modules (drop (S p) line) (it_end it) (it_start it) in
            let it := set_start start (set_end end_ it) in
            if negb (n =? 2) then
              (Err (drgn_error_create DRGN_ERROR_OTHER
                      "could not parse /proc/modules"), it)
            else
              (Ok tt,
               set_name (Some (take p line))
                 (set_end (wrap64 (it_end it + it_start it)) it))
        end
    end.

(** Lines 492-520: [tmp1] becomes the module's base address and [tmp2]
    its size. *)
Definition module_base_and_size : M kernel_module_iterator unit :=
  fun it =>
    match drgn_object_member_dereference (it_mod it) "core_layout" with
    | Ok layout =>
        (call set_tmp2 (fun it => drgn_object_member (it_tmp1 it) "size") ;;;
         call set_tmp1 (fun it => drgn_object_member (it_tmp1 it) "base"))
          (set_tmp1 layout it)
    | Err err =>
        if decide (error_code err = DRGN_ERROR_LOOKUP) then
          (call set_tmp2
             (fun it => drgn_object_member_dereference (it_mod it) "core_size") ;;;
           call set_tmp1
             (fun it => drgn_object_member_dereference (it_mod it) "module_core"))
            it
        else (Err err, it)
    end.

Definition kernel_module_iterator_next : M kernel_module_iterator unit :=
  fun it =>
    match it_modules_file it with
    | Some file => kernel_module_iterator_next_live file it
    | None =>
        (call set_node
           (fun it => drgn_object_member_dereference (it_node it) "next") ;;;
         call set_node (fun it => drgn_object_read (it_node it)) ;;;
         addr <- (fun it => (drgn_object_read_unsigned (it_node it), it)) ;;
         head <- (fun it => (Ok (it_head it), it)) ;;
         if addr =? head then st_fail drgn_stop
         else
           call set_mod
             (fun it => drgn_object_container_of (it_node it)
                          (it_module_type it) "list") ;;;
           module_base_and_size ;;;
           call set_start (fun it => drgn_object_read_unsigned (it_tmp1 it)) ;;;
           call set_end (fun it => drgn_object_read_unsigned (it_tmp2 it)) ;;;
           (fun it => (Ok tt, set_end (wrap64 (it_end it + it_start it)) it)) ;;;
           call set_tmp2
             (fun it => drgn_object_member_dereference (it_mod it) "name") ;;;
           call (fun name => set_name (Some name))
             (fun it => drgn_object_read_c_string (it_tmp2 it))) it
    end.

(** ** The section iterator (lines 768-938) *)

(** A directory entry of [/sys/module/NAME/sections] with the host's
    answers to the calls made on it: [fstatat] (an [errno] or whether it
    is a directory), [openat] (an [errno] or the file's bytes) and
    [fdopen]. *)
Record dirent := {
  d_name : list byte;
  d_type : Z;
  d_fstatat : Z + bool;
  d_openat : Z + list byte;
  d_fdopen_errno : option Z;
}.

Definition DT_UNKNOWN : Z := 0.
Definition DT_DIR : Z := 4.

(** An open directory stream: the entries [readdir] has yet to return
    and the [errno] it fails with after them, if any. *)
Record DIR := {
  dir_entries : list dirent;
  dir_errno : option Z;
}.

(** [kmod_it] points to the module iterator, whose scratch objects the
    section iterator overwrites; the section iterator is the only user
    of the module iterator while it lives, so it holds it here and the
    caller takes it back from [sit_kmod_it]. *)
Record kernel_module_section_iterator := {
  sit_kmod_it : kernel_module_iterator;
  sit_sections_dir : option DIR;
  sit_i : Z;
  sit_nsections : Z;
  sit_name : option (list byte);
}.

Definition sit_with_kmod_it (f : kernel_module_iterator -> kernel_module_iterator)
    (it : kernel_module_section_iterator) : kernel_module_section_iterator :=
  {| sit_kmod_it := f (sit_kmod_it it); sit_sections_dir := sit_sections_dir it;
     sit_i := sit_i it; sit_nsections := sit_nsections it; sit_name := sit_name it |}.
Definition sit_set_dir v (it : kernel_module_section_iterator) :=
  {| sit_kmod_it := sit_kmod_it it; sit_sections_dir := v;
     sit_i := sit_i it; sit_nsections := sit_nsections it; sit_name := sit_name it |}.
Definition sit_set_i v (it : kernel_module_section_iterator) :=
  {| sit_kmod_it := sit_kmod_it it; sit_sections_dir := sit_sections_dir it;
     sit_i := v; sit_nsections := sit_nsections it; sit_name := sit_name it |}.
Definition sit_set_nsections v (it : kernel_module_section_iterator) :=
  {| sit_kmod_it := sit_kmod_it it; sit_sections_dir := sit_sections_dir it;
     sit_i := sit_i it; sit_nsections := v; sit_name := sit_name it |}.
Definition sit_set_name v (it : kernel_module_section_iterator) :=
  {| sit_kmod_it := sit_kmod_it it; sit_sections_dir := sit_sections_dir it;
     sit_i := sit_i it; sit_nsections := sit_nsections it; sit_name := v |}.

(** A call that writes one of the module iterator's scratch objects. *)
Definition call_kmod {A} (set : A -> kernel_module_iterator -> kernel_module_iterator)
    (f : kernel_module_iterator -> result A)
    : M kernel_module_section_iterator unit :=
  call (fun a => sit_with_kmod_it (set a)) (fun it => f (sit_kmod_it it)).

(** [kernel_module_section_iterator_init(it, kmod_it)]; [sections] is
    the outcome of [opendir("/sys/module/NAME/sections")]. *)
Definition kernel_module_section_iterator_init (sections : Z + DIR)
    (kmod_it : kernel_module_iterator)
    : M kernel_module_section_iterator unit :=
  (fun it => (Ok tt, sit_with_kmod_it (fun _ => kmod_it) it)) ;;;
  match it_modules_file kmod_it with
  | Some _ =>
      match sections with
      | inl errno =>
          fun it =>
            (Err (drgn_error_format_os "opendir" errno "/sys/module/%s/sections"
                    [arg_str (default [] (it_name kmod_it))]),
             sit_set_dir None it)
      | inr dir => fun it => (Ok tt, sit_set_dir (Some dir) it)
      end
  | None =>
      (fun it => (Ok tt, sit_set_name None (sit_set_i 0 (sit_set_dir None it)))) ;;;
      call_kmod set_tmp1
        (fun k => drgn_object_member_dereference (it_mod k) "sect_attrs") ;;;
      call_kmod set_tmp2
        (fun k => drgn_object_member_dereference (it_tmp1 k) "nsections") ;;;
      call sit_set_nsections
        (fun it => drgn_object_read_unsigned (it_tmp2 (sit_kmod_it it))) ;;;
      call_kmod set_tmp1
        (fun k => drgn_object_member_dereference (it_tmp1 k) "attrs")
  end.

(** The [readdir] loop of the live backend, over the entries left. *)
Fixpoint kernel_module_section_iterator_next_live_loop (kmod_name : list byte)
    (entries : list dirent) (dir_errno : option Z)
    : result (list byte * Z) * list dirent :=
  match entries with
  | [] =>
      match dir_errno with
      | Some errno =>
          (Err (drgn_error_format_os "readdir" errno "/sys/module/%s/sections"
                  [arg_str kmod_name]), [])
      | None => (Err drgn_stop, [])
      end
  | ent :: entries' =>
      let skip := kernel_module_section_iterator_next_live_loop kmod_name
                    entries' dir_errno in
      let read :=
        match d_openat ent with
        | inl errno =>
            (Err (drgn_error_format_os "openat" errno "/sys/module/%s/sections/%s"
                    [arg_str kmod_name; arg_str (d_name ent)]), entries')
        | inr contents =>
            match d_fdopen_errno ent with
            | Some errno => (Err (drgn_error_create_os "fdopen" errno None), entries')
            | None =>
                match scan_unsigned 16 contents with
                | None =>
                    (Err (drgn_error_format DRGN_ERROR_OTHER
                            "could not parse /sys/module/%s/sections/%s"
                            [arg_str kmod_name; arg_str (d_name ent)]), entries')
                | Some (address, _) => (Ok (d_name ent, address), entries')
                end
            end
        end in
      if d_type ent =? DT_DIR then skip
      else if d_type ent =? DT_UNKNOWN then
        match d_fstatat ent with
        | inl errno =>
            (Err (drgn_error_format_os "fstatat" errno "/sys/module/%s/sections/%s"
                    [arg_str kmod_name; arg_str (d_name ent)]), entries')
        | inr true => skip
        | inr false => read
        end
      else read
  end.

Definition kernel_module_section_iterator_next_live (dir : DIR)
    : M kernel_module_section_iterator (list byte * Z) :=
  fun it =>
    let '(r, entries) :=
      kernel_module_section_iterator_next_live_loop
        (default [] (it_name (sit_kmod_it it))) (dir_entries dir) (dir_errno dir) in
    (r, sit_set_dir (Some {| dir_entries := entries; dir_errno := dir_errno dir |}) it).

(** Lines 917-927: [tmp2] becomes the object that holds the section's
    [name] member. *)
Definition section_name_holder : M kernel_module_section_iterator unit :=
  fun it =>
    match drgn_object_member (it_tmp2 (sit_kmod_it it)) "battr" with
    | Ok battr =>
        call_kmod set_tmp2 (fun k => drgn_object_member (it_tmp2 k) "attr")
          (sit_with_kmod_it (set_tmp2 battr) it)
    | Err err =>
        if decide (error_code err = DRGN_ERROR_LOOKUP) then (Ok tt, it)
        else (Err err, it)
    end.

(** [kernel_module_section_iterator_next(it, name_ret, address_ret)];
    the two out parameters are the value returned on success. *)
Definition kernel_module_section_iterator_next
    : M kernel_module_section_iterator (list byte * Z) :=
  fun it =>
    match sit_sections_dir it with
    | Some dir => kernel_module_section_iterator_next_live dir it
    | None =>
        if sit_nsections it <=? sit_i it then (Err drgn_stop, it)
        else
          (i <- (fun it => (Ok (sit_i it), sit_set_i (wrap64 (sit_i it + 1)) it)) ;;
           call_kmod set_tmp2 (fun k => drgn_object_subscript (it_tmp1 k) i) ;;;
           call_kmod set_tmp3 (fun k => drgn_object_member (it_tmp2 k) "address") ;;;
           address <- (fun it => (drgn_object_read_unsigned
                                    (it_tmp3 (sit_kmod_it it)), it)) ;;
           section_name_holder ;;;
           call_kmod set_tmp3 (fun k => drgn_object_member (it_tmp2 k) "name") ;;;
           name <- (fun it => (drgn_object_read_c_string
                                 (it_tmp3 (sit_kmod_it it)), it)) ;;
           (fun it => (Ok (name, address), sit_set_name (Some name) it))) it
    end.

End Iterators.

(** The size the iterator has read for the module it emits in [it']
    when it is stepped from [it]: the first conversion of the [sscanf]
    of the line (line 446), which also gives the start; or what is read
    from the object that [module_base_and_size] leaves in [tmp2] for
    the module (line 524), with the start read from [tmp1]. *)
Definition parsed_module_size `{TypedObjects} (it it' : kernel_module_iterator)
    (size : Z) : Prop :=
  match it_modules_file it with
  | Some file =>
      exists line file' p,
        getline file = inr (line, file') /\ strchr line " "%byte = Some p /\
        sscanf_proc_modules (drop (S p) line) (it_end it) (it_start it)
        = (2, size, it_start it')
  | None =>
      exists it0 it1,
        it_mod it0 = it_mod it' /\
        module_base_and_size it0 = (Ok tt, it1) /\
        drgn_object_read_unsigned (it_tmp1 it1) = Ok (it_start it') /\
        drgn_object_read_unsigned (it_tmp2 it1) = Ok size
  end.

(** ** ELF handles (libelf)

    What the coordinator uses of an [Elf *]: its section headers, each
    with the answers of [gelf_getshdr], [elf_strptr] and
    [gelf_update_shdr] for it, whether [elf_getshdrstrndx] succeeds, and
    the result of [dwelf_elf_gnu_build_id] ([None] for its error, the
    empty list for a file without build ID). *)

Record GElf_Shdr := {
  sh_name : list byte;     (* the name [elf_strptr] resolves [sh_name] to *)
  sh_flags : Z;
  sh_addr : Z;
}.

Record Elf_Scn := {
  scn_shdr : GElf_Shdr;
  scn_getshdr_ok : bool;
  scn_strptr_ok : bool;
  scn_update_ok : bool;
}.

Record Elf := {
  elf_shstrndx_ok : bool;
  elf_sections : list Elf_Scn;
  elf_gnu_build_id : option (list byte);
}.

Definition SHF_ALLOC : Z := 2.

Definition drgn_error_libelf : drgn_error :=
  drgn_error_create DRGN_ERROR_OTHER "libelf error".

Definition scn_set_addr (address : Z) (scn : Elf_Scn) : Elf_Scn :=
  {| scn_shdr := {| sh_name := sh_name (scn_shdr scn);
                    sh_flags := sh_flags (scn_shdr scn); sh_addr := address |};
     scn_getshdr_ok := scn_getshdr_ok scn; scn_strptr_ok := scn_strptr_ok scn;
     scn_update_ok := scn_update_ok scn |}.

Definition elf_set_sections (scns : list Elf_Scn) (elf : Elf) : Elf :=
  {| elf_shstrndx_ok := elf_shstrndx_ok elf; elf_sections := scns;
     elf_gnu_build_id := elf_gnu_build_id elf |}.

(** ** What the iterators yield for one loaded module

    The coordinator sees a loaded module through the module iterator
    ([name], [start], [end]), [kernel_module_iterator_gnu_build_id] and
    a section iterator; here a module carries the results of all three:
    the build ID found (empty for a length of 0) or the error, and the
    sections yielded before the section iterator ends with [drgn_stop]
    or with an error. *)
Record loaded_module := {
  lm_name : list byte;
  lm_start : Z;
  lm_end : Z;
  lm_gnu_build_id : result (list byte);
  lm_sections_init : result unit;
  lm_sections : list (list byte * Z);
  lm_sections_end : drgn_error;
}.

(** The run of a module iterator: the result of its initialisation, the
    modules it yields, and the error that ends it ([drgn_stop] when the
    list is exhausted). *)
Record module_source := {
  src_init : result unit;
  src_modules : list loaded_module;
  src_end : drgn_error;
}.

(** ** Section-address patching (lines 1193-1266) *)

(** The first loop: the map from the names of the [SHF_ALLOC] sections
    to their index.  Inserting a name already present keeps the earlier
    section. *)
Fixpoint cache_scn_map (scns : list Elf_Scn) (i : nat) (scn_map : gmap (list byte) nat)
    : result (gmap (list byte) nat) :=
  match scns with
  | [] => Ok scn_map
  | scn :: scns' =>
      if negb (scn_getshdr_ok scn) then Err drgn_error_libelf
      else if Z.land (sh_flags (scn_shdr scn)) SHF_ALLOC =? 0
      then cache_scn_map scns' (S i) scn_map
      else if negb (scn_strptr_ok scn) then Err drgn_error_libelf
      else cache_scn_map scns' (S i)
             (match scn_map !! sh_name (scn_shdr scn) with
              | Some _ => scn_map
              | None => <[sh_name (scn_shdr scn) := i]> scn_map
              end)
  end.

(** The second loop, over what the section iterator yields. *)
Fixpoint cache_patch (scn_map : gmap (list byte) nat)
    (sections : list (list byte * Z)) (end_ : drgn_error) (scns : list Elf_Scn)
    : result unit * list Elf_Scn :=
  match sections with
  | [] =>
      (match end_ with
       | drgn_stop => Ok tt
       | err => Err err
       end, scns)
  | (name, address) :: sections' =>
      match scn_map !! name with
      | None => cache_patch scn_map sections' end_ scns
      | Some i =>
          match scns !! i with
          | None => cache_patch scn_map sections' end_ scns
          | Some scn =>
              if negb (scn_getshdr_ok scn) then (Err drgn_error_libelf, scns)
              else if negb (scn_update_ok scn) then (Err drgn_error_libelf, scns)
              else cache_patch scn_map sections' end_
                     (<[i := scn_set_addr address scn]> scns)
          end
      end
  end.

(** [cache_kernel_module_sections(kmod_it, elf)] for the module the
    iterator is at; the ELF handle is returned as the call leaves it. *)
Definition cache_kernel_module_sections (m : loaded_module) (elf : Elf)
    : result unit * Elf :=
  if negb (elf_shstrndx_ok elf) then (Err drgn_error_libelf, elf)
  else
    match cache_scn_map (elf_sections elf) 0 ∅ with
    | Err e => (Err e, elf)
    | Ok scn_map =>
        match lm_sections_init m with
        | Err e => (Err e, elf)
        | Ok _ =>
            let '(r, scns) :=
              cache_patch scn_map (lm_sections m) (lm_sections_end m)
                (elf_sections elf) in
            (r, elf_set_sections scns elf)
        end
    end.

(** ** The indexer collaborator (debug_info.h) *)

Record elf_report := {
  er_path : list byte;
  er_fd : Z;
  er_elf : Elf;
  er_start : Z;
  er_end : Z;
  er_name : option (list byte);
}.

Record error_report := {
  ee_name : option (list byte);
  ee_message : option string;
  ee_err : option drgn_error;
}.

(** Modelled from the spec: debug_info.c is missing from the sources.
    Section 6 of the specification: the indexer exposes [report_elf],
    [report_error], [flush] and [is_indexed] and the fields [load_main]
    and [load_default]; a report returns success or a fatal abort, and
    memory exhaustion is always fatal (section 4.10).  The state keeps
    the reports in the order they were made; [load_budget] is the number
    of further calls that succeed before the indexer aborts ([None] for
    no limit). *)
Record drgn_debug_info_load_state := {
  load_main : bool;
  load_default : bool;
  load_indexed : list (list byte);
  load_elfs : list elf_report;
  load_errors : list error_report;
  load_flushes : nat;
  load_budget : option nat;
}.

Definition load_spend (load : drgn_debug_info_load_state)
    : option drgn_debug_info_load_state :=
  match load_budget load with
  | Some O => None
  | b =>
      Some {| load_main := load_main load; load_default := load_default load;
              load_indexed := load_indexed load; load_elfs := load_elfs load;
              load_errors := load_errors load; load_flushes := load_flushes load;
              load_budget := Nat.pred <$> b |}
  end.

(** Modelled from the spec: [drgn_debug_info_report_elf] of the missing
    debug_info.c; it takes the file over and records it, or aborts. *)
Definition drgn_debug_info_report_elf (r : elf_report)
    : M drgn_debug_info_load_state unit :=
  fun load =>
    match load_spend load with
    | None => (Err drgn_enomem, load)
    | Some load =>
        (Ok tt,
         {| load_main := load_main load; load_default := load_default load;
            load_indexed := load_indexed load; load_elfs := load_elfs load ++ [r];
            load_errors := load_errors load; load_flushes := load_flushes load;
            load_budget := load_budget load |})
    end.

(** Modelled from the spec: [drgn_debug_info_report_error] of the
    missing debug_info.c; it records the error and lets the run go on,
    unless the cause is memory exhaustion or the indexer aborts. *)
Definition drgn_debug_info_report_error (name : option (list byte))
    (message : option string) (err : option drgn_error)
    : M drgn_debug_info_load_state unit :=
  fun load =>
    match err with
    | Some drgn_enomem => (Err drgn_enomem, load)
    | _ =>
        match load_spend load with
        | None => (Err drgn_enomem, load)
        | Some load =>
            (Ok tt,
             {| load_main := load_main load; load_default := load_default load;
                load_indexed := load_indexed load; load_elfs := load_elfs load;
                load_errors := load_errors load
                               ++ [{| ee_name := name; ee_message := message;
                                      ee_err := err |}];
                load_flushes := load_flushes load;
                load_budget := load_budget load |})
        end
    end.

(** Modelled from the spec: [drgn_debug_info_report_flush] of the
    missing debug_info.c. *)
Definition drgn_debug_info_report_flush : M drgn_debug_info_load_state unit :=
  fun load =>
    match load_spend load with
    | None => (Err drgn_enomem, load)
    | Some load =>
        (Ok tt,
         {| load_main := load_main load; load_default := load_default load;
            load_indexed := load_indexed load; load_elfs := load_elfs load;
            load_errors := load_errors load;
            load_flushes := S (load_flushes load);
            load_budget := load_budget load |})
    end.

(** Modelled from the spec: [drgn_debug_info_is_indexed] of the missing
    debug_info.c. *)
Definition drgn_debug_info_is_indexed (load : drgn_debug_info_load_state)
    (name : list byte) : bool :=
  bool_decide (name ∈ load_indexed load).

(** ** The discovery coordinator (lines 1268-1577) *)

(** [struct kernel_module_file]; [kmod_next] points into the same array
    of files, and is an index into it. *)
Record kernel_module_file := {
  kmod_path : list byte;
  kmod_fd : Z;
  kmod_elf : option Elf;
  kmod_gnu_build_id : list byte;
  kmod_next : option nat;
}.

Definition kmod_set_elf (elf : option Elf) (fd : Z) (kmod : kernel_module_file) :=
  {| kmod_path := kmod_path kmod; kmod_fd := fd; kmod_elf := elf;
     kmod_gnu_build_id := kmod_gnu_build_id kmod; kmod_next := kmod_next kmod |}.

Definition kmod_set_build_id (id : list byte) (kmod : kernel_module_file) :=
  {| kmod_path := kmod_path kmod; kmod_fd := kmod_fd kmod; kmod_elf := kmod_elf kmod;
     kmod_gnu_build_id := id; kmod_next := kmod_next kmod |}.

Definition kmod_set_next (next : option nat) (kmod : kernel_module_file) :=
  {| kmod_path := kmod_path kmod; kmod_fd := kmod_fd kmod; kmod_elf := kmod_elf kmod;
     kmod_gnu_build_id := kmod_gnu_build_id kmod; kmod_next := next |}.

(** What the coordinator works on: the indexer, the array of candidate
    module files, the table from build ID to the first file of its
    chain, and the depmod index. *)
Record coordinator := {
  co_load : drgn_debug_info_load_state;
  co_kmods : list kernel_module_file;
  co_table : gmap (list byte) nat;
  co_depmod : depmod_index;
}.

Definition co_set_load v co :=
  {| co_load := v; co_kmods := co_kmods co; co_table := co_table co;
     co_depmod := co_depmod co |}.
Definition co_set_kmods v co :=
  {| co_load := co_load co; co_kmods := v; co_table := co_table co;
     co_depmod := co_depmod co |}.
Definition co_set_table v co :=
  {| co_load := co_load co; co_kmods := co_kmods co; co_table := v;
     co_depmod := co_depmod co |}.
Definition co_set_depmod v co :=
  {| co_load := co_load co; co_kmods := co_kmods co; co_table := co_table co;
     co_depmod := v |}.

(** A call of the indexer from the coordinator. *)
Definition with_load {A} (m : M drgn_debug_info_load_state A) : M coordinator A :=
  fun co => let '(r, load) := m (co_load co) in (r, co_set_load load co).

(** The [do ... while (kmod)] loop of [report_loaded_kernel_module] from
    the file at index [k].  A chain visits each file at most once, so
    [length kmods] iterations suffice; [None] is the loop running out of
    [fuel], or a [next] that points outside the array. *)
Fixpoint report_chain (fuel : nat) (m : loaded_module) (k : nat) (co : coordinator)
    : option (result unit * coordinator) :=
  match fuel with
  | O => None
  | S fuel' =>
      match co_kmods co !! k with
      | None => None
      | Some kmod =>
          let next co :=
            match kmod_next kmod with
            | Some k' => report_chain fuel' m k' co
            | None => Some (Ok tt, co)
            end in
          let '(r, elf) :=
            match kmod_elf kmod with
            | Some elf =>
                let '(r, elf) := cache_kernel_module_sections m elf in
                (bind r (fun _ => Ok elf), Some elf)
            | None => (Err drgn_error_libelf, None)
            end in
          let co := co_set_kmods (<[k := kmod_set_elf elf (kmod_fd kmod) kmod]>
                                    (co_kmods co)) co in
          match r with
          | Err err =>
              match with_load (drgn_debug_info_report_error
                                 (Some (kmod_path kmod))
                                 (Some "could not get section addresses"%string)
                                 (Some err)) co with
              | (Err e, co) => Some (Err e, co)
              | (Ok _, co) => next co
              end
          | Ok elf =>
              let '(r, co) :=
                with_load (drgn_debug_info_report_elf
                             {| er_path := kmod_path kmod; er_fd := kmod_fd kmod;
                                er_elf := elf; er_start := lm_start m;
                                er_end := lm_end m; er_name := Some (lm_name m) |})
                  co in
              let co := co_set_kmods (<[k := kmod_set_elf None (-1) kmod]>
                                        (co_kmods co)) co in
              match r with
              | Err e => Some (Err e, co)
              | Ok _ => next co
              end
          end
      end
  end.

Definition report_loaded_kernel_module (m : loaded_module) (co : coordinator)
    : option (result unit * coordinator) :=
  let report_no_build_id err :=
    Some (with_load (drgn_debug_info_report_error (Some (lm_name m))
                       (Some "could not find GNU build ID"%string) err) co) in
  match lm_gnu_build_id m with
  | Err err => report_no_build_id (Some err)
  | Ok [] => report_no_build_id None
  | Ok key =>
      match co_table co !! key with
      | None => Some (Err drgn_not_found, co)
      | Some kmod =>
          report_chain (length (co_kmods co)) m kmod
            (co_set_table (delete key (co_table co)) co)
      end
  end.

(** The host and the target as the coordinator meets them. *)
Record host := {
  (* [open], [fstat] and [mmap] on a path, for the depmod index *)
  host_open : list byte -> Z + host_file;
  (* the paths that hold an ELF file that can be opened, with the
     descriptor and the handle opening them yields *)
  host_elf : list byte -> option (Z * Elf);
  (* [getenv("DRGN_USE_PROC_AND_SYS_MODULES")] *)
  host_getenv_proc_and_sys : option (list byte);
  (* [prog->flags & DRGN_PROGRAM_IS_LIVE] *)
  prog_is_live : bool;
  (* [prog->vmcoreinfo.osrelease] *)
  prog_osrelease : list byte;
  (* the loaded modules, as the live and as the kernel-walk backend
     of the module iterator enumerate them *)
  modules_live : module_source;
  modules_walk : module_source;
}.

(** Modelled from the spec: [find_elf_file] is missing from the sources.
    Section 4.8 of the specification: the candidate paths are tried in
    order and the first existing, openable ELF file wins. *)
Fixpoint find_elf_file (h : host) (paths : list (list byte))
    : option (list byte * Z * Elf) :=
  match paths with
  | [] => None
  | path :: paths' =>
      match host_elf h path with
      | Some (fd, elf) => Some (path, fd, elf)
      | None => find_elf_file h paths'
      end
  end.

Section Coordinator.

Variable h : host.

(** The content of the two locals [depmod_path] and [depmod_path_len] of
    [report_default_kernel_module] before [depmod_index_find] runs. *)
Variable uninitialized : depmod_out.

Definition report_default_kernel_module (m : loaded_module) (co : coordinator)
    : option (result unit * coordinator) :=
  match depmod_index_find (co_depmod co) (lm_name m) uninitialized with
  | None => None
  | Some (Err err, _) =>
      Some (with_load (drgn_debug_info_report_error
                         (Some (bytes "kernel modules"))
                         (Some "could not parse depmod"%string) (Some err)) co)
  | Some (Ok _, out) =>
      match path_ret out with
      | None =>
          Some (with_load (drgn_debug_info_report_error (Some (lm_name m))
                             (Some "could not find module in depmod"%string)
                             None) co)
      | Some path =>
          let depmod_path := drop path (depmod_data (co_depmod co)) in
          let depmod_path_len := len_ret out in
          let extension_len :=
            if (3 <=? depmod_path_len)%nat
               && (memcmp_eq (drop (depmod_path_len - 3) depmod_path) (bytes ".gz") 3
                   || memcmp_eq (drop (depmod_path_len - 3) depmod_path)
                        (bytes ".xz") 3)
            then 3%nat else 0%nat in
          let stem := c_string (take (depmod_path_len - extension_len) depmod_path) in
          let ext := c_string (take extension_len
                                 (drop (depmod_path_len - extension_len) depmod_path)) in
          let osrelease := c_string (prog_osrelease h) in
          match find_elf_file h
                  [bytes "/usr/lib/debug/lib/modules/" ++ osrelease ++ bytes "/" ++ stem;
                   bytes "/usr/lib/debug/lib/modules/" ++ osrelease ++ bytes "/" ++ stem
                     ++ bytes ".debug";
                   bytes "/lib/modules/" ++ osrelease ++ bytes "/" ++ stem ++ ext] with
          | None =>
              Some (with_load (drgn_debug_info_report_error (Some (lm_name m))
                                 (Some "could not find .ko"%string) None) co)
          | Some (path, fd, elf) =>
              match cache_kernel_module_sections m elf with
              | (Err err, _) =>
                  Some (with_load (drgn_debug_info_report_error (Some path)
                                     (Some "could not get section addresses"%string)
                                     (Some err)) co)
              | (Ok _, elf) =>
                  Some (with_load (drgn_debug_info_report_elf
                                     {| er_path := path; er_fd := fd; er_elf := elf;
                                        er_start := lm_start m; er_end := lm_end m;
                                        er_name := Some (lm_name m) |}) co)
              end
          end
      end
  end.

(** How the body of the [for (;;)] loop of [report_loaded_kernel_modules]
    ends for one module: at the end of the body or at a [continue], with
    the local pointer [depmod] still set or now [NULL], or at a
    [break] with [err]. *)
Inductive loop_control :=
| loop_next (depmod : bool)
| loop_break (err : drgn_error).

(** Lines 1440-1476, for the module [m] the iterator is at.  [kmod_table]
    and [depmod] tell whether the two pointers of these names are set. *)
Definition report_loaded_kernel_modules_body (m : loaded_module)
    (kmod_table depmod : bool) (co : coordinator)
    : option (loop_control * coordinator) :=
  let defaults co :=
    if depmod && negb (drgn_debug_info_is_indexed (co_load co) (lm_name m)) then
      let init :=
        match depmod_addr (co_depmod co) with
        | Some _ => (Ok tt, co)
        | None =>
            let '(r, d, _) := depmod_index_init (host_open h) (co_depmod co)
                                (prog_osrelease h) in
            match r with
            | Ok _ => (Ok tt, co_set_depmod d co)
            | Err err =>
                (Err err,
                 co_set_depmod {| depmod_addr := None; depmod_len := depmod_len d;
                                  depmod_path := depmod_path d |} co)
            end
        end in
      match init with
      | (Err err, co) =>
          match with_load (drgn_debug_info_report_error
                             (Some (bytes "kernel modules"))
                             (Some "could not read depmod"%string) (Some err)) co with
          | (Err err, co) => Some (loop_break err, co)
          | (Ok _, co) => Some (loop_next false, co)
          end
      | (Ok _, co) =>
          match report_default_kernel_module m co with
          | None => None
          | Some (Err err, co) => Some (loop_break err, co)
          | Some (Ok _, co) => Some (loop_next depmod, co)
          end
      end
    else Some (loop_next depmod, co) in
  if kmod_table then
    match report_loaded_kernel_module m co with
    | None => None
    | Some (Ok _, co) => Some (loop_next depmod, co)
    | Some (Err drgn_not_found, co) => defaults co
    | Some (Err err, co) => Some (loop_break err, co)
    end
  else defaults co.

(** The loop, over the modules the iterator yields before it ends with
    [end_]. *)
Fixpoint report_loaded_kernel_modules_loop (modules : list loaded_module)
    (end_ : drgn_error) (kmod_table depmod : bool) (co : coordinator)
    : option (result unit * coordinator) :=
  match modules with
  | [] =>
      match end_ with
      | drgn_stop => Some (Ok tt, co)
      | err =>
          Some (with_load (drgn_debug_info_report_error
                             (Some (bytes "kernel modules"))
                             (Some "could not find loaded kernel modules"%string)
                             (Some err)) co)
      end
  | m :: modules' =>
      match report_loaded_kernel_modules_body m kmod_table depmod co with
      | None => None
      | Some (loop_break err, co) => Some (Err err, co)
      | Some (loop_next depmod, co) =>
          report_loaded_kernel_modules_loop modules' end_ kmod_table depmod co
      end
  end.

Definition report_loaded_kernel_modules (kmod_table depmod use_proc_and_sys : bool)
    (co : coordinator) : option (result unit * coordinator) :=
  let source := if use_proc_and_sys then modules_live h else modules_walk h in
  match src_init source with
  | Err err =>
      Some (with_load (drgn_debug_info_report_error
                         (Some (bytes "kernel modules"))
                         (Some "could not find loaded kernel modules"%string)
                         (Some err)) co)
  | Ok _ =>
      report_loaded_kernel_modules_loop (src_modules source) (src_end source)
        kmod_table depmod co
  end.

(** The first loop of [report_kernel_modules] (lines 1517-1547), over the
    indices [todo] of the array of files. *)
Fixpoint kernel_module_table_fill (todo : list nat) (co : coordinator)
    : result unit * coordinator :=
  match todo with
  | [] => (Ok tt, co)
  | i :: todo' =>
      match co_kmods co !! i with
      | None => kernel_module_table_fill todo' co
      | Some kmod =>
          match kmod_elf kmod ≫= elf_gnu_build_id with
          | None =>
              match with_load (drgn_debug_info_report_error (Some (kmod_path kmod))
                                 None (Some drgn_error_libelf)) co with
              | (Err err, co) => (Err err, co)
              | (Ok _, co) => kernel_module_table_fill todo' co
              end
          | Some key =>
              let kmod := kmod_set_next (co_table co !! key)
                            (kmod_set_build_id key kmod) in
              kernel_module_table_fill todo'
                (co_set_table (<[key := i]> (co_table co))
                   (co_set_kmods (<[i := kmod]> (co_kmods co)) co))
          end
      end
  end.

(** The [do ... while (kmod)] loop over a chain that was left over. *)
Fixpoint report_unloaded_chain (fuel : nat) (k : nat) (co : coordinator)
    : option (result unit * coordinator) :=
  match fuel with
  | O => None
  | S fuel' =>
      match co_kmods co !! k with
      | None => None
      | Some kmod =>
          let '(r, co) :=
            match kmod_elf kmod with
            | Some elf =>
                with_load (drgn_debug_info_report_elf
                             {| er_path := kmod_path kmod; er_fd := kmod_fd kmod;
                                er_elf := elf; er_start := 0; er_end := 0;
                                er_name := Some (kmod_path kmod) |}) co
            | None => (Err drgn_error_libelf, co)
            end in
          let co := co_set_kmods (<[k := kmod_set_elf None (-1) kmod]>
                                    (co_kmods co)) co in
          match r, kmod_next kmod with
          | Err err, _ => Some (Err err, co)
          | Ok _, Some k' => report_unloaded_chain fuel' k' co
          | Ok _, None => Some (Ok tt, co)
          end
      end
  end.

(** The loop over the table after the iteration; the order in which a
    hash table is traversed is that of [map_to_list] here. *)
Fixpoint report_unloaded (entries : list (list byte * nat)) (co : coordinator)
    : option (result unit * coordinator) :=
  match entries with
  | [] => Some (Ok tt, co)
  | (key, kmod) :: entries' =>
      match report_unloaded_chain (length (co_kmods co)) kmod
              (co_set_table (delete key (co_table co)) co) with
      | None => None
      | Some (Err err, co) => Some (Err err, co)
      | Some (Ok _, co) => report_unloaded entries' co
      end
  end.

Definition LONG_MAX : Z := 2 ^ 63 - 1.
Definition LONG_MIN : Z := - 2 ^ 63.

(** [strtol(nptr, NULL, 10)] for a 64-bit [long]: white space, an
    optional sign, then the decimal digits; with no digit the result is
    0, and a value out of range is clamped to [LONG_MIN] or [LONG_MAX]. *)
Definition strtol_decimal (nptr : list byte) : Z :=
  let p := skip_spaces nptr in
  let '(neg, p1) :=
    match p with
    | b :: p' =>
        if decide (b = "-"%byte) then (true, p')
        else if decide (b = "+"%byte) then (false, p')
        else (false, p)
    | [] => (false, p)
    end in
  let '(v, _) := scan_digits 10 p1 0 0%nat in
  if neg then Z.max (- v) LONG_MIN else Z.min v LONG_MAX.

(** [atoi(nptr)], which is [(int) strtol(nptr, NULL, 10)]: the
    conversion of the [long] to a 32-bit [int] keeps its low 32 bits. *)
Definition atoi (nptr : list byte) : Z :=
  (strtol_decimal nptr + 2 ^ 31) mod 2 ^ 32 - 2 ^ 31.

(** [atoi(env)] being non-zero. *)
Definition atoi_true (env : list byte) : bool :=
  negb (atoi (c_string env) =? 0).

(** [report_kernel_modules(load, kmods, num_kmods, vmlinux_is_pending)];
    the array [kmods] is returned as the function leaves it. *)
Definition report_kernel_modules (load : drgn_debug_info_load_state)
    (kmods : list kernel_module_file) (vmlinux_is_pending : bool)
    : option (result unit * drgn_debug_info_load_state * list kernel_module_file) :=
  let num_kmods := length kmods in
  if (num_kmods =? 0)%nat && negb (load_default load) then Some (Ok tt, load, kmods)
  else
    let use_proc_and_sys :=
      prog_is_live h
      && match host_getenv_proc_and_sys h with
         | None => true
         | Some env => atoi_true env
         end in
    let '(r, load) :=
      if vmlinux_is_pending && negb use_proc_and_sys
      then drgn_debug_info_report_flush load
      else (Ok tt, load) in
    match r with
    | Err err => Some (Err err, load, kmods)
    | Ok _ =>
        let co := {| co_load := load; co_kmods := kmods; co_table := ∅;
                     co_depmod := {| depmod_addr := None; depmod_len := 0;
                                     depmod_path := [] |} |} in
        let finish (rc : result unit * coordinator) :=
          Some (rc.1, co_load rc.2, co_kmods rc.2) in
        match kernel_module_table_fill (seq 0 num_kmods) co with
        | (Err err, co) => finish (Err err, co)
        | (Ok _, co) =>
            match report_loaded_kernel_modules (negb (num_kmods =? 0)%nat)
                    (load_default load) use_proc_and_sys co with
            | None => None
            | Some (Err err, co) => finish (Err err, co)
            | Some (Ok _, co) =>
                match report_unloaded (map_to_list (co_table co)) co with
                | None => None
                | Some rc => finish rc
                end
            end
        end
    end.

End Coordinator.

(** ** The trie a depmod index serialises

    The structure of section 3 of the specification, against which the
    lookup is stated: a node has an optional prefix, an optional dense
    table of children, [kids], for the bytes from [first] on, and an
    optional list of values, each a priority and a string [path:deps]. *)

Inductive trie :=
| Node (prefix : option (list byte)) (first : option byte) (kids : tries)
    (values : option (list (Z * list byte * list byte)))
with tries :=
| tnil
| tcons (t : trie) (ts : tries).

Scheme trie_tries_ind := Induction for trie Sort Prop
  with tries_trie_ind := Induction for tries Sort Prop.

Fixpoint tries_length (ts : tries) : nat :=
  match ts with
  | tnil => O
  | tcons _ ts' => S (tries_length ts')
  end.

(** [name] without the leading [prefix], when it starts with it. *)
Fixpoint strip_prefix (prefix name : list byte) : option (list byte) :=
  match prefix, name with
  | [], _ => Some name
  | p :: prefix', c :: name' =>
      if decide (p = c) then strip_prefix prefix' name' else None
  | _ :: _, [] => None
  end.

(** The path of the first value of a node. *)
Definition first_path (values : option (list (Z * list byte * list byte)))
    : option (list byte) :=
  match values with
  | Some ((_, path, _) :: _) => Some path
  | _ => None
  end.

(** The lookup as the specification words it (section 4.3): consume the
    prefix; with the name exhausted, the first value of the node is the
    answer; otherwise descend to the child of the next byte. *)
Fixpoint trie_lookup (t : trie) (name : list byte) : option (list byte) :=
  match t with
  | Node prefix first kids values =>
      match strip_prefix (default [] prefix) name with
      | None => None
      | Some [] => first_path values
      | Some (c :: name') =>
          match first with
          | None => None
          | Some first =>
              if (u8 first <=? u8 c)
                 && (u8 c <? u8 first + Z.of_nat (tries_length kids))
              then tries_lookup kids (Z.to_nat (u8 c - u8 first)) name'
              else None
          end
      end
  end
with tries_lookup (ts : tries) (i : nat) (name : list byte) : option (list byte) :=
  match ts with
  | tnil => None
  | tcons t ts' =>
      match i with
      | O => trie_lookup t name
      | S i' => tries_lookup ts' i' name
      end
  end.

(** The bytes [bs] stand at position [p] of [data]. *)
Definition bytes_at (data : list byte) (p : nat) (bs : list byte) : bool :=
  bool_decide (take (length bs) (drop p data) = bs).

(** A 32-bit big-endian [v] stands at position [p] of [data]. *)
Definition be32_at (data : list byte) (p : nat) (v : Z) : bool :=
  (p + 4 <=? length data)%nat && (be32 (drop p data) =? v).

Definition no_byte (b : byte) (bs : list byte) : bool :=
  forallb (fun c => negb (bool_decide (c = b))) bs.

(** The value records from position [p] on. *)
Fixpoint values_at (data : list byte) (p : nat)
    (values : list (Z * list byte * list byte)) : bool :=
  match values with
  | [] => true
  | (priority, path, deps) :: values' =>
      be32_at data p priority
      && bytes_at data (p + 4) (path ++ ":"%byte :: deps ++ [x00])
      && no_byte ":"%byte path && no_byte x00 path && no_byte x00 deps
      && values_at data (p + 4 + length path + 1 + length deps + 1) values'
  end.

Definition flag (offset mask : Z) : bool := negb (Z.land offset mask =? 0).

(** The tagged offset [offset] designates, in [data], a node that
    serialises [t]: the flags say which parts are present, and the
    prefix, the child table (each slot the tagged offset of a node that
    serialises the child) and the value list follow one another from
    the position [offset & INDEX_NODE_MASK]. *)
Fixpoint trie_at (data : list byte) (offset : Z) (t : trie) : bool :=
  match t with
  | Node prefix first kids values =>
      let p0 := Z.to_nat (Z.land offset INDEX_NODE_MASK) in
      let p1 := match prefix with
                | Some pre => (p0 + length pre + 1)%nat
                | None => p0
                end in
      let p2 := match first with
                | Some _ => (p1 + 2 + 4 * tries_length kids)%nat
                | None => p1
                end in
      (0 <=? offset) && (offset <? 2 ^ 32)
      && (p0 <=? length data)%nat
      && bool_decide (flag offset INDEX_NODE_PREFIX = bool_decide (is_Some prefix))
      && bool_decide (flag offset INDEX_NODE_CHILDS = bool_decide (is_Some first))
      && bool_decide (flag offset INDEX_NODE_VALUES = bool_decide (is_Some values))
      && match prefix with
         | Some pre => bytes_at data p0 (pre ++ [x00]) && no_byte x00 pre
         | None => true
         end
      && match first with
         | Some first =>
             bytes_at data p1 [first]
             && (1 <=? tries_length kids)%nat
             && (u8 first + Z.of_nat (tries_length kids) <=? 256)
             && bool_decide (u8 <$> data !! S p1
                             = Some (u8 first + Z.of_nat (tries_length kids) - 1))
             && tries_at data (p1 + 2) kids
         | None => true
         end
      && match values with
         | Some vs =>
             be32_at data p2 (Z.of_nat (length vs)) && values_at data (p2 + 4) vs
         | None => true
         end
  end
with tries_at (data : list byte) (p : nat) (ts : tries) : bool :=
  match ts with
  | tnil => true
  | tcons t ts' =>
      (p + 4 <=? length data)%nat
      && trie_at data (be32 (drop p data)) t
      && tries_at data (p + 4) ts'
  end.

(** A mapped depmod index that serialises the trie [t]: the header is
    followed by the tagged offset of the root. *)
Definition depmod_index_of (depmod : depmod_index) (t : trie) : Prop :=
  exists data,
    depmod_addr depmod = Some data /\ depmod_len depmod = length data /\
    (12 <= length data)%nat /\
    depmod_index_validate depmod = Ok tt /\
    trie_at data (be32 (drop 8 data)) t = true.

(** ** Reaching a node during a lookup

    [walk_reaches depmod name bb name' bb']: the loop of
    [depmod_index_find] entered with the name [name] and the buffer [bb]
    begins an iteration with [name'] and [bb'], after zero or more
    iterations that ended with [continue]. *)
Inductive walk_reaches (depmod : depmod_index)
    : list byte -> binary_buffer -> list byte -> binary_buffer -> Prop :=
| walk_here name bb : walk_reaches depmod name bb name bb
| walk_down name bb name1 bb1 name' bb' :
    depmod_index_find_node depmod name bb = (Ok (step_continue name1), bb1) ->
    walk_reaches depmod name1 bb1 name' bb' ->
    walk_reaches depmod name bb name' bb'.

(** The buffer with which [depmod_index_find] enters its loop. *)
Definition depmod_find_start (depmod : depmod_index) : binary_buffer :=
  bb_set_pos 8 (depmod_index_buffer_init depmod).

(** What a lookup yields from the iteration that starts with [name] and
    [bb]: the loop, then the value of the node it stops at. *)
Definition depmod_index_find_from (fuel : nat) (depmod : depmod_index)
    (name : list byte) (bb : binary_buffer)
    : option (result (option (nat * nat))) :=
  match depmod_index_find_loop fuel depmod name bb with
  | None => None
  | Some (Err e, _) => Some (Err e)
  | Some (Ok None, _) => Some (Ok None)
  | Some (Ok (Some offset), bb') => Some (depmod_index_find_value offset bb').1
  end.

(** ** Chains of candidate files

    The build ID under which a candidate file is entered in the table,
    the indices of the first [n] files entered under [key], in the order
    of the caller's list, and the report made for a file once it is
    patched for the module [m]. *)

Definition kmod_key (kmod : kernel_module_file) : option (list byte) :=
  kmod_elf kmod ≫= elf_gnu_build_id.

Definition files_with_key (kmods : list kernel_module_file) (key : list byte)
    (n : nat) : list nat :=
  filter (fun i => kmods !! i ≫= kmod_key = Some key) (seq 0 n).

Definition patched_report (m : loaded_module) (kmod : kernel_module_file)
    : option elf_report :=
  match kmod_elf kmod with
  | Some elf =>
      match cache_kernel_module_sections m elf with
      | (Ok _, elf') =>
          Some {| er_path := kmod_path kmod; er_fd := kmod_fd kmod; er_elf := elf';
                  er_start := lm_start m; er_end := lm_end m;
                  er_name := Some (lm_name m) |}
      | (Err _, _) => None
      end
  | None => None
  end.

(** The files [l] are chained in this order from the pointer [head]
    through their [next] pointers, the last of which is null. *)
Fixpoint linked_from (kmods : list kernel_module_file) (head : option nat)
    (l : list nat) : Prop :=
  match l with
  | [] => head = None
  | k :: l' =>
      head = Some k /\
      exists kmod, kmods !! k = Some kmod /\ linked_from kmods (kmod_next kmod) l'
  end.

(** What holds of the coordinator once the first [j] of the caller's
    files [orig] have been entered in the table: the indexer does not
    abort, the files still have their path, descriptor and ELF handle,
    and under every build ID the table holds the chain of the files with
    that build ID, the file entered last first. *)
Definition table_filled (orig : list kernel_module_file) (j : nat)
    (co : coordinator) : Prop :=
  load_budget (co_load co) = None /\
  length (co_kmods co) = length orig /\
  (forall i kmod0,
     orig !! i = Some kmod0 ->
     exists kmod,
       co_kmods co !! i = Some kmod /\ kmod_path kmod = kmod_path kmod0 /\
       kmod_fd kmod = kmod_fd kmod0 /\ kmod_elf kmod = kmod_elf kmod0) /\
  (forall key,
     linked_from (co_kmods co) (co_table co !! key)
       (reverse (files_with_key orig key j))).

(** ** Numerals

    The value of the numeral [s] read in [base], and whether [s]
    consists of digits of [base]. *)

Definition numeral (base : Z) (s : list byte) : Z :=
  fold_left (fun acc c => acc * base + default 0 (digit_value c)) s 0.

Definition all_digits (base : Z) (s : list byte) : bool :=
  forallb (fun c => bool_decide (is_Some (digit_in base c))) s.

(** ** Fixtures *)

Definition nl : list byte := [x0a].

(** The size of the [osrelease] array in the fixtures. *)
Definition OSRELEASE_SIZE : nat := 128.

Definition vmcoreinfo_blank : vmcoreinfo :=
  {| osrelease := []; page_size := 0; kaslr_offset := 0; swapper_pg_dir := 0;
     pgtable_l5_enabled := false |}.

(** Scenario S1 of the specification. *)
Definition desc_S1 : list byte :=
  bytes "OSRELEASE=6.1.0" ++ nl ++ bytes "PAGESIZE=4096" ++ nl
  ++ bytes "KERNELOFFSET=1a000000" ++ nl
  ++ bytes "SYMBOL(swapper_pg_dir)=ffffffff81c0a000" ++ nl.

(** A descriptor with a page size of 3. *)
Definition desc_pagesize_3 : list byte :=
  bytes "OSRELEASE=6.1.0" ++ nl ++ bytes "PAGESIZE=3" ++ nl
  ++ bytes "SYMBOL(swapper_pg_dir)=ffffffff81c0a000" ++ nl.

(** A descriptor whose page size is written in hexadecimal. *)
Definition desc_pagesize_hex : list byte :=
  bytes "OSRELEASE=6.1.0" ++ nl ++ bytes "PAGESIZE=0x1000" ++ nl
  ++ bytes "SYMBOL(swapper_pg_dir)=ffffffff81c0a000" ++ nl.

(** What converting the numeral [s] in [base] yields in [line_to_u64]. *)
Definition converted (base : Z) (s : list byte) : result Z :=
  if UINT64_MAX <? numeral base s
  then Err (drgn_error_create DRGN_ERROR_OVERFLOW "number in VMCOREINFO is too large")
  else Ok (numeral base s).

(** A note read from physical memory on a little-endian host: the
    header ([n_namesz] 11, [n_descsz] the length of [desc_S1], [n_type]
    0), eleven name bytes and one byte of padding, then [desc_S1].  The
    eleventh name byte is [last]. *)
Definition vmcoreinfo_note (last : byte) : list byte :=
  [x0b; x00; x00; x00] ++ [x5c; x00; x00; x00] ++ [x00; x00; x00; x00]
  ++ bytes "VMCOREINFO" ++ [last] ++ [x00] ++ desc_S1.

(** A host whose [/sys/kernel/vmcoreinfo] reads [3b0a4000 74] and whose
    physical memory holds [note] there. *)
Definition fallback_env_of (note : list byte) : fallback_env :=
  {| sys_kernel_vmcoreinfo := inr (bytes "3b0a4000 74" ++ nl);
     read_memory := fun address size physical =>
       if (address =? 0x3b0a4000) && (size =? 0x74) && physical
       then Ok note
       else Err (drgn_error_create DRGN_ERROR_OTHER "could not read memory") |}.

(** The four bytes of a 32-bit value, most significant first. *)
Definition be32_bytes (z : Z) : list byte :=
  map (fun i => default x00 (Byte.of_N (Z.to_N (Z.land (Z.shiftr z (8 * i)) 255))))
    [3; 2; 1; 0].

(** A depmod index for the single module [foo] at
    [kernel/drivers/foo.ko.xz] (scenario S3 of the specification): the
    header, the tagged offset of the root at 8, a root at 12 with
    children for [b] to [f], of which only [f] is present, and at 34 the
    node with the prefix [oo] and one value. *)
Definition depmod_fixture : list byte :=
  be32_bytes 0xb007f457 ++ be32_bytes 0x00020001 ++ be32_bytes 0x2000000c
  ++ bytes "bf" ++ be32_bytes 0 ++ be32_bytes 0 ++ be32_bytes 0 ++ be32_bytes 0
  ++ be32_bytes 0xc0000022
  ++ bytes "oo" ++ [x00] ++ be32_bytes 1 ++ be32_bytes 0
  ++ bytes "kernel/drivers/foo.ko.xz:" ++ [x00].

(** The trie [depmod_fixture] serialises. *)
Definition trie_fixture : trie :=
  let hole := Node None None tnil None in
  Node None (Some "b"%byte)
    (tcons hole (tcons hole (tcons hole (tcons hole
       (tcons (Node (Some (bytes "oo")) None tnil
                 (Some [(0, bytes "kernel/drivers/foo.ko.xz", [])]))
          tnil)))))
    None.

(** The same header with its two fields stored least significant byte
    first. *)
Definition depmod_little_endian : list byte :=
  rev (be32_bytes 0xb007f457) ++ rev (be32_bytes 0x00020001) ++ drop 8 depmod_fixture.

Definition ENOENT : Z := 2.

(** A host with the file [data] at [/lib/modules/6.1.0/modules.dep.bin]. *)
Definition host_open_of (data : list byte) (path : list byte) : Z + host_file :=
  if decide (path = bytes "/lib/modules/6.1.0/modules.dep.bin")
  then inr {| f_data := data; f_fstat_errno := None; f_mmap_errno := None |}
  else inl ENOENT.

Definition depmod_unmapped : depmod_index :=
  {| depmod_addr := None; depmod_len := 0; depmod_path := [] |}.

Definition depmod_mapped (data : list byte) : depmod_index :=
  {| depmod_addr := Some data; depmod_len := length data;
     depmod_path := bytes "/lib/modules/6.1.0/modules.dep.bin" |}.

(** An index whose root offset lies outside the file. *)
Definition depmod_offset_out_of_bounds : list byte :=
  be32_bytes 0xb007f457 ++ be32_bytes 0x00020001 ++ be32_bytes 0xc000ffff.

(** An index with the single node [foo], whose one value has no [:]. *)
Definition depmod_no_colon : list byte :=
  be32_bytes 0xb007f457 ++ be32_bytes 0x00020001 ++ be32_bytes 0xc000000c
  ++ bytes "foo" ++ [x00] ++ be32_bytes 1 ++ be32_bytes 0
  ++ bytes "kernel/drivers/foo.ko.xz" ++ [x00].

(** An index with the single node [foo], whose value list is empty. *)
Definition depmod_zero_count : list byte :=
  be32_bytes 0xb007f457 ++ be32_bytes 0x00020001 ++ be32_bytes 0xc000000c
  ++ bytes "foo" ++ [x00] ++ be32_bytes 0.

(** Out parameters holding something before the call. *)
Definition depmod_out_stale : depmod_out := {| path_ret := Some 3%nat; len_ret := 7 |}.

(** *** A toy kernel behind the typed-object interface

    The loaded modules [mods] of a kernel whose [struct module] and
    [struct module_sect_attr] either have the old members
    ([module_core], [core_size], [name]; [legacy]) or the new ones
    ([core_layout], [battr]).  An object is the list node of a module
    (0 is the list head), a module, or a member reached from a module
    or from one of its section attributes by a path of member names. *)

Record toy_module := {
  tm_name : list byte;
  tm_base : Z;
  tm_size : Z;
  tm_sections : list (list byte * Z);
}.

Inductive toy_object :=
| toy_absent
| toy_list (k : nat)
| toy_struct (k : nat)
| toy_member (k : nat) (path : list string)
| toy_section (k : nat) (i : nat) (path : list string).

Definition toy_no_member : drgn_error :=
  drgn_error_create DRGN_ERROR_LOOKUP "no such member".

Definition toy_not_a_value : drgn_error :=
  drgn_error_create DRGN_ERROR_OTHER "not a value".

(** The members below a module, and below a section attribute. *)
Definition toy_module_paths (legacy : bool) : list (list string) :=
  [["name"]; ["sect_attrs"]; ["sect_attrs"; "nsections"]; ["sect_attrs"; "attrs"]]%string
  ++ (if legacy then [["module_core"]; ["core_size"]]
      else [["core_layout"]; ["core_layout"; "base"]; ["core_layout"; "size"]])%string.

Definition toy_section_paths (legacy : bool) : list (list string) :=
  [["address"]]%string
  ++ (if legacy then [["name"]]
      else [["battr"]; ["battr"; "attr"]; ["battr"; "attr"; "name"]])%string.

Definition toy_get_member (legacy : bool) (n : nat) (o : toy_object) (name : string)
    : result toy_object :=
  match o with
  | toy_list k =>
      if decide (name = "next"%string)
      then Ok (toy_list (if (k <? n)%nat then S k else 0%nat))
      else Err toy_no_member
  | toy_struct k =>
      if bool_decide ([name] ∈ toy_module_paths legacy)
      then Ok (toy_member k [name]) else Err toy_no_member
  | toy_member k path =>
      if bool_decide (path ++ [name] ∈ toy_module_paths legacy)
      then Ok (toy_member k (path ++ [name])) else Err toy_no_member
  | toy_section k i path =>
      if bool_decide (path ++ [name] ∈ toy_section_paths legacy)
      then Ok (toy_section k i (path ++ [name])) else Err toy_no_member
  | toy_absent => Err toy_not_a_value
  end.

(** The integer an object holds, before it is read as a [uint64_t]. *)
Definition toy_value (mods : list toy_module) (o : toy_object) : result Z :=
  match o with
  | toy_list k => Ok (0xffffffff82000000 + 0x1000 * Z.of_nat k)
  | toy_member (S k) path =>
      match mods !! k with
      | Some m =>
          if bool_decide (path ∈ [["module_core"]; ["core_layout"; "base"]]%string)
          then Ok (tm_base m)
          else if bool_decide (path ∈ [["core_size"]; ["core_layout"; "size"]]%string)
          then Ok (tm_size m)
          else if bool_decide (path = ["sect_attrs"; "nsections"]%string)
          then Ok (Z.of_nat (length (tm_sections m)))
          else Err toy_not_a_value
      | None => Err toy_not_a_value
      end
  | toy_section (S k) i ["address"%string] =>
      match mods !! k ≫= fun m => tm_sections m !! i with
      | Some (_, address) => Ok address
      | None => Err toy_not_a_value
      end
  | _ => Err toy_not_a_value
  end.

Definition toy_read_unsigned (mods : list toy_module) (o : toy_object) : result Z :=
  let* v := toy_value mods o in Ok (wrap64 v).

Definition toy_read_c_string (mods : list toy_module) (o : toy_object)
    : result (list byte) :=
  match o with
  | toy_member (S k) ["name"%string] =>
      match mods !! k with
      | Some m => Ok (tm_name m)
      | None => Err toy_not_a_value
      end
  | toy_section (S k) i path =>
      match mods !! k ≫= fun m => tm_sections m !! i with
      | Some (name, _) =>
          if bool_decide (path ∈ [["name"]; ["battr"; "attr"; "name"]]%string)
          then Ok name else Err toy_not_a_value
      | None => Err toy_not_a_value
      end
  | _ => Err toy_not_a_value
  end.

Definition toy_kernel (legacy : bool) (mods : list toy_module) : TypedObjects :=
  {| drgn_object := toy_object;
     drgn_qualified_type := unit;
     drgn_object_init := toy_absent;
     drgn_program_find_type := fun _ => Ok tt;
     drgn_program_find_object := fun name =>
       if decide (name = "modules"%string) then Ok (toy_list 0)
       else Err toy_no_member;
     drgn_object_address_of := fun o => Ok o;
     drgn_object_read := fun o => Ok o;
     drgn_object_read_unsigned := toy_read_unsigned mods;
     drgn_object_read_c_string := toy_read_c_string mods;
     drgn_object_member := toy_get_member legacy (length mods);
     drgn_object_member_dereference := toy_get_member legacy (length mods);
     drgn_object_container_of := fun o _ _ =>
       match o with
       | toy_list k => Ok (toy_struct k)
       | _ => Err toy_not_a_value
       end;
     drgn_object_subscript := fun o i =>
       match o with
       | toy_member k ["sect_attrs"; "attrs"]%string =>
           Ok (toy_section k (Z.to_nat i) [])
       | _ => Err toy_not_a_value
       end;
     drgn_object_read_unsigned_range :=
       ltac:(abstract (intros o v; unfold toy_read_unsigned;
                       destruct (toy_value mods o); simpl; [|discriminate];
                       intros [= <-]; apply Z.mod_pos_bound; lia)) |}.

(** One module whose range wraps around the end of the address space. *)
Definition toy_modules : list toy_module :=
  [{| tm_name := bytes "foo"; tm_base := 0xffffffffa0000000; tm_size := 0x10000;
      tm_sections := [(bytes ".text", 0xffffffffa0000000)] |};
   {| tm_name := bytes "top"; tm_base := 0xfffffffffffff800; tm_size := 0x1000;
      tm_sections := [] |}].

(** [/proc/modules] for the same two modules. *)
Definition proc_modules_fixture : FILE :=
  {| file_rest := bytes "foo 65536 0 - Live 0xffffffffa0000000" ++ nl
                  ++ bytes "top 4096 0 - Live 0xfffffffffffff800 (OE)" ++ nl;
     file_errno := None |}.

(** A module iterator as [kernel_module_iterator_init] finds it. *)
Definition toy_iterator_blank (legacy : bool)
    : @kernel_module_iterator (toy_kernel legacy toy_modules) :=
  @Build_kernel_module_iterator (toy_kernel legacy toy_modules)
    None None 0 0 tt toy_absent toy_absent toy_absent toy_absent toy_absent 0.

(** The live iterator about to read [/proc/modules], and the kernel-walk
    iterator of the toy kernel once initialised. *)
Definition toy_iterator_live : @kernel_module_iterator (toy_kernel true toy_modules) :=
  (kernel_module_iterator_init (inr proc_modules_fixture) true
     (toy_iterator_blank true)).2.

Definition toy_iterator_walk (legacy : bool)
    : @kernel_module_iterator (toy_kernel legacy toy_modules) :=
  (kernel_module_iterator_init (inl ENOENT) false (toy_iterator_blank legacy)).2.

(** The section iterator of the toy kernel for its first module, once
    initialised. *)
Definition toy_sections (legacy : bool)
    : @kernel_module_section_iterator (toy_kernel legacy toy_modules) :=
  let kmod_it := (kernel_module_iterator_next (toy_iterator_walk legacy)).2 in
  (kernel_module_section_iterator_init (inl ENOENT) kmod_it
     (@Build_kernel_module_section_iterator (toy_kernel legacy toy_modules)
        kmod_it None 0 0 None)).2.

(** *** A discovery run (scenario S5 of the specification)

    Two candidate files with the same build ID, and a loaded module with
    that build ID at [0xffffffffa0000000 .. 0xffffffffa0010000]. *)

Definition build_id_B : list byte := [xab; xcd; xef; x01].

Definition elf_fixture : Elf :=
  {| elf_shstrndx_ok := true;
     elf_sections :=
       [{| scn_shdr := {| sh_name := bytes ".text"; sh_flags := 6; sh_addr := 0 |};
           scn_getshdr_ok := true; scn_strptr_ok := true; scn_update_ok := true |};
        {| scn_shdr := {| sh_name := bytes ".comment"; sh_flags := 0; sh_addr := 0 |};
           scn_getshdr_ok := true; scn_strptr_ok := true; scn_update_ok := true |}];
     elf_gnu_build_id := Some build_id_B |}.

Definition kmod_fixture (path : string) (fd : Z) : kernel_module_file :=
  {| kmod_path := bytes path; kmod_fd := fd; kmod_elf := Some elf_fixture;
     kmod_gnu_build_id := []; kmod_next := None |}.

Definition kmods_fixture : list kernel_module_file :=
  [kmod_fixture "first.ko" 3; kmod_fixture "second.ko" 4].

Definition module_B : loaded_module :=
  {| lm_name := bytes "foo"; lm_start := 0xffffffffa0000000;
     lm_end := 0xffffffffa0010000; lm_gnu_build_id := Ok build_id_B;
     lm_sections_init := Ok tt;
     lm_sections := [(bytes ".text", 0xffffffffa0000000)];
     lm_sections_end := drgn_stop |}.

(** The same module when its build ID cannot be read. *)
Definition module_no_build_id : loaded_module :=
  {| lm_name := bytes "foo"; lm_start := 0xffffffffa0000000;
     lm_end := 0xffffffffa0010000;
     lm_gnu_build_id := Err (drgn_error_create_os "opendir" ENOENT
                               (Some (bytes "/sys/module/foo/notes")));
     lm_sections_init := Ok tt;
     lm_sections := [(bytes ".text", 0xffffffffa0000000)];
     lm_sections_end := drgn_stop |}.

Definition source_of (modules : list loaded_module) : module_source :=
  {| src_init := Ok tt; src_modules := modules; src_end := drgn_stop |}.

(** A host with the depmod index of scenario S3 and the module file it
    names, whose target has the modules [modules] loaded. *)
Definition host_fixture (modules : list loaded_module) : host :=
  {| host_open := host_open_of depmod_fixture;
     host_elf := fun path =>
       if decide (path = bytes "/lib/modules/6.1.0/kernel/drivers/foo.ko.xz")
       then Some (5, elf_fixture) else None;
     host_getenv_proc_and_sys := None;
     prog_is_live := false;
     prog_osrelease := bytes "6.1.0";
     modules_live := source_of modules;
     modules_walk := source_of modules |}.

Definition load_fixture (default : bool) : drgn_debug_info_load_state :=
  {| load_main := false; load_default := default; load_indexed := [];
     load_elfs := []; load_errors := []; load_flushes := 0; load_budget := None |}.

Definition coordinator_fixture : coordinator :=
  {| co_load := load_fixture true; co_kmods := kmods_fixture; co_table := ∅;
     co_depmod := depmod_unmapped |}.

(** ** Lines of a VMCOREINFO descriptor

    A line starts at the beginning of the descriptor or after a
    newline. *)
Definition line_start (pre : list byte) : Prop :=
  pre = [] \/ exists pre', pre = pre' ++ [x0a].

(** [terminated_key_line desc key pre rest n]: after [pre], which is
    empty or ends a line, [desc] has a line that starts with [key];
    [rest] is what follows the key in [desc] and the line ends [n] bytes
    further, with a newline. *)
Definition terminated_key_line (desc : list byte) (key : string)
    (pre rest : list byte) (n : nat) : Prop :=
  line_start pre /\ desc = pre ++ bytes key ++ rest /\ memchr x0a rest = Some n.

(** The last such line of [desc]. *)
Definition last_key_line (desc : list byte) (key : string)
    (pre rest : list byte) (n : nat) : Prop :=
  terminated_key_line desc key pre rest n /\
  forall pre2 rest2 n2,
    terminated_key_line desc key pre2 rest2 n2 -> (length pre2 <= length pre)%nat.

Definition no_key_line (desc : list byte) (key : string) : Prop :=
  forall pre rest n, ~ terminated_key_line desc key pre rest n.

(** The value [v] of a field comes from the last line of [desc] that
    starts with [key], as [conv] converts what follows the key; without
    such a line it is [default]. *)
Definition from_last_line {A} (desc : list byte) (key : string)
    (conv : list byte -> nat -> result A) (default v : A) : Prop :=
  (no_key_line desc key /\ v = default) \/
  exists pre rest n, last_key_line desc key pre rest n /\ conv rest n = Ok v.

(** ** Lines of [/proc/modules]

    A word is what [%*s] skips: a non-empty run of characters other than
    white space and NUL.  A line of [/proc/modules] gives the name of a
    module, its size in decimal, three words (the reference count, the
    users and the state), the address after [0x], and whatever follows
    on the line. *)
Definition is_word (w : list byte) : bool :=
  negb (bool_decide (w = []))
  && forallb (fun c => negb (isspace c) && negb (bool_decide (c = x00))) w.

Definition proc_modules_line (name size w1 w2 w3 addr tail : list byte)
    : list byte :=
  name ++ bytes " " ++ size ++ bytes " " ++ w1 ++ bytes " " ++ w2 ++ bytes " "
  ++ w3 ++ bytes " 0x" ++ addr ++ tail ++ [x0a].

(** ** Symbol addresses from [/proc/kallsyms] (lines 137-189) *)

(** The start of [s] after its leading characters from [delim]
    ([s + strspn(s, delim)]). *)
Fixpoint skip_delims (delim s : list byte) : list byte :=
  match s with
  | b :: s' =>
      if decide (b = x00) then s
      else if decide (b ∈ delim) then skip_delims delim s' else s
  | [] => []
  end.

(** [strcspn(s, delim)]. *)
Fixpoint strcspn (s delim : list byte) : nat :=
  match s with
  | b :: s' =>
      if decide (b = x00) then O
      else if decide (b ∈ delim) then O else S (strcspn s' delim)
  | [] => O
  end.

(** [strtok_r(s, delim, &saveptr)]: the token and the new [saveptr], or
    [None] for [NULL].  The token is terminated in place: a NUL replaces
    the delimiter that ends it, after which [saveptr] points. *)
Definition strtok_r (s delim : list byte) : option (list byte * list byte) :=
  let s := skip_delims delim s in
  if decide (deref s = x00) then None
  else
    let n := strcspn s delim in
    let rest := drop n s in
    Some (take n s, if decide (deref rest = x00) then rest else tl rest).

(** The delimiters of the three [strtok_r] calls: tab and space, and
    tab, newline and space. *)
Definition delim_tab_space : list byte := [x09; x20].

Definition delim_tab_nl_space : list byte := [x09; x0a; x20].

(** How the body of the [for (;;)] loop ends for one line: with
    [continue], at the label [invalid], or with the address found; the
    last two carry [*ret] as the body leaves it. *)
Inductive kallsyms_step :=
| kallsyms_continue
| kallsyms_invalid (ret : Z)
| kallsyms_found (ret : Z).

(** Lines 163-184 for the line [getline] returned.  [strtoul] reads
    [line] as the first [strtok_r] left it, terminated after the first
    token; [unsigned long] has 64 bits. *)
Definition proc_kallsyms_line (name line : list byte) (ret : Z) : kallsyms_step :=
  match strtok_r line (delim_tab_space) with
  | None => kallsyms_invalid ret
  | Some (addr_str, saveptr) =>
      match strtok_r saveptr (delim_tab_space) with
      | None => kallsyms_invalid ret
      | Some (_, saveptr) =>
          match strtok_r saveptr (delim_tab_nl_space) with
          | None => kallsyms_invalid ret
          | Some (sym_str, _) =>
              if negb (bool_decide (sym_str = c_string name)) then kallsyms_continue
              else
                let terminated :=
                  take (length line
                        - length (skip_delims (delim_tab_space) line)
                        + length addr_str) line in
                let r := strtoull terminated 16 in
                if st_erange r || negb (st_end r =? length terminated)%nat
                then kallsyms_invalid (st_value r)
                else kallsyms_found (st_value r)
          end
      end
  end.

(** The [for (;;)] loop.  Every [getline] takes at least one byte of
    the file, so [S (length (file_rest file))] iterations suffice;
    [None] is the loop running out of [fuel]. *)
Fixpoint proc_kallsyms_loop (fuel : nat) (name : list byte) (file : FILE) (ret : Z)
    : option (result unit * Z) :=
  match fuel with
  | O => None
  | S fuel' =>
      match getline file with
      | inl (Some errno) =>
          Some (Err (drgn_error_create_os "getline" errno
                       (Some (bytes "/proc/kallsyms"))), ret)
      | inl None => Some (Err drgn_not_found, ret)
      | inr (line, file') =>
          match proc_kallsyms_line name line ret with
          | kallsyms_continue => proc_kallsyms_loop fuel' name file' ret
          | kallsyms_invalid ret' =>
              Some (Err (drgn_error_create DRGN_ERROR_OTHER
                           "could not parse /proc/kallsyms"), ret')
          | kallsyms_found ret' => Some (Ok tt, ret')
          end
      end
  end.

(** [proc_kallsyms_symbol_addr(name, ret)]: [proc_kallsyms] is the
    outcome of [fopen("/proc/kallsyms", "r")] and [ret] what [*ret]
    holds when the function is called; the result comes with [*ret] as
    the function leaves it. *)
Definition proc_kallsyms_symbol_addr (proc_kallsyms : Z + FILE) (name : list byte)
    (ret : Z) : option (result unit * Z) :=
  match proc_kallsyms with
  | inl errno =>
      Some (Err (drgn_error_create_os "fopen" errno (Some (bytes "/proc/kallsyms"))),
            ret)
  | inr file => proc_kallsyms_loop (S (length (file_rest file))) name file ret
  end.

(** *** Lines of [/proc/kallsyms]

    A token is a non-empty run of characters other than the delimiters
    and NUL.  A line gives the address in hexadecimal, the type, the
    name of the symbol and, after a tab, its module if it has one. *)
Definition is_token (delim tok : list byte) : bool :=
  negb (bool_decide (tok = []))
  && forallb (fun c => negb (bool_decide (c ∈ delim)) && negb (bool_decide (c = x00)))
       tok.

Record kallsyms_entry := {
  ks_addr : list byte;
  ks_type : list byte;
  ks_name : list byte;
  ks_module : option (list byte);
}.

Definition kallsyms_line (e : kallsyms_entry) : list byte :=
  ks_addr e ++ bytes " " ++ ks_type e ++ bytes " " ++ ks_name e
  ++ match ks_module e with
     | Some m => x09 :: bytes "[" ++ m ++ bytes "]"
     | None => []
     end
  ++ [x0a].

Definition kallsyms_entry_ok (e : kallsyms_entry) : bool :=
  negb (bool_decide (ks_addr e = [])) && all_digits 16 (ks_addr e)
  && (numeral 16 (ks_addr e) <=? UINT64_MAX)
  && is_token (delim_tab_nl_space) (ks_type e)
  && is_token (delim_tab_nl_space) (ks_name e)
  && match ks_module e with
     | Some m => no_byte x0a m
     | None => true
     end.

(** The rest of a line after the name of the symbol. *)
Definition kallsyms_tail (e : kallsyms_entry) : list byte :=
  match ks_module e with
  | Some m => x09 :: bytes "[" ++ m ++ bytes "]"
  | None => []
  end ++ [x0a].

(** A [/proc/kallsyms] in which two lines define [foo_init]. *)
Definition kallsyms_fixture : list kallsyms_entry :=
  [{| ks_addr := bytes "ffffffff81000000"; ks_type := bytes "T";
      ks_name := bytes "_text"; ks_module := None |};
   {| ks_addr := bytes "ffffffffa0000000"; ks_type := bytes "t";
      ks_name := bytes "foo_init"; ks_module := Some (bytes "foo") |};
   {| ks_addr := bytes "ffffffff82a0c000"; ks_type := bytes "D";
      ks_name := bytes "foo_init"; ks_module := None |}].

(** ** The build-ID extractor (lines 541-587) *)
Definition NT_GNU_BUILD_ID : Z := 3.

(** [bswap_32] of byteswap.h. *)
Definition bswap_32 (x : Z) : Z :=
  (x mod 2 ^ 8) * 2 ^ 24 + (x / 2 ^ 8 mod 2 ^ 8) * 2 ^ 16
  + (x / 2 ^ 16 mod 2 ^ 8) * 2 ^ 8 + (x / 2 ^ 24 mod 2 ^ 8).

(** A field of the [Elf32_Nhdr] copied from [p] by [memcpy], then
    swapped when [bswap] is set. *)
Definition nhdr_field (host_le bswap : bool) (p : list byte) : Z :=
  let v := load32 host_le p in
  if bswap then bswap_32 v else v.

(** How the scan of a note buffer ends: with the descriptor of a
    build-ID note, [*ret] at offset [pos] and [len] returned; with
    [*ret = NULL] and 0 returned; or with the cursor beyond the end of
    the buffer, where the unchecked [p += nhdr.n_descsz] of line 580 has
    put it and from where the source goes on reading. *)
Inductive note_scan :=
| note_found (pos len : nat)
| note_absent
| note_overrun.

(** [ALIGN_NOTE()] for the cursor at offset [p] of a buffer of
    [note_size] bytes.  The [break] of the macro leaves the macro's own
    [do ... while (0)], not the loop around it: the cursor stays where
    it is when the padding does not fit. *)
Definition ALIGN_NOTE (note_size p : nat) : nat :=
  let to_align := ((4 - p mod 4) mod 4)%nat in
  if (note_size - p <? to_align)%nat then p else (p + to_align)%nat.

(** The [while] loop from the cursor at offset [p].  Every iteration
    moves the cursor by the 12 bytes of a header at least, so
    [S (length note)] iterations suffice; [None] is the loop running out
    of [fuel]. *)
Fixpoint parse_gnu_build_id_loop (fuel : nat) (host_le bswap : bool)
    (note : list byte) (p : nat) : option note_scan :=
  match fuel with
  | O => None
  | S fuel' =>
      let note_size := length note in
      if (note_size - p <? 12)%nat then Some note_absent
      else
        let n_namesz := nhdr_field host_le bswap (drop p note) in
        let n_descsz := nhdr_field host_le bswap (drop (p + 4) note) in
        let n_type := nhdr_field host_le bswap (drop (p + 8) note) in
        let p := (p + 12)%nat in
        if Z.of_nat (note_size - p) <? n_namesz then Some note_absent
        else
          let name := drop p note in
          let p := ALIGN_NOTE note_size (p + Z.to_nat n_namesz) in
          if (n_namesz =? 4) && memcmp_eq name (bytes "GNU" ++ [x00]) 4
             && (n_type =? NT_GNU_BUILD_ID) && (0 <? n_descsz)
          then
            if Z.of_nat (note_size - p) <? n_descsz then Some note_absent
            else Some (note_found p (Z.to_nat n_descsz))
          else if Z.of_nat (note_size - p) <? n_descsz then Some note_overrun
          else
            parse_gnu_build_id_loop fuel' host_le bswap note
              (ALIGN_NOTE note_size (p + Z.to_nat n_descsz))
  end.

(** [parse_gnu_build_id_from_note(note, note_size, bswap, ret)] with
    [note_size = length note], on a host of the byte order [host_le]. *)
Definition parse_gnu_build_id_from_note (host_le : bool) (note : list byte)
    (bswap : bool) : option note_scan :=
  parse_gnu_build_id_loop (S (length note)) host_le bswap note 0.

(** *** Notes and their encoding

    An ELF note, and the bytes that hold it in the byte order given: the
    three 32-bit fields, the name and the descriptor, each padded to a
    multiple of four bytes. *)
Record elf_note := {
  note_name : list byte;
  note_type : Z;
  note_desc : list byte;
}.

Definition byte_of (z : Z) : byte :=
  default x00 (Byte.of_N (Z.to_N (z mod 2 ^ 8))).

Definition store32 (little_endian : bool) (v : Z) : list byte :=
  let l := [byte_of v; byte_of (v / 2 ^ 8); byte_of (v / 2 ^ 16);
            byte_of (v / 2 ^ 24)] in
  if little_endian then l else reverse l.

Definition pad4 (n : nat) : list byte := replicate ((4 - n mod 4) mod 4) x00.

Definition encode_note (little_endian : bool) (n : elf_note) : list byte :=
  store32 little_endian (Z.of_nat (length (note_name n)))
  ++ store32 little_endian (Z.of_nat (length (note_desc n)))
  ++ store32 little_endian (note_type n)
  ++ note_name n ++ pad4 (length (note_name n))
  ++ note_desc n ++ pad4 (length (note_desc n)).

Definition is_build_id_note (n : elf_note) : bool :=
  bool_decide (note_name n = bytes "GNU" ++ [x00])
  && (note_type n =? NT_GNU_BUILD_ID)
  && negb (bool_decide (note_desc n = [])).

(** The descriptor of the first build-ID note of a list of notes. *)
Definition first_build_id (ns : list elf_note) : option (list byte) :=
  note_desc <$> head (filter (fun n => is_build_id_note n = true) ns).

(** A note whose sizes and type fit their 32-bit fields. *)
Definition note_fits (n : elf_note) : Prop :=
  Z.of_nat (length (note_name n)) < 2 ^ 32 /\
  Z.of_nat (length (note_desc n)) < 2 ^ 32 /\
  0 <= note_type n < 2 ^ 32.

(** What a scan outcome says about the buffer. *)
Definition note_scan_sound (host_le bswap : bool) (note : list byte)
    (r : note_scan) : Prop :=
  match r with
  | note_found pos len =>
      (0 < len)%nat /\ (pos + len <= length note)%nat /\
      exists h,
        (h + 16 <= pos <= h + 19)%nat /\
        nhdr_field host_le bswap (drop h note) = 4 /\
        take 4 (drop (h + 12) note) = bytes "GNU" ++ [x00] /\
        nhdr_field host_le bswap (drop (h + 8) note) = NT_GNU_BUILD_ID /\
        nhdr_field host_le bswap (drop (h + 4) note) = Z.of_nat len
  | note_absent => True
  | note_overrun =>
      exists h,
        (h + 12 <= length note)%nat /\
        Z.of_nat
          (length note
           - ALIGN_NOTE (length note)
               (h + 12 + Z.to_nat (nhdr_field host_le bswap (drop h note))))
        < nhdr_field host_le bswap (drop (h + 4) note)
  end.

(** Three notes; the second and the third are build-ID notes. *)
Definition notes_fixture : list elf_note :=
  [{| note_name := bytes "Linux" ++ [x00]; note_type := 0x101;
      note_desc := [x06; x01; x00; x00; x00; x00] |};
   {| note_name := bytes "GNU" ++ [x00]; note_type := NT_GNU_BUILD_ID;
      note_desc := build_id_B |};
   {| note_name := bytes "GNU" ++ [x00]; note_type := NT_GNU_BUILD_ID;
      note_desc := [x11; x33] |}].

(** ** Running a section iterator to its end

    What the [while] loop of [cache_kernel_module_sections] (line 1239)
    sees of a section iterator: the sections yielded until the first
    error, which is [drgn_stop] at the end of the sections.  [None] is
    the run exceeding [fuel] steps. *)
Fixpoint kernel_module_section_iterator_run `{TypedObjects} (fuel : nat)
    (it : kernel_module_section_iterator)
    : option (list (list byte * Z) * drgn_error * kernel_module_section_iterator) :=
  match fuel with
  | O => None
  | S fuel' =>
      match kernel_module_section_iterator_next it with
      | (Ok section, it') =>
          match kernel_module_section_iterator_run fuel' it' with
          | Some (sections, err, it'') => Some (section :: sections, err, it'')
          | None => None
          end
      | (Err err, it') => Some ([], err, it')
      end
  end.

(** An entry of [/sys/module/NAME/sections] that is a directory, by its
    [d_type] or, for [DT_UNKNOWN], by [fstatat]. *)
Definition dirent_is_dir (ent : dirent) : bool :=
  (d_type ent =? DT_DIR)
  || ((d_type ent =? DT_UNKNOWN)
      && match d_fstatat ent with
         | inr true => true
         | _ => false
         end).

(** The section a regular entry stands for: its name and the address
    its file holds, when the file can be examined, opened and read. *)
Definition dirent_section (ent : dirent) : option (list byte * Z) :=
  if dirent_is_dir ent then None
  else if (d_type ent =? DT_UNKNOWN)
          && match d_fstatat ent with
             | inl _ => true
             | inr _ => false
             end
  then None
  else
    match d_openat ent, d_fdopen_errno ent with
    | inr contents, None =>
        (fun r => (d_name ent, r.1)) <$> scan_unsigned 16 contents
    | _, _ => None
    end.

(** A directory [/sys/module/foo/sections]: two directories, one of
    them of unknown type, and two section files, one of type [DT_REG]
    (8) and one of unknown type. *)
Definition sections_dir_fixture : list dirent :=
  [{| d_name := bytes "."; d_type := DT_DIR; d_fstatat := inr true;
      d_openat := inl 21; d_fdopen_errno := None |};
   {| d_name := bytes ".text"; d_type := 8; d_fstatat := inr false;
      d_openat := inr (bytes "0xffffffffa0000000" ++ nl); d_fdopen_errno := None |};
   {| d_name := bytes "holders"; d_type := DT_UNKNOWN; d_fstatat := inr true;
      d_openat := inl 21; d_fdopen_errno := None |};
   {| d_name := bytes ".data"; d_type := DT_UNKNOWN; d_fstatat := inr false;
      d_openat := inr (bytes "0xffffffffa0008000" ++ nl); d_fdopen_errno := None |}].

(** The live section iterator over that directory. *)
Definition toy_sections_live
    : @kernel_module_section_iterator (toy_kernel true toy_modules) :=
  @Build_kernel_module_section_iterator (toy_kernel true toy_modules)
    toy_iterator_live
    (Some {| dir_entries := sections_dir_fixture; dir_errno := None |}) 0 0 None.

(** ** Classifying an ELF file (lines 1153-1191) *)

(** The [while] loop of [identify_kernel_elf] over the sections
    [elf_nextscn] has yet to return; the result is the pair of the out
    parameters [is_vmlinux_ret] and [is_module_ret], which an error
    leaves unwritten. *)
Fixpoint identify_kernel_elf_loop (scns : list Elf_Scn) (have_init_text : bool)
    : result (bool * bool) :=
  match scns with
  | [] => Ok (have_init_text, false)
  | scn :: scns' =>
      if negb (scn_getshdr_ok scn) then
        identify_kernel_elf_loop scns' have_init_text
      else if negb (scn_strptr_ok scn) then Err drgn_error_libelf
      else if decide (sh_name (scn_shdr scn) = bytes ".gnu.linkonce.this_module")
      then Ok (false, true)
      else if decide (sh_name (scn_shdr scn) = bytes ".init.text")
      then identify_kernel_elf_loop scns' true
      else identify_kernel_elf_loop scns' have_init_text
  end.

Definition identify_kernel_elf (elf : Elf) : result (bool * bool) :=
  if negb (elf_shstrndx_ok elf) then Err drgn_error_libelf
  else identify_kernel_elf_loop (elf_sections elf) false.

(** A section whose header can be read and which has the name [name]. *)
Definition scn_named (name : string) (scn : Elf_Scn) : bool :=
  scn_getshdr_ok scn && bool_decide (sh_name (scn_shdr scn) = bytes name).

(** A section at which [identify_kernel_elf] stops: its name cannot be
    read, or it is [.gnu.linkonce.this_module]. *)
Definition scn_decisive (scn : Elf_Scn) : bool :=
  scn_getshdr_ok scn
  && (negb (scn_strptr_ok scn)
      || bool_decide (sh_name (scn_shdr scn) = bytes ".gnu.linkonce.this_module")).

(** An ELF file with the sections named, the header of the second of
    which cannot be read. *)
Definition elf_of_sections (names : list string) : Elf :=
  {| elf_shstrndx_ok := true;
     elf_sections :=
       imap (fun i name =>
               {| scn_shdr := {| sh_name := bytes name; sh_flags := 6; sh_addr := 0 |};
                  scn_getshdr_ok := negb (i =? 1)%nat; scn_strptr_ok := negb (i =? 1)%nat;
                  scn_update_ok := true |}) names;
     elf_gnu_build_id := Some build_id_B |}.

(** ** What the patcher leaves behind

    The section of an ELF file that stands for a name in the patcher's
    map is the first [SHF_ALLOC] section of that name; the address it
    ends up with is the last one the section iterator yielded for the
    name. *)
Definition scn_alloc (scn : Elf_Scn) : bool :=
  negb (Z.land (sh_flags (scn_shdr scn)) SHF_ALLOC =? 0).

Definition alloc_named (name : list byte) (scn : Elf_Scn) : Prop :=
  scn_alloc scn = true /\ sh_name (scn_shdr scn) = name.

#[global] Instance alloc_named_dec name scn : Decision (alloc_named name scn).
Proof. unfold alloc_named. apply _. Defined.

Definition last_address (sections : list (list byte * Z)) (name : list byte)
    : option Z :=
  snd <$> last (filter (fun s => s.1 = name) sections).

(** The section at index [i] of [scns] once the addresses [sections]
    have been applied. *)
Definition patched_scn (scns : list Elf_Scn) (sections : list (list byte * Z))
    (i : nat) (scn : Elf_Scn) : Elf_Scn :=
  match list_find (alloc_named (sh_name (scn_shdr scn))) scns,
        last_address sections (sh_name (scn_shdr scn)) with
  | Some (j, _), Some address =>
      if scn_alloc scn && (j =? i)%nat then scn_set_addr address scn else scn
  | _, _ => scn
  end.

(** The patcher's loop has applied the addresses [done] to [orig]. *)
Definition patched_with (orig : list Elf_Scn) (done : list (list byte * Z))
    (cur : list Elf_Scn) : Prop :=
  length cur = length orig /\
  forall i scn, orig !! i = Some scn ->
                cur !! i = Some (patched_scn orig done i scn).

(** A host on which no file can be opened, whose target has the
    modules [modules] loaded. *)
Definition host_without_depmod (modules : list loaded_module) : host :=
  {| host_open := fun _ => inl ENOENT;
     host_elf := fun _ => None;
     host_getenv_proc_and_sys := None;
     prog_is_live := false;
     prog_osrelease := bytes "6.1.0";
     modules_live := source_of modules;
     modules_walk := source_of modules |}.

(** ** Files left over

    The report made for a candidate file that no loaded module claimed:
    at the address range [0, 0], under the name of its path.  Only a
    file whose build ID could be read is in the table. *)
Definition unloaded_report (kmod : kernel_module_file) : option elf_report :=
  match kmod_elf kmod, kmod_key kmod with
  | Some elf, Some _ =>
      Some {| er_path := kmod_path kmod; er_fd := kmod_fd kmod; er_elf := elf;
              er_start := 0; er_end := 0; er_name := Some (kmod_path kmod) |}
  | _, _ => None
  end.

(** A module iterator that finds no module loaded. *)
Definition no_modules (source : module_source) : Prop :=
  src_init source = Ok tt /\ src_modules source = [] /\ src_end source = drgn_stop.

(** The chain of a build ID, as the table holds it once filled. *)
Definition chain_of (orig : list kernel_module_file) (key : list byte) : list nat :=
  reverse (files_with_key orig key (length orig)).

(** The files of the chains of [entries] are as the caller supplied
    them, and the chains are linked. *)
Definition chains_pending (orig : list kernel_module_file)
    (entries : list (list byte * nat)) (co : coordinator) : Prop :=
  load_budget (co_load co) = None /\
  length (co_kmods co) = length orig /\
  forall key head,
    (key, head) ∈ entries ->
    linked_from (co_kmods co) (Some head) (chain_of orig key) /\
    forall i, i ∈ chain_of orig key ->
      exists kmod, co_kmods co !! i = Some kmod /\ is_Some (kmod_elf kmod) /\
                   is_Some (kmod_key kmod) /\
                   orig !! i ≫= unloaded_report = unloaded_report kmod.

(** ** What the coordinator asks of the indexer

    [reports_only load load']: from [load] to [load'] the indexer was
    given reports and nothing else; it was not flushed, and the reports
    it had are still there, in front of the new ones. *)
Definition reports_only (load load' : drgn_debug_info_load_state) : Prop :=
  load_flushes load' = load_flushes load /\
  load_main load' = load_main load /\
  load_default load' = load_default load /\
  load_elfs load `prefix_of` load_elfs load' /\
  load_errors load `prefix_of` load_errors load'.

(** [use_proc_and_sys] as [report_kernel_modules] computes it (lines
    1498-1502). *)
Definition use_proc_and_sys (h : host) : bool :=
  prog_is_live h
  && match host_getenv_proc_and_sys h with
     | None => true
     | Some env => atoi_true env
     end.





(** ** The entry point (lines 1579-1727)

    What the first loop of [linux_kernel_report_debug_info] keeps: the
    indexer, the array [kmods] of the module files set aside (with
    [num_kmods] its length) and [vmlinux_is_pending]. *)
Record discovery := {
  dis_load : drgn_debug_info_load_state;
  dis_kmods : list kernel_module_file;
  dis_vmlinux_is_pending : bool;
}.

Section Discovery.

Variable h : host.

Variable uninitialized : depmod_out.

(** Modelled from the spec: [open_elf_file] and [elf_address_range] are
    missing from the sources, and so is the indexer, whose
    [drgn_debug_info_report_elf] has the out parameter [is_new]
    (section 6 of the specification).  An ELF file that can be opened is
    one of [host_elf]; [open_error path] is the error of
    [open_elf_file] for another path, [elf_address_range elf bias] the
    address range of a file for the KASLR offset [bias], or its error,
    and [is_new load report] what the indexer in the state [load]
    answers in [is_new] when it accepts [report]. *)
Variable open_error : list byte -> drgn_error.

Variable elf_address_range : Elf -> Z -> result (Z * Z).

Variable is_new : drgn_debug_info_load_state -> elf_report -> bool.

(** [prog->vmcoreinfo.kaslr_offset]. *)
Variable prog_kaslr_offset : Z.

(** What [malloc_array] left in the members of an entry of [kmods] that
    the loop does not write. *)
Variable kmod_uninitialized : kernel_module_file.

Definition dis_report_error (path : list byte) (err : drgn_error)
    : M discovery unit :=
  fun d =>
    let '(r, load) := drgn_debug_info_report_error (Some path) None (Some err)
                        (dis_load d) in
    (r, {| dis_load := load; dis_kmods := dis_kmods d;
           dis_vmlinux_is_pending := dis_vmlinux_is_pending d |}).

(** The body of the loop over [load->paths] (lines 1651-1710) for the
    path [path]; an [Err] is the [goto out], an [Ok] the end of the body
    or a [continue]. *)
Definition linux_kernel_report_path (path : list byte) : M discovery unit :=
  fun d =>
    match host_elf h path with
    | None => dis_report_error path (open_error path) d
    | Some (fd, elf) =>
        match identify_kernel_elf elf with
        | Err err => dis_report_error path err d
        | Ok (is_vmlinux, is_module) =>
            if is_module then
              (Ok tt,
               {| dis_load := dis_load d;
                  dis_kmods :=
                    dis_kmods d
                    ++ [{| kmod_path := path; kmod_fd := fd; kmod_elf := Some elf;
                           kmod_gnu_build_id := kmod_gnu_build_id kmod_uninitialized;
                           kmod_next := kmod_next kmod_uninitialized |}];
                  dis_vmlinux_is_pending := dis_vmlinux_is_pending d |})
            else if is_vmlinux then
              match elf_address_range elf prog_kaslr_offset with
              | Err err => dis_report_error path err d
              | Ok (start, end_) =>
                  let report :=
                    {| er_path := path; er_fd := fd; er_elf := elf;
                       er_start := start; er_end := end_;
                       er_name := Some (bytes "kernel") |} in
                  match drgn_debug_info_report_elf report (dis_load d) with
                  | (Err err, load) =>
                      (Err err,
                       {| dis_load := load; dis_kmods := dis_kmods d;
                          dis_vmlinux_is_pending := dis_vmlinux_is_pending d |})
                  | (Ok _, load) =>
                      (Ok tt,
                       {| dis_load := load; dis_kmods := dis_kmods d;
                          dis_vmlinux_is_pending :=
                            if is_new (dis_load d) report then true
                            else dis_vmlinux_is_pending d |})
                  end
              end
            else
              let '(r, load) :=
                drgn_debug_info_report_elf
                  {| er_path := path; er_fd := fd; er_elf := elf;
                     er_start := 0; er_end := 0; er_name := None |} (dis_load d) in
              (r, {| dis_load := load; dis_kmods := dis_kmods d;
                     dis_vmlinux_is_pending := dis_vmlinux_is_pending d |})
        end
    end.

Fixpoint linux_kernel_report_paths (paths : list (list byte)) : M discovery unit :=
  fun d =>
    match paths with
    | [] => (Ok tt, d)
    | path :: paths' =>
        match linux_kernel_report_path path d with
        | (Err err, d) => (Err err, d)
        | (Ok _, d) => linux_kernel_report_paths paths' d
        end
    end.

(** The templates of [vmlinux_paths] for the release [osrelease]. *)
Definition vmlinux_paths (osrelease : list byte) : list (list byte) :=
  [bytes "/usr/lib/debug/boot/vmlinux-" ++ osrelease;
   bytes "/usr/lib/debug/lib/modules/" ++ osrelease ++ bytes "/vmlinux";
   bytes "/boot/vmlinux-" ++ osrelease;
   bytes "/lib/modules/" ++ osrelease ++ bytes "/build/vmlinux";
   bytes "/lib/modules/" ++ osrelease ++ bytes "/vmlinux"].

(** [report_vmlinux(load, &vmlinux_is_pending)]; the result comes with
    the indexer and [vmlinux_is_pending] as the call leaves them.  The
    call is made with [vmlinux_is_pending] false, and [find_elf_file] as
    the specification has it returns no error. *)
Definition report_vmlinux (load : drgn_debug_info_load_state)
    : result unit * drgn_debug_info_load_state * bool :=
  let osrelease := c_string (prog_osrelease h) in
  match find_elf_file h (vmlinux_paths osrelease) with
  | None =>
      (drgn_debug_info_report_error (Some (bytes "kernel")) None
         (Some (drgn_error_format DRGN_ERROR_OTHER "could not find vmlinux for %s"
                  [arg_str osrelease])) load, false)
  | Some (path, fd, elf) =>
      match elf_address_range elf prog_kaslr_offset with
      | Err err =>
          (drgn_debug_info_report_error (Some path) None (Some err) load, false)
      | Ok (start, end_) =>
          let report := {| er_path := path; er_fd := fd; er_elf := elf;
                           er_start := start; er_end := end_;
                           er_name := Some (bytes "kernel") |} in
          let '(r, load') := drgn_debug_info_report_elf report load in
          (r, load',
           match r with
           | Ok _ => is_new load report
           | Err _ => false
           end)
      end
  end.

(** [linux_kernel_report_debug_info(load)] for the paths [paths] of
    [load]; the result comes with the indexer and the array [kmods] as
    the call finds them at [out].  Allocations succeed. *)
Definition linux_kernel_report_debug_info (paths : list (list byte))
    (load : drgn_debug_info_load_state)
    : option (result unit * drgn_debug_info_load_state * list kernel_module_file) :=
  match linux_kernel_report_paths paths
          {| dis_load := load; dis_kmods := [];
             dis_vmlinux_is_pending := false |} with
  | (Err err, d) => Some (Err err, dis_load d, dis_kmods d)
  | (Ok _, d) =>
      let '(r, load, vmlinux_is_pending) :=
        if load_main (dis_load d) && negb (dis_vmlinux_is_pending d)
           && negb (drgn_debug_info_is_indexed (dis_load d) (bytes "kernel"))
        then report_vmlinux (dis_load d)
        else (Ok tt, dis_load d, dis_vmlinux_is_pending d) in
      match r with
      | Err err => Some (Err err, load, dis_kmods d)
      | Ok _ =>
          report_kernel_modules h uninitialized load (dis_kmods d) vmlinux_is_pending
      end
  end.

(** *** The three kinds of file

    What the specification says of a supplied path (section 4.8): a
    module is set aside, vmlinux is reported under the name [kernel] at
    its address range, any other ELF file is reported as it is, at the
    address range 0; and a file that cannot be opened, classified or
    placed is reported as an error. *)
Definition path_set_aside (path : list byte) : option kernel_module_file :=
  match host_elf h path with
  | Some (fd, elf) =>
      match identify_kernel_elf elf with
      | Ok (_, true) =>
          Some {| kmod_path := path; kmod_fd := fd; kmod_elf := Some elf;
                  kmod_gnu_build_id := kmod_gnu_build_id kmod_uninitialized;
                  kmod_next := kmod_next kmod_uninitialized |}
      | _ => None
      end
  | None => None
  end.

Definition path_report (path : list byte) : option elf_report :=
  match host_elf h path with
  | Some (fd, elf) =>
      match identify_kernel_elf elf with
      | Ok (true, false) =>
          match elf_address_range elf prog_kaslr_offset with
          | Ok (start, end_) =>
              Some {| er_path := path; er_fd := fd; er_elf := elf;
                      er_start := start; er_end := end_;
                      er_name := Some (bytes "kernel") |}
          | Err _ => None
          end
      | Ok (false, false) =>
          Some {| er_path := path; er_fd := fd; er_elf := elf;
                  er_start := 0; er_end := 0; er_name := None |}
      | _ => None
      end
  | None => None
  end.

Definition path_error (path : list byte) : option error_report :=
  let report err :=
    Some {| ee_name := Some path; ee_message := None; ee_err := Some err |} in
  match host_elf h path with
  | Some (fd, elf) =>
      match identify_kernel_elf elf with
      | Ok (true, false) =>
          match elf_address_range elf prog_kaslr_offset with
          | Ok _ => None
          | Err err => report err
          end
      | Ok _ => None
      | Err err => report err
      end
  | None => report (open_error path)
  end.

End Discovery.

(** A host with three ELF files, a vmlinux, a module and an object
    file, whose target has no module loaded. *)
Definition host_candidates : host :=
  {| host_open := host_open_of depmod_fixture;
     host_elf := fun path =>
       if decide (path = bytes "vmlinux")
       then Some (3, elf_of_sections [".init.text"%string])
       else if decide (path = bytes "foo.ko")
       then Some (4, elf_of_sections [".init.text"%string; ".text"%string;
                                      ".gnu.linkonce.this_module"%string])
       else if decide (path = bytes "notes.o") then Some (5, elf_fixture)
       else None;
     host_getenv_proc_and_sys := None;
     prog_is_live := false;
     prog_osrelease := bytes "6.1.0";
     modules_live := source_of [];
     modules_walk := source_of [] |}.

Definition candidate_paths : list (list byte) :=
  [bytes "vmlinux"; bytes "foo.ko"; bytes "missing"; bytes "notes.o"].

Definition open_error_fixture (path : list byte) : drgn_error :=
  drgn_error_create_os "open" ENOENT (Some path).

Definition elf_address_range_fixture (elf : Elf) (bias : Z) : result (Z * Z) :=
  Ok (0xffffffff81000000 + bias, 0xffffffff82000000 + bias).

(** An indexer to which every file is new. *)
Definition is_new_fixture (load : drgn_debug_info_load_state) (report : elf_report)
    : bool := true.

(** * Properties *)

(** ** VMCOREINFO *)

Lemma memchr_lt c p i : memchr c p = Some i -> (i < length p)%nat.
Proof.
  revert i. induction p as [|b p IH]; intros i; simpl; [discriminate|].
  destruct (decide (b = c)); [intros [= <-]; lia|].
  destruct (memchr c p) as [j|]; simpl; [|discriminate].
  intros [= <-]. specialize (IH j eq_refl). lia.
Qed.

Lemma memchr_lookup c p i : memchr c p = Some i -> p !! i = Some c.
Proof.
  revert i. induction p as [|b p IH]; intros i; simpl; [discriminate|].
  destruct (decide (b = c)) as [->|]; [now intros [= <-]|].
  destruct (memchr c p) as [j|]; simpl; [|discriminate].
  intros [= <-]. now apply IH.
Qed.

Lemma memchr_first c p i j :
  memchr c p = Some i -> (j < i)%nat -> p !! j <> Some c.
Proof.
  revert i j. induction p as [|b p IH]; intros i j; simpl; [discriminate|].
  destruct (decide (b = c)); [intros [= <-]; lia|].
  destruct (memchr c p) as [k|]; simpl; [|discriminate].
  intros [= <-] Hj. destruct j; simpl; [congruence|].
  apply (IH k); [reflexivity|lia].
Qed.

Lemma parse_vmcoreinfo_loop_total sz fuel line ret :
  (length line < fuel)%nat ->
  exists res, parse_vmcoreinfo_loop sz fuel line ret = Some res.
Proof.
  revert line ret. induction fuel as [|fuel IH]; intros line ret Hlen; [lia|].
  simpl. destruct (memchr x0a line) as [newline|] eqn:Hnl; [|eauto].
  destruct (parse_vmcoreinfo_line sz line newline ret); [|eauto].
  apply IH. apply memchr_lt in Hnl. rewrite length_drop. lia.
Qed.

Lemma scan_digits_nonneg base p acc n :
  0 <= base -> 0 <= acc -> 0 <= (scan_digits base p acc n).1.
Proof.
  intros Hb. revert acc n. induction p as [|b p IH]; intros acc n Hacc; simpl; [easy|].
  unfold digit_in, digit_value.
  repeat (case_match; simplify_eq; simpl; try easy); apply IH; nia.
Qed.

Lemma wrap64_range z : 0 <= wrap64 z < 2 ^ 64.
Proof. unfold wrap64. apply Z.mod_pos_bound. lia. Qed.

Lemma strtoull_range nptr base :
  0 <= base -> 0 <= st_value (strtoull nptr base) < 2 ^ 64.
Proof.
  intros Hb. unfold strtoull.
  destruct (match skip_spaces nptr with [] => _ | _ :: _ => _ end) as [[neg p1] sg].
  destruct (if has_0x p1 && _ then _ else _) as [[base' p2] pre] eqn:Hbase.
  assert (0 <= base') as Hb'.
  { revert Hbase. repeat case_match; intros [= <- _ _]; lia. }
  destruct (scan_digits base' p2 0 0%nat) as [v n] eqn:Hscan.
  pose proof (scan_digits_nonneg base' p2 0 0%nat Hb' ltac:(lia)) as Hv.
  rewrite Hscan in Hv. simpl in Hv.
  assert (0 <= (if UINT64_MAX <? v
                then {| st_value := UINT64_MAX; st_end := (length nptr - length (skip_spaces nptr) + sg + pre + n)%nat;
                        st_erange := true |}
                else {| st_value := if neg then wrap64 (- v) else v;
                        st_end := (length nptr - length (skip_spaces nptr) + sg + pre + n)%nat;
                        st_erange := false |}).(st_value) < 2 ^ 64) as Hmain.
  { destruct (UINT64_MAX <? v) eqn:Hmax; simpl; [unfold UINT64_MAX; lia|].
    apply Z.ltb_ge in Hmax. unfold UINT64_MAX in Hmax.
    destruct neg; [apply wrap64_range | lia]. }
  destruct n, pre; simpl; try lia; exact Hmain.
Qed.

Lemma line_to_u64_range line newline base v :
  0 <= base -> line_to_u64 line newline base = Ok v -> 0 <= v < 2 ^ 64.
Proof.
  intros Hb. unfold line_to_u64.
  repeat case_match; try discriminate.
  intros [= <-]. now apply strtoull_range.
Qed.

Lemma parse_vmcoreinfo_line_page_size sz line newline ret ret' :
  parse_vmcoreinfo_line sz line newline ret = Ok ret' ->
  0 <= page_size ret < 2 ^ 64 -> 0 <= page_size ret' < 2 ^ 64.
Proof.
  unfold parse_vmcoreinfo_line. intros Hline Hret.
  repeat case_match; simplify_eq; simpl; try easy;
    unfold bind in Hline; repeat case_match; simplify_eq; simpl; try easy.
  eapply line_to_u64_range; [|eassumption]. lia.
Qed.

Lemma parse_vmcoreinfo_loop_page_size sz fuel line ret ret' :
  parse_vmcoreinfo_loop sz fuel line ret = Some (Ok ret') ->
  0 <= page_size ret < 2 ^ 64 -> 0 <= page_size ret' < 2 ^ 64.
Proof.
  revert line ret. induction fuel as [|fuel IH]; intros line ret; simpl; [discriminate|].
  destruct (memchr x0a line) as [newline|]; [|now intros [= <-]].
  destruct (parse_vmcoreinfo_line sz line newline ret) as [ret1|] eqn:Hline;
    [|discriminate].
  intros Hloop Hret. eapply IH; [eassumption|].
  eapply parse_vmcoreinfo_line_page_size; eassumption.
Qed.

Lemma line_to_u64_error_code line newline base e :
  line_to_u64 line newline base = Err e -> error_code e = DRGN_ERROR_OVERFLOW.
Proof.
  unfold line_to_u64. repeat case_match; now intros [= <-].
Qed.

Lemma parse_vmcoreinfo_line_error_code sz line newline ret e :
  parse_vmcoreinfo_line sz line newline ret = Err e ->
  error_code e = DRGN_ERROR_OTHER \/ error_code e = DRGN_ERROR_OVERFLOW.
Proof.
  unfold parse_vmcoreinfo_line, bind.
  repeat case_match; intros [= <-]; try (now left);
    right; eapply line_to_u64_error_code; eassumption.
Qed.

Lemma parse_vmcoreinfo_loop_error_code sz fuel line ret e :
  parse_vmcoreinfo_loop sz fuel line ret = Some (Err e) ->
  error_code e = DRGN_ERROR_OTHER \/ error_code e = DRGN_ERROR_OVERFLOW.
Proof.
  revert line ret. induction fuel as [|fuel IH]; intros line ret; simpl; [discriminate|].
  destruct (memchr x0a line) as [newline|]; [|discriminate].
  destruct (parse_vmcoreinfo_line sz line newline ret) as [ret1|e1] eqn:Hline.
  - apply IH.
  - intros [= <-]. eapply parse_vmcoreinfo_line_error_code; eassumption.
Qed.

(** C1 (as amended): [parse_vmcoreinfo] returns on every descriptor, and
    in every record it accepts the release string is not empty, the page
    size is a non-zero 64-bit value and [swapper_pg_dir] is not zero;
    whatever would leave one of the three unset is refused with an
    error.  Nothing makes the page size a power of two or at least
    4096. *)
Theorem parse_vmcoreinfo_required_fields sz desc ret :
  exists res,
    parse_vmcoreinfo sz desc ret = Some res /\
    match res with
    | Ok r =>
        deref (osrelease r) <> x00 /\ osrelease r <> [] /\
        0 < page_size r < 2 ^ 64 /\ swapper_pg_dir r <> 0
    | Err e => error_code e = DRGN_ERROR_OTHER \/ error_code e = DRGN_ERROR_OVERFLOW
    end.
Proof.
  unfold parse_vmcoreinfo.
  destruct (parse_vmcoreinfo_loop_total sz (S (length desc)) desc
              {| osrelease := []; page_size := 0; kaslr_offset := 0;
                 swapper_pg_dir := swapper_pg_dir ret;
                 pgtable_l5_enabled := false |} ltac:(lia)) as [res Hres].
  rewrite Hres. destruct res as [r|e].
  - eexists; split; [reflexivity|].
    apply parse_vmcoreinfo_loop_page_size in Hres; [|simpl; lia].
    unfold check_vmcoreinfo.
    destruct (decide (deref (osrelease r) = x00)) as [|Hos]; [now left|].
    destruct (page_size r =? 0) eqn:Hps; [now left|].
    destruct (swapper_pg_dir r =? 0) eqn:Hsw; [now left|].
    apply Z.eqb_neq in Hps, Hsw. repeat split; try easy; try lia.
    intros Hnil. apply Hos. now rewrite Hnil.
  - eexists; split; [reflexivity|].
    eapply parse_vmcoreinfo_loop_error_code; eassumption.
Qed.

(** C1, counterexample: a descriptor whose [PAGESIZE] is 3 is accepted,
    and 3 is neither a power of two nor at least 4096. *)
Lemma parse_vmcoreinfo_page_size_3 :
  exists r,
    parse_vmcoreinfo OSRELEASE_SIZE desc_pagesize_3 vmcoreinfo_blank = Some (Ok r) /\
    ~ (4096 <= page_size r /\ exists k : Z, page_size r = 2 ^ k).
Proof.
  eexists. split; [vm_compute; reflexivity|].
  simpl. intros [H _]. lia.
Qed.

Lemma digit_in_inv base c d :
  digit_in base c = Some d ->
  isspace c = false /\ c <> "-"%byte /\ c <> "+"%byte /\
  (base <= 16 -> is_x c = false).
Proof.
  intros Hd. repeat split.
  - revert Hd. unfold digit_in, digit_value, isspace.
    repeat case_match; try discriminate; intros _; lia.
  - intros ->. vm_compute in Hd. destruct base; discriminate.
  - intros ->. vm_compute in Hd. destruct base; discriminate.
  - intros Hb. revert Hd. unfold digit_in, digit_value, is_x.
    repeat case_match; try discriminate; intros _; simplify_eq; lia.
Qed.

Lemma scan_digits_app base s rest acc n :
  all_digits base s = true -> digit_in base (deref rest) = None ->
  scan_digits base (s ++ rest) acc n
  = (fold_left (fun acc c => acc * base + default 0 (digit_value c)) s acc,
     (n + length s)%nat).
Proof.
  intros Hs Hrest. revert acc n.
  induction s as [|c s IH]; intros acc n; simpl.
  - rewrite Nat.add_0_r. destruct rest as [|b rest]; [reflexivity|].
    simpl in *. now rewrite Hrest.
  - simpl in Hs. apply andb_prop in Hs as [Hc Hs].
    apply bool_decide_eq_true in Hc as [d Hd]. rewrite Hd.
    rewrite (IH Hs). f_equal; [|lia].
    unfold digit_in in Hd. destruct (digit_value c); [|discriminate].
    simpl. now destruct (_ <? base); simplify_eq.
Qed.

(** [strtoull] on a numeral without sign, white space or [0x] prefix. *)
Lemma strtoull_numeral base base' s rest :
  s <> [] -> all_digits base' s = true -> digit_in base' (deref rest) = None ->
  has_0x (s ++ rest) = false ->
  base' = (if base =? 0 then if decide (deref s = "0"%byte) then 8 else 10
           else base) ->
  strtoull (s ++ rest) base
  = if UINT64_MAX <? numeral base' s
    then {| st_value := UINT64_MAX; st_end := length s; st_erange := true |}
    else {| st_value := numeral base' s; st_end := length s; st_erange := false |}.
Proof.
  intros Hne Hs Hrest H0x Hbase.
  destruct s as [|c s]; [easy|]. clear Hne.
  pose proof Hs as Hc. simpl in Hc. apply andb_prop in Hc as [Hc _].
  apply bool_decide_eq_true in Hc as [d Hd].
  destruct (digit_in_inv _ _ _ Hd) as (Hsp & Hm & Hp & _).
  unfold strtoull. change ((c :: s) ++ rest) with (c :: s ++ rest) in *.
  simpl skip_spaces. rewrite Hsp. rewrite Nat.sub_diag.
  destruct (decide (c = "-"%byte)); [easy|].
  destruct (decide (c = "+"%byte)); [easy|].
  rewrite H0x. simpl andb. cbv iota.
  replace (if base =? 0
           then (if decide (deref (c :: s ++ rest) = "0"%byte) then 8 else 10,
                 c :: s ++ rest, 0%nat)
           else (base, c :: s ++ rest, 0%nat))
    with (base', c :: s ++ rest, 0%nat)
    by (subst base'; simpl; now repeat case_match).
  change (c :: s ++ rest) with ((c :: s) ++ rest).
  rewrite (scan_digits_app base' (c :: s) rest 0 0%nat Hs Hrest).
  fold (numeral base' (c :: s)). simpl length. simpl plus.
  now destruct (UINT64_MAX <? numeral base' (c :: s)).
Qed.

(** [strtoull] on a hexadecimal numeral after [0x], for base 0 or 16. *)
Lemma strtoull_0x base s rest :
  s <> [] -> all_digits 16 s = true -> digit_in 16 (deref rest) = None ->
  base = 0 \/ base = 16 ->
  strtoull ("0"%byte :: "x"%byte :: s ++ rest) base
  = if UINT64_MAX <? numeral 16 s
    then {| st_value := UINT64_MAX; st_end := 2 + length s; st_erange := true |}
    else {| st_value := numeral 16 s; st_end := 2 + length s; st_erange := false |}.
Proof.
  intros Hne Hs Hrest Hbase.
  unfold strtoull. simpl skip_spaces. cbn [length]. rewrite Nat.sub_diag.
  destruct (decide ("0"%byte = "-"%byte)) as [|_]; [easy|].
  destruct (decide ("0"%byte = "+"%byte)) as [|_]; [easy|].
  replace (has_0x ("0"%byte :: "x"%byte :: s ++ rest)
           && ((base =? 0) || (base =? 16))) with true
    by (destruct Hbase as [-> | ->]; reflexivity).
  cbv iota. simpl drop. rewrite drop_0.
  rewrite (scan_digits_app 16 s rest 0 0%nat Hs Hrest).
  fold (numeral 16 s). destruct s as [|c s]; [easy|]. simpl length. simpl plus.
  now destruct (UINT64_MAX <? numeral 16 (c :: s)).
Qed.

Lemma has_0x_digits base s rest :
  s <> [] -> all_digits base s = true -> base <= 16 ->
  has_0x (s ++ x0a :: rest) = false.
Proof.
  intros Hne Hs Hb. destruct s as [|c [|c' s]]; [easy| |].
  - simpl. apply andb_false_r.
  - simpl in *. apply andb_prop in Hs as [_ Hs]. apply andb_prop in Hs as [Hc _].
    apply bool_decide_eq_true in Hc as [d Hd].
    destruct (digit_in_inv _ _ _ Hd) as (_ & _ & _ & Hx).
    rewrite (Hx Hb). apply andb_false_r.
Qed.

Lemma line_to_u64_numeral base base' s rest :
  s <> [] -> all_digits base' s = true -> base' <= 16 ->
  base' = (if base =? 0 then if decide (deref s = "0"%byte) then 8 else 10
           else base) ->
  line_to_u64 (s ++ x0a :: rest) (length s) base = converted base' s.
Proof.
  intros Hne Hs Hb Hbase. unfold line_to_u64, converted.
  rewrite (strtoull_numeral base base' s (x0a :: rest) Hne Hs eq_refl
             (has_0x_digits base' s rest Hne Hs Hb) Hbase).
  destruct (UINT64_MAX <? numeral base' s); simpl; [reflexivity|].
  rewrite Nat.eqb_refl. destruct s; [easy|reflexivity].
Qed.

Lemma line_to_u64_0x base s rest :
  s <> [] -> all_digits 16 s = true -> base = 0 \/ base = 16 ->
  line_to_u64 ("0"%byte :: "x"%byte :: s ++ x0a :: rest) (2 + length s) base
  = converted 16 s.
Proof.
  intros Hne Hs Hbase. unfold line_to_u64, converted.
  rewrite (strtoull_0x base s (x0a :: rest) Hne Hs eq_refl Hbase).
  destruct (UINT64_MAX <? numeral 16 s); simpl; [reflexivity|].
  now rewrite Nat.eqb_refl.
Qed.

Lemma numeral_leading_zero s : numeral 8 ("0"%byte :: s) = numeral 8 s.
Proof. reflexivity. Qed.

(** C6 (as amended): on a [KERNELOFFSET] or [SYMBOL(swapper_pg_dir)]
    line a numeral is converted as a base-16 integer; on a [PAGESIZE] or
    [NUMBER(pgtable_l5_enabled)] line the base is detected from the
    numeral: base 10 for a numeral that does not start with 0, base 16
    after [0x] and base 8 after [0].  A value above [2^64 - 1] fails
    with an overflow error. *)
Theorem vmcoreinfo_number_bases sz ret s rest :
  s <> [] ->
  (all_digits 16 s = true ->
   parse_vmcoreinfo_line sz (bytes "KERNELOFFSET=" ++ s ++ nl ++ rest)
     (13 + length s) ret
   = (let* v := converted 16 s in Ok (set_kaslr_offset v ret)) /\
   parse_vmcoreinfo_line sz (bytes "SYMBOL(swapper_pg_dir)=" ++ s ++ nl ++ rest)
     (23 + length s) ret
   = (let* v := converted 16 s in Ok (set_swapper_pg_dir v ret)) /\
   parse_vmcoreinfo_line sz (bytes "PAGESIZE=0x" ++ s ++ nl ++ rest)
     (11 + length s) ret
   = (let* v := converted 16 s in Ok (set_page_size v ret)) /\
   parse_vmcoreinfo_line sz (bytes "NUMBER(pgtable_l5_enabled)=0x" ++ s ++ nl ++ rest)
     (29 + length s) ret
   = (let* v := converted 16 s in Ok (set_pgtable_l5_enabled (negb (v =? 0)) ret))) /\
  (all_digits 10 s = true -> deref s <> "0"%byte ->
   parse_vmcoreinfo_line sz (bytes "PAGESIZE=" ++ s ++ nl ++ rest)
     (9 + length s) ret
   = (let* v := converted 10 s in Ok (set_page_size v ret)) /\
   parse_vmcoreinfo_line sz (bytes "NUMBER(pgtable_l5_enabled)=" ++ s ++ nl ++ rest)
     (27 + length s) ret
   = (let* v := converted 10 s in Ok (set_pgtable_l5_enabled (negb (v =? 0)) ret))) /\
  (all_digits 8 s = true ->
   parse_vmcoreinfo_line sz (bytes "PAGESIZE=0" ++ s ++ nl ++ rest)
     (10 + length s) ret
   = (let* v := converted 8 s in Ok (set_page_size v ret)) /\
   parse_vmcoreinfo_line sz (bytes "NUMBER(pgtable_l5_enabled)=0" ++ s ++ nl ++ rest)
     (28 + length s) ret
   = (let* v := converted 8 s in Ok (set_pgtable_l5_enabled (negb (v =? 0)) ret))) /\
  (forall base e, converted base s = Err e -> error_code e = DRGN_ERROR_OVERFLOW).
Proof.
  intros Hne. repeat split.
  - change (parse_vmcoreinfo_line sz (bytes "KERNELOFFSET=" ++ s ++ nl ++ rest)
              (13 + length s) ret)
      with (let* v := line_to_u64 (s ++ x0a :: rest) (13 + length s - 13) 16 in
            Ok (set_kaslr_offset v ret)).
    replace (13 + length s - 13)%nat with (length s) by lia.
    now rewrite (line_to_u64_numeral 16 16 s rest).
  - change (parse_vmcoreinfo_line sz
              (bytes "SYMBOL(swapper_pg_dir)=" ++ s ++ nl ++ rest)
              (23 + length s) ret)
      with (let* v := line_to_u64 (s ++ x0a :: rest) (23 + length s - 23) 16 in
            Ok (set_swapper_pg_dir v ret)).
    replace (23 + length s - 23)%nat with (length s) by lia.
    now rewrite (line_to_u64_numeral 16 16 s rest).
  - change (parse_vmcoreinfo_line sz (bytes "PAGESIZE=0x" ++ s ++ nl ++ rest)
              (11 + length s) ret)
      with (let* v := line_to_u64 ("0"%byte :: "x"%byte :: s ++ x0a :: rest)
                        (11 + length s - 9) 0 in
            Ok (set_page_size v ret)).
    replace (11 + length s - 9)%nat with (2 + length s)%nat by lia.
    rewrite (line_to_u64_0x 0 s rest); auto.
  - change (parse_vmcoreinfo_line sz
              (bytes "NUMBER(pgtable_l5_enabled)=0x" ++ s ++ nl ++ rest)
              (29 + length s) ret)
      with (let* v := line_to_u64 ("0"%byte :: "x"%byte :: s ++ x0a :: rest)
                        (29 + length s - 27) 0 in
            Ok (set_pgtable_l5_enabled (negb (v =? 0)) ret)).
    replace (29 + length s - 27)%nat with (2 + length s)%nat by lia.
    rewrite (line_to_u64_0x 0 s rest); auto.
  - change (parse_vmcoreinfo_line sz (bytes "PAGESIZE=" ++ s ++ nl ++ rest)
              (9 + length s) ret)
      with (let* v := line_to_u64 (s ++ x0a :: rest) (9 + length s - 9) 0 in
            Ok (set_page_size v ret)).
    replace (9 + length s - 9)%nat with (length s) by lia.
    rewrite (line_to_u64_numeral 0 10 s rest); auto; [lia|].
    simpl. now destruct (decide (deref s = "0"%byte)).
  - change (parse_vmcoreinfo_line sz
              (bytes "NUMBER(pgtable_l5_enabled)=" ++ s ++ nl ++ rest)
              (27 + length s) ret)
      with (let* v := line_to_u64 (s ++ x0a :: rest) (27 + length s - 27) 0 in
            Ok (set_pgtable_l5_enabled (negb (v =? 0)) ret)).
    replace (27 + length s - 27)%nat with (length s) by lia.
    rewrite (line_to_u64_numeral 0 10 s rest); auto; [lia|].
    simpl. now destruct (decide (deref s = "0"%byte)).
  - change (parse_vmcoreinfo_line sz (bytes "PAGESIZE=0" ++ s ++ nl ++ rest)
              (10 + length s) ret)
      with (let* v := line_to_u64 (("0"%byte :: s) ++ x0a :: rest)
                        (10 + length s - 9) 0 in
            Ok (set_page_size v ret)).
    replace (10 + length s - 9)%nat with (length ("0"%byte :: s)) by (simpl; lia).
    rewrite (line_to_u64_numeral 0 8 ("0"%byte :: s) rest); auto; try easy; lia.
  - change (parse_vmcoreinfo_line sz
              (bytes "NUMBER(pgtable_l5_enabled)=0" ++ s ++ nl ++ rest)
              (28 + length s) ret)
      with (let* v := line_to_u64 (("0"%byte :: s) ++ x0a :: rest)
                        (28 + length s - 27) 0 in
            Ok (set_pgtable_l5_enabled (negb (v =? 0)) ret)).
    replace (28 + length s - 27)%nat with (length ("0"%byte :: s)) by (simpl; lia).
    rewrite (line_to_u64_numeral 0 8 ("0"%byte :: s) rest); auto; try easy; lia.
  - intros base e. unfold converted.
    destruct (UINT64_MAX <? numeral base s); [|discriminate]. now intros [= <-].
Qed.

(** C6, witness: the theorem at the numeral [1000], which is 4096 after
    [PAGESIZE=0x], 1000 after [PAGESIZE=] and 512 after [PAGESIZE=0]. *)
Lemma vmcoreinfo_number_bases_witness :
  bytes "1000" <> [] /\
  parse_vmcoreinfo_line OSRELEASE_SIZE (bytes "PAGESIZE=0x" ++ bytes "1000" ++ nl)
    15 vmcoreinfo_blank = Ok (set_page_size 4096 vmcoreinfo_blank) /\
  parse_vmcoreinfo_line OSRELEASE_SIZE (bytes "PAGESIZE=" ++ bytes "1000" ++ nl)
    13 vmcoreinfo_blank = Ok (set_page_size 1000 vmcoreinfo_blank) /\
  parse_vmcoreinfo_line OSRELEASE_SIZE (bytes "PAGESIZE=0" ++ bytes "1000" ++ nl)
    14 vmcoreinfo_blank = Ok (set_page_size 512 vmcoreinfo_blank).
Proof.
  assert (bytes "1000" <> []) as Hne by discriminate.
  destruct (vmcoreinfo_number_bases OSRELEASE_SIZE vmcoreinfo_blank
              (bytes "1000") [] Hne) as (H16 & H10 & H8 & _).
  split; [exact Hne|].
  split; [|split].
  - exact (proj1 (proj2 (proj2 (H16 eq_refl)))).
  - refine (proj1 (H10 eq_refl _)). discriminate.
  - exact (proj1 (H8 eq_refl)).
Defined.

(** C6, counterexample: a descriptor whose page size is written [0x1000]
    is accepted with a page size of 4096, although [0x1000] is no
    base-10 numeral: converted in base 10 it is an error. *)
Lemma pagesize_is_not_base_10 :
  (exists r, parse_vmcoreinfo OSRELEASE_SIZE desc_pagesize_hex vmcoreinfo_blank
             = Some (Ok r) /\ page_size r = 4096) /\
  line_to_u64 (bytes "0x1000" ++ nl) 6 10
  = Err (drgn_error_create DRGN_ERROR_OVERFLOW "number in VMCOREINFO is invalid").
Proof.
  split; [eexists; split|]; vm_compute; reflexivity.
Qed.

(** ** The VMCOREINFO fallback *)

(** What the test of lines 232-234 accepts: ten name bytes are compared,
    the eleventh is not looked at. *)
Lemma vmcoreinfo_note_invalid_false host_le buf size :
  vmcoreinfo_note_invalid host_le buf size = false <->
  24 <= size /\ load32 host_le buf = 11 /\
  take 10 (drop 12 buf) = bytes "VMCOREINFO" /\
  load32 host_le (drop 4 buf) <= size - 24.
Proof.
  unfold vmcoreinfo_note_invalid, memcmp_eq.
  rewrite !orb_false_iff, !negb_false_iff, bool_decide_eq_true.
  rewrite Z.ltb_ge, Z.eqb_eq, Z.ltb_ge.
  change (take 10 (bytes "VMCOREINFO")) with (bytes "VMCOREINFO").
  tauto.
Qed.

(** C9, the code at the failing input: a note whose eleventh name byte
    is [X] instead of the terminating NUL passes the test and its
    descriptor, at byte offset 24, is parsed; the same note with the NUL
    gives the same result. *)
Theorem vmcoreinfo_note_eleventh_byte_unchecked :
  take 11 (drop 12 (vmcoreinfo_note "X")) <> bytes "VMCOREINFO" ++ [x00] /\
  Z.of_nat (length (vmcoreinfo_note "X")) = 0x74 /\
  vmcoreinfo_note_invalid true (vmcoreinfo_note "X") 0x74 = false /\
  read_vmcoreinfo_fallback OSRELEASE_SIZE true
    (fallback_env_of (vmcoreinfo_note "X")) vmcoreinfo_blank
  = parse_vmcoreinfo OSRELEASE_SIZE desc_S1 vmcoreinfo_blank /\
  read_vmcoreinfo_fallback OSRELEASE_SIZE true
    (fallback_env_of (vmcoreinfo_note x00)) vmcoreinfo_blank
  = parse_vmcoreinfo OSRELEASE_SIZE desc_S1 vmcoreinfo_blank /\
  exists r, parse_vmcoreinfo OSRELEASE_SIZE desc_S1 vmcoreinfo_blank = Some (Ok r).
Proof.
  split; [discriminate|].
  split; [reflexivity|].
  split; [vm_compute; reflexivity|].
  split; [vm_compute; reflexivity|].
  split; [vm_compute; reflexivity|].
  eexists. vm_compute. reflexivity.
Qed.

(** ** The depmod index *)

(** *** The reads of the binary buffer *)

Lemma bb_rest_length bb :
  length (bb_rest bb) = (length (bb_data bb) - bb_pos bb)%nat.
Proof. unfold bb_rest. apply length_drop. Qed.

Lemma binary_buffer_check_bounds_ok n bb :
  n <= Z.of_nat (length (bb_data bb)) - Z.of_nat (bb_pos bb) ->
  (bb_pos bb <= length (bb_data bb))%nat ->
  binary_buffer_check_bounds n bb = (Ok tt, bb).
Proof.
  intros Hn Hpos. unfold binary_buffer_check_bounds. rewrite bb_rest_length.
  destruct (n <=? _) eqn:Hle; [reflexivity|lia].
Qed.

Lemma binary_buffer_check_bounds_err n bb :
  Z.of_nat (length (bb_data bb) - bb_pos bb) < n ->
  binary_buffer_check_bounds n bb
  = (Err (bb_error_fn bb (bb_pos bb) (arg_msg "expected at least %lu bytes" [n])),
     bb).
Proof.
  intros Hn. unfold binary_buffer_check_bounds. rewrite bb_rest_length.
  destruct (n <=? _) eqn:Hle; [lia|reflexivity].
Qed.

Lemma binary_buffer_next_u32_ok bb :
  (bb_pos bb + 4 <= length (bb_data bb))%nat ->
  binary_buffer_next_u32 bb
  = (Ok (load32 (bb_little_endian bb) (bb_rest bb)), bb_advance 4 bb).
Proof.
  intros Hpos. unfold binary_buffer_next_u32, st_bind.
  rewrite binary_buffer_check_bounds_ok by lia. reflexivity.
Qed.

Lemma binary_buffer_next_u32_err bb :
  (length (bb_data bb) < bb_pos bb + 4)%nat ->
  binary_buffer_next_u32 bb
  = (Err (bb_error_fn bb (bb_pos bb) (arg_msg "expected at least %lu bytes" [4])),
     bb).
Proof.
  intros Hpos. unfold binary_buffer_next_u32, st_bind.
  rewrite binary_buffer_check_bounds_err by lia. reflexivity.
Qed.

Lemma binary_buffer_next_u8_ok bb :
  (bb_pos bb + 1 <= length (bb_data bb))%nat ->
  binary_buffer_next_u8 bb = (Ok (u8 (deref (bb_rest bb))), bb_advance 1 bb).
Proof.
  intros Hpos. unfold binary_buffer_next_u8, st_bind.
  rewrite binary_buffer_check_bounds_ok by lia. reflexivity.
Qed.

Lemma binary_buffer_skip_ok n bb :
  0 <= n -> (bb_pos bb + Z.to_nat n <= length (bb_data bb))%nat ->
  binary_buffer_skip n bb = (Ok tt, bb_advance (Z.to_nat n) bb).
Proof.
  intros Hn Hpos. unfold binary_buffer_skip, st_bind.
  rewrite binary_buffer_check_bounds_ok by lia. reflexivity.
Qed.

Lemma st_bind_ok {S A B} (m : M S A) (k : A -> M S B) s a s' :
  m s = (Ok a, s') -> st_bind m k s = k a s'.
Proof. intros Hm. unfold st_bind. now rewrite Hm. Qed.

Lemma st_bind_err {S A B} (m : M S A) (k : A -> M S B) s e s' :
  m s = (Err e, s') -> st_bind m k s = (Err e, s').
Proof. intros Hm. unfold st_bind. now rewrite Hm. Qed.

Lemma depmod_index_validate_ok data path :
  depmod_index_validate {| depmod_addr := Some data; depmod_len := length data;
                           depmod_path := path |} = Ok tt <->
  (8 <= length data)%nat /\ be32 data = 0xb007f457 /\
  be32 (drop 4 data) = 0x00020001.
Proof.
  unfold depmod_index_validate, depmod_index_buffer_init, binary_buffer_init,
    depmod_data. cbn [depmod_addr depmod_len default]. rewrite firstn_all.
  match goal with |- context [st_bind _ _ ?b] => set (bb := b) end.
  destruct (decide (4 <= length data)%nat) as [H4|H4].
  2:{ erewrite st_bind_err by (apply binary_buffer_next_u32_err; simpl; lia).
      split; [discriminate|]. intros (? & _). lia. }
  erewrite st_bind_ok by (apply binary_buffer_next_u32_ok; simpl; lia).
  change (load32 (bb_little_endian bb) (bb_rest bb)) with (be32 (drop 0 data)).
  rewrite drop_0.
  destruct (be32 data =? 0xb007f457) eqn:Hmagic; cbn [negb].
  2:{ erewrite st_bind_err by reflexivity.
      split; [discriminate|]. intros (_ & ? & _). lia. }
  erewrite st_bind_ok by reflexivity.
  destruct (decide (8 <= length data)%nat) as [H8|H8].
  2:{ erewrite st_bind_err by (apply binary_buffer_next_u32_err; simpl; lia).
      split; [discriminate|]. intros (? & _). lia. }
  erewrite st_bind_ok by (apply binary_buffer_next_u32_ok; simpl; lia).
  change (load32 _ (bb_rest (bb_advance 4 bb))) with (be32 (drop 4 data)).
  destruct (be32 (drop 4 data) =? 0x00020001) eqn:Hversion; cbn [negb].
  2:{ split; [discriminate|]. intros (_ & _ & ?). lia. }
  split; [|reflexivity]. intros _. repeat split; lia.
Qed.

(** C3 (as amended): opening the depmod index succeeds exactly on a file
    that can be opened and mapped, has at least 8 bytes, and whose first
    two 32-bit fields, read as big-endian, are the magic [0xb007f457] and
    the version [0x00020001], and then the file is left mapped; on every
    failure the open returns an error and no mapping is in place when it
    returns. *)
Theorem depmod_index_init_validates host_open depmod osrelease :
  let path := take 255 (bytes "/lib/modules/" ++ osrelease
                          ++ bytes "/modules.dep.bin") in
  let '(r, depmod', trace) := depmod_index_init host_open depmod osrelease in
  (r = Ok tt <->
   exists file,
     host_open path = inr file /\ f_fstat_errno file = None /\
     f_mmap_errno file = None /\
     8 <= Z.of_nat (length (f_data file)) <= SIZE_MAX /\
     be32 (f_data file) = 0xb007f457 /\
     be32 (drop 4 (f_data file)) = 0x00020001 /\
     depmod_addr depmod' = Some (f_data file) /\
     depmod_len depmod' = length (f_data file)) /\
  mapping_live trace = match r with Ok _ => true | Err _ => false end.
Proof.
  intros path. unfold depmod_index_init. fold path.
  destruct (host_open path) as [errno|file] eqn:Hopen.
  { split; [|reflexivity]. split; [discriminate|]. now intros (? & ? & _). }
  destruct (f_fstat_errno file) as [errno|] eqn:Hfstat.
  { split; [|reflexivity]. split; [discriminate|].
    intros (? & [= <-] & ? & _). congruence. }
  destruct ((Z.of_nat (length (f_data file)) <? 0)
            || (SIZE_MAX <? Z.of_nat (length (f_data file)))) eqn:Hsize.
  { split; [|reflexivity]. split; [discriminate|].
    intros (? & [= <-] & _ & _ & ? & _). lia. }
  destruct (if Z.of_nat (length (f_data file)) =? 0 then Some EINVAL
            else f_mmap_errno file) as [errno|] eqn:Hmmap.
  { split; [|reflexivity]. split; [discriminate|].
    intros (? & [= <-] & _ & Hm & ? & _).
    destruct (Z.of_nat (length (f_data file)) =? 0) eqn:Hzero; [lia|congruence]. }
  rewrite Nat2Z.id.
  destruct (depmod_index_validate _) as [[]|e] eqn:Hvalid.
  - apply depmod_index_validate_ok in Hvalid as (H8 & Hmagic & Hversion).
    split; [|reflexivity]. split; [|reflexivity]. intros _.
    exists file. destruct (Z.of_nat (length (f_data file)) =? 0) eqn:Hzero; [lia|].
    repeat split; try easy; lia.
  - split; [|reflexivity]. split; [discriminate|].
    intros (? & [= <-] & _ & _ & H8 & Hmagic & Hversion & _).
    assert (depmod_index_validate
              {| depmod_addr := Some (f_data file);
                 depmod_len := length (f_data file); depmod_path := path |}
            = Ok tt) as Hok by (apply depmod_index_validate_ok; repeat split; lia).
    congruence.
Qed.

(** C3, counterexample: the index whose header is stored most
    significant byte first is opened, although its first field read as
    little-endian is not the magic; the same index with the two header
    fields stored little-endian is refused. *)
Lemma depmod_index_header_is_big_endian :
  (depmod_index_init (host_open_of depmod_fixture) depmod_unmapped (bytes "6.1.0")).1.1
  = Ok tt /\
  le32 depmod_fixture <> 0xb007f457 /\
  le32 depmod_little_endian = 0xb007f457 /\
  le32 (drop 4 depmod_little_endian) = 0x00020001 /\
  exists e,
    (depmod_index_init (host_open_of depmod_little_endian) depmod_unmapped
       (bytes "6.1.0")).1.1 = Err e.
Proof.
  split; [vm_compute; reflexivity|].
  split; [vm_compute; discriminate|].
  split; [vm_compute; reflexivity|].
  split; [vm_compute; reflexivity|].
  eexists. vm_compute. reflexivity.
Qed.

(** *** The lookup loop ends *)

Lemma depmod_index_find_node_continue depmod name bb name' bb' :
  depmod_index_find_node depmod name bb = (Ok (step_continue name'), bb') ->
  (length name' < length name)%nat.
Proof.
  unfold depmod_index_find_node, depmod_index_find_prefix,
    depmod_index_find_childs, st_bind, st_ret, binary_buffer_error.
  repeat (case_match; simplify_eq; try discriminate);
    intros [= <- <-];
    repeat match goal with
           | H : negb (u8 (deref ?n) =? 0) = true |- _ =>
               destruct n eqn:?; [vm_compute in H; discriminate|]; clear H
           end; simpl; try lia.
  match goal with
  | H : drop ?k name = _ :: _ |- _ =>
      apply (f_equal length) in H; rewrite length_drop in H; simpl in H; lia
  end.
Qed.

Lemma depmod_index_find_loop_total depmod fuel name bb :
  (length name < fuel)%nat ->
  exists r, depmod_index_find_loop fuel depmod name bb = Some r.
Proof.
  revert name bb. induction fuel as [|fuel IH]; intros name bb Hlen; [lia|].
  simpl. destruct (depmod_index_find_node depmod name bb) as [[[name'| |]|e] bb']
    eqn:Hnode; eauto.
  apply IH. apply depmod_index_find_node_continue in Hnode. lia.
Qed.

Lemma depmod_index_find_loop_fuel depmod fuel fuel' name bb r :
  depmod_index_find_loop fuel depmod name bb = Some r -> (fuel <= fuel')%nat ->
  depmod_index_find_loop fuel' depmod name bb = Some r.
Proof.
  revert fuel' name bb. induction fuel as [|fuel IH]; intros fuel' name bb;
    [discriminate|].
  intros Hloop Hle. destruct fuel' as [|fuel']; [lia|]. simpl in *.
  destruct (depmod_index_find_node depmod name bb) as [[[name'| |]|e] bb'];
    try assumption.
  apply IH; [assumption|lia].
Qed.

(** A lookup returns what the loop returns from any iteration it
    reaches. *)
Lemma walk_reaches_loop depmod name bb name' bb' :
  walk_reaches depmod name bb name' bb' ->
  depmod_index_find_loop (S (length name)) depmod name bb
  = depmod_index_find_loop (S (length name')) depmod name' bb'.
Proof.
  induction 1 as [|name bb name1 bb1 name' bb' Hnode _ IH]; [reflexivity|].
  rewrite <- IH. simpl depmod_index_find_loop at 1. rewrite Hnode.
  destruct (depmod_index_find_loop_total depmod (S (length name1)) name1 bb1
              ltac:(lia)) as [r Hr].
  rewrite Hr. eapply depmod_index_find_loop_fuel; [eassumption|].
  apply depmod_index_find_node_continue in Hnode. lia.
Qed.


(** *** Malformed indexes *)

Lemma depmod_index_find_node_error_fn depmod name bb r bb' :
  depmod_index_find_node depmod name bb = (r, bb') ->
  bb_error_fn bb' = bb_error_fn bb.
Proof.
  unfold depmod_index_find_node, depmod_index_find_prefix,
    depmod_index_find_childs, st_bind, st_ret, binary_buffer_error,
    binary_buffer_next_u32, binary_buffer_next_u8, binary_buffer_skip,
    binary_buffer_next_string, binary_buffer_check_bounds, st_bind.
  repeat (case_match; simplify_eq; try discriminate); now intros [= <- <-].
Qed.

Lemma walk_reaches_error_fn depmod name bb name' bb' :
  walk_reaches depmod name bb name' bb' -> bb_error_fn bb' = bb_error_fn bb.
Proof.
  induction 1 as [|name bb name1 bb1 name' bb' Hnode _ IH]; [reflexivity|].
  rewrite IH. eapply depmod_index_find_node_error_fn; eassumption.
Qed.

Lemma binary_buffer_next_u32_error_fn bb r bb' :
  binary_buffer_next_u32 bb = (r, bb') -> bb_error_fn bb' = bb_error_fn bb.
Proof.
  unfold binary_buffer_next_u32, st_bind, binary_buffer_check_bounds.
  repeat (case_match; simplify_eq); now intros [= <- <-].
Qed.

Lemma binary_buffer_skip_error_fn n bb r bb' :
  binary_buffer_skip n bb = (r, bb') -> bb_error_fn bb' = bb_error_fn bb.
Proof.
  unfold binary_buffer_skip, st_bind, binary_buffer_check_bounds.
  repeat (case_match; simplify_eq); now intros [= <- <-].
Qed.

(** C5 (as amended): at whatever node a lookup has arrived, a node
    offset beyond the end of the file makes [depmod_index_find] fail
    with an error of kind OTHER, and so does a first value record with
    no [:] before the end of the file; both leave the out parameters
    unwritten.  Only a value list whose count is zero gives the "not
    found" result, a null path and no error. *)
Theorem depmod_index_find_malformed depmod name out name' bb' :
  walk_reaches depmod name (depmod_find_start depmod) name' bb' ->
  (forall offset bb1,
     binary_buffer_next_u32 bb' = (Ok offset, bb1) ->
     Z.of_nat (depmod_len depmod) < Z.land offset INDEX_NODE_MASK ->
     exists e, depmod_index_find depmod name out = Some (Err e, out) /\
               error_code e = DRGN_ERROR_OTHER) /\
  (forall offset bb1 count bb2,
     depmod_index_find_node depmod name' bb' = (Ok (step_break offset), bb1) ->
     flag offset INDEX_NODE_VALUES = true ->
     binary_buffer_next_u32 bb1 = (Ok count, bb2) ->
     (count = 0 ->
      depmod_index_find depmod name out
      = Some (Ok tt, {| path_ret := None; len_ret := len_ret out |})) /\
     (count <> 0 -> forall bb3,
      binary_buffer_skip 4 bb2 = (Ok tt, bb3) ->
      memchr ":"%byte (bb_rest bb3) = None ->
      exists e, depmod_index_find depmod name out = Some (Err e, out) /\
                error_code e = DRGN_ERROR_OTHER)).
Proof.
  intros Hwalk.
  pose proof (walk_reaches_loop _ _ _ _ _ Hwalk) as Hloop.
  pose proof (walk_reaches_error_fn _ _ _ _ _ Hwalk) as Hfn.
  unfold depmod_find_start in Hloop. split.
  - intros offset bb1 Hread Hoob.
    unfold depmod_index_find. rewrite Hloop.
    cbn [depmod_index_find_loop]. unfold depmod_index_find_node.
    erewrite st_bind_ok by eassumption.
    destruct (Z.of_nat (depmod_len depmod) <? Z.land offset INDEX_NODE_MASK)
      eqn:Hlt; [|lia].
    eexists. split; [reflexivity|].
    rewrite (binary_buffer_next_u32_error_fn _ _ _ Hread), Hfn. reflexivity.
  - intros offset bb1 count bb2 Hnode Hflag Hcount.
    assert (depmod_index_find_loop (S (length name)) depmod name
              (bb_set_pos 8 (depmod_index_buffer_init depmod))
            = Some (Ok (Some offset), bb1)) as Hexit.
    { rewrite Hloop. cbn [depmod_index_find_loop]. now rewrite Hnode. }
    unfold flag in Hflag. apply negb_true_iff in Hflag.
    split.
    + intros ->. unfold depmod_index_find. rewrite Hexit.
      unfold depmod_index_find_value. rewrite Hflag.
      erewrite st_bind_ok by eassumption. reflexivity.
    + intros Hne bb3 Hskip Hcolon. unfold depmod_index_find. rewrite Hexit.
      unfold depmod_index_find_value. rewrite Hflag.
      erewrite st_bind_ok by eassumption.
      destruct (count =? 0) eqn:H0; [lia|].
      unfold st_bind at 1. rewrite Hskip, Hcolon.
      eexists. split; [reflexivity|]. cbn [error_code].
      rewrite (binary_buffer_skip_error_fn _ _ _ _ Hskip).
      rewrite (binary_buffer_next_u32_error_fn _ _ _ Hcount).
      rewrite (depmod_index_find_node_error_fn _ _ _ _ _ Hnode), Hfn.
      reflexivity.
Qed.

(** C5, witness: the theorem at the three malformed fixtures, each
    reached at the root by a lookup of [foo]. *)
Lemma depmod_index_find_malformed_witness :
  walk_reaches (depmod_mapped depmod_offset_out_of_bounds) (bytes "foo")
    (depmod_find_start (depmod_mapped depmod_offset_out_of_bounds)) (bytes "foo")
    (depmod_find_start (depmod_mapped depmod_offset_out_of_bounds)) /\
  (exists e,
     depmod_index_find (depmod_mapped depmod_offset_out_of_bounds) (bytes "foo")
       depmod_out_stale = Some (Err e, depmod_out_stale) /\
     error_code e = DRGN_ERROR_OTHER) /\
  depmod_index_find (depmod_mapped depmod_zero_count) (bytes "foo") depmod_out_stale
  = Some (Ok tt, {| path_ret := None; len_ret := 7 |}) /\
  (exists e,
     depmod_index_find (depmod_mapped depmod_no_colon) (bytes "foo")
       depmod_out_stale = Some (Err e, depmod_out_stale) /\
     error_code e = DRGN_ERROR_OTHER).
Proof.
  split; [apply walk_here|].
  split; [|split].
  - destruct (depmod_index_find_malformed
                (depmod_mapped depmod_offset_out_of_bounds) (bytes "foo")
                depmod_out_stale _ _ (walk_here _ _ _)) as [Hoob _].
    refine (Hoob _ _ eq_refl _). vm_compute. reflexivity.
  - destruct (depmod_index_find_malformed
                (depmod_mapped depmod_zero_count) (bytes "foo")
                depmod_out_stale _ _ (walk_here _ _ _)) as [_ Hvalue].
    destruct (Hvalue _ _ _ _ eq_refl eq_refl eq_refl) as [Hzero _].
    exact (Hzero eq_refl).
  - destruct (depmod_index_find_malformed
                (depmod_mapped depmod_no_colon) (bytes "foo")
                depmod_out_stale _ _ (walk_here _ _ _)) as [_ Hvalue].
    destruct (Hvalue _ _ _ _ eq_refl eq_refl eq_refl) as [_ Hcolon].
    refine (Hcolon _ _ eq_refl eq_refl). discriminate.
Defined.

(** C5, counterexample: with a root offset outside the file, and with a
    value that has no [:], the lookup of [foo] returns an error and not
    the "not found" result. *)
Lemma depmod_index_find_reports_malformed :
  (exists e,
     depmod_index_find (depmod_mapped depmod_offset_out_of_bounds) (bytes "foo")
       depmod_out_stale = Some (Err e, depmod_out_stale)) /\
  (exists e,
     depmod_index_find (depmod_mapped depmod_no_colon) (bytes "foo")
       depmod_out_stale = Some (Err e, depmod_out_stale)).
Proof.
  split; eexists; vm_compute; reflexivity.
Qed.

(** *** The lookup against the trie *)

Lemma u8_range b : 0 <= u8 b < 256.
Proof. unfold u8. pose proof (Byte.to_N_bounded b). lia. Qed.

Lemma u8_inj a b : u8 a = u8 b -> a = b.
Proof.
  unfold u8. intros H. apply N2Z.inj in H.
  apply (f_equal Byte.of_N) in H. rewrite !Byte.of_to_N in H. congruence.
Qed.

Lemma no_byte_cons c b bs :
  no_byte c (b :: bs) = true <-> b <> c /\ no_byte c bs = true.
Proof.
  unfold no_byte. simpl. rewrite andb_true_iff, negb_true_iff, bool_decide_eq_false.
  reflexivity.
Qed.

Lemma bytes_at_drop data p bs :
  bytes_at data p bs = true -> bs <> [] ->
  drop p data = bs ++ drop (p + length bs) data /\
  (p + length bs <= length data)%nat.
Proof.
  unfold bytes_at. rewrite bool_decide_eq_true. intros Hbs Hne.
  assert (length (take (length bs) (drop p data)) = length bs) as Hlen
    by now rewrite Hbs.
  rewrite length_take, length_drop in Hlen.
  assert (0 < length bs)%nat by (destruct bs; [easy|simpl; lia]).
  split; [|lia].
  rewrite <- (take_drop (length bs) (drop p data)) at 1.
  now rewrite Hbs, drop_drop.
Qed.

Lemma be32_at_inv data p v :
  be32_at data p v = true -> (p + 4 <= length data)%nat /\ be32 (drop p data) = v.
Proof.
  unfold be32_at. intros H. apply andb_prop in H as [Hp Hv].
  apply Nat.leb_le in Hp. apply Z.eqb_eq in Hv. easy.
Qed.

Lemma memchr_app c pre rest :
  no_byte c pre = true -> memchr c (pre ++ c :: rest) = Some (length pre).
Proof.
  induction pre as [|b pre IH]; simpl; intros Hpre.
  - now destruct (decide (c = c)).
  - apply no_byte_cons in Hpre as [Hb Hpre].
    destruct (decide (b = c)); [easy|]. now rewrite IH.
Qed.

Section BufferAt.

Variables (data : list byte) (f : nat -> format_arg -> drgn_error).

(** The buffer over [data], big-endian, at position [p] after an item
    read at [q]. *)
Let BB (p q : nat) : binary_buffer :=
  {| bb_data := data; bb_pos := p; bb_prev := q; bb_little_endian := false;
     bb_error_fn := f |}.

Lemma next_u32_at p q :
  (p + 4 <= length data)%nat ->
  binary_buffer_next_u32 (BB p q) = (Ok (be32 (drop p data)), BB (p + 4) p).
Proof. intros Hp. now rewrite binary_buffer_next_u32_ok. Qed.

Lemma next_u8_at p q b :
  data !! p = Some b ->
  binary_buffer_next_u8 (BB p q) = (Ok (u8 b), BB (p + 1) p).
Proof.
  intros Hb. rewrite binary_buffer_next_u8_ok
    by (apply lookup_lt_Some in Hb; simpl; lia).
  unfold bb_rest, deref. simpl. now rewrite (drop_S _ _ _ Hb).
Qed.

Lemma skip_at n p q :
  0 <= n -> (p + Z.to_nat n <= length data)%nat ->
  binary_buffer_skip n (BB p q) = (Ok tt, BB (p + Z.to_nat n) p).
Proof. intros Hn Hp. now rewrite binary_buffer_skip_ok. Qed.

Lemma next_string_at p q str :
  bytes_at data p (str ++ [x00]) = true -> no_byte x00 str = true ->
  binary_buffer_next_string (BB p q)
  = (Ok (p, length str), BB (p + S (length str)) p).
Proof.
  intros Hat Hstr.
  apply bytes_at_drop in Hat as [Hdrop _]; [|now destruct str].
  unfold binary_buffer_next_string, bb_rest. simpl.
  rewrite Hdrop, <- app_assoc. simpl. now rewrite memchr_app.
Qed.

End BufferAt.

Lemma strncmp_strip_prefix name pre rest :
  no_byte x00 pre = true -> no_byte x00 name = true ->
  match strip_prefix pre name with
  | Some name' =>
      strncmp_eq name (pre ++ x00 :: rest) (length pre) = true /\
      name' = drop (length pre) name
  | None => strncmp_eq name (pre ++ x00 :: rest) (length pre) = false
  end.
Proof.
  revert name. induction pre as [|p pre IH]; intros name Hpre Hname; simpl.
  - now rewrite drop_0.
  - apply no_byte_cons in Hpre as [Hp Hpre].
    destruct name as [|c name]; simpl.
    + destruct (decide (x00 = p)); [congruence|reflexivity].
    + apply no_byte_cons in Hname as [Hc Hname].
      destruct (decide (p = c)) as [->|Hne].
      * destruct (decide (c = c)); [|easy].
        destruct (decide (c = x00)); [easy|]. now apply IH.
      * destruct (decide (c = p)); [congruence|reflexivity].
Qed.

Section LookupAt.

Variables (data : list byte) (path : list byte).

Let depmod : depmod_index :=
  {| depmod_addr := Some data; depmod_len := length data; depmod_path := path |}.

Let BB (p q : nat) : binary_buffer :=
  {| bb_data := data; bb_pos := p; bb_prev := q; bb_little_endian := false;
     bb_error_fn := depmod_index_buffer_error depmod |}.

(** The value of a node whose value list stands at [p]. *)
Lemma find_value_at offset values p q :
  flag offset INDEX_NODE_VALUES = bool_decide (is_Some values) ->
  match values with
  | Some vs => be32_at data p (Z.of_nat (length vs)) && values_at data (p + 4) vs
  | None => true
  end = true ->
  exists res,
    (depmod_index_find_value offset (BB p q)).1 = Ok res /\
    match first_path values with
    | Some name =>
        res = Some ((p + 8)%nat, length name) /\
        take (length name) (drop (p + 8) data) = name
    | None => res = None
    end.
Proof.
  intros Hflag Hvalues. unfold depmod_index_find_value.
  unfold flag in Hflag. destruct values as [vs|].
  - rewrite bool_decide_eq_true_2 in Hflag by eauto.
    apply negb_true_iff in Hflag. rewrite Hflag.
    apply andb_prop in Hvalues as [Hcount Hvs].
    apply be32_at_inv in Hcount as [Hp Hcount].
    erewrite st_bind_ok by (apply next_u32_at; exact Hp). rewrite Hcount.
    destruct vs as [|[[priority name] deps] vs]; simpl.
    { eexists. split; reflexivity. }
    cbn [values_at] in Hvs.
    apply andb_prop in Hvs as [Hvs _]. apply andb_prop in Hvs as [Hvs _].
    apply andb_prop in Hvs as [Hvs _]. apply andb_prop in Hvs as [Hvs Hcolon].
    apply andb_prop in Hvs as [Hprio Hname].
    apply be32_at_inv in Hprio as [Hprio _].
    erewrite st_bind_ok by (apply skip_at; [lia|simpl; lia]).
    apply bytes_at_drop in Hname as [Hdrop _]; [|now destruct name].
    rewrite <- app_assoc in Hdrop. cbn [app] in Hdrop.
    unfold bb_rest. simpl.
    replace (p + 4 + Z.to_nat 4)%nat with (p + 4 + 4)%nat by lia.
    rewrite Hdrop. rewrite memchr_app by assumption.
    eexists. split; [reflexivity|].
    replace (p + 8)%nat with (p + 4 + 4)%nat by lia. split; [reflexivity|].
    rewrite Hdrop. now rewrite take_app_length.
  - rewrite bool_decide_eq_false_2 in Hflag by (intros [? ?]; discriminate).
    apply negb_false_iff in Hflag. rewrite Hflag.
    eexists. split; reflexivity.
Qed.

Lemma tries_at_bound p ts :
  tries_at data p ts = true -> (1 <= tries_length ts)%nat ->
  (p + 4 * tries_length ts <= length data)%nat.
Proof.
  revert p.
  induction ts using tries_trie_ind with (P := fun _ => True); try easy.
  intros p Hat _. cbn [tries_at] in Hat.
  apply andb_prop in Hat as [Hat Hts]. apply andb_prop in Hat as [Hp _].
  apply Nat.leb_le in Hp. cbn [tries_length].
  destruct ts as [|t' ts]; [simpl; lia|].
  specialize (IHts0 (p + 4)%nat Hts ltac:(simpl; lia)). simpl in *. lia.
Qed.

(** The prefix block at a node whose prefix stands at [p0]. *)
Lemma find_prefix_at offset prefix name p0 q :
  flag offset INDEX_NODE_PREFIX = bool_decide (is_Some prefix) ->
  match prefix with
  | Some pre => bytes_at data p0 (pre ++ [x00]) && no_byte x00 pre
  | None => true
  end = true ->
  no_byte x00 name = true ->
  exists q',
    depmod_index_find_prefix depmod offset name (BB p0 q)
    = (Ok (strip_prefix (default [] prefix) name),
       BB (match prefix with
           | Some pre => (p0 + length pre + 1)%nat
           | None => p0
           end) q').
Proof.
  intros Hflag Hprefix Hname. unfold depmod_index_find_prefix.
  unfold flag in Hflag. destruct prefix as [pre|].
  - rewrite bool_decide_eq_true_2 in Hflag by eauto. rewrite Hflag.
    apply andb_prop in Hprefix as [Hat Hpre].
    erewrite st_bind_ok by (apply next_string_at; eassumption).
    apply bytes_at_drop in Hat as [Hdrop _]; [|now destruct pre].
    rewrite <- app_assoc in Hdrop. cbn [app] in Hdrop.
    change (depmod_data depmod) with data. rewrite Hdrop.
    pose proof (strncmp_strip_prefix name pre
                  (drop (p0 + length (pre ++ [x00])) data) Hpre Hname) as Hcmp.
    exists p0. replace (p0 + S (length pre))%nat with (p0 + length pre + 1)%nat by lia.
    change (default [] (Some pre)) with pre.
    destruct (strip_prefix pre name) as [name'|].
    + destruct Hcmp as [-> ->]. reflexivity.
    + rewrite Hcmp. reflexivity.
  - rewrite bool_decide_eq_false_2 in Hflag by (intros [? ?]; discriminate).
    rewrite Hflag. exists q. reflexivity.
Qed.

Lemma bytes_at_lookup p b : bytes_at data p [b] = true -> data !! p = Some b.
Proof.
  intros Hat. apply bytes_at_drop in Hat as [Hdrop _]; [|easy].
  rewrite <- (Nat.add_0_r p), <- lookup_drop, Hdrop. reflexivity.
Qed.

(** The child-table block at a node whose table stands at [p1]. *)
Lemma find_childs_at offset first kids name p1 q :
  flag offset INDEX_NODE_CHILDS = bool_decide (is_Some first) ->
  match first with
  | Some first =>
      bytes_at data p1 [first]
      && (1 <=? tries_length kids)%nat
      && (u8 first + Z.of_nat (tries_length kids) <=? 256)
      && bool_decide (u8 <$> data !! S p1
                      = Some (u8 first + Z.of_nat (tries_length kids) - 1))
      && tries_at data (p1 + 2) kids
  | None => true
  end = true ->
  no_byte x00 name = true ->
  match name with
  | [] =>
      exists q',
        depmod_index_find_childs offset name (BB p1 q)
        = (Ok (step_break offset),
           BB (match first with
               | Some _ => (p1 + 2 + 4 * tries_length kids)%nat
               | None => p1
               end) q')
  | c :: name' =>
      match first with
      | Some first =>
          if (u8 first <=? u8 c)
             && (u8 c <? u8 first + Z.of_nat (tries_length kids))
          then
            exists q',
              depmod_index_find_childs offset name (BB p1 q)
              = (Ok (step_continue name'),
                 BB (p1 + 2 + 4 * Z.to_nat (u8 c - u8 first)) q')
          else
            exists pos q',
              depmod_index_find_childs offset name (BB p1 q)
              = (Ok step_not_found, BB pos q')
      | None =>
          exists pos q',
            depmod_index_find_childs offset name (BB p1 q)
            = (Ok step_not_found, BB pos q')
      end
  end.
Proof.
  intros Hflag Hchilds Hname. unfold depmod_index_find_childs.
  unfold flag in Hflag. destruct first as [fb|].
  - rewrite bool_decide_eq_true_2 in Hflag by eauto. rewrite Hflag.
    apply andb_prop in Hchilds as [Hchilds Hkids].
    apply andb_prop in Hchilds as [Hchilds Hlast].
    apply andb_prop in Hchilds as [Hchilds H256].
    apply andb_prop in Hchilds as [Hfirst Hlen].
    apply Nat.leb_le in Hlen. apply Z.leb_le in H256.
    apply bytes_at_lookup in Hfirst.
    apply bool_decide_eq_true in Hlast.
    apply fmap_Some in Hlast as (lb & Hlast & Hlb).
    pose proof (tries_at_bound _ _ Hkids Hlen) as Hbound.
    pose proof (u8_range fb) as Hfb.
    erewrite st_bind_ok by (apply next_u8_at; exact Hfirst).
    erewrite st_bind_ok
      by (apply next_u8_at; rewrite Nat.add_1_r; exact Hlast).
    destruct name as [|c name'].
    + change (negb (u8 (deref []) =? 0)) with false. cbv iota.
      replace (wrap64 (4 * (u8 lb - u8 fb + 1)))
        with (4 * Z.of_nat (tries_length kids))
        by (unfold wrap64; rewrite Z.mod_small; lia).
      erewrite st_bind_ok by (apply skip_at; lia).
      eexists. unfold st_ret. do 2 f_equal. unfold BB. f_equal. lia.
    + apply no_byte_cons in Hname as [Hc _].
      assert (u8 c <> 0) as Hc0
        by (intros H0; apply Hc, u8_inj; rewrite H0; reflexivity).
      pose proof (u8_range c) as Hcr.
      cbn [deref hd tl].
      destruct (u8 c =? 0) eqn:Hz; [lia|]. cbn [negb].
      destruct ((u8 fb <=? u8 c) && (u8 c <? u8 fb + Z.of_nat (tries_length kids)))
        eqn:Hrange.
      * destruct ((u8 c <? u8 fb) || (u8 lb <? u8 c)) eqn:Hout; [lia|].
        erewrite st_bind_ok by (apply skip_at; lia).
        eexists. unfold st_ret. do 2 f_equal. unfold BB. f_equal. lia.
      * destruct ((u8 c <? u8 fb) || (u8 lb <? u8 c)) eqn:Hout; [|lia].
        eexists _, _. reflexivity.
  - rewrite bool_decide_eq_false_2 in Hflag by (intros [? ?]; discriminate).
    rewrite Hflag. destruct name as [|c name'].
    + exists q. reflexivity.
    + apply no_byte_cons in Hname as [Hc _].
      assert (u8 c <> 0) as Hc0
        by (intros H0; apply Hc, u8_inj; rewrite H0; reflexivity).
      cbn [deref hd]. destruct (u8 c =? 0) eqn:Hz; [lia|].
      eexists _, _. reflexivity.
Qed.

Lemma strip_prefix_suffix pre name name' :
  strip_prefix pre name = Some name' -> no_byte x00 name = true ->
  no_byte x00 name' = true /\ (length name' <= length name)%nat.
Proof.
  revert name. induction pre as [|p pre IH]; intros name; simpl.
  - intros [= <-]. easy.
  - destruct name as [|c name]; [discriminate|].
    destruct (decide (p = c)); [|discriminate].
    intros Hstrip Hname. apply no_byte_cons in Hname as [_ Hname].
    destruct (IH _ Hstrip Hname). simpl. split; [easy|lia].
Qed.

(** What the lookup designates stands for what the trie maps the name
    to. *)
Let designates (found : option (list byte)) (res : option (nat * nat)) : Prop :=
  match found with
  | Some name =>
      exists pos,
        res = Some (pos, length name) /\ take (length name) (drop pos data) = name
  | None => res = None
  end.

Lemma find_from_step fuel name p q name' bb' :
  depmod_index_find_node depmod name (BB p q) = (Ok (step_continue name'), bb') ->
  depmod_index_find_from (S fuel) depmod name (BB p q)
  = depmod_index_find_from fuel depmod name' bb'.
Proof.
  intros Hnode. unfold depmod_index_find_from. cbn [depmod_index_find_loop].
  now rewrite Hnode.
Qed.

Lemma find_from_not_found fuel name p q bb' :
  depmod_index_find_node depmod name (BB p q) = (Ok step_not_found, bb') ->
  depmod_index_find_from (S fuel) depmod name (BB p q) = Some (Ok None).
Proof.
  intros Hnode. unfold depmod_index_find_from. cbn [depmod_index_find_loop].
  now rewrite Hnode.
Qed.

Lemma find_from_break fuel name p q offset bb' :
  depmod_index_find_node depmod name (BB p q) = (Ok (step_break offset), bb') ->
  depmod_index_find_from (S fuel) depmod name (BB p q)
  = Some (depmod_index_find_value offset bb').1.
Proof.
  intros Hnode. unfold depmod_index_find_from. cbn [depmod_index_find_loop].
  now rewrite Hnode.
Qed.

(** The lookup from a slot that holds the tagged offset of a node
    serialising [t] finds what [t] maps the name to. *)
Lemma find_from_trie t :
  forall offset name p q fuel,
    trie_at data offset t = true ->
    (p + 4 <= length data)%nat -> be32 (drop p data) = offset ->
    no_byte x00 name = true -> (length name < fuel)%nat ->
    exists res,
      depmod_index_find_from fuel depmod name (BB p q) = Some (Ok res) /\
      designates (trie_lookup t name) res.
Proof.
  induction t as [prefix first kids IHkids values| |t IHt ts IHts]
    using trie_tries_ind
    with (P0 := fun ts =>
      forall i name p q fuel,
        tries_at data p ts = true -> (i < tries_length ts)%nat ->
        no_byte x00 name = true -> (length name < fuel)%nat ->
        exists res,
          depmod_index_find_from fuel depmod name (BB (p + 4 * i) q)
          = Some (Ok res) /\
          designates (tries_lookup ts i name) res).
  - (* a node *)
    intros offset name p q fuel Hat Hp Hoffset Hname Hfuel.
    destruct fuel as [|fuel]; [clear - Hfuel; lia|].
    cbn [trie_at] in Hat.
    apply andb_prop in Hat as [Hat Hvalues]. apply andb_prop in Hat as [Hat Hchilds].
    apply andb_prop in Hat as [Hat Hprefix]. apply andb_prop in Hat as [Hat Hfv].
    apply andb_prop in Hat as [Hat Hfc]. apply andb_prop in Hat as [Hat Hfp].
    apply andb_prop in Hat as [Hat Hp0]. apply andb_prop in Hat as [Hlo Hhi].
    apply bool_decide_eq_true in Hfv, Hfc, Hfp. apply Nat.leb_le in Hp0.
    assert (0 <= Z.land offset INDEX_NODE_MASK) as Hmask
      by (apply Z.land_nonneg; right; discriminate).
    set (p0 := Z.to_nat (Z.land offset INDEX_NODE_MASK)) in *.
    set (p1 := match prefix with
               | Some pre => (p0 + length pre + 1)%nat
               | None => p0
               end) in *.
    destruct (find_prefix_at offset prefix name p0 p Hfp Hprefix Hname)
      as [q1 Hpre].
    assert (depmod_index_find_node depmod name (BB p q)
            = match strip_prefix (default [] prefix) name with
              | None => (Ok step_not_found, BB p1 q1)
              | Some name1 => depmod_index_find_childs offset name1 (BB p1 q1)
              end) as Hstep.
    { unfold depmod_index_find_node.
      erewrite st_bind_ok by (apply next_u32_at; exact Hp). rewrite Hoffset.
      cbn [depmod_len depmod].
      destruct (Z.of_nat (length data) <? Z.land offset INDEX_NODE_MASK) eqn:Hoob;
        [apply Z.ltb_lt in Hoob; unfold p0 in Hp0; clear - Hoob Hp0 Hmask; lia|].
      erewrite st_bind_ok by reflexivity.
      erewrite st_bind_ok by exact Hpre.
      now destruct (strip_prefix (default [] prefix) name). }
    cbn [trie_lookup].
    destruct (strip_prefix (default [] prefix) name) as [name1|] eqn:Hstrip.
    2:{ exists None. split; [|reflexivity].
        eapply find_from_not_found. exact Hstep. }
    destruct (strip_prefix_suffix _ _ _ Hstrip Hname) as [Hname1 Hlen1].
    pose proof (find_childs_at offset first kids name1 p1 q1 Hfc Hchilds Hname1)
      as Hkids.
    destruct name1 as [|c name'].
    + destruct Hkids as [q2 Hkids]. rewrite Hkids in Hstep.
      rewrite (find_from_break _ _ _ _ _ _ Hstep).
      destruct (find_value_at offset values _ q2 Hfv Hvalues) as (res & Hres & Hpath).
      exists res. split; [now rewrite Hres|].
      unfold designates. destruct (first_path values); [|assumption].
      eexists. exact Hpath.
    + destruct first as [fb|].
      * destruct ((u8 fb <=? u8 c)
                  && (u8 c <? u8 fb + Z.of_nat (tries_length kids))) eqn:Hrange.
        -- destruct Hkids as [q2 Hkids]. rewrite Hkids in Hstep.
           rewrite (find_from_step _ _ _ _ _ _ Hstep).
           apply andb_prop in Hchilds as [_ Hat].
           apply no_byte_cons in Hname1 as [_ Hname'].
           apply andb_prop in Hrange as [Hlow Hhigh].
           apply Z.leb_le in Hlow. apply Z.ltb_lt in Hhigh.
           apply (IHkids (Z.to_nat (u8 c - u8 fb)) name' (p1 + 2)%nat q2 fuel Hat);
             [clear - Hlow Hhigh; lia|assumption|
              simpl in Hlen1; clear - Hlen1 Hfuel; lia].
        -- destruct Hkids as (pos & q2 & Hkids). rewrite Hkids in Hstep.
           exists None. split; [|reflexivity].
           eapply find_from_not_found. exact Hstep.
      * destruct Hkids as (pos & q2 & Hkids). rewrite Hkids in Hstep.
        exists None. split; [|reflexivity].
        eapply find_from_not_found. exact Hstep.
  - (* no child *)
    intros i name p q fuel _ Hi. simpl in Hi. lia.
  - (* a child and the following ones *)
    intros i name p q fuel Hat Hi Hname Hfuel. cbn [tries_at] in Hat.
    apply andb_prop in Hat as [Hat Hts]. apply andb_prop in Hat as [Hp Ht].
    apply Nat.leb_le in Hp. destruct i as [|i]; cbn [tries_lookup].
    + replace (p + 4 * 0)%nat with p by lia.
      now apply (IHt (be32 (drop p data))).
    + replace (p + 4 * S i)%nat with (p + 4 + 4 * i)%nat by lia.
      apply IHts; [assumption|simpl in Hi; lia|assumption|assumption].
Qed.

End LookupAt.

(** C4 (as amended): on a depmod index that serialises a trie and for a
    module name, [depmod_index_find] returns without error; when the
    walk exhausts the name at a node with a non-empty value list it
    returns the path of the first value record, truncated at its [:],
    and that path's length; when the walk meets a mismatch or a node
    without value it returns a null path and leaves the length as it
    found it: nothing is written to [*len_ret]. *)
Theorem depmod_index_find_lookup depmod t name out :
  depmod_index_of depmod t -> no_byte x00 name = true ->
  exists out',
    depmod_index_find depmod name out = Some (Ok tt, out') /\
    match trie_lookup t name with
    | Some path =>
        depmod_path_bytes depmod out' = Some path /\ len_ret out' = length path
    | None => path_ret out' = None /\ len_ret out' = len_ret out
    end.
Proof.
  intros (data & Haddr & Hlen & H12 & _ & Hat) Hname.
  destruct depmod as [addr len pth]. simpl in Haddr, Hlen. subst addr len.
  destruct (find_from_trie data pth t (be32 (drop 8 data)) name 8 0
              (S (length name)) Hat ltac:(lia) eq_refl Hname ltac:(lia))
    as (res & Hfrom & Hres).
  unfold depmod_index_find, depmod_index_find_from in *.
  unfold depmod_index_buffer_init, binary_buffer_init, bb_set_pos in *.
  cbn [depmod_len depmod_data depmod_addr default bb_data bb_prev
       bb_little_endian bb_error_fn] in *.
  rewrite firstn_all.
  destruct (depmod_index_find_loop _ _ _ _) as [[[[offset|]|e] bb]|];
    try discriminate.
  - destruct (depmod_index_find_value offset bb) as [[[[pos len]|]|e] bb'];
      simpl in Hfrom; try discriminate;
      injection Hfrom as <-; eexists; (split; [reflexivity|]).
    + destruct (trie_lookup t name) as [found|].
      * destruct Hres as (pos' & [= -> ->] & Htake).
        unfold depmod_path_bytes, depmod_data. cbn. now rewrite Htake.
      * discriminate.
    + destruct (trie_lookup t name) as [found|].
      * destruct Hres as (pos' & [=] & _).
      * easy.
  - injection Hfrom as <-. eexists. split; [reflexivity|].
    destruct (trie_lookup t name) as [found|].
    + destruct Hres as (pos' & [=] & _).
    + easy.
Qed.

(** C4, witness: the theorem at the index of scenario S3, for the name
    [foo], which it holds, and for the name [bar], which it does not. *)
Lemma depmod_index_find_lookup_witness :
  depmod_index_of (depmod_mapped depmod_fixture) trie_fixture /\
  no_byte x00 (bytes "foo") = true /\
  (exists out',
     depmod_index_find (depmod_mapped depmod_fixture) (bytes "foo") depmod_out_stale
     = Some (Ok tt, out') /\
     depmod_path_bytes (depmod_mapped depmod_fixture) out'
     = Some (bytes "kernel/drivers/foo.ko.xz") /\
     len_ret out' = 24%nat) /\
  (exists out',
     depmod_index_find (depmod_mapped depmod_fixture) (bytes "bar") depmod_out_stale
     = Some (Ok tt, out') /\
     path_ret out' = None /\ len_ret out' = 7%nat).
Proof.
  assert (depmod_index_of (depmod_mapped depmod_fixture) trie_fixture) as Hof.
  { exists depmod_fixture. repeat split; try reflexivity. vm_compute. lia. }
  split; [exact Hof|]. split; [reflexivity|]. split.
  - exact (depmod_index_find_lookup (depmod_mapped depmod_fixture) trie_fixture
             (bytes "foo") depmod_out_stale Hof eq_refl).
  - exact (depmod_index_find_lookup (depmod_mapped depmod_fixture) trie_fixture
             (bytes "bar") depmod_out_stale Hof eq_refl).
Defined.

(** C4, counterexample: the lookup of [bar], which the index of
    scenario S3 does not hold, returns a null path and no error, and the
    length it returns is the 7 that [*len_ret] held before the call, not
    0. *)
Lemma depmod_index_find_miss_keeps_length :
  trie_lookup trie_fixture (bytes "bar") = None /\
  depmod_index_find (depmod_mapped depmod_fixture) (bytes "bar") depmod_out_stale
  = Some (Ok tt, {| path_ret := None; len_ret := 7 |}) /\
  len_ret {| path_ret := None; len_ret := 7 |} <> 0%nat.
Proof.
  split; [reflexivity|]. split; [vm_compute; reflexivity|]. discriminate.
Qed.

(** ** The module iterator *)

Lemma scan_unsigned_range base p v rest :
  0 <= base -> scan_unsigned base p = Some (v, rest) -> 0 <= v < 2 ^ 64.
Proof.
  intros Hb. unfold scan_unsigned. destruct (st_end _ =? 0)%nat; [discriminate|].
  intros [= <- _]. now apply strtoull_range.
Qed.

Lemma sscanf_proc_modules_2 s end_ start v1 v2 :
  sscanf_proc_modules s end_ start = (2, v1, v2) ->
  0 <= v1 < 2 ^ 64 /\ 0 <= v2 < 2 ^ 64.
Proof.
  unfold sscanf_proc_modules.
  destruct (scan_unsigned 10 (c_string s)) as [[size p]|] eqn:Hsize; [|discriminate].
  destruct (scan_skip_word p) as [p1|]; [|discriminate].
  destruct (scan_skip_word p1) as [p2|]; [|discriminate].
  destruct (scan_skip_word p2) as [p3|]; [|discriminate].
  destruct (scan_unsigned 16 p3) as [[address p4]|] eqn:Haddress; [|discriminate].
  intros [= <- <-]. split; eapply scan_unsigned_range; try eassumption; lia.
Qed.

Lemma wrap64_le start size :
  0 <= start < 2 ^ 64 -> 0 <= size < 2 ^ 64 ->
  (start <= wrap64 (size + start) <-> start + size < 2 ^ 64).
Proof.
  intros Hstart Hsize. unfold wrap64.
  destruct (Z_lt_dec (size + start) (2 ^ 64)) as [Hlt|Hge].
  - rewrite Z.mod_small by lia. lia.
  - replace (size + start) with (size + start - 2 ^ 64 + 1 * 2 ^ 64) by lia.
    rewrite Z.mod_add by lia. rewrite Z.mod_small by lia. lia.
Qed.

Section IteratorProperties.

Context `{TypedObjects}.

Lemma kernel_module_iterator_next_live_size file it it' :
  it_modules_file it = Some file ->
  kernel_module_iterator_next it = (Ok tt, it') ->
  exists size,
    parsed_module_size it it' size /\
    0 <= size < 2 ^ 64 /\ 0 <= it_start it' < 2 ^ 64 /\
    it_end it' = wrap64 (size + it_start it').
Proof.
  intros Hfile. unfold kernel_module_iterator_next, parsed_module_size.
  rewrite Hfile. unfold kernel_module_iterator_next_live.
  destruct (getline file) as [[errno|]|[line file']]; try discriminate.
  destruct (strchr line " "%byte) as [p|] eqn:Hchr; [|discriminate].
  cbn [it_end it_start set_modules_file set_name].
  destruct (sscanf_proc_modules _ _ _) as [[n end_] start] eqn:Hscan.
  destruct (n =? 2) eqn:Hn; [|discriminate]. cbn [negb].
  apply Z.eqb_eq in Hn. subst n.
  intros [= <-]. exists end_. cbn.
  split; [exists line, file', p; easy|].
  apply sscanf_proc_modules_2 in Hscan as [Hend Hstart]. easy.
Qed.

Lemma module_base_and_size_mod it r it' :
  module_base_and_size it = (r, it') -> it_mod it' = it_mod it.
Proof.
  unfold module_base_and_size, st_bind, call.
  repeat (case_match; simplify_eq; try discriminate); now intros [= <- <-].
Qed.

Lemma kernel_module_iterator_next_walk_size it it' :
  it_modules_file it = None ->
  kernel_module_iterator_next it = (Ok tt, it') ->
  exists size,
    parsed_module_size it it' size /\
    0 <= size < 2 ^ 64 /\ 0 <= it_start it' < 2 ^ 64 /\
    it_end it' = wrap64 (size + it_start it').
Proof.
  intros Hfile. unfold kernel_module_iterator_next, parsed_module_size.
  rewrite Hfile.
  unfold st_bind, call, st_fail.
  repeat (case_match; simplify_eq; try discriminate).
  intros [= <-]. simpl.
  match goal with
  | Hbase : module_base_and_size ?it0 = (Ok ?u, ?k) |- _ =>
      destruct u; pose proof (module_base_and_size_mod _ _ _ Hbase) as Hmod;
      exists a5; split; [exists it0, k; easy|]
  end.
  repeat match goal with
         | Hread : drgn_object_read_unsigned _ = Ok _ |- _ =>
             apply drgn_object_read_unsigned_range in Hread
         end.
  easy.
Qed.

(** C8 (as amended): every module the iterator emits, from either
    backend, has [end] equal to [start] plus the size the iterator has
    read for it, in 64-bit unsigned arithmetic, that is modulo [2^64]:
    the size is the first number the [sscanf] of the line of
    [/proc/modules] converts, or the value read from the size member
    that [module_base_and_size] selects for the module.  [start <= end]
    holds exactly when that sum does not wrap around. *)
Theorem kernel_module_iterator_next_range (it it' : kernel_module_iterator) :
  kernel_module_iterator_next it = (Ok tt, it') ->
  exists size,
    parsed_module_size it it' size /\
    0 <= size < 2 ^ 64 /\ 0 <= it_start it' < 2 ^ 64 /\
    it_end it' = wrap64 (size + it_start it') /\
    (it_start it' <= it_end it' <-> it_start it' + size < 2 ^ 64).
Proof.
  intros Hnext.
  assert (exists size,
            parsed_module_size it it' size /\
            0 <= size < 2 ^ 64 /\ 0 <= it_start it' < 2 ^ 64 /\
            it_end it' = wrap64 (size + it_start it'))
    as (size & Hparsed & Hsize & Hstart & Hend).
  { destruct (it_modules_file it) as [file|] eqn:Hfile.
    - eapply kernel_module_iterator_next_live_size; eassumption.
    - eapply kernel_module_iterator_next_walk_size; eassumption. }
  exists size. split; [exact Hparsed|]. split; [exact Hsize|].
  split; [exact Hstart|]. split; [exact Hend|].
  rewrite Hend. now apply wrap64_le.
Qed.

End IteratorProperties.

(** C8, witness: the first module of the live backend. *)
Lemma kernel_module_iterator_next_range_witness :
  (kernel_module_iterator_next toy_iterator_live).1 = Ok tt /\
  exists size,
    parsed_module_size toy_iterator_live
      (kernel_module_iterator_next toy_iterator_live).2 size /\
    0 <= size < 2 ^ 64 /\
    0 <= it_start (kernel_module_iterator_next toy_iterator_live).2 < 2 ^ 64 /\
    it_end (kernel_module_iterator_next toy_iterator_live).2
    = wrap64 (size + it_start (kernel_module_iterator_next toy_iterator_live).2) /\
    (it_start (kernel_module_iterator_next toy_iterator_live).2
     <= it_end (kernel_module_iterator_next toy_iterator_live).2 <->
     it_start (kernel_module_iterator_next toy_iterator_live).2 + size < 2 ^ 64).
Proof.
  assert ((kernel_module_iterator_next toy_iterator_live).1 = Ok tt) as Hok
    by (vm_compute; reflexivity).
  split; [exact Hok|].
  apply (kernel_module_iterator_next_range toy_iterator_live).
  rewrite <- Hok. apply surjective_pairing.
Defined.

(** C8, counterexample: the module [top], of size 4096 at
    [0xfffffffffffff800], is emitted by the live backend and by the
    kernel-walk backend with [end = 0x800], below [start]. *)
Lemma kernel_module_iterator_end_wraps :
  (let it1 := (kernel_module_iterator_next toy_iterator_live).2 in
   let r := kernel_module_iterator_next it1 in
   r.1 = Ok tt /\ it_name r.2 = Some (bytes "top") /\
   it_start r.2 = 0xfffffffffffff800 /\ it_end r.2 = 0x800 /\
   ~ it_start r.2 <= it_end r.2) /\
  (let it1 := (kernel_module_iterator_next (toy_iterator_walk false)).2 in
   let r := kernel_module_iterator_next it1 in
   r.1 = Ok tt /\ it_name r.2 = Some (bytes "top") /\
   it_start r.2 = 0xfffffffffffff800 /\ it_end r.2 = 0x800 /\
   ~ it_start r.2 <= it_end r.2).
Proof.
  split; vm_compute; repeat split; try reflexivity; intros H; now apply H.
Qed.

(** C7: in the kernel-walk backends, once the steps before the fallback
    site have succeeded, what [kernel_module_iterator_next] returns is
    decided by the read of [module->core_layout]: when it succeeds the
    base and size are its [base] and [size] members; when it fails with
    a lookup error they are [module->module_core] and
    [module->core_size]; when it fails with an error of any other kind
    that error is returned unchanged.  Likewise
    [kernel_module_section_iterator_next] takes the name from
    [battr.attr] when the attribute has a [battr] member, from the
    attribute itself after a lookup error, and returns an error of any
    other kind unchanged.  An error met on the fallback path itself is
    returned whatever its kind. *)
Theorem lookup_error_selects_fallback `{TypedObjects}
    (it : kernel_module_iterator) (sit : kernel_module_section_iterator)
    n1 n2 addr m a ad v :
  it_modules_file it = None ->
  drgn_object_member_dereference (it_node it) "next" = Ok n1 ->
  drgn_object_read n1 = Ok n2 ->
  drgn_object_read_unsigned n2 = Ok addr -> addr <> it_head it ->
  drgn_object_container_of n2 (it_module_type it) "list" = Ok m ->
  sit_sections_dir sit = None -> sit_i sit < sit_nsections sit ->
  drgn_object_subscript (it_tmp1 (sit_kmod_it sit)) (sit_i sit) = Ok a ->
  drgn_object_member a "address" = Ok ad ->
  drgn_object_read_unsigned ad = Ok v ->
  let finish base size :=
    let* _ := drgn_object_read_unsigned base in
    let* _ := drgn_object_read_unsigned size in
    let* name := drgn_object_member_dereference m "name" in
    let* _ := drgn_object_read_c_string name in
    Ok tt in
  let named holder :=
    let* name := drgn_object_member holder "name" in
    let* s := drgn_object_read_c_string name in
    Ok (s, v) in
  (kernel_module_iterator_next it).1
  = match drgn_object_member_dereference m "core_layout" with
    | Ok layout =>
        let* size := drgn_object_member layout "size" in
        let* base := drgn_object_member layout "base" in
        finish base size
    | Err err =>
        if decide (error_code err = DRGN_ERROR_LOOKUP) then
          let* size := drgn_object_member_dereference m "core_size" in
          let* base := drgn_object_member_dereference m "module_core" in
          finish base size
        else Err err
    end /\
  (forall it',
     kernel_module_iterator_next it = (Ok tt, it') ->
     exists base size sz,
       drgn_object_read_unsigned base = Ok (it_start it') /\
       drgn_object_read_unsigned size = Ok sz /\
       it_end it' = wrap64 (sz + it_start it') /\
       match drgn_object_member_dereference m "core_layout" with
       | Ok layout =>
           drgn_object_member layout "base" = Ok base /\
           drgn_object_member layout "size" = Ok size
       | Err err =>
           error_code err = DRGN_ERROR_LOOKUP /\
           drgn_object_member_dereference m "module_core" = Ok base /\
           drgn_object_member_dereference m "core_size" = Ok size
       end) /\
  (kernel_module_section_iterator_next sit).1
  = match drgn_object_member a "battr" with
    | Ok battr =>
        let* attr := drgn_object_member battr "attr" in
        named attr
    | Err err =>
        if decide (error_code err = DRGN_ERROR_LOOKUP) then named a
        else Err err
    end.
Proof.
  intros Hfile Hnext Hread Haddr Hhead Hmod Hdir Hi Hsub Haddress Hv finish named.
  split; [|split].
  - unfold kernel_module_iterator_next. rewrite Hfile.
    unfold st_bind, call, st_fail, module_base_and_size. simpl.
    rewrite Hnext. simpl. rewrite Hread. simpl. rewrite Haddr.
    destruct (addr =? it_head it) eqn:Heq; [lia|]. simpl. rewrite Hmod. simpl.
    unfold finish, bind, st_bind, call.
    repeat (case_match; simplify_eq; simpl in *; try reflexivity; try congruence).
  - intros it'. unfold kernel_module_iterator_next. rewrite Hfile.
    unfold st_bind, call, st_fail, module_base_and_size. simpl.
    rewrite Hnext. simpl. rewrite Hread. simpl. rewrite Haddr.
    destruct (addr =? it_head it) eqn:Heq; [lia|]. simpl. rewrite Hmod. simpl.
    unfold st_bind, call.
    repeat (case_match; simplify_eq; simpl in *; try discriminate);
      intros [= <-]; simpl; eexists _, _, _; eauto 10.
  - unfold kernel_module_section_iterator_next. rewrite Hdir.
    destruct (sit_nsections sit <=? sit_i sit) eqn:Hle; [lia|].
    unfold st_bind, call_kmod, call, section_name_holder. simpl.
    rewrite Hsub. simpl. rewrite Haddress. simpl. rewrite Hv.
    unfold named, bind, call_kmod, call.
    repeat (case_match; simplify_eq; simpl in *; try reflexivity; try congruence).
Qed.

(** C7, witness: the theorem on the toy kernel with the old structure
    layout, where both reads fail with a lookup error and the iterators
    emit the module [foo] at [module_core] and its section [.text]. *)
Lemma lookup_error_selects_fallback_witness :
  it_modules_file (toy_iterator_walk true) = None /\
  sit_sections_dir (toy_sections true) = None /\
  (exists err,
     drgn_object_member_dereference (TypedObjects := toy_kernel true toy_modules)
       (toy_struct 1) "core_layout" = Err err /\
     error_code err = DRGN_ERROR_LOOKUP) /\
  (kernel_module_iterator_next (toy_iterator_walk true)).1 = Ok tt /\
  (kernel_module_section_iterator_next (toy_sections true)).1
  = Ok (bytes ".text", 0xffffffffa0000000).
Proof.
  split; [reflexivity|]. split; [reflexivity|].
  split; [eexists; split; reflexivity|].
  assert (0xffffffff82001000 <> it_head (toy_iterator_walk true)) as Hhead
    by (vm_compute; discriminate).
  destruct (lookup_error_selects_fallback
              (toy_iterator_walk true) (toy_sections true)
              (toy_list 1) (toy_list 1) 0xffffffff82001000 (toy_struct 1)
              (toy_section 1 0 []) (toy_section 1 0 ["address"%string])
              0xffffffffa0000000
              eq_refl eq_refl eq_refl eq_refl Hhead eq_refl eq_refl eq_refl
              eq_refl eq_refl eq_refl) as (Hmodule & _ & Hsection).
  split; [rewrite Hmodule|rewrite Hsection]; reflexivity.
Defined.

(** ** The discovery coordinator *)

Lemma drgn_debug_info_report_error_result name message err load r load' :
  drgn_debug_info_report_error name message err load = (r, load') ->
  (r = Ok tt /\
   load_errors load' = load_errors load
                       ++ [{| ee_name := name; ee_message := message; ee_err := err |}]
   /\ load_elfs load' = load_elfs load)
  \/ (r = Err drgn_enomem /\ load' = load).
Proof.
  unfold drgn_debug_info_report_error, load_spend.
  repeat case_match; simplify_eq; intros [= <- <-]; auto.
Qed.

(** C10: when the table of candidate module files is in use and the
    build ID of a loaded module cannot be extracted (an error, or an
    empty build ID), the body of the loop makes one call of the indexer,
    the report of "could not find GNU build ID" for the module with the
    error as its cause, and does nothing else: no file is reported, the
    depmod index is neither opened nor searched, whether or not default
    loading is enabled and the module is indexed.  Unless the cause is
    memory exhaustion or the indexer aborts, the error is recorded and
    the loop goes on to the next module; in these two cases, and only
    then, the loop stops with the indexer's error. *)
Theorem missing_build_id_skips_depmod h uninitialized m depmod co :
  (exists err, lm_gnu_build_id m = Err err) \/ lm_gnu_build_id m = Ok [] ->
  let cause := match lm_gnu_build_id m with
               | Err err => Some err
               | Ok _ => None
               end in
  exists ctl load',
    report_loaded_kernel_modules_body h uninitialized m true depmod co
    = Some (ctl, co_set_load load' co) /\
    drgn_debug_info_report_error (Some (lm_name m))
      (Some "could not find GNU build ID"%string) cause (co_load co)
    = (match ctl with
       | loop_next _ => Ok tt
       | loop_break err => Err err
       end, load') /\
    load_elfs load' = load_elfs (co_load co) /\
    (cause <> Some drgn_enomem -> load_budget (co_load co) <> Some 0%nat ->
     ctl = loop_next depmod /\
     load_errors load'
     = load_errors (co_load co)
       ++ [{| ee_name := Some (lm_name m);
              ee_message := Some "could not find GNU build ID"%string;
              ee_err := cause |}]) /\
    (cause = Some drgn_enomem \/ load_budget (co_load co) = Some 0%nat ->
     ctl = loop_break drgn_enomem /\ load' = co_load co).
Proof.
  intros Hid cause.
  assert (report_loaded_kernel_module m co
          = Some (with_load (drgn_debug_info_report_error (Some (lm_name m))
                               (Some "could not find GNU build ID"%string) cause)
                    co)) as Hmodule.
  { unfold report_loaded_kernel_module, cause.
    destruct Hid as [[err Hid]|Hid]; now rewrite Hid. }
  unfold report_loaded_kernel_modules_body. rewrite Hmodule. unfold with_load.
  destruct (drgn_debug_info_report_error (Some (lm_name m))
              (Some "could not find GNU build ID"%string) cause (co_load co))
    as [r load'] eqn:Hreport.
  pose proof Hreport as Hresult.
  apply drgn_debug_info_report_error_result in Hresult
    as [(-> & Herrors & Helfs)|(-> & ->)].
  - exists (loop_next depmod), load'. split; [reflexivity|].
    split; [reflexivity|]. split; [exact Helfs|]. split; [now intros _ _|].
    intros Habort. exfalso. revert Hreport.
    unfold drgn_debug_info_report_error, load_spend.
    destruct Habort as [->| ->]; [discriminate|].
    destruct cause as [[]|]; discriminate.
  - exists (loop_break drgn_enomem), (co_load co). split; [reflexivity|].
    split; [reflexivity|]. split; [reflexivity|]. split; [|easy].
    intros Hcause Hbudget. exfalso. revert Hreport.
    unfold drgn_debug_info_report_error, load_spend.
    destruct cause as [[]|]; try congruence;
      destruct (load_budget (co_load co)) as [[|n]|]; try congruence; discriminate.
Qed.

(** C10, witness: the module [foo] with an unreadable build ID, while
    default loading is enabled, [foo] is not indexed and depmod holds
    it. *)
Lemma missing_build_id_skips_depmod_witness :
  ((exists err, lm_gnu_build_id module_no_build_id = Err err)
   \/ lm_gnu_build_id module_no_build_id = Ok []) /\
  let cause := Some (drgn_error_create_os "opendir" ENOENT
                       (Some (bytes "/sys/module/foo/notes"))) in
  exists ctl load',
    report_loaded_kernel_modules_body (host_fixture [module_no_build_id])
      depmod_out_stale module_no_build_id true true coordinator_fixture
    = Some (ctl, co_set_load load' coordinator_fixture) /\
    drgn_debug_info_report_error (Some (bytes "foo"))
      (Some "could not find GNU build ID"%string) cause
      (co_load coordinator_fixture)
    = (match ctl with
       | loop_next _ => Ok tt
       | loop_break err => Err err
       end, load') /\
    load_elfs load' = load_elfs (co_load coordinator_fixture) /\
    (cause <> Some drgn_enomem ->
     load_budget (co_load coordinator_fixture) <> Some 0%nat ->
     ctl = loop_next true /\
     load_errors load'
     = load_errors (co_load coordinator_fixture)
       ++ [{| ee_name := Some (bytes "foo");
              ee_message := Some "could not find GNU build ID"%string;
              ee_err := cause |}]) /\
    (cause = Some drgn_enomem \/
     load_budget (co_load coordinator_fixture) = Some 0%nat ->
     ctl = loop_break drgn_enomem /\ load' = co_load coordinator_fixture).
Proof.
  assert ((exists err, lm_gnu_build_id module_no_build_id = Err err)
          \/ lm_gnu_build_id module_no_build_id = Ok []) as Hid
    by (left; eexists; reflexivity).
  split; [exact Hid|].
  exact (missing_build_id_skips_depmod (host_fixture [module_no_build_id])
           depmod_out_stale module_no_build_id true coordinator_fixture Hid).
Defined.

(** The same module with a build ID that no candidate file has is
    looked up in depmod, and the file found there is reported. *)
Example unmatched_build_id_uses_depmod :
  exists co,
    report_loaded_kernel_modules_body (host_fixture [module_B])
      depmod_out_stale module_B true true
      (co_set_kmods [] coordinator_fixture)
    = Some (loop_next true, co) /\
    er_path <$> load_elfs (co_load co)
    = [bytes "/lib/modules/6.1.0/kernel/drivers/foo.ko.xz"] /\
    load_errors (co_load co) = [].
Proof.
  eexists. split; [vm_compute; reflexivity|]. split; reflexivity.
Qed.

(** *** Chains *)

Lemma linked_from_insert kmods head l j kmod :
  j ∉ l -> linked_from kmods head l -> linked_from (<[j := kmod]> kmods) head l.
Proof.
  revert head. induction l as [|k l IH]; intros head Hj; simpl; [easy|].
  apply not_elem_of_cons in Hj as [Hjk Hj].
  intros (-> & kmod' & Hk & Hl). split; [reflexivity|].
  exists kmod'. split; [|now apply IH].
  rewrite list_lookup_insert_ne; [assumption|congruence].
Qed.

Lemma files_with_key_lt kmods key n i :
  i ∈ files_with_key kmods key n -> (i < n)%nat.
Proof.
  unfold files_with_key. rewrite list_elem_of_filter, elem_of_seq. lia.
Qed.

Lemma files_with_key_S kmods key n :
  files_with_key kmods key (S n)
  = files_with_key kmods key n
    ++ (if decide (kmods !! n ≫= kmod_key = Some key) then [n] else []).
Proof.
  unfold files_with_key. rewrite seq_S, filter_app. simpl. f_equal.
Qed.

Lemma files_with_key_NoDup kmods key n : NoDup (files_with_key kmods key n).
Proof. apply NoDup_filter, NoDup_seq. Qed.

Lemma drgn_debug_info_report_error_unlimited name message err load :
  load_budget load = None -> err <> Some drgn_enomem ->
  exists load',
    drgn_debug_info_report_error name message err load = (Ok tt, load') /\
    load_budget load' = None /\ load_elfs load' = load_elfs load.
Proof.
  intros Hbudget Herr. unfold drgn_debug_info_report_error, load_spend.
  rewrite Hbudget. simpl.
  destruct err as [[]|]; try congruence; eexists; (split; [reflexivity|]); easy.
Qed.

Lemma drgn_debug_info_report_elf_unlimited r load :
  load_budget load = None ->
  exists load',
    drgn_debug_info_report_elf r load = (Ok tt, load') /\
    load_budget load' = None /\ load_elfs load' = load_elfs load ++ [r].
Proof.
  intros Hbudget. unfold drgn_debug_info_report_elf, load_spend.
  rewrite Hbudget. simpl. eexists. split; [reflexivity|]. easy.
Qed.

Lemma kernel_module_table_fill_step orig j todo co :
  table_filled orig j co -> (j < length orig)%nat ->
  exists co',
    kernel_module_table_fill (j :: todo) co = kernel_module_table_fill todo co' /\
    table_filled orig (S j) co' /\
    load_elfs (co_load co') = load_elfs (co_load co).
Proof.
  intros (Hbudget & Hlen & Hsame & Hchains) Hj.
  destruct (lookup_lt_is_Some_2 orig j Hj) as [kmod0 Hkmod0].
  destruct (Hsame j kmod0 Hkmod0) as (kmod & Hkmod & Hpath & Hfd & Helf).
  assert (kmod_elf kmod ≫= elf_gnu_build_id = orig !! j ≫= kmod_key) as Hkey
    by (rewrite Hkmod0; unfold kmod_key; simpl; now rewrite Helf).
  cbn [kernel_module_table_fill]. rewrite Hkmod, Hkey.
  destruct (orig !! j ≫= kmod_key) as [key_j|] eqn:Hkey_j.
  - eexists. split; [reflexivity|]. split; [|reflexivity].
    split; [exact Hbudget|]. split; [simpl; now rewrite length_insert|]. split.
    + intros i kmod1 Hi. simpl. destruct (decide (i = j)) as [->|Hne].
      * rewrite list_lookup_insert_eq by lia. eexists. split; [reflexivity|].
        simpl. rewrite Hi in Hkmod0. now injection Hkmod0 as ->.
      * rewrite list_lookup_insert_ne by congruence. now apply Hsame.
    + intros key. simpl. rewrite files_with_key_S.
      assert (j ∉ reverse (files_with_key orig key j)) as Hnotin.
      { rewrite elem_of_reverse. intros Hin%files_with_key_lt. lia. }
      destruct (decide (key_j = key)) as [->|Hne].
      * rewrite lookup_insert_eq. rewrite decide_True by assumption.
        rewrite reverse_app. simpl. split; [reflexivity|].
        eexists. split; [apply list_lookup_insert_eq; lia|]. simpl.
        apply linked_from_insert; [assumption|apply Hchains].
      * rewrite lookup_insert_ne by assumption.
        rewrite decide_False by congruence. rewrite app_nil_r.
        apply linked_from_insert; [assumption|apply Hchains].
  - destruct (drgn_debug_info_report_error_unlimited (Some (kmod_path kmod)) None
                (Some drgn_error_libelf) (co_load co) Hbudget ltac:(discriminate))
      as (load' & Hreport & Hbudget' & Helfs).
    unfold with_load. rewrite Hreport.
    exists (co_set_load load' co). split; [reflexivity|]. split; [|exact Helfs].
    split; [exact Hbudget'|]. split; [exact Hlen|]. split; [exact Hsame|].
    intros key. simpl. rewrite files_with_key_S.
    rewrite decide_False by (rewrite Hkey_j; discriminate).
    rewrite app_nil_r. apply Hchains.
Qed.

Lemma kernel_module_table_fill_seq orig k j co :
  table_filled orig j co -> (j + k <= length orig)%nat ->
  exists co',
    kernel_module_table_fill (seq j k) co = (Ok tt, co') /\
    table_filled orig (j + k) co' /\
    load_elfs (co_load co') = load_elfs (co_load co).
Proof.
  revert j co. induction k as [|k IH]; intros j co Hinv Hjk.
  - exists co. rewrite Nat.add_0_r. easy.
  - simpl seq.
    destruct (kernel_module_table_fill_step orig j (seq (S j) k) co Hinv
                ltac:(lia)) as (co1 & -> & Hinv1 & Helfs1).
    destruct (IH (S j) co1 Hinv1 ltac:(lia)) as (co' & Hfill & Hinv' & Helfs').
    exists co'. split; [exact Hfill|].
    replace (j + S k)%nat with (S j + k)%nat by lia.
    split; [exact Hinv'|congruence].
Qed.

Lemma report_chain_linked m (kmods0 : list kernel_module_file) l :
  forall fuel k co,
    linked_from (co_kmods co) (Some k) l -> NoDup l -> (length l <= fuel)%nat ->
    load_budget (co_load co) = None ->
    (forall i, i ∈ l -> co_kmods co !! i = kmods0 !! i) ->
    (forall i, i ∈ l -> is_Some (kmods0 !! i ≫= patched_report m)) ->
    exists co',
      report_chain fuel m k co = Some (Ok tt, co') /\
      load_elfs (co_load co')
      = load_elfs (co_load co)
        ++ omap (fun i => kmods0 !! i ≫= patched_report m) l /\
      co_table co' = co_table co.
Proof.
  induction l as [|k0 l IH]; intros fuel k co Hlinked Hnodup Hfuel Hbudget Hsame Hok.
  { simpl in Hlinked. discriminate. }
  destruct Hlinked as ([= <-] & kmod & Hk & Hnext).
  apply NoDup_cons in Hnodup as [Hnotin Hnodup].
  destruct fuel as [|fuel]; [simpl in Hfuel; lia|].
  destruct (Hok k ltac:(left)) as [rpt Hrpt].
  rewrite <- (Hsame k ltac:(left)), Hk in Hrpt. simpl in Hrpt.
  unfold patched_report in Hrpt.
  destruct (kmod_elf kmod) as [elf|] eqn:Helf; [|discriminate].
  destruct (cache_kernel_module_sections m elf) as [[[]|e] elf'] eqn:Hcache;
    [|discriminate].
  injection Hrpt as <-.
  cbn [report_chain]. rewrite Hk, Helf, Hcache. cbn [bind].
  match goal with
  | |- context [with_load (drgn_debug_info_report_elf ?r) ?c] =>
      destruct (drgn_debug_info_report_elf_unlimited r (co_load c))
        as (load' & Hreport & Hbudget' & Helfs); [exact Hbudget|];
      unfold with_load; rewrite Hreport
  end.
  cbn [co_load co_set_kmods co_kmods co_set_load].
  assert (omap (fun i => kmods0 !! i ≫= patched_report m) (k :: l)
          = {| er_path := kmod_path kmod; er_fd := kmod_fd kmod; er_elf := elf';
               er_start := lm_start m; er_end := lm_end m;
               er_name := Some (lm_name m) |}
            :: omap (fun i => kmods0 !! i ≫= patched_report m) l) as ->.
  { assert (kmods0 !! k ≫= patched_report m
            = Some {| er_path := kmod_path kmod; er_fd := kmod_fd kmod;
                      er_elf := elf'; er_start := lm_start m; er_end := lm_end m;
                      er_name := Some (lm_name m) |}) as Hk0.
    { rewrite <- (Hsame k ltac:(left)), Hk. simpl.
      unfold patched_report. now rewrite Helf, Hcache. }
    simpl. now rewrite Hk0. }
  destruct l as [|k' l].
  - simpl in Hnext. rewrite Hnext.
    eexists. split; [reflexivity|]. simpl. split; [exact Helfs|reflexivity].
  - destruct Hnext as (Hnext & Hrest). rewrite Hnext.
    match goal with
    | |- context [report_chain fuel m k' ?c] =>
        destruct (IH fuel k' c) as (co' & Hchain & Helfs' & Htable)
    end.
    + simpl. split; [reflexivity|].
      destruct Hrest as (kmod' & Hk' & Hrest). exists kmod'. split.
      * rewrite !list_lookup_insert_ne; [assumption| |];
          intros ->; apply Hnotin; left.
      * do 2 (apply linked_from_insert; [now apply not_elem_of_cons in Hnotin|]).
        exact Hrest.
    + exact Hnodup.
    + simpl in *. lia.
    + exact Hbudget'.
    + intros i Hi. simpl.
      rewrite !list_lookup_insert_ne by (intros ->; contradiction).
      apply Hsame. now right.
    + intros i Hi. apply Hok. now right.
    + exists co'. split; [exact Hchain|]. split; [|exact Htable].
      rewrite Helfs'. simpl. rewrite Helfs. now rewrite <- app_assoc.
Qed.

Lemma table_filled_patched_report orig j co m i :
  table_filled orig j co ->
  co_kmods co !! i ≫= patched_report m = orig !! i ≫= patched_report m.
Proof.
  intros (_ & Hlen & Hsame & _).
  destruct (orig !! i) as [kmod0|] eqn:Hi.
  - destruct (Hsame i kmod0 Hi) as (kmod & -> & Hpath & Hfd & Helf). simpl.
    unfold patched_report. now rewrite Hpath, Hfd, Helf.
  - apply lookup_ge_None in Hi. rewrite lookup_ge_None_2 by lia. reflexivity.
Qed.

(** C2 (as amended): when caller-supplied candidate files share a GNU
    build ID and a loaded module with that build ID is encountered, then,
    provided patching succeeds for each of them and the indexer does not
    abort, every file of the chain is section-patched and reported to
    the indexer at the module's runtime address range and the build-ID
    map entry is removed; the files are reported in the reverse of the
    order in which they were inserted into the map, the file inserted
    last first. *)
Theorem build_id_chain_reported_newest_first load kmods depmod m key :
  load_budget load = None ->
  lm_gnu_build_id m = Ok key -> key <> [] ->
  files_with_key kmods key (length kmods) <> [] ->
  (forall i, i ∈ files_with_key kmods key (length kmods) ->
             is_Some (kmods !! i ≫= patched_report m)) ->
  exists co1 co2,
    kernel_module_table_fill (seq 0 (length kmods))
      {| co_load := load; co_kmods := kmods; co_table := ∅; co_depmod := depmod |}
    = (Ok tt, co1) /\
    is_Some (co_table co1 !! key) /\
    report_loaded_kernel_module m co1 = Some (Ok tt, co2) /\
    load_elfs (co_load co2)
    = load_elfs load
      ++ omap (fun i => kmods !! i ≫= patched_report m)
           (reverse (files_with_key kmods key (length kmods))) /\
    co_table co2 = delete key (co_table co1).
Proof.
  intros Hbudget Hid Hkey Hfiles Hpatch.
  set (co0 := {| co_load := load; co_kmods := kmods; co_table := ∅;
                 co_depmod := depmod |}).
  assert (table_filled kmods 0 co0) as Hinv0.
  { split; [exact Hbudget|]. split; [reflexivity|]. split.
    - intros i kmod0 Hi. exists kmod0. easy.
    - intros key'. simpl. apply lookup_empty. }
  destruct (kernel_module_table_fill_seq kmods (length kmods) 0 co0 Hinv0
              ltac:(lia)) as (co1 & Hfill & Hinv & Helfs).
  simpl in Hinv.
  pose proof Hinv as (Hbudget1 & Hlen1 & Hsame1 & Hchains).
  specialize (Hchains key).
  set (l := reverse (files_with_key kmods key (length kmods))) in *.
  assert (l <> []) as Hl.
  { subst l. intros Hnil. apply Hfiles.
    apply (f_equal reverse) in Hnil. now rewrite reverse_involutive in Hnil. }
  destruct l as [|k l'] eqn:El; [easy|].
  pose proof Hchains as (Hhead & _).
  destruct (report_chain_linked m (co_kmods co1) (k :: l')
              (length (co_kmods co1)) k
              (co_set_table (delete key (co_table co1)) co1))
    as (co2 & Hchain & Helfs2 & Htable2).
  - simpl. split; [reflexivity|]. now destruct Hchains as (_ & Hrest).
  - rewrite <- El. subst l. rewrite reverse_Permutation.
    apply files_with_key_NoDup.
  - rewrite <- El. subst l. rewrite length_reverse, Hlen1.
    unfold files_with_key.
    etransitivity; [apply length_filter|]. now rewrite length_seq.
  - exact Hbudget1.
  - reflexivity.
  - intros i Hi. rewrite (table_filled_patched_report _ _ _ _ _ Hinv).
    apply Hpatch. apply elem_of_reverse. fold l. now rewrite El.
  - exists co1, co2. split; [exact Hfill|]. split; [rewrite Hhead; eauto|].
    split; [|split].
    + unfold report_loaded_kernel_module. rewrite Hid.
      destruct key as [|b key]; [easy|]. now rewrite Hhead.
    + rewrite Helfs2. cbn [co_load co_set_table]. rewrite Helfs.
      subst co0. cbn [co_load]. f_equal.
      apply list_omap_ext, Forall_Forall2_diag, Forall_forall.
      intros i _. apply (table_filled_patched_report _ _ _ _ _ Hinv).
    + exact Htable2.
Qed.

(** C2, witness: the two candidate files of scenario S5 and the module
    with their build ID. *)
Lemma build_id_chain_reported_newest_first_witness :
  load_budget (load_fixture false) = None /\
  lm_gnu_build_id module_B = Ok build_id_B /\
  build_id_B <> [] /\
  files_with_key kmods_fixture build_id_B (length kmods_fixture) = [0; 1]%nat /\
  exists co1 co2,
    kernel_module_table_fill (seq 0 (length kmods_fixture))
      {| co_load := load_fixture false; co_kmods := kmods_fixture; co_table := ∅;
         co_depmod := depmod_unmapped |}
    = (Ok tt, co1) /\
    report_loaded_kernel_module module_B co1 = Some (Ok tt, co2) /\
    er_path <$> load_elfs (co_load co2) = [bytes "second.ko"; bytes "first.ko"] /\
    co_table co2 !! build_id_B = None.
Proof.
  assert (files_with_key kmods_fixture build_id_B (length kmods_fixture)
          = [0; 1]%nat) as Hfiles by (vm_compute; reflexivity).
  split; [reflexivity|]. split; [reflexivity|]. split; [discriminate|].
  split; [exact Hfiles|].
  destruct (build_id_chain_reported_newest_first (load_fixture false)
              kmods_fixture depmod_unmapped module_B build_id_B)
    as (co1 & co2 & Hfill & _ & Hreport & Helfs & Htable).
  - reflexivity.
  - reflexivity.
  - discriminate.
  - rewrite Hfiles. discriminate.
  - rewrite Hfiles. intros i Hi.
    apply elem_of_cons in Hi as [->|Hi]; [vm_compute; eauto|].
    apply elem_of_cons in Hi as [->|Hi]; [vm_compute; eauto|].
    now apply elem_of_nil in Hi.
  - exists co1, co2. split; [exact Hfill|]. split; [exact Hreport|]. split.
    + rewrite Helfs, Hfiles. vm_compute. reflexivity.
    + rewrite Htable. apply lookup_delete_eq.
Defined.

(** C2, counterexample: a whole run of [report_kernel_modules] on the
    two candidate files [first.ko] and [second.ko], inserted in this
    order, and the module with their build ID.  Both are reported at the
    module's range with the runtime address of [.text] patched in, but
    [second.ko] is reported before [first.ko]. *)
Lemma build_id_chain_not_in_insertion_order :
  kmod_path <$> kmods_fixture = [bytes "first.ko"; bytes "second.ko"] /\
  exists load kmods,
    report_kernel_modules (host_fixture [module_B]) depmod_out_stale
      (load_fixture false) kmods_fixture false
    = Some (Ok tt, load, kmods) /\
    er_path <$> load_elfs load = [bytes "second.ko"; bytes "first.ko"] /\
    er_path <$> load_elfs load <> kmod_path <$> kmods_fixture /\
    Forall (fun r => er_start r = 0xffffffffa0000000 /\
                     er_end r = 0xffffffffa0010000 /\
                     (sh_addr ∘ scn_shdr <$> elf_sections (er_elf r))
                     = [0xffffffffa0000000; 0]) (load_elfs load).
Proof.
  split; [reflexivity|].
  eexists _, _. split; [vm_compute; reflexivity|].
  split; [reflexivity|]. split; [discriminate|].
  repeat constructor.
Qed.

(** ** Lines of the VMCOREINFO descriptor *)

Lemma strncmp_eq_take s p :
  no_byte x00 p = true -> strncmp_eq s p (length p) = true -> take (length p) s = p.
Proof.
  revert s. induction p as [|c p IH]; intros s Hp Hcmp; [reflexivity|].
  apply no_byte_cons in Hp as [Hc Hp]. cbn [length strncmp_eq] in Hcmp.
  destruct (decide (deref s = deref (c :: p))) as [Heq|]; [|discriminate].
  cbn [deref hd] in Heq.
  destruct s as [|b s]; cbn [deref hd] in *; [congruence|]. subst b.
  rewrite decide_False in Hcmp by exact Hc. cbn [tl] in Hcmp.
  cbn [length take]. f_equal. now apply IH.
Qed.

Lemma linematch_Some line key line' :
  no_byte x00 (bytes key) = true ->
  linematch line key = Some line' -> line = bytes key ++ line'.
Proof.
  unfold linematch. intros Hkey Hm.
  destruct (strncmp_eq line (bytes key) (length (bytes key))) eqn:Hcmp; [|discriminate].
  injection Hm as <-. apply strncmp_eq_take in Hcmp; [|exact Hkey].
  rewrite <- Hcmp at 1. symmetry. apply take_drop.
Qed.

Lemma memchr_split c p i :
  memchr c p = Some i -> p = take i p ++ c :: drop (S i) p /\ c ∉ take i p.
Proof.
  revert i. induction p as [|b p IH]; intros i Hm; [discriminate|].
  cbn [memchr] in Hm. destruct (decide (b = c)) as [->|Hb].
  - injection Hm as <-. cbn. split; [reflexivity|]. apply not_elem_of_nil.
  - destruct (memchr c p) as [j|]; [|discriminate]. injection Hm as <-.
    destruct (IH j eq_refl) as [Hp Hnot]. cbn [take drop]. split.
    + cbn. f_equal. exact Hp.
    + intros Hin. apply elem_of_cons in Hin as [Heq|Hin]; [congruence|contradiction].
Qed.

Lemma memchr_take_S c p i : memchr c p = Some i -> take (S i) p = take i p ++ [c].
Proof. intros Hm. apply take_S_r. now apply memchr_lookup. Qed.

Lemma memchr_app_no_byte c (pre rest : list byte) :
  no_byte c pre = true ->
  memchr c (pre ++ rest) = (fun j => (length pre + j)%nat) <$> memchr c rest.
Proof.
  induction pre as [|b pre IH]; intros Hpre; cbn [app memchr length].
  - now destruct (memchr c rest).
  - apply no_byte_cons in Hpre as [Hb Hpre].
    rewrite decide_False by exact Hb. rewrite (IH Hpre).
    now destruct (memchr c rest).
Qed.

Lemma memchr_None c (p : list byte) : memchr c p = None <-> c ∉ p.
Proof.
  induction p as [|b p IH]; cbn [memchr].
  - split; [intros _; apply not_elem_of_nil|reflexivity].
  - destruct (decide (b = c)) as [->|Hb].
    + split; [discriminate|]. intros Hn. contradict Hn. left.
    + rewrite not_elem_of_cons. destruct (memchr c p); cbn.
      * split; [discriminate|]. intros [_ Hn]. now apply IH in Hn.
      * split; [intros _; split; [congruence|now apply IH]|reflexivity].
Qed.

Section KeyLines.

Variable key : string.
Hypothesis key_no_newline : no_byte x0a (bytes key) = true.

Lemma terminated_key_line_newline line pre rest n :
  terminated_key_line line key pre rest n -> x0a ∈ line.
Proof.
  intros (_ & -> & Hn). apply memchr_lookup in Hn.
  apply list_elem_of_lookup_2 in Hn. rewrite !elem_of_app. auto.
Qed.

(** The lines of [line] that start with [key] are its first line, if it
    does, and those of what follows the first newline. *)
Lemma terminated_key_line_cases line newline pre rest n :
  memchr x0a line = Some newline ->
  terminated_key_line line key pre rest n <->
  (pre = [] /\ line = bytes key ++ rest /\ memchr x0a rest = Some n) \/
  exists pre',
    pre = take (S newline) line ++ pre' /\
    terminated_key_line (drop (S newline) line) key pre' rest n.
Proof.
  intros Hnl. pose proof (memchr_split _ _ _ Hnl) as [Hline Hfirst].
  pose proof (memchr_take_S _ _ _ Hnl) as Htake.
  split.
  - intros ([->|[p ->]] & Hdesc & Hn); [left; easy|right].
    (* the first newline of [line] lies in [pre] *)
    assert (exists pre', p ++ [x0a] = take (S newline) line ++ pre') as [pre' Hpre].
    { assert (S newline <= length (p ++ [x0a]))%nat as Hle.
      { destruct (le_lt_dec (S newline) (length (p ++ [x0a]))) as [|Hlt]; [assumption|].
        exfalso. apply Hfirst. rewrite Hdesc.
        rewrite take_app_ge by lia. rewrite !elem_of_app.
        left. right. left. }
      exists (drop (S newline) (p ++ [x0a])).
      rewrite Hdesc at 1. rewrite take_app_le by exact Hle.
      now rewrite take_drop. }
    exists pre'. split; [exact Hpre|]. split; [|split; [|exact Hn]].
    + destruct pre' as [|b pre'] using rev_ind; [now left|right].
      rewrite app_assoc in Hpre. apply app_inj_tail in Hpre as [_ <-]. eauto.
    + rewrite Hdesc, Hpre at 1. rewrite <- app_assoc.
      rewrite drop_app_length'; [reflexivity|].
      rewrite length_take. apply memchr_lt in Hnl. lia.
  - intros [(-> & Hdesc & Hn)|(pre' & -> & Hstart & Hdesc & Hn)].
    + split; [now left|]. easy.
    + split; [|split; [|exact Hn]].
      * destruct Hstart as [->|[p ->]].
        -- right. exists (take newline line). now rewrite app_nil_r.
        -- right. exists (take (S newline) line ++ p). now rewrite app_assoc.
      * rewrite <- app_assoc, <- Hdesc. now rewrite take_drop.
Qed.

Lemma first_line_key line newline rest :
  memchr x0a line = Some newline -> line = bytes key ++ rest ->
  exists n, memchr x0a rest = Some n /\ newline = (length (bytes key) + n)%nat.
Proof.
  intros Hnl ->. rewrite memchr_app_no_byte in Hnl by exact key_no_newline.
  destruct (memchr x0a rest) as [n|]; [|discriminate].
  injection Hnl as <-. eauto.
Qed.

Section Field.

Variable sz : nat.
Context {A : Type}.
Variable f : vmcoreinfo -> A.
Variable conv : list byte -> nat -> result A.

Hypothesis line_with_key :
  forall rest n ret ret1,
    memchr x0a rest = Some n ->
    parse_vmcoreinfo_line sz (bytes key ++ rest) (length (bytes key) + n) ret
    = Ok ret1 ->
    conv rest n = Ok (f ret1).

Hypothesis line_without_key :
  forall line newline ret ret1,
    (forall rest, line <> bytes key ++ rest) ->
    parse_vmcoreinfo_line sz line newline ret = Ok ret1 -> f ret1 = f ret.

Lemma parse_vmcoreinfo_loop_last fuel :
  forall line ret r,
    parse_vmcoreinfo_loop sz fuel line ret = Some (Ok r) ->
    from_last_line line key conv (f ret) (f r).
Proof.
  induction fuel as [|fuel IH]; intros line ret r; [discriminate|].
  cbn [parse_vmcoreinfo_loop].
  destruct (memchr x0a line) as [newline|] eqn:Hnl.
  2:{ intros [= <-]. left. split; [|reflexivity].
      intros pre rest n Hkl. apply terminated_key_line_newline in Hkl.
      now apply memchr_None in Hnl. }
  destruct (parse_vmcoreinfo_line sz line newline ret) as [ret1|e] eqn:Hline;
    [|discriminate].
  intros Hloop. specialize (IH _ _ _ Hloop).
  set (line' := drop (S newline) line) in *.
  destruct IH as [[Hnone Hr]|(pre' & rest & n & [Hkl Hlast] & Hconv)].
  - (* no line with the key after the first *)
    destruct (decide (take (length (bytes key)) line = bytes key)) as [Hkey|Hkey].
    + right.
      assert (line = bytes key ++ drop (length (bytes key)) line) as Hdesc
        by (rewrite <- (take_drop (length (bytes key)) line) at 1; now rewrite Hkey).
      destruct (first_line_key _ _ _ Hnl Hdesc) as (n & Hn & ->).
      exists [], (drop (length (bytes key)) line), n. split; [split|].
      * split; [now left|]. easy.
      * intros pre2 rest2 n2 Hkl2.
        apply (terminated_key_line_cases _ _ _ _ _ Hnl) in Hkl2
          as [(-> & _)|(pre2' & _ & Hkl2)]; [reflexivity|].
        now apply Hnone in Hkl2.
      * rewrite Hr. rewrite Hdesc in Hline. now apply (line_with_key _ _ ret).
    + left. split.
      * intros pre rest n Hkl.
        apply (terminated_key_line_cases _ _ _ _ _ Hnl) in Hkl
          as [(-> & Hdesc & _)|(pre2' & _ & Hkl2)]; [|now apply Hnone in Hkl2].
        apply Hkey. rewrite Hdesc. now rewrite take_app_length.
      * rewrite Hr. apply (line_without_key line newline); [|exact Hline].
        intros rest Hdesc. apply Hkey. rewrite Hdesc. now rewrite take_app_length.
  - right. exists (take (S newline) line ++ pre'), rest, n.
    split; [split|exact Hconv].
    + apply (terminated_key_line_cases _ _ _ _ _ Hnl). right. eauto.
    + intros pre2 rest2 n2 Hkl2.
      apply (terminated_key_line_cases _ _ _ _ _ Hnl) in Hkl2
        as [(-> & _)|(pre2' & -> & Hkl2)]; [cbn; lia|].
      rewrite !length_app. specialize (Hlast _ _ _ Hkl2). lia.
Qed.

End Field.

End KeyLines.

(** *** The five keys *)

Ltac other_key :=
  let Hnot := fresh "Hnot" in
  intros line newline ret ret1 Hnot; unfold parse_vmcoreinfo_line;
  repeat match goal with
         | |- context [linematch line ?k] =>
             let Hm := fresh "Hm" in
             destruct (linematch line k) eqn:Hm;
             [try (apply linematch_Some in Hm;
                   [now apply Hnot in Hm|reflexivity])|]
         end;
  unfold bind; repeat case_match; try discriminate;
  intros [= <-]; reflexivity.

Ltac this_key len :=
  intros rest n ret ret1 Hn; unfold parse_vmcoreinfo_line;
  repeat match goal with
         | |- context [linematch ?l ?k] =>
             first [ assert (linematch l k = None) as -> by reflexivity
                   | assert (linematch l k = Some rest) as -> by reflexivity ]
         end;
  change (length (bytes _)) with len;
  replace (len + n - len)%nat with n by lia.

Section Fields.

Variable sz : nat.

Lemma osrelease_line_with_key rest n ret ret1 :
  memchr x0a rest = Some n ->
  parse_vmcoreinfo_line sz (bytes "OSRELEASE=" ++ rest)
    (length (bytes "OSRELEASE=") + n) ret = Ok ret1 ->
  (if (sz <=? n)%nat
   then Err (drgn_error_create DRGN_ERROR_OTHER "OSRELEASE in VMCOREINFO is too long")
   else Ok (take n rest)) = Ok (osrelease ret1).
Proof.
  revert rest n ret ret1. this_key 10%nat.
  destruct (sz <=? n)%nat; [discriminate|]. now intros [= <-].
Qed.

Lemma osrelease_line_without_key line newline ret ret1 :
  (forall rest, line <> bytes "OSRELEASE=" ++ rest) ->
  parse_vmcoreinfo_line sz line newline ret = Ok ret1 -> osrelease ret1 = osrelease ret.
Proof. revert line newline ret ret1. other_key. Qed.

Lemma page_size_line_with_key rest n ret ret1 :
  memchr x0a rest = Some n ->
  parse_vmcoreinfo_line sz (bytes "PAGESIZE=" ++ rest)
    (length (bytes "PAGESIZE=") + n) ret = Ok ret1 ->
  line_to_u64 rest n 0 = Ok (page_size ret1).
Proof.
  revert rest n ret ret1. this_key 9%nat.
  unfold bind. destruct (line_to_u64 rest n 0); [|discriminate]. now intros [= <-].
Qed.

Lemma page_size_line_without_key line newline ret ret1 :
  (forall rest, line <> bytes "PAGESIZE=" ++ rest) ->
  parse_vmcoreinfo_line sz line newline ret = Ok ret1 -> page_size ret1 = page_size ret.
Proof. revert line newline ret ret1. other_key. Qed.

Lemma kaslr_offset_line_with_key rest n ret ret1 :
  memchr x0a rest = Some n ->
  parse_vmcoreinfo_line sz (bytes "KERNELOFFSET=" ++ rest)
    (length (bytes "KERNELOFFSET=") + n) ret = Ok ret1 ->
  line_to_u64 rest n 16 = Ok (kaslr_offset ret1).
Proof.
  revert rest n ret ret1. this_key 13%nat.
  unfold bind. destruct (line_to_u64 rest n 16); [|discriminate]. now intros [= <-].
Qed.

Lemma kaslr_offset_line_without_key line newline ret ret1 :
  (forall rest, line <> bytes "KERNELOFFSET=" ++ rest) ->
  parse_vmcoreinfo_line sz line newline ret = Ok ret1 ->
  kaslr_offset ret1 = kaslr_offset ret.
Proof. revert line newline ret ret1. other_key. Qed.

Lemma swapper_pg_dir_line_with_key rest n ret ret1 :
  memchr x0a rest = Some n ->
  parse_vmcoreinfo_line sz (bytes "SYMBOL(swapper_pg_dir)=" ++ rest)
    (length (bytes "SYMBOL(swapper_pg_dir)=") + n) ret = Ok ret1 ->
  line_to_u64 rest n 16 = Ok (swapper_pg_dir ret1).
Proof.
  revert rest n ret ret1. this_key 23%nat.
  unfold bind. destruct (line_to_u64 rest n 16); [|discriminate]. now intros [= <-].
Qed.

Lemma swapper_pg_dir_line_without_key line newline ret ret1 :
  (forall rest, line <> bytes "SYMBOL(swapper_pg_dir)=" ++ rest) ->
  parse_vmcoreinfo_line sz line newline ret = Ok ret1 ->
  swapper_pg_dir ret1 = swapper_pg_dir ret.
Proof. revert line newline ret ret1. other_key. Qed.

Lemma pgtable_l5_enabled_line_with_key rest n ret ret1 :
  memchr x0a rest = Some n ->
  parse_vmcoreinfo_line sz (bytes "NUMBER(pgtable_l5_enabled)=" ++ rest)
    (length (bytes "NUMBER(pgtable_l5_enabled)=") + n) ret = Ok ret1 ->
  (let* tmp := line_to_u64 rest n 0 in Ok (negb (tmp =? 0)))
  = Ok (pgtable_l5_enabled ret1).
Proof.
  revert rest n ret ret1. this_key 27%nat.
  unfold bind. destruct (line_to_u64 rest n 0); [|discriminate]. now intros [= <-].
Qed.

Lemma pgtable_l5_enabled_line_without_key line newline ret ret1 :
  (forall rest, line <> bytes "NUMBER(pgtable_l5_enabled)=" ++ rest) ->
  parse_vmcoreinfo_line sz line newline ret = Ok ret1 ->
  pgtable_l5_enabled ret1 = pgtable_l5_enabled ret.
Proof. revert line newline ret ret1. other_key. Qed.

End Fields.

(** X1: every field of an accepted VMCOREINFO record is what the last
    line of the descriptor with the field's key gives.  A line counts
    when it starts with the key and ends with a newline.  The release
    is the text of the last [OSRELEASE=] line, shorter than the array
    that holds it; the page size is the last [PAGESIZE=] line converted
    by [line_to_u64] in base 0; the offset and the page-table address
    are the last [KERNELOFFSET=] and [SYMBOL(swapper_pg_dir)=] lines
    converted in base 16, and the five-level flag is whether the last
    [NUMBER(pgtable_l5_enabled)=] line converts to a non-zero number in
    base 0.  When the descriptor has no line with their key, the
    offset is 0, the address is what the caller's record held and the
    flag is false.  A key in the middle of a line, or on a line without
    a newline, sets nothing. *)
Theorem parse_vmcoreinfo_fields_from_lines sz desc ret r :
  parse_vmcoreinfo sz desc ret = Some (Ok r) ->
  (exists pre rest n,
     last_key_line desc "OSRELEASE=" pre rest n /\ (n < sz)%nat /\
     osrelease r = take n rest) /\
  (exists pre rest n,
     last_key_line desc "PAGESIZE=" pre rest n /\
     line_to_u64 rest n 0 = Ok (page_size r)) /\
  from_last_line desc "KERNELOFFSET=" (fun rest n => line_to_u64 rest n 16)
    0 (kaslr_offset r) /\
  from_last_line desc "SYMBOL(swapper_pg_dir)=" (fun rest n => line_to_u64 rest n 16)
    (swapper_pg_dir ret) (swapper_pg_dir r) /\
  from_last_line desc "NUMBER(pgtable_l5_enabled)="
    (fun rest n => let* tmp := line_to_u64 rest n 0 in Ok (negb (tmp =? 0)))
    false (pgtable_l5_enabled r).
Proof.
  unfold parse_vmcoreinfo. intros Hparse.
  destruct (parse_vmcoreinfo_loop _ _ _ _) as [[ret'|e]|] eqn:Hloop;
    try discriminate.
  injection Hparse as Hcheck.
  pose proof (parse_vmcoreinfo_loop_last "OSRELEASE=" eq_refl
                sz osrelease _ (osrelease_line_with_key sz)
                (osrelease_line_without_key sz) _ _ _ _ Hloop) as Hosrelease.
  pose proof (parse_vmcoreinfo_loop_last "PAGESIZE=" eq_refl
                sz page_size _ (page_size_line_with_key sz)
                (page_size_line_without_key sz) _ _ _ _ Hloop) as Hpage.
  pose proof (parse_vmcoreinfo_loop_last "KERNELOFFSET=" eq_refl
                sz kaslr_offset _ (kaslr_offset_line_with_key sz)
                (kaslr_offset_line_without_key sz) _ _ _ _ Hloop) as Hkaslr.
  pose proof (parse_vmcoreinfo_loop_last "SYMBOL(swapper_pg_dir)=" eq_refl
                sz swapper_pg_dir _ (swapper_pg_dir_line_with_key sz)
                (swapper_pg_dir_line_without_key sz) _ _ _ _ Hloop) as Hswapper.
  pose proof (parse_vmcoreinfo_loop_last "NUMBER(pgtable_l5_enabled)=" eq_refl
                sz pgtable_l5_enabled _ (pgtable_l5_enabled_line_with_key sz)
                (pgtable_l5_enabled_line_without_key sz) _ _ _ _ Hloop) as Hl5.
  cbn [osrelease page_size kaslr_offset swapper_pg_dir pgtable_l5_enabled]
    in Hosrelease, Hpage, Hkaslr, Hswapper, Hl5.
  unfold check_vmcoreinfo in Hcheck.
  destruct (decide (deref (osrelease ret') = x00)) as [|Hne]; [discriminate|].
  destruct (page_size ret' =? 0) eqn:Hp; [discriminate|].
  destruct (swapper_pg_dir ret' =? 0); [discriminate|].
  injection Hcheck as <-.
  split; [|split; [|easy]].
  - destruct Hosrelease as [[_ Hnil]|(pre & rest & n & Hlast & Hconv)].
    + rewrite Hnil in Hne. now contradict Hne.
    + exists pre, rest, n. split; [exact Hlast|].
      destruct (sz <=? n)%nat eqn:Hsz; [discriminate|].
      injection Hconv as <-. split; [lia|reflexivity].
  - destruct Hpage as [[_ H0]|Hlast]; [lia|exact Hlast].
Qed.

(** X1, witness: the descriptor of scenario S1. *)
Lemma parse_vmcoreinfo_fields_from_lines_witness :
  let r := {| osrelease := bytes "6.1.0"; page_size := 4096;
              kaslr_offset := 0x1a000000; swapper_pg_dir := 0xffffffff81c0a000;
              pgtable_l5_enabled := false |} in
  (exists pre rest n,
     last_key_line desc_S1 "OSRELEASE=" pre rest n /\ (n < OSRELEASE_SIZE)%nat /\
     osrelease r = take n rest) /\
  (exists pre rest n,
     last_key_line desc_S1 "PAGESIZE=" pre rest n /\
     line_to_u64 rest n 0 = Ok (page_size r)) /\
  from_last_line desc_S1 "KERNELOFFSET=" (fun rest n => line_to_u64 rest n 16)
    0 (kaslr_offset r) /\
  from_last_line desc_S1 "SYMBOL(swapper_pg_dir)="
    (fun rest n => line_to_u64 rest n 16)
    (swapper_pg_dir vmcoreinfo_blank) (swapper_pg_dir r) /\
  from_last_line desc_S1 "NUMBER(pgtable_l5_enabled)="
    (fun rest n => let* tmp := line_to_u64 rest n 0 in Ok (negb (tmp =? 0)))
    false (pgtable_l5_enabled r).
Proof.
  apply (parse_vmcoreinfo_fields_from_lines OSRELEASE_SIZE desc_S1 vmcoreinfo_blank).
  vm_compute. reflexivity.
Defined.

(** ** Lines of [/proc/modules] *)

Lemma no_byte_app c a b : no_byte c (a ++ b) = no_byte c a && no_byte c b.
Proof. unfold no_byte. apply forallb_app. Qed.

Lemma all_digits_no_byte base s c :
  all_digits base s = true -> digit_in base c = None -> no_byte c s = true.
Proof.
  intros Hs Hc. induction s as [|b s IH]; [reflexivity|].
  simpl in Hs. apply andb_prop in Hs as [Hb Hs].
  apply no_byte_cons. split; [|now apply IH].
  intros ->. apply bool_decide_eq_true in Hb as [d Hd]. congruence.
Qed.

Lemma is_word_no_byte w c :
  is_word w = true -> isspace c = true \/ c = x00 -> no_byte c w = true.
Proof.
  unfold is_word. intros Hw Hc. apply andb_prop in Hw as [_ Hw].
  induction w as [|b w IH]; [reflexivity|].
  simpl in Hw. apply andb_prop in Hw as [Hb Hw].
  apply andb_prop in Hb as [Hsp Hnul].
  apply negb_true_iff in Hsp. apply negb_true_iff, bool_decide_eq_false in Hnul.
  apply no_byte_cons. split; [|now apply IH].
  intros ->. destruct Hc as [Hc| ->]; congruence.
Qed.

Lemma getline_nonempty f :
  file_rest f <> [] ->
  getline f
  = let n := match memchr x0a (file_rest f) with
             | Some i => S i
             | None => length (file_rest f)
             end in
    inr (take n (file_rest f),
         {| file_rest := drop n (file_rest f); file_errno := file_errno f |}).
Proof. unfold getline. now destruct (file_rest f). Qed.

Lemma getline_line body rest errno :
  no_byte x0a body = true ->
  getline {| file_rest := body ++ x0a :: rest; file_errno := errno |}
  = inr (body ++ [x0a], {| file_rest := rest; file_errno := errno |}).
Proof.
  intros Hbody. rewrite getline_nonempty by (cbn; now destruct body).
  cbn [file_rest file_errno]. rewrite (memchr_app _ _ _ Hbody). cbv zeta.
  replace (S (length body)) with (length body + 1)%nat by lia.
  rewrite take_app_add', drop_app_add' by reflexivity. reflexivity.
Qed.

Lemma strchr_app name c rest :
  no_byte c name = true -> no_byte x00 name = true ->
  strchr (name ++ c :: rest) c = Some (length name).
Proof.
  intros Hc Hnul. induction name as [|b name IH]; cbn [app strchr length].
  - now rewrite decide_True.
  - apply no_byte_cons in Hc as [Hb Hc]. apply no_byte_cons in Hnul as [Hb0 Hnul].
    rewrite !decide_False by assumption. now rewrite IH.
Qed.

Lemma c_string_app a b : no_byte x00 a = true -> c_string (a ++ b) = a ++ c_string b.
Proof.
  intros Ha. induction a as [|c a IH]; [reflexivity|].
  apply no_byte_cons in Ha as [Hc Ha]. cbn [app c_string].
  rewrite decide_False by exact Hc. now rewrite IH.
Qed.

Lemma deref_c_string p : deref (c_string p) = deref p.
Proof.
  destruct p as [|b p]; [reflexivity|]. cbn [c_string].
  now destruct (decide (b = x00)) as [->|].
Qed.

Lemma has_0x_numeral base s rest :
  s <> [] -> all_digits base s = true -> base <= 16 -> is_x (deref rest) = false ->
  has_0x (s ++ rest) = false.
Proof.
  intros Hne Hs Hb Hrest. destruct s as [|c [|c' s]]; [easy| |].
  - destruct rest as [|r rest]; [reflexivity|]. cbn in *. rewrite Hrest.
    apply andb_false_r.
  - simpl in *. apply andb_prop in Hs as [_ Hs]. apply andb_prop in Hs as [Hc _].
    apply bool_decide_eq_true in Hc as [d Hd].
    destruct (digit_in_inv _ _ _ Hd) as (_ & _ & _ & Hx).
    rewrite (Hx Hb). apply andb_false_r.
Qed.

(** [%lu] on a decimal numeral followed by something else. *)
Lemma scan_unsigned_numeral s rest :
  s <> [] -> all_digits 10 s = true -> numeral 10 s <= UINT64_MAX ->
  digit_in 10 (deref rest) = None -> is_x (deref rest) = false ->
  scan_unsigned 10 (s ++ rest) = Some (numeral 10 s, rest).
Proof.
  intros Hne Hs Hmax Hrest Hx. unfold scan_unsigned.
  rewrite (strtoull_numeral 10 10 s rest Hne Hs Hrest
             (has_0x_numeral 10 s rest Hne Hs ltac:(lia) Hx) eq_refl).
  destruct (UINT64_MAX <? numeral 10 s) eqn:Hlt; [lia|]. cbn [st_end st_value].
  destruct s as [|c s]; [easy|]. cbn [length Nat.eqb].
  change (S (length s)) with (length (c :: s)). now rewrite drop_app_length.
Qed.

Lemma skip_spaces_length p : (length (skip_spaces p) <= length p)%nat.
Proof.
  induction p as [|b p IH]; [reflexivity|]. cbn [skip_spaces].
  destruct (isspace b); cbn [length]; lia.
Qed.

(** White space before a numeral is skipped. *)
Lemma strtoull_space sp p base :
  isspace sp = true ->
  strtoull (sp :: p) base
  = let r := strtoull p base in
    {| st_value := st_value r;
       st_end := if (st_end r =? 0)%nat then 0%nat else S (st_end r);
       st_erange := st_erange r |}.
Proof.
  intros Hsp. unfold strtoull. cbn [skip_spaces]. rewrite Hsp.
  pose proof (skip_spaces_length p) as Hlen.
  replace (length (sp :: p) - length (skip_spaces p))%nat
    with (S (length p - length (skip_spaces p))) by (cbn [length]; lia).
  set (ws := (length p - length (skip_spaces p))%nat).
  destruct (match skip_spaces p with
            | [] => (false, skip_spaces p, 0%nat)
            | b :: p' =>
                if decide (b = "-"%byte) then (true, p', 1%nat)
                else if decide (b = "+"%byte) then (false, p', 1%nat)
                     else (false, skip_spaces p, 0%nat)
            end) as [[neg p1] sg].
  destruct (if has_0x p1 && ((base =? 0) || (base =? 16))
            then (16, drop 2 p1, 2%nat)
            else if base =? 0
                 then (if decide (deref p1 = "0"%byte) then 8 else 10, p1, 0%nat)
                 else (base, p1, 0%nat)) as [[base' p2] pre].
  destruct (scan_digits base' p2 0 0) as [v n].
  destruct n as [|n], pre as [|pre]; cbn [st_value st_end st_erange Nat.eqb];
    try reflexivity.
  - replace (ws + sg + 1 =? 0)%nat with false by lia. f_equal.
  - destruct (UINT64_MAX <? v); cbn [st_value st_end st_erange];
      (replace (ws + sg + 0 + S n =? 0)%nat with false by lia); f_equal.
  - destruct (UINT64_MAX <? v); cbn [st_value st_end st_erange];
      (replace (ws + sg + S pre + S n =? 0)%nat with false by lia); f_equal.
Qed.

(** [%lx] on white space, [0x] and a hexadecimal numeral. *)
Lemma scan_unsigned_space_0x sp s rest :
  isspace sp = true -> s <> [] -> all_digits 16 s = true ->
  numeral 16 s <= UINT64_MAX -> digit_in 16 (deref rest) = None ->
  scan_unsigned 16 (sp :: "0"%byte :: "x"%byte :: s ++ rest)
  = Some (numeral 16 s, rest).
Proof.
  intros Hsp Hne Hs Hmax Hrest. unfold scan_unsigned.
  rewrite (strtoull_space _ _ _ Hsp).
  rewrite (strtoull_0x 16 s rest Hne Hs Hrest ltac:(now right)).
  destruct (UINT64_MAX <? numeral 16 s) eqn:Hlt; [lia|].
  cbn [st_end st_value Nat.eqb plus drop]. f_equal. f_equal.
  now rewrite drop_app_length.
Qed.

Lemma skip_nonspaces_word w sp rest :
  is_word w = true -> isspace sp = true ->
  skip_nonspaces (w ++ sp :: rest) = sp :: rest.
Proof.
  unfold is_word. intros Hw Hsp. apply andb_prop in Hw as [_ Hw].
  induction w as [|b w IH]; cbn [app skip_nonspaces].
  - now rewrite Hsp.
  - simpl in Hw. apply andb_prop in Hw as [Hb Hw]. apply andb_prop in Hb as [Hb _].
    apply negb_true_iff in Hb. rewrite Hb. now apply IH.
Qed.

(** [%*s] on white space and a word. *)
Lemma scan_skip_word_word sp w sp' rest :
  isspace sp = true -> is_word w = true -> isspace sp' = true ->
  scan_skip_word (sp :: w ++ sp' :: rest) = Some (sp' :: rest).
Proof.
  intros Hsp Hw Hsp'. unfold scan_skip_word. cbn [skip_spaces]. rewrite Hsp.
  pose proof Hw as Hw'. unfold is_word in Hw'. apply andb_prop in Hw' as [Hne Hall].
  destruct w as [|b w]; [discriminate|].
  cbn in Hall. apply andb_prop in Hall as [Hb _]. apply andb_prop in Hb as [Hb _].
  apply negb_true_iff in Hb.
  cbn [app skip_spaces]. rewrite Hb.
  change (b :: w ++ sp' :: rest) with ((b :: w) ++ sp' :: rest).
  now rewrite (skip_nonspaces_word _ _ _ Hw Hsp').
Qed.

Lemma sscanf_proc_modules_line size w1 w2 w3 addr tail end_ start :
  size <> [] -> all_digits 10 size = true -> numeral 10 size <= UINT64_MAX ->
  is_word w1 = true -> is_word w2 = true -> is_word w3 = true ->
  addr <> [] -> all_digits 16 addr = true -> numeral 16 addr <= UINT64_MAX ->
  digit_in 16 (deref tail) = None ->
  sscanf_proc_modules
    (size ++ bytes " " ++ w1 ++ bytes " " ++ w2 ++ bytes " " ++ w3 ++ bytes " 0x"
     ++ addr ++ tail) end_ start
  = (2, numeral 10 size, numeral 16 addr).
Proof.
  intros Hsize Hsized Hsizem Hw1 Hw2 Hw3 Haddr Haddrd Haddrm Htail.
  unfold sscanf_proc_modules.
  pose proof (all_digits_no_byte 10 size x00 Hsized eq_refl) as Hs0.
  pose proof (all_digits_no_byte 16 addr x00 Haddrd eq_refl) as Ha0.
  pose proof (is_word_no_byte w1 x00 Hw1 ltac:(now right)) as Hw10.
  pose proof (is_word_no_byte w2 x00 Hw2 ltac:(now right)) as Hw20.
  pose proof (is_word_no_byte w3 x00 Hw3 ltac:(now right)) as Hw30.
  repeat (rewrite c_string_app
            by first [assumption | reflexivity]).
  set (T := c_string tail).
  assert (digit_in 16 (deref T) = None) as HT
    by (subst T; now rewrite deref_c_string).
  change (bytes " ") with [" "%byte].
  change (bytes " 0x") with [" "%byte; "0"%byte; "x"%byte].
  cbn [app].
  rewrite (scan_unsigned_numeral size) by first [assumption | reflexivity].
  rewrite (scan_skip_word_word " " w1 " ") by first [assumption | reflexivity].
  rewrite (scan_skip_word_word " " w2 " ") by first [assumption | reflexivity].
  rewrite (scan_skip_word_word " " w3 " ") by first [assumption | reflexivity].
  rewrite (scan_unsigned_space_0x " " addr T) by first [assumption | reflexivity].
  reflexivity.
Qed.

(** X2: the live backend on a well-formed line of [/proc/modules].  When
    the file starts with a line made of a name, a decimal size, three
    words and a hexadecimal address after [0x], all separated by single
    spaces, and after the address anything that has no newline and
    does not start with a hexadecimal digit, the iterator emits
    the module: its name is the name of the line, its start the address,
    its end the start plus the size modulo [2^64], and the file is left
    at the start of the next line. *)
Theorem kernel_module_iterator_next_proc_modules `{TypedObjects}
    (it : kernel_module_iterator) name size w1 w2 w3 addr tail rest errno :
  it_modules_file it
  = Some {| file_rest := proc_modules_line name size w1 w2 w3 addr tail ++ rest;
            file_errno := errno |} ->
  no_byte " " name = true -> no_byte x00 name = true -> no_byte x0a name = true ->
  size <> [] -> all_digits 10 size = true -> numeral 10 size <= UINT64_MAX ->
  is_word w1 = true -> is_word w2 = true -> is_word w3 = true ->
  addr <> [] -> all_digits 16 addr = true -> numeral 16 addr <= UINT64_MAX ->
  no_byte x0a tail = true -> digit_in 16 (deref (tail ++ [x0a])) = None ->
  exists it',
    kernel_module_iterator_next it = (Ok tt, it') /\
    it_name it' = Some name /\
    it_start it' = numeral 16 addr /\
    it_end it' = wrap64 (numeral 10 size + numeral 16 addr) /\
    it_modules_file it' = Some {| file_rest := rest; file_errno := errno |}.
Proof.
  intros Hfile Hname Hname0 Hnamenl Hsize Hsized Hsizem Hw1 Hw2 Hw3
    Haddr Haddrd Haddrm Htailnl Htail.
  unfold kernel_module_iterator_next. rewrite Hfile.
  unfold kernel_module_iterator_next_live.
  set (body := size ++ bytes " " ++ w1 ++ bytes " " ++ w2 ++ bytes " " ++ w3
               ++ bytes " 0x" ++ addr ++ tail).
  assert (proc_modules_line name size w1 w2 w3 addr tail ++ rest
          = (name ++ " "%byte :: body) ++ x0a :: rest) as ->.
  { unfold proc_modules_line. subst body. change (bytes " ") with [" "%byte].
    repeat first [progress rewrite <- app_assoc | progress cbn [app]].
    reflexivity. }
  rewrite getline_line.
  2:{ subst body. change (" "%byte :: ?l) with ([" "%byte] ++ l).
      rewrite !no_byte_app, Hnamenl, Htailnl.
      rewrite (all_digits_no_byte 10 size x0a Hsized eq_refl).
      rewrite (all_digits_no_byte 16 addr x0a Haddrd eq_refl).
      rewrite (is_word_no_byte w1 x0a Hw1 ltac:(now left)).
      rewrite (is_word_no_byte w2 x0a Hw2 ltac:(now left)).
      rewrite (is_word_no_byte w3 x0a Hw3 ltac:(now left)).
      reflexivity. }
  rewrite <- app_assoc. cbn [app].
  rewrite (strchr_app name " " _ Hname Hname0).
  replace (drop (S (length name)) (name ++ " "%byte :: body ++ [x0a]))
    with (body ++ [x0a])
    by (replace (S (length name)) with (length name + 1)%nat by lia;
        now rewrite drop_app_add').
  subst body. rewrite <- !app_assoc.
  rewrite (sscanf_proc_modules_line size w1 w2 w3 addr (tail ++ [x0a]) _ _
             Hsize Hsized Hsizem Hw1 Hw2 Hw3 Haddr Haddrd Haddrm Htail).
  cbn [negb Z.eqb Pos.eqb]. eexists. split; [reflexivity|].
  cbn [it_name it_start it_end it_modules_file set_name set_end set_start
       set_modules_file].
  rewrite take_app_length. easy.
Qed.

(** X2, witness: the first line of the [/proc/modules] of the toy
    kernel. *)
Lemma kernel_module_iterator_next_proc_modules_witness :
  exists it',
    kernel_module_iterator_next toy_iterator_live = (Ok tt, it') /\
    it_name it' = Some (bytes "foo") /\
    it_start it' = numeral 16 (bytes "ffffffffa0000000") /\
    it_end it' = wrap64 (numeral 10 (bytes "65536")
                         + numeral 16 (bytes "ffffffffa0000000")) /\
    it_modules_file it'
    = Some {| file_rest := bytes "top 4096 0 - Live 0xfffffffffffff800 (OE)" ++ nl;
              file_errno := None |}.
Proof.
  apply (kernel_module_iterator_next_proc_modules (H := toy_kernel true toy_modules)
           toy_iterator_live (bytes "foo") (bytes "65536") (bytes "0") (bytes "-")
           (bytes "Live") (bytes "ffffffffa0000000") []
           (bytes "top 4096 0 - Live 0xfffffffffffff800 (OE)" ++ nl) None);
    first [reflexivity | discriminate | (vm_compute; congruence)].
Defined.

(** ** Symbols of [/proc/kallsyms] *)

Lemma is_token_cons delim c tok :
  is_token delim (c :: tok) = true ->
  (c ∉ delim) /\ c <> x00 /\
  forallb (fun c => negb (bool_decide (c ∈ delim)) && negb (bool_decide (c = x00)))
    tok = true.
Proof.
  unfold is_token. intros Ht. apply andb_prop in Ht as [_ Ht].
  cbn [forallb] in Ht. apply andb_prop in Ht as [Hc Ht].
  apply andb_prop in Hc as [Hd H0].
  apply negb_true_iff, bool_decide_eq_false in Hd.
  apply negb_true_iff, bool_decide_eq_false in H0. easy.
Qed.

Lemma strcspn_token delim tok d rest :
  forallb (fun c => negb (bool_decide (c ∈ delim)) && negb (bool_decide (c = x00)))
    tok = true ->
  d ∈ delim ->
  strcspn (tok ++ d :: rest) delim = length tok.
Proof.
  intros Ht Hd. induction tok as [|c tok IH]; cbn [app strcspn length].
  - destruct (decide (d = x00)); [reflexivity|]. now rewrite decide_True.
  - cbn [forallb] in Ht. apply andb_prop in Ht as [Hc Ht].
    apply andb_prop in Hc as [Hcd Hc0].
    apply negb_true_iff, bool_decide_eq_false in Hcd.
    apply negb_true_iff, bool_decide_eq_false in Hc0.
    rewrite !decide_False by assumption. now rewrite IH.
Qed.

Lemma strtok_r_token delim tok d rest :
  is_token delim tok = true -> d ∈ delim -> d <> x00 ->
  strtok_r (tok ++ d :: rest) delim = Some (tok, rest) /\
  skip_delims delim (tok ++ d :: rest) = tok ++ d :: rest.
Proof.
  intros Ht Hd Hd0. destruct tok as [|c tok]; [discriminate|].
  destruct (is_token_cons _ _ _ Ht) as (Hc & Hc0 & Hall).
  assert (skip_delims delim ((c :: tok) ++ d :: rest) = (c :: tok) ++ d :: rest)
    as Hskip.
  { cbn [app skip_delims]. now rewrite !decide_False by assumption. }
  split; [|exact Hskip].
  unfold strtok_r. rewrite Hskip. cbn [app deref hd].
  rewrite decide_False by exact Hc0.
  change (c :: tok ++ d :: rest) with ((c :: tok) ++ d :: rest).
  rewrite strcspn_token; [|cbn [forallb]|exact Hd].
  2:{ rewrite Hall.
      rewrite (bool_decide_eq_false_2 _ Hc), (bool_decide_eq_false_2 _ Hc0).
      reflexivity. }
  rewrite take_app_length, drop_app_length. cbn [deref hd tl].
  now rewrite decide_False by exact Hd0.
Qed.

Lemma is_token_subset delim delim' tok :
  delim' ⊆ delim -> is_token delim tok = true -> is_token delim' tok = true.
Proof.
  unfold is_token. intros Hsub Ht. apply andb_prop in Ht as [Hne Ht].
  rewrite Hne. cbn [andb]. apply forallb_forall. intros c Hin.
  rewrite forallb_forall in Ht. specialize (Ht c Hin).
  apply andb_prop in Ht as [Hd H0]. rewrite H0, andb_true_r.
  apply negb_true_iff, bool_decide_eq_false in Hd.
  apply negb_true_iff, bool_decide_eq_false. intros Hc. apply Hd, Hsub, Hc.
Qed.

Lemma is_token_no_byte delim tok c :
  is_token delim tok = true -> c ∈ delim \/ c = x00 -> no_byte c tok = true.
Proof.
  unfold is_token, no_byte. intros Ht Hc. apply andb_prop in Ht as [_ Ht].
  apply forallb_forall. intros b Hin. rewrite forallb_forall in Ht.
  specialize (Ht b Hin). apply andb_prop in Ht as [Hd H0].
  apply negb_true_iff, bool_decide_eq_false in Hd.
  apply negb_true_iff, bool_decide_eq_false in H0.
  apply negb_true_iff, bool_decide_eq_false. intros ->.
  destruct Hc as [Hc| ->]; [contradiction|congruence].
Qed.

Lemma all_digits_token base delim s :
  s <> [] -> all_digits base s = true ->
  Forall (fun c => digit_in base c = None) delim -> digit_in base x00 = None ->
  is_token delim s = true.
Proof.
  unfold is_token, all_digits. intros Hne Hs Hdelim H0.
  rewrite (bool_decide_eq_false_2 _ Hne). cbn [negb andb].
  apply forallb_forall. intros c Hin. rewrite forallb_forall in Hs.
  specialize (Hs c Hin). apply bool_decide_eq_true in Hs as [v Hv].
  apply andb_true_iff. split; apply negb_true_iff, bool_decide_eq_false.
  - intros Hc. rewrite Forall_forall in Hdelim. specialize (Hdelim c Hc). congruence.
  - intros ->. congruence.
Qed.

Lemma kallsyms_entry_ok_inv e :
  kallsyms_entry_ok e = true ->
  ks_addr e <> [] /\ all_digits 16 (ks_addr e) = true /\
  numeral 16 (ks_addr e) <= UINT64_MAX /\
  is_token delim_tab_nl_space (ks_type e) = true /\
  is_token delim_tab_nl_space (ks_name e) = true /\
  match ks_module e with
  | Some m => no_byte x0a m = true
  | None => True
  end.
Proof.
  unfold kallsyms_entry_ok. intros Hok.
  repeat (apply andb_prop in Hok as [Hok ?]).
  apply negb_true_iff, bool_decide_eq_false in Hok.
  repeat split; try assumption; [lia|].
  now destruct (ks_module e).
Qed.

Lemma delim_subset : delim_tab_space ⊆ delim_tab_nl_space.
Proof.
  intros c. unfold delim_tab_space, delim_tab_nl_space.
  rewrite !elem_of_cons. tauto.
Qed.

Lemma kallsyms_tail_delim e :
  exists d rest, kallsyms_tail e = d :: rest /\ d ∈ delim_tab_nl_space /\ d <> x00.
Proof.
  unfold kallsyms_tail, delim_tab_nl_space.
  destruct (ks_module e); eexists _, _; (split; [reflexivity|]);
    (split; [rewrite !elem_of_cons; tauto|discriminate]).
Qed.

Lemma proc_kallsyms_line_entry name e ret :
  kallsyms_entry_ok e = true ->
  proc_kallsyms_line name (kallsyms_line e) ret
  = if decide (ks_name e = c_string name)
    then kallsyms_found (numeral 16 (ks_addr e))
    else kallsyms_continue.
Proof.
  intros Hok.
  destruct (kallsyms_entry_ok_inv _ Hok) as (Hne & Hdig & Hmax & Htype & Hname & _).
  destruct (kallsyms_tail_delim e) as (d & rest & Htail & Hd & Hd0).
  assert (kallsyms_line e
          = ks_addr e ++ " "%byte :: ks_type e ++ " "%byte :: ks_name e ++ d :: rest)
    as Hline.
  { unfold kallsyms_line. fold (kallsyms_tail e). rewrite Htail. reflexivity. }
  assert (is_token delim_tab_space (ks_addr e) = true) as Haddr.
  { apply (all_digits_token 16); try assumption; [|reflexivity].
    unfold delim_tab_space. repeat constructor. }
  assert (" "%byte ∈ delim_tab_space) as Hsp
    by (unfold delim_tab_space; rewrite !elem_of_cons; tauto).
  unfold proc_kallsyms_line. rewrite Hline.
  destruct (strtok_r_token delim_tab_space (ks_addr e) " "
              (ks_type e ++ " "%byte :: ks_name e ++ d :: rest) Haddr Hsp
              ltac:(discriminate)) as [-> ->].
  destruct (strtok_r_token delim_tab_space (ks_type e) " "
              (ks_name e ++ d :: rest)
              (is_token_subset _ _ _ delim_subset Htype) Hsp
              ltac:(discriminate)) as [-> _].
  destruct (strtok_r_token delim_tab_nl_space (ks_name e) d rest Hname Hd Hd0)
    as [-> _].
  destruct (decide (ks_name e = c_string name)) as [Heq|Hneq].
  - rewrite bool_decide_eq_true_2 by exact Heq. cbn [negb].
    rewrite Nat.sub_diag. cbn [plus]. rewrite take_app_length.
    pose proof (strtoull_numeral 16 16 (ks_addr e) [] Hne Hdig eq_refl
                  (has_0x_numeral 16 _ [] Hne Hdig ltac:(lia) eq_refl) eq_refl)
      as Hst.
    rewrite app_nil_r in Hst. rewrite Hst.
    destruct (UINT64_MAX <? numeral 16 (ks_addr e)) eqn:Hlt; [lia|].
    cbn [st_erange st_end st_value orb]. rewrite Nat.eqb_refl.
    reflexivity.
  - now rewrite bool_decide_eq_false_2 by exact Hneq.
Qed.

Lemma kallsyms_line_getline e rest errno :
  kallsyms_entry_ok e = true ->
  getline {| file_rest := kallsyms_line e ++ rest; file_errno := errno |}
  = inr (kallsyms_line e, {| file_rest := rest; file_errno := errno |}).
Proof.
  intros Hok.
  destruct (kallsyms_entry_ok_inv _ Hok) as (Hne & Hdig & Hmax & Htype & Hname & Hmod).
  set (body := ks_addr e ++ bytes " " ++ ks_type e ++ bytes " " ++ ks_name e
               ++ match ks_module e with
                  | Some m => x09 :: bytes "[" ++ m ++ bytes "]"
                  | None => []
                  end).
  assert (kallsyms_line e = body ++ [x0a]) as ->.
  { unfold kallsyms_line. subst body. now rewrite <- !app_assoc. }
  rewrite <- app_assoc. cbn [app]. apply getline_line.
  subst body. rewrite !no_byte_app.
  rewrite (all_digits_no_byte 16 _ x0a Hdig eq_refl).
  rewrite (is_token_no_byte _ _ x0a Htype)
    by (left; unfold delim_tab_nl_space; rewrite !elem_of_cons; tauto).
  rewrite (is_token_no_byte _ _ x0a Hname)
    by (left; unfold delim_tab_nl_space; rewrite !elem_of_cons; tauto).
  cbn [andb bytes]. destruct (ks_module e) as [m|]; [|reflexivity].
  change (x09 :: bytes "[" ++ m ++ bytes "]") with ([x09; "["%byte] ++ m ++ bytes "]").
  rewrite !no_byte_app, Hmod. reflexivity.
Qed.

Lemma length_kallsyms_line e : (1 <= length (kallsyms_line e))%nat.
Proof. unfold kallsyms_line. rewrite !length_app. cbn [length]. lia. Qed.

Lemma proc_kallsyms_loop_entries name errno ret es :
  Forall (fun e => kallsyms_entry_ok e = true) es ->
  forall fuel,
    (length es < fuel)%nat ->
    proc_kallsyms_loop fuel name
      {| file_rest := concat (map kallsyms_line es); file_errno := errno |} ret
    = Some match list_find (fun e => ks_name e = c_string name) es with
           | Some (_, e) => (Ok tt, numeral 16 (ks_addr e))
           | None =>
               (match errno with
                | Some errno =>
                    Err (drgn_error_create_os "getline" errno
                           (Some (bytes "/proc/kallsyms")))
                | None => Err drgn_not_found
                end, ret)
           end.
Proof.
  induction 1 as [|e es He Hes IH]; intros fuel Hfuel;
    (destruct fuel as [|fuel]; [simpl in Hfuel; lia|]).
  - cbn. now destruct errno.
  - cbn [map concat proc_kallsyms_loop list_find].
    rewrite (kallsyms_line_getline _ _ _ He).
    rewrite (proc_kallsyms_line_entry _ _ _ He).
    destruct (decide (ks_name e = c_string name)) as [Heq|Hneq]; [reflexivity|].
    rewrite IH by (simpl in Hfuel; lia).
    now destruct (list_find _ es) as [[i e']|].
Qed.

(** X3: [proc_kallsyms_symbol_addr] on a well-formed [/proc/kallsyms].
    When every line gives a hexadecimal address that fits 64 bits, a
    type and a symbol name, with the module after a tab if there is one,
    the address returned is that of the first line whose symbol is
    [name]; when no line has the symbol the result is [drgn_not_found],
    or the error of [getline] if reading the file fails at its end, and
    [*ret] is left as it was. *)
Theorem proc_kallsyms_symbol_addr_first_match name errno ret es :
  Forall (fun e => kallsyms_entry_ok e = true) es ->
  proc_kallsyms_symbol_addr
    (inr {| file_rest := concat (map kallsyms_line es); file_errno := errno |})
    name ret
  = Some match list_find (fun e => ks_name e = c_string name) es with
         | Some (_, e) => (Ok tt, numeral 16 (ks_addr e))
         | None =>
             (match errno with
              | Some errno =>
                  Err (drgn_error_create_os "getline" errno
                         (Some (bytes "/proc/kallsyms")))
              | None => Err drgn_not_found
              end, ret)
         end.
Proof.
  intros Hes. unfold proc_kallsyms_symbol_addr. cbn [file_rest].
  apply proc_kallsyms_loop_entries; [exact Hes|].
  assert (length es <= length (concat (map kallsyms_line es)))%nat; [|lia].
  clear Hes. induction es as [|e es IH]; [simpl; lia|].
  cbn [map concat length]. rewrite length_app.
  pose proof (length_kallsyms_line e). lia.
Qed.

(** X3, witness: a symbol that two lines define; the address is that of
    the first. *)
Lemma proc_kallsyms_symbol_addr_first_match_witness :
  proc_kallsyms_symbol_addr
    (inr {| file_rest := concat (map kallsyms_line kallsyms_fixture);
            file_errno := None |})
    (bytes "foo_init") 0
  = Some (Ok tt, 0xffffffffa0000000).
Proof.
  apply (proc_kallsyms_symbol_addr_first_match (bytes "foo_init") None 0
           kallsyms_fixture).
  repeat (apply List.Forall_cons; [vm_compute; reflexivity|]). apply List.Forall_nil.
Defined.

(** ** The build-ID extractor *)

Lemma div_2_16 v : v / 2 ^ 16 = v / 2 ^ 8 / 2 ^ 8.
Proof. rewrite Z.div_div by lia. reflexivity. Qed.

Lemma div_2_24 v : v / 2 ^ 24 = v / 2 ^ 8 / 2 ^ 8 / 2 ^ 8.
Proof. rewrite !Z.div_div by lia. reflexivity. Qed.

Ltac pow2 :=
  rewrite ?div_2_16, ?div_2_24 in *;
  change (2 ^ 8) with 256 in *; change (2 ^ 16) with 65536 in *;
  change (2 ^ 24) with 16777216 in *; change (2 ^ 32) with 4294967296 in *.

Lemma u8_byte_of z : u8 (byte_of z) = z mod 2 ^ 8.
Proof.
  unfold u8, byte_of.
  assert (0 <= z mod 2 ^ 8 < 2 ^ 8) as Hr by (apply Z.mod_pos_bound; lia).
  destruct (Byte.of_N (Z.to_N (z mod 2 ^ 8))) as [b|] eqn:Hb.
  - apply Byte.to_of_N in Hb. simpl. rewrite Hb. lia.
  - apply Byte.of_N_None_iff in Hb. lia.
Qed.

Lemma load32_store32 le v rest :
  0 <= v < 2 ^ 32 -> load32 le (store32 le v ++ rest) = v.
Proof.
  intros Hv. unfold load32, store32.
  destruct le.
  - change (le32 _) with
      (u8 (byte_of v) + 2 ^ 8 * u8 (byte_of (v / 2 ^ 8))
       + 2 ^ 16 * u8 (byte_of (v / 2 ^ 16)) + 2 ^ 24 * u8 (byte_of (v / 2 ^ 24))).
    rewrite !u8_byte_of. pow2. Z.div_mod_to_equations. lia.
  - change (be32 _) with
      (2 ^ 24 * u8 (byte_of (v / 2 ^ 24)) + 2 ^ 16 * u8 (byte_of (v / 2 ^ 16))
       + 2 ^ 8 * u8 (byte_of (v / 2 ^ 8)) + u8 (byte_of v)).
    rewrite !u8_byte_of. pow2. Z.div_mod_to_equations. lia.
Qed.

Lemma bswap_32_load32 le p :
  (4 <= length p)%nat -> bswap_32 (load32 le p) = load32 (negb le) p.
Proof.
  intros Hp. destruct p as [|b0 [|b1 [|b2 [|b3 p]]]]; simpl in Hp; try lia.
  pose proof (u8_range b0). pose proof (u8_range b1).
  pose proof (u8_range b2). pose proof (u8_range b3).
  unfold bswap_32, load32. destruct le; cbn [negb le32 be32]; pow2; Z.div_mod_to_equations; lia.
Qed.

Lemma nhdr_field_store32 host_le bswap v rest :
  0 <= v < 2 ^ 32 ->
  nhdr_field host_le bswap
    (store32 (if bswap then negb host_le else host_le) v ++ rest) = v.
Proof.
  intros Hv. unfold nhdr_field. destruct bswap.
  - rewrite bswap_32_load32.
    + now apply load32_store32.
    + rewrite length_app. unfold store32.
      destruct (negb host_le); simpl; lia.
  - now apply load32_store32.
Qed.

Lemma length_store32 le v : length (store32 le v) = 4%nat.
Proof. unfold store32. now destruct le. Qed.

Lemma drop_store32 le v (rest : list byte) : drop 4 (store32 le v ++ rest) = rest.
Proof. unfold store32. now destruct le. Qed.

Lemma length_pad4 n : length (pad4 n) = ((4 - n mod 4) mod 4)%nat.
Proof. unfold pad4. apply length_replicate. Qed.

Lemma mod4_cases n :
  (n mod 4 = 0 /\ (4 - n mod 4) mod 4 = 0 \/ n mod 4 = 1 /\ (4 - n mod 4) mod 4 = 3
   \/ n mod 4 = 2 /\ (4 - n mod 4) mod 4 = 2
   \/ n mod 4 = 3 /\ (4 - n mod 4) mod 4 = 1)%nat.
Proof.
  pose proof (Nat.mod_upper_bound n 4 ltac:(lia)) as Hr.
  destruct (n mod 4)%nat as [|[|[|[|r]]]]; [tauto|tauto|tauto|tauto|lia].
Qed.

Lemma mod4_add p n r :
  (p mod 4 = 0 -> n mod 4 = r -> r < 4 -> (p + n) mod 4 = r)%nat.
Proof.
  intros Hp Hn Hr. symmetry.
  apply (Nat.mod_unique _ _ (p / 4 + n / 4)); [exact Hr|].
  pose proof (Nat.div_mod_eq p 4). pose proof (Nat.div_mod_eq n 4). lia.
Qed.

Lemma padded_mod4 p n :
  (p mod 4 = 0 -> (p + n + (4 - n mod 4) mod 4) mod 4 = 0)%nat.
Proof.
  intros Hp. rewrite <- Nat.add_assoc. apply mod4_add; [exact Hp| |lia].
  symmetry.
  apply (Nat.mod_unique _ _ (n / 4 + (if decide (n mod 4 = 0)%nat then 0 else 1)));
    [lia|].
  pose proof (Nat.div_mod_eq n 4).
  destruct (mod4_cases n) as [[H0 ->]|[[H0 ->]|[[H0 ->]|[H0 ->]]]];
    rewrite H0 in *; case_decide; lia.
Qed.

Lemma to_align_padded p n :
  (p mod 4 = 0 -> (4 - (p + n) mod 4) mod 4 = (4 - n mod 4) mod 4)%nat.
Proof.
  intros Hp. rewrite (mod4_add p n (n mod 4) Hp eq_refl); [reflexivity|].
  apply Nat.mod_upper_bound. lia.
Qed.

Lemma ALIGN_NOTE_padded size p n :
  (p mod 4 = 0)%nat -> (p + n + length (pad4 n) <= size)%nat ->
  ALIGN_NOTE size (p + n) = (p + n + length (pad4 n))%nat.
Proof.
  intros Hp Hsize. unfold ALIGN_NOTE. rewrite length_pad4 in *.
  rewrite (to_align_padded p n Hp).
  destruct (size - (p + n) <? (4 - n mod 4) mod 4)%nat eqn:Hlt; [lia|reflexivity].
Qed.

Lemma length_encode_note le n :
  length (encode_note le n)
  = (12 + length (note_name n) + length (pad4 (length (note_name n)))
     + length (note_desc n) + length (pad4 (length (note_desc n))))%nat.
Proof. unfold encode_note. rewrite !length_app, !length_store32. lia. Qed.

Lemma drop_app_plus {A} (l k : list A) n :
  drop (length l + n) (l ++ k) = drop n k.
Proof. rewrite <- drop_drop, drop_app_length. reflexivity. Qed.

Lemma first_build_id_cons n ns :
  first_build_id (n :: ns)
  = if is_build_id_note n then Some (note_desc n) else first_build_id ns.
Proof.
  unfold first_build_id. rewrite filter_cons.
  destruct (decide (is_build_id_note n = true)) as [->|Hn]; [reflexivity|].
  now apply not_true_is_false in Hn as ->.
Qed.

Lemma parse_gnu_build_id_loop_step fuel host_le bswap note p namesz descsz type :
  (p + 12 <= length note)%nat ->
  nhdr_field host_le bswap (drop p note) = namesz ->
  nhdr_field host_le bswap (drop (p + 4) note) = descsz ->
  nhdr_field host_le bswap (drop (p + 8) note) = type ->
  parse_gnu_build_id_loop (S fuel) host_le bswap note p
  = if Z.of_nat (length note - (p + 12)) <? namesz then Some note_absent
    else
      let p2 := ALIGN_NOTE (length note) (p + 12 + Z.to_nat namesz) in
      if (namesz =? 4) && memcmp_eq (drop (p + 12) note) (bytes "GNU" ++ [x00]) 4
         && (type =? NT_GNU_BUILD_ID) && (0 <? descsz)
      then
        if Z.of_nat (length note - p2) <? descsz then Some note_absent
        else Some (note_found p2 (Z.to_nat descsz))
      else if Z.of_nat (length note - p2) <? descsz then Some note_overrun
      else
        parse_gnu_build_id_loop fuel host_le bswap note
          (ALIGN_NOTE (length note) (p2 + Z.to_nat descsz)).
Proof.
  intros Hp <- <- <-. cbn [parse_gnu_build_id_loop].
  destruct (length note - p <? 12)%nat eqn:Hlt; [lia|reflexivity].
Qed.

Lemma parse_gnu_build_id_loop_encoded (host_le bswap : bool) ns :
  Forall note_fits ns ->
  forall fuel (pre tail : list byte),
    (length pre mod 4 = 0)%nat -> (length ns < fuel)%nat -> (length tail < 12)%nat ->
    let le := if bswap then negb host_le else host_le in
    let buf := pre ++ concat (map (encode_note le) ns) ++ tail in
    match first_build_id ns with
    | Some d =>
        exists pos,
          parse_gnu_build_id_loop fuel host_le bswap buf (length pre)
          = Some (note_found pos (length d)) /\
          take (length d) (drop pos buf) = d
    | None =>
        parse_gnu_build_id_loop fuel host_le bswap buf (length pre) = Some note_absent
    end.
Proof.
  induction 1 as [|n ns Hn Hns IH]; intros fuel pre tail Hpre Hfuel Htail le buf.
  - destruct fuel as [|fuel]; [simpl in Hfuel; lia|].
    subst buf. change (first_build_id []) with (@None (list byte)).
    cbn [map concat app parse_gnu_build_id_loop].
    rewrite length_app.
    destruct (length pre + length tail - length pre <? 12)%nat eqn:Hlt; [reflexivity|lia].
  - destruct fuel as [|fuel]; [simpl in Hfuel; lia|]. simpl in Hfuel.
    destruct Hn as (Hname & Hdesc & Htype).
    rewrite first_build_id_cons.
    set (rest := concat (map (encode_note le) ns) ++ tail).
    assert (buf = pre ++ encode_note le n ++ rest) as Hbuf.
    { subst buf rest. cbn [map concat]. now rewrite <- !app_assoc. }
    clearbody buf. subst buf.
    set (name := note_name n) in *. set (desc := note_desc n) in *.
    assert (encode_note le n ++ rest
            = store32 le (Z.of_nat (length name))
              ++ store32 le (Z.of_nat (length desc))
              ++ store32 le (note_type n)
              ++ name ++ pad4 (length name) ++ desc ++ pad4 (length desc) ++ rest)
      as Henc.
    { unfold encode_note. fold name desc. now rewrite <- !app_assoc. }
    pose proof (length_encode_note le n) as Hlen. fold name desc in Hlen.
    set (buf := pre ++ encode_note le n ++ rest).
    assert (length buf = (length pre + length (encode_note le n) + length rest)%nat)
      as Hsize by (subst buf; rewrite !length_app; lia).
    assert (drop (length pre) buf = encode_note le n ++ rest) as Hdrop0
      by (subst buf; apply drop_app_length).
    assert (forall k, drop (length pre + k) buf = drop k (encode_note le n ++ rest))
      as Hdrop by (intros k; subst buf; apply drop_app_plus).
    assert (nhdr_field host_le bswap (drop (length pre) buf)
            = Z.of_nat (length name)) as Hn1.
    { rewrite Hdrop0, Henc. apply nhdr_field_store32. lia. }
    assert (nhdr_field host_le bswap (drop (length pre + 4) buf)
            = Z.of_nat (length desc)) as Hn2.
    { rewrite Hdrop, Henc, drop_store32. apply nhdr_field_store32. lia. }
    assert (nhdr_field host_le bswap (drop (length pre + 8) buf)
            = note_type n) as Hn3.
    { rewrite Hdrop, Henc. change 8%nat with (4 + 4)%nat.
      rewrite <- drop_drop, !drop_store32. apply nhdr_field_store32. lia. }
    assert (drop (length pre + 12) buf
            = name ++ pad4 (length name) ++ desc ++ pad4 (length desc) ++ rest)
      as Hn4.
    { rewrite Hdrop, Henc. change 12%nat with (4 + (4 + 4))%nat.
      now rewrite <- !drop_drop, !drop_store32. }
    rewrite (parse_gnu_build_id_loop_step fuel host_le bswap buf (length pre) _ _ _
               ltac:(lia) Hn1 Hn2 Hn3).
    cbv zeta. rewrite Hn4.
    destruct (Z.of_nat (length buf - (length pre + 12)) <? Z.of_nat (length name))
      eqn:Hlt; [lia|]. clear Hlt.
    rewrite Nat2Z.id.
    assert (((length pre + 12) mod 4 = 0)%nat) as Hpre12
      by (apply mod4_add; [exact Hpre|reflexivity|lia]).
    rewrite (ALIGN_NOTE_padded _ _ _ Hpre12) by lia.
    set (p2 := (length pre + 12 + length name + length (pad4 (length name)))%nat).
    assert (drop p2 buf = desc ++ pad4 (length desc) ++ rest) as Hp2.
    { subst p2. rewrite <- Nat.add_assoc, <- drop_drop, <- drop_drop, Hn4.
      now rewrite !drop_app_length. }
    assert (memcmp_eq (name ++ pad4 (length name) ++ desc ++ pad4 (length desc) ++ rest)
              (bytes "GNU" ++ [x00]) 4
            = true -> length name = 4%nat -> name = bytes "GNU" ++ [x00]) as Hcmp.
    { unfold memcmp_eq. intros Heq Hl4. apply bool_decide_eq_true in Heq.
      rewrite take_app_length' in Heq by (symmetry; exact Hl4). exact Heq. }
    unfold is_build_id_note. fold name desc.
    destruct (bool_decide (name = bytes "GNU" ++ [x00])
              && (note_type n =? NT_GNU_BUILD_ID)
              && negb (bool_decide (desc = []))) eqn:Hid.
    + apply andb_true_iff in Hid as [Hid Hd]. apply andb_true_iff in Hid as [Hnm Hty].
      apply bool_decide_eq_true in Hnm. apply negb_true_iff in Hd.
      apply bool_decide_eq_false in Hd.
      assert (0 < length desc)%nat by (destruct desc; [easy|simpl; lia]).
      match goal with
      | |- context [if ?c then _ else _] =>
          assert (c = true) as ->
      end.
      { rewrite !andb_true_iff. repeat split; [| |exact Hty|lia].
        - rewrite Hnm. reflexivity.
        - unfold memcmp_eq. apply bool_decide_eq_true.
          rewrite take_app_length'; [exact Hnm|now rewrite Hnm]. }
      destruct (Z.of_nat (length buf - p2) <? Z.of_nat (length desc)) eqn:Hlt;
        [subst p2; lia|].
      exists p2. rewrite Nat2Z.id. split; [reflexivity|].
      rewrite Hp2. now rewrite take_app_length.
    + match goal with
      | |- context [if ?c then _ else _] =>
          assert (c = false) as ->
      end.
      { apply andb_false_iff in Hid as [Hid|Hd].
        - apply andb_false_iff in Hid as [Hnm|Hty].
          + apply bool_decide_eq_false in Hnm.
            destruct (Z.of_nat (length name) =? 4) eqn:Hl4; [|reflexivity].
            destruct (memcmp_eq _ _ 4) eqn:Hm; [|reflexivity].
            exfalso. apply Hnm, Hcmp; [reflexivity|lia].
          + rewrite Hty. now rewrite andb_false_r.
        - apply negb_false_iff, bool_decide_eq_true in Hd. rewrite Hd.
          now rewrite andb_false_r. }
      destruct (Z.of_nat (length buf - p2) <? Z.of_nat (length desc)) eqn:Hlt;
        [subst p2; lia|]. clear Hlt.
      rewrite Nat2Z.id.
      assert ((p2 mod 4 = 0)%nat) as Hp2m.
      { subst p2. rewrite length_pad4. apply padded_mod4. exact Hpre12. }
      rewrite (ALIGN_NOTE_padded _ _ _ Hp2m) by (subst p2; lia).
      specialize (IH fuel (pre ++ encode_note le n) tail).
      rewrite length_app, Hlen in IH.
      replace (p2 + length desc + length (pad4 (length desc)))%nat
        with (length pre
              + (12 + length name + length (pad4 (length name)) + length desc
                 + length (pad4 (length desc))))%nat by (subst p2; lia).
      cbv zeta in IH. rewrite <- app_assoc in IH. apply IH; [|lia|lia].
      rewrite !length_pad4.
      replace (length pre
               + (12 + length name + (4 - length name mod 4) mod 4 + length desc
                  + (4 - length desc mod 4) mod 4))%nat
        with (p2 + length desc + (4 - length desc mod 4) mod 4)%nat
        by (subst p2; rewrite length_pad4; lia).
      now apply padded_mod4.
Qed.

Lemma load32_range le p : 0 <= load32 le p < 2 ^ 32.
Proof.
  unfold load32, le32, be32.
  destruct p as [|b0 [|b1 [|b2 [|b3 p]]]]; try (destruct le; lia).
  pose proof (u8_range b0). pose proof (u8_range b1).
  pose proof (u8_range b2). pose proof (u8_range b3).
  destruct le; lia.
Qed.

Lemma nhdr_field_range host_le bswap p : 0 <= nhdr_field host_le bswap p < 2 ^ 32.
Proof.
  unfold nhdr_field. pose proof (load32_range host_le p) as Hr.
  destruct bswap; [|exact Hr].
  unfold bswap_32. pow2. Z.div_mod_to_equations. lia.
Qed.

Lemma ALIGN_NOTE_bounds size p :
  (p <= size -> p <= ALIGN_NOTE size p <= size /\ ALIGN_NOTE size p <= p + 3)%nat.
Proof.
  intros Hp. unfold ALIGN_NOTE.
  pose proof (Nat.mod_upper_bound (4 - p mod 4) 4 ltac:(lia)).
  destruct (size - p <? (4 - p mod 4) mod 4)%nat eqn:Hlt; lia.
Qed.

Lemma parse_gnu_build_id_loop_sound host_le bswap note fuel :
  forall p,
    (p <= length note)%nat -> (length note - p < fuel)%nat ->
    exists r,
      parse_gnu_build_id_loop fuel host_le bswap note p = Some r /\
      note_scan_sound host_le bswap note r.
Proof.
  induction fuel as [|fuel IH]; intros p Hp Hfuel; [lia|].
  destruct (length note - p <? 12)%nat eqn:Hlt.
  { exists note_absent. cbn [parse_gnu_build_id_loop]. now rewrite Hlt. }
  rewrite (parse_gnu_build_id_loop_step fuel host_le bswap note p _ _ _
             ltac:(lia) eq_refl eq_refl eq_refl).
  pose proof (nhdr_field_range host_le bswap (drop p note)) as Hnamesz.
  pose proof (nhdr_field_range host_le bswap (drop (p + 4) note)) as Hdescsz.
  set (namesz := nhdr_field host_le bswap (drop p note)) in *.
  set (descsz := nhdr_field host_le bswap (drop (p + 4) note)) in *.
  set (type := nhdr_field host_le bswap (drop (p + 8) note)) in *.
  destruct (Z.of_nat (length note - (p + 12)) <? namesz) eqn:Hname;
    [now exists note_absent|].
  cbv zeta.
  pose proof (ALIGN_NOTE_bounds (length note) (p + 12 + Z.to_nat namesz)
                ltac:(lia)) as Hp2.
  set (p2 := ALIGN_NOTE (length note) (p + 12 + Z.to_nat namesz)) in *.
  destruct ((namesz =? 4) && memcmp_eq (drop (p + 12) note) (bytes "GNU" ++ [x00]) 4
            && (type =? NT_GNU_BUILD_ID) && (0 <? descsz)) eqn:Hid.
  - destruct (Z.of_nat (length note - p2) <? descsz) eqn:Hdesc;
      [now exists note_absent|].
    exists (note_found p2 (Z.to_nat descsz)). split; [reflexivity|].
    apply andb_true_iff in Hid as [Hid Hd]. apply andb_true_iff in Hid as [Hid Hty].
    apply andb_true_iff in Hid as [Hnm Hcmp].
    unfold memcmp_eq in Hcmp. apply bool_decide_eq_true in Hcmp.
    cbn [note_scan_sound]. split; [lia|]. split; [lia|].
    exists p. repeat split; try lia; try exact Hcmp.
    all: fold namesz descsz type; lia.
  - destruct (Z.of_nat (length note - p2) <? descsz) eqn:Hdesc.
    + exists note_overrun. split; [reflexivity|]. cbn [note_scan_sound].
      exists p. split; [lia|]. fold namesz descsz p2. lia.
    + pose proof (ALIGN_NOTE_bounds (length note) (p2 + Z.to_nat descsz)
                    ltac:(lia)) as Hp3.
      apply IH; lia.
Qed.

Lemma length_concat_encode le ns :
  (12 * length ns <= length (concat (map (encode_note le) ns)))%nat.
Proof.
  induction ns as [|n ns IH]; [simpl; lia|].
  cbn [map concat length]. rewrite length_app, length_encode_note. lia.
Qed.

(** X4: [parse_gnu_build_id_from_note] ends on every buffer, and a
    build ID it returns lies inside the buffer: it is not empty, it ends
    at or before the end of the buffer, and it is the descriptor of a
    note that precedes it whose name size is 4, whose name is
    [GNU\0], whose type is [NT_GNU_BUILD_ID] and whose descriptor size
    is the length returned.  The scan leaves the buffer only at a note
    whose descriptor size exceeds what is left of the buffer after its
    name. *)
Theorem parse_gnu_build_id_in_bounds host_le note bswap :
  exists r,
    parse_gnu_build_id_from_note host_le note bswap = Some r /\
    note_scan_sound host_le bswap note r.
Proof.
  unfold parse_gnu_build_id_from_note.
  apply parse_gnu_build_id_loop_sound; lia.
Qed.

(** X5: round trip.  On the encoding of a list of notes, in the byte
    order the caller announces with [bswap], followed by fewer than 12
    bytes, [parse_gnu_build_id_from_note] returns the descriptor of the
    first note named [GNU] of type [NT_GNU_BUILD_ID] with a non-empty
    descriptor, and returns nothing when the list has no such note. *)
Theorem parse_gnu_build_id_round_trip (host_le bswap : bool) ns (tail : list byte) :
  Forall note_fits ns -> (length tail < 12)%nat ->
  let buf := concat (map (encode_note (if bswap then negb host_le else host_le)) ns)
             ++ tail in
  match first_build_id ns with
  | Some d =>
      exists pos,
        parse_gnu_build_id_from_note host_le buf bswap
        = Some (note_found pos (length d)) /\
        take (length d) (drop pos buf) = d
  | None => parse_gnu_build_id_from_note host_le buf bswap = Some note_absent
  end.
Proof.
  intros Hns Htail buf. unfold parse_gnu_build_id_from_note.
  pose proof (parse_gnu_build_id_loop_encoded host_le bswap ns Hns
                (S (length buf)) [] tail eq_refl) as H.
  cbv zeta in H. cbn [app length] in H. apply H; [|exact Htail].
  subst buf. rewrite length_app.
  pose proof (length_concat_encode (if bswap then negb host_le else host_le) ns).
  lia.
Qed.

(** X5, witness: three big-endian notes read on a little-endian host;
    the second is the first build-ID note. *)
Lemma parse_gnu_build_id_round_trip_witness :
  let buf := concat (map (encode_note false) notes_fixture) ++ [x00; x00; x00] in
  exists pos,
    parse_gnu_build_id_from_note true buf true = Some (note_found pos 4) /\
    take 4 (drop pos buf) = build_id_B.
Proof.
  apply (parse_gnu_build_id_round_trip true true notes_fixture [x00; x00; x00]).
  - repeat (apply List.Forall_cons;
            [unfold note_fits, NT_GNU_BUILD_ID, build_id_B; cbn; lia|]).
    apply List.Forall_nil.
  - cbn. lia.
Defined.

(** ** The live section iterator *)

Lemma next_live_loop_dir kmod_name ent entries dir_errno :
  dirent_is_dir ent = true ->
  kernel_module_section_iterator_next_live_loop kmod_name (ent :: entries) dir_errno
  = kernel_module_section_iterator_next_live_loop kmod_name entries dir_errno.
Proof.
  unfold dirent_is_dir. intros Hdir.
  cbn [kernel_module_section_iterator_next_live_loop].
  destruct (d_type ent =? DT_DIR); [reflexivity|].
  destruct (d_type ent =? DT_UNKNOWN); [|discriminate].
  now destruct (d_fstatat ent) as [|[]].
Qed.

Lemma next_live_loop_section kmod_name ent entries dir_errno section :
  dirent_section ent = Some section ->
  kernel_module_section_iterator_next_live_loop kmod_name (ent :: entries) dir_errno
  = (Ok section, entries).
Proof.
  unfold dirent_section, dirent_is_dir. intros Hsec.
  cbn [kernel_module_section_iterator_next_live_loop].
  destruct (d_type ent =? DT_DIR); [discriminate|].
  destruct (d_type ent =? DT_UNKNOWN);
    destruct (d_fstatat ent) as [errno|[]]; cbn in Hsec; try discriminate;
    destruct (d_openat ent) as [errno'|contents]; try discriminate;
    destruct (d_fdopen_errno ent); try discriminate;
    destruct (scan_unsigned 16 contents) as [[address rest]|]; try discriminate;
    now injection Hsec as <-.
Qed.

Section SectionRun.

Context `{TypedObjects}.

Lemma kernel_module_section_iterator_run_live entries :
  forall fuel (it : kernel_module_section_iterator),
    sit_sections_dir it = Some {| dir_entries := entries; dir_errno := None |} ->
    Forall (fun ent => dirent_is_dir ent = true \/ is_Some (dirent_section ent))
      entries ->
    (length entries < fuel)%nat ->
    exists it',
      kernel_module_section_iterator_run fuel it
      = Some (omap dirent_section entries, drgn_stop, it') /\
      sit_kmod_it it' = sit_kmod_it it /\
      sit_sections_dir it' = Some {| dir_entries := []; dir_errno := None |}.
Proof.
  induction entries as [|ent entries IH]; intros fuel it Hdir Hall Hfuel.
  - destruct fuel as [|fuel]; [simpl in Hfuel; lia|].
    cbn [kernel_module_section_iterator_run].
    unfold kernel_module_section_iterator_next. rewrite Hdir.
    unfold kernel_module_section_iterator_next_live. cbn. eauto.
  - apply Forall_cons in Hall as [Hent Hall].
    set (it1 := sit_set_dir (Some {| dir_entries := entries; dir_errno := None |}) it).
    assert (sit_sections_dir it1
            = Some {| dir_entries := entries; dir_errno := None |}) as Hdir1
      by reflexivity.
    destruct fuel as [|fuel]; [simpl in Hfuel; lia|]. cbn [length] in Hfuel.
    destruct Hent as [Hisdir|[section Hsection]].
    + destruct (IH (S fuel) it1 Hdir1 Hall ltac:(lia)) as (it' & Hrun & Hkmod).
      exists it'. split; [|exact Hkmod].
      cbn [omap list_omap]. unfold dirent_section at 1. rewrite Hisdir.
      rewrite <- Hrun. cbn [kernel_module_section_iterator_run].
      unfold kernel_module_section_iterator_next. rewrite Hdir, Hdir1.
      unfold kernel_module_section_iterator_next_live.
      cbn [dir_entries dir_errno]. rewrite next_live_loop_dir by exact Hisdir.
      reflexivity.
    + destruct (IH fuel it1 Hdir1 Hall ltac:(lia)) as (it' & Hrun & Hkmod).
      exists it'. split; [|exact Hkmod].
      cbn [omap list_omap]. rewrite Hsection.
      cbn [kernel_module_section_iterator_run].
      unfold kernel_module_section_iterator_next at 1. rewrite Hdir.
      unfold kernel_module_section_iterator_next_live.
      cbn [dir_entries dir_errno].
      rewrite (next_live_loop_section _ _ _ _ _ Hsection).
      fold it1. now rewrite Hrun.
Qed.

(** X6: the live section iterator run to its end.  Over a directory
    [/sys/module/NAME/sections] that [readdir] lists without error and
    whose entries are directories or files holding a hexadecimal
    address, the iterator yields the files in the order of the
    directory, each under its file name with the address it holds, skips
    the directories, and ends with [drgn_stop]; the module iterator it
    borrows is returned as it was. *)
Theorem kernel_module_section_iterator_live_run entries
    (it : kernel_module_section_iterator) :
  sit_sections_dir it = Some {| dir_entries := entries; dir_errno := None |} ->
  Forall (fun ent => dirent_is_dir ent = true \/ is_Some (dirent_section ent))
    entries ->
  exists it',
    kernel_module_section_iterator_run (S (length entries)) it
    = Some (omap dirent_section entries, drgn_stop, it') /\
    sit_kmod_it it' = sit_kmod_it it /\
    sit_sections_dir it' = Some {| dir_entries := []; dir_errno := None |}.
Proof.
  intros Hdir Hall.
  destruct (kernel_module_section_iterator_run_live entries (S (length entries)) it
              Hdir Hall ltac:(lia)) as (it' & Hrun & Hkmod & Hrest).
  now exists it'.
Qed.

End SectionRun.

(** X6, witness: a directory with two section files and two
    directories, one of them of unknown type. *)
Lemma kernel_module_section_iterator_live_run_witness :
  exists it',
    kernel_module_section_iterator_run 5 toy_sections_live
    = Some ([(bytes ".text", 0xffffffffa0000000); (bytes ".data", 0xffffffffa0008000)],
            drgn_stop, it') /\
    sit_kmod_it it' = toy_iterator_live /\
    sit_sections_dir it' = Some {| dir_entries := []; dir_errno := None |}.
Proof.
  apply (kernel_module_section_iterator_live_run sections_dir_fixture
           toy_sections_live eq_refl).
  repeat (apply List.Forall_cons; [first [now left | right; vm_compute; eauto]|]).
  apply List.Forall_nil.
Defined.

(** ** Bounds of the depmod lookup *)

Lemma depmod_index_find_node_keeps depmod name bb r bb' :
  depmod_index_find_node depmod name bb = (r, bb') ->
  bb_data bb' = bb_data bb /\ bb_error_fn bb' = bb_error_fn bb /\
  forall e, r = Err e -> exists pos message, e = bb_error_fn bb pos message.
Proof.
  unfold depmod_index_find_node, depmod_index_find_prefix,
    depmod_index_find_childs, st_bind, st_ret, binary_buffer_error,
    binary_buffer_next_u32, binary_buffer_next_u8, binary_buffer_skip,
    binary_buffer_next_string, binary_buffer_check_bounds, st_bind.
  repeat (case_match; simplify_eq; try discriminate); intros [= <- <-];
    (split; [reflexivity|]); (split; [reflexivity|]);
    intros e' [=]; subst; cbn; eauto.
Qed.

Lemma depmod_index_find_loop_keeps depmod fuel :
  forall name bb r bb',
    depmod_index_find_loop fuel depmod name bb = Some (r, bb') ->
    bb_data bb' = bb_data bb /\ bb_error_fn bb' = bb_error_fn bb /\
    forall e, r = Err e -> exists pos message, e = bb_error_fn bb pos message.
Proof.
  induction fuel as [|fuel IH]; intros name bb r bb' Hloop; [discriminate|].
  cbn [depmod_index_find_loop] in Hloop.
  destruct (depmod_index_find_node depmod name bb) as [[[name1|offset|]|e] bb1]
    eqn:Hnode;
    destruct (depmod_index_find_node_keeps _ _ _ _ _ Hnode) as (Hd & Hf & He).
  - destruct (IH _ _ _ _ Hloop) as (Hd' & Hf' & He').
    split; [congruence|]. split; [congruence|].
    intros e Hr. destruct (He' e Hr) as (pos & msg & ->). rewrite Hf. eauto.
  - injection Hloop as <- <-. split; [exact Hd|]. split; [exact Hf|]. intros e [=].
  - injection Hloop as <- <-. split; [exact Hd|]. split; [exact Hf|]. intros e [=].
  - injection Hloop as <- <-. split; [exact Hd|]. split; [exact Hf|].
    intros e' [= <-]. now apply He.
Qed.

Lemma depmod_index_find_value_keeps offset bb r bb' :
  depmod_index_find_value offset bb = (r, bb') ->
  bb_data bb' = bb_data bb /\
  (forall e, r = Err e -> exists pos message, e = bb_error_fn bb pos message) /\
  (forall path len, r = Ok (Some (path, len)) ->
     (path + len < length (bb_data bb))%nat /\
     bb_data bb !! (path + len)%nat = Some ":"%byte /\
     ":"%byte ∉ take len (drop path (bb_data bb))).
Proof.
  unfold depmod_index_find_value.
  destruct (Z.land offset INDEX_NODE_VALUES =? 0).
  { intros [= <- <-]. repeat split; try discriminate; intros; discriminate. }
  unfold st_bind at 1.
  destruct (binary_buffer_next_u32 bb) as [[count|e] bb1] eqn:Hcount.
  2:{ intros [= <- <-].
      unfold binary_buffer_next_u32, st_bind, binary_buffer_check_bounds in Hcount.
      repeat (case_match; simplify_eq).
      repeat split; try (intros; discriminate). intros e' [= <-]. eauto. }
  assert (bb_data bb1 = bb_data bb /\ bb_error_fn bb1 = bb_error_fn bb) as [Hd1 Hf1].
  { unfold binary_buffer_next_u32, st_bind, binary_buffer_check_bounds in Hcount.
    repeat (case_match; simplify_eq). easy. }
  destruct (count =? 0).
  { intros [= <- <-]. repeat split; try assumption; intros; discriminate. }
  unfold st_bind.
  destruct (binary_buffer_skip 4 bb1) as [[[]|e] bb2] eqn:Hskip.
  2:{ intros [= <- <-].
      unfold binary_buffer_skip, st_bind, binary_buffer_check_bounds in Hskip.
      repeat (case_match; simplify_eq).
      repeat split; try assumption; try (intros; discriminate).
      intros e' [= <-]. rewrite Hf1. eauto. }
  assert (bb_data bb2 = bb_data bb /\ bb_error_fn bb2 = bb_error_fn bb) as [Hd2 Hf2].
  { unfold binary_buffer_skip, st_bind, binary_buffer_check_bounds in Hskip.
    repeat (case_match; simplify_eq). cbn. easy. }
  destruct (memchr ":"%byte (bb_rest bb2)) as [colon|] eqn:Hcolon.
  - intros [= <- <-]. split; [exact Hd2|]. split; [intros e [=]|].
    intros path len [= <- <-]. unfold bb_rest in Hcolon. rewrite Hd2 in Hcolon.
    pose proof (memchr_lt _ _ _ Hcolon) as Hlt. rewrite length_drop in Hlt.
    pose proof (memchr_lookup _ _ _ Hcolon) as Hlook. rewrite lookup_drop in Hlook.
    split; [lia|]. split; [exact Hlook|].
    intros Hin. apply list_elem_of_lookup in Hin as [j Hj].
    pose proof (lookup_lt_Some _ _ _ Hj) as Hjlt. rewrite length_take in Hjlt.
    rewrite lookup_take_lt in Hj by lia.
    exact (memchr_first _ _ _ j Hcolon ltac:(lia) Hj).
  - unfold binary_buffer_error. intros [= <- <-].
    split; [exact Hd2|]. split; [|intros; discriminate].
    intros e [= <-]. rewrite Hf2. eauto.
Qed.

(** X7: [depmod_index_find] returns on every index and every name, and
    what it returns stays inside the mapping.  A path it returns starts
    inside the first [depmod_len] bytes of the mapping, contains no
    colon and is followed by a colon that is still inside them; when no
    path is found [*len_ret] is left as it was; and an error is always a
    buffer error of this index, with both out parameters left as they
    were. *)
Theorem depmod_index_find_in_bounds depmod name out :
  exists r out',
    depmod_index_find depmod name out = Some (r, out') /\
    match r with
    | Err e =>
        out' = out /\
        exists pos message, e = depmod_index_buffer_error depmod pos message
    | Ok _ =>
        match path_ret out' with
        | None => len_ret out' = len_ret out
        | Some path =>
            let data := take (depmod_len depmod) (depmod_data depmod) in
            (path + len_ret out' < length data)%nat /\
            data !! (path + len_ret out')%nat = Some ":"%byte /\
            ":"%byte ∉ take (len_ret out') (drop path data)
        end
    end.
Proof.
  unfold depmod_index_find.
  destruct (depmod_index_find_loop_total depmod (S (length name)) name
              (bb_set_pos 8 (depmod_index_buffer_init depmod)) ltac:(lia))
    as [[r bb] Hloop].
  rewrite Hloop.
  destruct (depmod_index_find_loop_keeps _ _ _ _ _ _ Hloop) as (Hd & Hf & He).
  cbn in Hd, Hf.
  destruct r as [[offset|]|e].
  - destruct (depmod_index_find_value offset bb) as [r' bb'] eqn:Hvalue.
    destruct (depmod_index_find_value_keeps _ _ _ _ Hvalue) as (_ & He' & Hpath).
    destruct r' as [[[path len]|]|e'].
    + eexists _, _. split; [reflexivity|]. cbn [path_ret len_ret].
      rewrite <- Hd. now apply Hpath.
    + eexists _, _. split; [reflexivity|]. reflexivity.
    + eexists _, _. split; [reflexivity|]. split; [reflexivity|].
      destruct (He' e' eq_refl) as (pos & msg & ->). rewrite Hf. eauto.
  - eexists _, _. split; [reflexivity|]. reflexivity.
  - eexists _, _. split; [reflexivity|]. split; [reflexivity|].
    destruct (He e eq_refl) as (pos & msg & ->). cbn. eauto.
Qed.

(** ** Classifying ELF files *)

Lemma identify_kernel_elf_loop_spec scns have_init_text :
  identify_kernel_elf_loop scns have_init_text
  = match list_find (fun scn => scn_decisive scn = true) scns with
    | Some (i, scn) =>
        if scn_strptr_ok scn then Ok (false, true) else Err drgn_error_libelf
    | None =>
        Ok (have_init_text || existsb (scn_named ".init.text") scns, false)
    end.
Proof.
  revert have_init_text.
  induction scns as [|scn scns IH]; intros have_init_text.
  - simpl. now rewrite orb_false_r.
  - cbn [identify_kernel_elf_loop list_find existsb]. rewrite IH, IH.
    destruct (decide (scn_decisive scn = true)) as [Hd|Hd].
    + unfold scn_decisive in Hd. apply andb_true_iff in Hd as [-> Hd].
      cbn [negb]. destruct (scn_strptr_ok scn); cbn [negb orb] in *; [|reflexivity].
      apply bool_decide_eq_true in Hd. now rewrite decide_True by exact Hd.
    + apply not_true_is_false in Hd. unfold scn_decisive in Hd.
      destruct (scn_getshdr_ok scn) eqn:Hget; cbn [negb andb] in *.
      * apply orb_false_iff in Hd as [Hstr Hmod].
        apply negb_false_iff in Hstr. rewrite Hstr. cbn [negb].
        apply bool_decide_eq_false in Hmod. rewrite decide_False by exact Hmod.
        destruct (decide (sh_name (scn_shdr scn) = bytes ".init.text")) as [Hit|Hit].
        -- assert (scn_named ".init.text" scn = true) as ->
             by (unfold scn_named; rewrite Hget; now apply bool_decide_eq_true).
           destruct (list_find _ scns) as [[i s]|]; cbn; [reflexivity|].
           now rewrite orb_true_r.
        -- assert (scn_named ".init.text" scn = false) as ->
             by (unfold scn_named; rewrite Hget; now apply bool_decide_eq_false).
           destruct (list_find _ scns) as [[i s]|]; cbn; reflexivity.
      * assert (scn_named ".init.text" scn = false) as ->
          by (unfold scn_named; now rewrite Hget).
        destruct (list_find _ scns) as [[i s]|]; cbn; reflexivity.
Qed.

Lemma identify_kernel_elf_loop_readable scns have_init_text :
  Forall (fun scn => scn_getshdr_ok scn = true -> scn_strptr_ok scn = true) scns ->
  identify_kernel_elf_loop scns have_init_text
  = Ok (negb (existsb (scn_named ".gnu.linkonce.this_module") scns)
        && (have_init_text || existsb (scn_named ".init.text") scns),
        existsb (scn_named ".gnu.linkonce.this_module") scns).
Proof.
  intros Hall. revert have_init_text.
  induction Hall as [|scn scns Hscn Hall IH]; intros have_init_text.
  - simpl. now rewrite orb_false_r.
  - cbn [identify_kernel_elf_loop existsb].
    destruct (scn_getshdr_ok scn) eqn:Hget; cbn [negb].
    + rewrite Hscn by reflexivity. cbn [negb].
      destruct (decide (sh_name (scn_shdr scn) = bytes ".gnu.linkonce.this_module"))
        as [Hmod|Hmod].
      * assert (scn_named ".gnu.linkonce.this_module" scn = true) as ->
          by (unfold scn_named; rewrite Hget; now apply bool_decide_eq_true).
        reflexivity.
      * assert (scn_named ".gnu.linkonce.this_module" scn = false) as ->
          by (unfold scn_named; rewrite Hget; now apply bool_decide_eq_false).
        cbn [orb].
        destruct (decide (sh_name (scn_shdr scn) = bytes ".init.text")) as [Hit|Hit].
        -- assert (scn_named ".init.text" scn = true) as ->
             by (unfold scn_named; rewrite Hget; now apply bool_decide_eq_true).
           rewrite IH. now rewrite orb_true_r.
        -- assert (scn_named ".init.text" scn = false) as ->
             by (unfold scn_named; rewrite Hget; now apply bool_decide_eq_false).
           now rewrite IH.
    + assert (scn_named ".gnu.linkonce.this_module" scn = false) as ->
        by (unfold scn_named; now rewrite Hget).
      assert (scn_named ".init.text" scn = false) as ->
        by (unfold scn_named; now rewrite Hget).
      now rewrite IH.
Qed.

(** X8: what decides [identify_kernel_elf].  Sections whose header
    cannot be read are passed over.  The first section with a readable
    header whose name cannot be read or is [.gnu.linkonce.this_module]
    ends the scan: with a libelf error in the first case, with the file
    classified as a module in the second, whatever follows.  With no
    such section the file is not a module, and is vmlinux exactly when a
    section with a readable header is named [.init.text]. *)
Theorem identify_kernel_elf_first_decisive elf :
  identify_kernel_elf elf
  = if elf_shstrndx_ok elf then
      match list_find (fun scn => scn_decisive scn = true) (elf_sections elf) with
      | Some (_, scn) =>
          if scn_strptr_ok scn then Ok (false, true) else Err drgn_error_libelf
      | None => Ok (existsb (scn_named ".init.text") (elf_sections elf), false)
      end
    else Err drgn_error_libelf.
Proof.
  unfold identify_kernel_elf.
  destruct (elf_shstrndx_ok elf); [|reflexivity].
  cbn [negb]. apply identify_kernel_elf_loop_spec.
Qed.

(** X9: when the section names of an ELF file can be read,
    [identify_kernel_elf] classifies it as a module exactly when it has
    a section named [.gnu.linkonce.this_module], and as vmlinux exactly
    when it has none but has a section named [.init.text]; it is never
    both. *)
Theorem identify_kernel_elf_classifies elf :
  elf_shstrndx_ok elf = true ->
  Forall (fun scn => scn_getshdr_ok scn = true -> scn_strptr_ok scn = true)
    (elf_sections elf) ->
  let is_module :=
    existsb (scn_named ".gnu.linkonce.this_module") (elf_sections elf) in
  identify_kernel_elf elf
  = Ok (negb is_module && existsb (scn_named ".init.text") (elf_sections elf),
        is_module).
Proof.
  unfold identify_kernel_elf. intros -> Hall. cbn [negb].
  now rewrite (identify_kernel_elf_loop_readable _ false Hall).
Qed.

(** X9, witness: a file that is vmlinux because the header of its
    [.gnu.linkonce.this_module] section cannot be read, and a module
    that also has [.init.text]. *)
Lemma identify_kernel_elf_classifies_witness :
  identify_kernel_elf
    (elf_of_sections [".text"%string; ".gnu.linkonce.this_module"%string; ".init.text"%string; ".data"%string])
  = Ok (true, false) /\
  identify_kernel_elf
    (elf_of_sections [".init.text"%string; ".text"%string; ".gnu.linkonce.this_module"%string])
  = Ok (false, true).
Proof.
  split.
  - apply (identify_kernel_elf_classifies
             (elf_of_sections
                [".text"%string; ".gnu.linkonce.this_module"%string; ".init.text"%string; ".data"%string])
             eq_refl).
    repeat (apply List.Forall_cons; [vm_compute; congruence|]). apply List.Forall_nil.
  - apply (identify_kernel_elf_classifies
             (elf_of_sections [".init.text"%string; ".text"%string; ".gnu.linkonce.this_module"%string])
             eq_refl).
    repeat (apply List.Forall_cons; [vm_compute; congruence|]). apply List.Forall_nil.
Defined.

(** ** The section patcher *)

Lemma cache_scn_map_lookup scns :
  forall i acc scn_map,
    cache_scn_map scns i acc = Ok scn_map ->
    forall name,
      scn_map !! name
      = match acc !! name with
        | Some j => Some j
        | None => (fun p => (i + p.1)%nat) <$> list_find (alloc_named name) scns
        end.
Proof.
  induction scns as [|scn scns IH]; intros i acc scn_map Hmap name.
  - simpl in Hmap. injection Hmap as <-. simpl. now destruct (acc !! name).
  - cbn [cache_scn_map] in Hmap. cbn [list_find].
    destruct (scn_getshdr_ok scn); [|discriminate]. cbn [negb] in Hmap.
    destruct (Z.land (sh_flags (scn_shdr scn)) SHF_ALLOC =? 0) eqn:Halloc.
    + rewrite (IH _ _ _ Hmap name).
      rewrite decide_False
        by (unfold alloc_named, scn_alloc; rewrite Halloc; intros [[=] _]).
      destruct (acc !! name); [reflexivity|].
      destruct (list_find _ scns) as [[j s]|]; cbn; [f_equal; lia|reflexivity].
    + destruct (scn_strptr_ok scn); [|discriminate]. cbn [negb] in Hmap.
      rewrite (IH _ _ _ Hmap name).
      destruct (decide (sh_name (scn_shdr scn) = name)) as [Hname|Hname].
      * rewrite decide_True
          by (unfold alloc_named, scn_alloc; now rewrite Halloc).
        subst name. destruct (acc !! sh_name (scn_shdr scn)) as [j|] eqn:Hacc.
        -- now rewrite Hacc.
        -- rewrite lookup_insert_eq. cbn. f_equal. lia.
      * rewrite decide_False by (intros [_ ?]; contradiction).
        assert (match acc !! sh_name (scn_shdr scn) with
                | Some _ => acc
                | None => <[sh_name (scn_shdr scn) := i]> acc
                end !! name = acc !! name) as ->.
        { destruct (acc !! sh_name (scn_shdr scn)); [reflexivity|].
          now apply lookup_insert_ne. }
        destruct (acc !! name); [reflexivity|].
        destruct (list_find _ scns) as [[j s]|]; cbn; [f_equal; lia|reflexivity].
Qed.

Lemma last_address_snoc done name address name' :
  last_address (done ++ [(name, address)]) name'
  = if decide (name = name') then Some address else last_address done name'.
Proof.
  unfold last_address. rewrite filter_app, filter_cons, filter_nil. cbn [fst].
  destruct (decide (name = name')) as [Hn|Hn].
  - now rewrite last_snoc.
  - now rewrite app_nil_r.
Qed.

Lemma scn_set_addr_twice a b scn :
  scn_set_addr a (scn_set_addr b scn) = scn_set_addr a scn.
Proof. reflexivity. Qed.

Lemma scn_set_addr_patched a scns sections i scn :
  scn_set_addr a (patched_scn scns sections i scn) = scn_set_addr a scn.
Proof.
  unfold patched_scn.
  destruct (list_find _ scns) as [[j s]|]; [|reflexivity].
  destruct (last_address _ _); [|reflexivity].
  now destruct (scn_alloc scn && (j =? i)%nat).
Qed.

Lemma patched_scn_answers scns sections i scn :
  scn_getshdr_ok (patched_scn scns sections i scn) = scn_getshdr_ok scn /\
  scn_update_ok (patched_scn scns sections i scn) = scn_update_ok scn.
Proof.
  unfold patched_scn.
  destruct (list_find _ scns) as [[j s]|]; [|easy].
  destruct (last_address _ _); [|easy].
  now destruct (scn_alloc scn && (j =? i)%nat).
Qed.

Lemma cache_patch_spec orig scn_map :
  (forall name, scn_map !! name = fst <$> list_find (alloc_named name) orig) ->
  forall sections end_ done cur r cur',
    patched_with orig done cur ->
    cache_patch scn_map sections end_ cur = (r, cur') ->
    exists k,
      patched_with orig (done ++ take k sections) cur' /\
      (r = Ok tt -> k = length sections /\ end_ = drgn_stop).
Proof.
  intros Hmap. induction sections as [|[name address] sections IH];
    intros end_ done cur r cur' Hinv Hpatch.
  - simpl in Hpatch. injection Hpatch as <- <-. exists 0%nat.
    rewrite app_nil_r. split; [exact Hinv|].
    destruct end_; intros [=]. easy.
  - cbn [cache_patch] in Hpatch. rewrite Hmap in Hpatch.
    assert (forall i scn, sh_name (scn_shdr scn) <> name ->
              patched_scn orig (done ++ [(name, address)]) i scn
              = patched_scn orig done i scn) as Hother.
    { intros i scn Hne. unfold patched_scn. rewrite last_address_snoc.
      now rewrite decide_False by congruence. }
    assert (forall cur1,
              patched_with orig (done ++ [(name, address)]) cur1 ->
              cache_patch scn_map sections end_ cur1 = (r, cur') ->
              exists k,
                patched_with orig (done ++ take k ((name, address) :: sections)) cur' /\
                (r = Ok tt -> k = length ((name, address) :: sections)
                              /\ end_ = drgn_stop)) as Hnext.
    { intros cur1 Hinv1 Hpatch1.
      destruct (IH _ _ _ _ _ Hinv1 Hpatch1) as (k & Hk & Hok).
      exists (S k). cbn [take length]. rewrite <- app_assoc in Hk.
      split; [exact Hk|]. intros Hr. destruct (Hok Hr) as [-> ->]. easy. }
    assert (exists k,
              patched_with orig (done ++ take k ((name, address) :: sections)) cur /\
              (@Err unit drgn_error_libelf = Ok tt ->
               k = length ((name, address) :: sections) /\ end_ = drgn_stop))
      as Hstop.
    { exists 0%nat. cbn [take]. rewrite app_nil_r. split; [exact Hinv|intros [=]]. }
    destruct Hinv as [Hlen Hinv].
    destruct (list_find (alloc_named name) orig) as [[i s]|] eqn:Hfind;
      cbn [fmap option_fmap option_map fst] in Hpatch.
    + apply list_find_Some in Hfind as Hi. destruct Hi as (Hi & [Halloc Hname] & _).
      pose proof (Hinv _ _ Hi) as Hcur. rewrite Hcur in Hpatch.
      destruct (patched_scn_answers orig done i s) as [Hget Hupd].
      rewrite Hget, Hupd in Hpatch.
      destruct (scn_getshdr_ok s); cbn [negb] in Hpatch;
        [|injection Hpatch as <- <-; exact Hstop].
      destruct (scn_update_ok s); cbn [negb] in Hpatch;
        [|injection Hpatch as <- <-; exact Hstop].
      eapply Hnext; [|exact Hpatch].
      split; [now rewrite length_insert|].
      intros j scn Hj. destruct (decide (j = i)) as [->|Hji].
      * rewrite list_lookup_insert_eq by (apply lookup_lt_Some in Hcur; lia).
        rewrite Hi in Hj. injection Hj as <-.
        rewrite scn_set_addr_patched. f_equal.
        unfold patched_scn. rewrite Hname, Hfind, last_address_snoc.
        rewrite decide_True by reflexivity.
        now rewrite Halloc, Nat.eqb_refl.
      * rewrite list_lookup_insert_ne by congruence.
        rewrite (Hinv _ _ Hj). f_equal.
        destruct (decide (sh_name (scn_shdr scn) = name)) as [Hn|Hn];
          [|now rewrite Hother].
        unfold patched_scn. rewrite Hn, Hfind.
        replace (i =? j)%nat with false by lia.
        rewrite andb_false_r. now destruct (last_address _ _), (last_address _ _).
    + eapply Hnext; [|exact Hpatch].
      split; [exact Hlen|].
      intros j scn Hj. rewrite (Hinv _ _ Hj). f_equal.
      destruct (decide (sh_name (scn_shdr scn) = name)) as [Hn|Hn];
        [|now rewrite Hother].
      unfold patched_scn. now rewrite Hn, Hfind.
Qed.

Lemma patched_scn_nil scns i scn : patched_scn scns [] i scn = scn.
Proof. unfold patched_scn. now destruct (list_find _ scns) as [[j s]|]. Qed.

Lemma cache_kernel_module_sections_spec m elf r elf' :
  cache_kernel_module_sections m elf = (r, elf') ->
  elf_shstrndx_ok elf' = elf_shstrndx_ok elf /\
  elf_gnu_build_id elf' = elf_gnu_build_id elf /\
  length (elf_sections elf') = length (elf_sections elf) /\
  exists k,
    (forall i scn,
       elf_sections elf !! i = Some scn ->
       elf_sections elf' !! i
       = Some (patched_scn (elf_sections elf) (take k (lm_sections m)) i scn)) /\
    (r = Ok tt -> k = length (lm_sections m) /\ lm_sections_end m = drgn_stop).
Proof.
  unfold cache_kernel_module_sections. intros Hcache.
  assert (forall e,
            elf_shstrndx_ok elf = elf_shstrndx_ok elf /\
            elf_gnu_build_id elf = elf_gnu_build_id elf /\
            length (elf_sections elf) = length (elf_sections elf) /\
            exists k,
              (forall i scn,
                 elf_sections elf !! i = Some scn ->
                 elf_sections elf !! i
                 = Some (patched_scn (elf_sections elf) (take k (lm_sections m))
                           i scn)) /\
              (@Err unit e = Ok tt ->
               k = length (lm_sections m) /\ lm_sections_end m = drgn_stop))
    as Hsame.
  { intros e. repeat split. exists 0%nat. split; [|intros [=]].
    intros i scn Hi. cbn [take]. now rewrite patched_scn_nil. }
  destruct (negb (elf_shstrndx_ok elf));
    [injection Hcache as <- <-; apply Hsame|].
  destruct (cache_scn_map (elf_sections elf) 0 ∅) as [scn_map|e] eqn:Hmap;
    [|injection Hcache as <- <-; apply Hsame].
  destruct (lm_sections_init m) as [[]|e];
    [|injection Hcache as <- <-; apply Hsame].
  destruct (cache_patch scn_map (lm_sections m) (lm_sections_end m)
              (elf_sections elf)) as [r' scns] eqn:Hpatch.
  injection Hcache as <- <-. cbn [elf_set_sections elf_shstrndx_ok elf_gnu_build_id
                                   elf_sections].
  destruct (cache_patch_spec (elf_sections elf) scn_map) with
    (sections := lm_sections m) (end_ := lm_sections_end m) (done := @nil (list byte * Z))
    (cur := elf_sections elf) (r := r') (cur' := scns) as (k & [Hlen Hk] & Hok).
  - intros name. rewrite (cache_scn_map_lookup _ _ _ _ Hmap name).
    rewrite lookup_empty. now destruct (list_find _ _) as [[j s]|].
  - split; [reflexivity|]. intros i scn Hi. now rewrite patched_scn_nil.
  - exact Hpatch.
  - split; [reflexivity|]. split; [reflexivity|]. split; [exact Hlen|].
    exists k. split; [exact Hk|exact Hok].
Qed.

Lemma last_address_elem_of sections name address :
  last_address sections name = Some address -> (name, address) ∈ sections.
Proof.
  unfold last_address. intros Hlast.
  destruct (last (filter _ sections)) as [[n a]|] eqn:Hl; [|discriminate].
  injection Hlast as ->. apply last_Some_elem_of in Hl.
  apply list_elem_of_filter in Hl as [Hn Hin]. simpl in Hn. now subst n.
Qed.

(** X10: what [cache_kernel_module_sections] writes.  The section
    count, the string table and the build ID of the file are kept, and
    every section is as the addresses of a prefix of the sections the
    kernel reports leave it: the first [SHF_ALLOC] section of a name has
    the last address reported for that name, every other section is
    unchanged.  On success the prefix is the whole list of reported
    sections. *)
Theorem cache_kernel_module_sections_applies m elf r elf' :
  cache_kernel_module_sections m elf = (r, elf') ->
  elf_shstrndx_ok elf' = elf_shstrndx_ok elf /\
  elf_gnu_build_id elf' = elf_gnu_build_id elf /\
  length (elf_sections elf') = length (elf_sections elf) /\
  exists k,
    (forall i scn,
       elf_sections elf !! i = Some scn ->
       elf_sections elf' !! i
       = Some (patched_scn (elf_sections elf) (take k (lm_sections m)) i scn)) /\
    (r = Ok tt -> k = length (lm_sections m) /\ lm_sections_end m = drgn_stop).
Proof. apply cache_kernel_module_sections_spec. Qed.

(** X11: what [cache_kernel_module_sections] leaves alone, also when
    it fails.  A section keeps its name and its flags; a section that
    has changed is an [SHF_ALLOC] section, its new address is one the
    kernel reported for its name, and no [SHF_ALLOC] section before it
    in the file has the same name. *)
Theorem cache_kernel_module_sections_frame m elf r elf' i scn :
  cache_kernel_module_sections m elf = (r, elf') ->
  elf_sections elf !! i = Some scn ->
  exists scn',
    elf_sections elf' !! i = Some scn' /\
    sh_name (scn_shdr scn') = sh_name (scn_shdr scn) /\
    sh_flags (scn_shdr scn') = sh_flags (scn_shdr scn) /\
    scn_getshdr_ok scn' = scn_getshdr_ok scn /\
    scn_strptr_ok scn' = scn_strptr_ok scn /\
    scn_update_ok scn' = scn_update_ok scn /\
    (scn' <> scn ->
     Z.land (sh_flags (scn_shdr scn)) SHF_ALLOC <> 0 /\
     (sh_name (scn_shdr scn), sh_addr (scn_shdr scn')) ∈ lm_sections m /\
     forall j scn_j,
       (j < i)%nat -> elf_sections elf !! j = Some scn_j ->
       Z.land (sh_flags (scn_shdr scn_j)) SHF_ALLOC <> 0 ->
       sh_name (scn_shdr scn_j) <> sh_name (scn_shdr scn)).
Proof.
  intros Hcache Hi.
  destruct (cache_kernel_module_sections_spec _ _ _ _ Hcache)
    as (_ & _ & _ & k & Hk & _).
  rewrite (Hk _ _ Hi). eexists. split; [reflexivity|].
  unfold patched_scn.
  destruct (list_find _ (elf_sections elf)) as [[j s]|] eqn:Hfind;
    [|repeat split; first [reflexivity | congruence | (intros; congruence)]].
  destruct (last_address _ _) as [address|] eqn:Hlast;
    [|repeat split; first [reflexivity | congruence | (intros; congruence)]].
  destruct (scn_alloc scn && (j =? i)%nat) eqn:Hc;
    [|repeat split; first [reflexivity | congruence | (intros; congruence)]].
  do 5 (split; [reflexivity|]). intros _.
  apply andb_true_iff in Hc as [Halloc Hj]. apply Nat.eqb_eq in Hj. subst j.
  unfold scn_alloc in Halloc. split; [lia|]. split.
  - cbn. apply last_address_elem_of in Hlast.
    eapply subseteq_take; exact Hlast.
  - apply list_find_Some in Hfind as (_ & _ & Hfirst).
    intros j scn_j Hji Hj Hallocj Hname.
    apply (Hfirst _ _ Hj Hji). split; [|exact Hname].
    unfold scn_alloc. lia.
Qed.

(** X10, witness: the module and the file of scenario S5. *)
Lemma cache_kernel_module_sections_applies_witness :
  let elf' := (cache_kernel_module_sections module_B elf_fixture).2 in
  elf_shstrndx_ok elf' = elf_shstrndx_ok elf_fixture /\
  elf_gnu_build_id elf' = elf_gnu_build_id elf_fixture /\
  length (elf_sections elf') = length (elf_sections elf_fixture) /\
  exists k,
    (forall i scn,
       elf_sections elf_fixture !! i = Some scn ->
       elf_sections elf' !! i
       = Some (patched_scn (elf_sections elf_fixture)
                 (take k (lm_sections module_B)) i scn)) /\
    (Ok tt = Ok tt -> k = length (lm_sections module_B) /\
                      lm_sections_end module_B = drgn_stop).
Proof.
  apply (cache_kernel_module_sections_applies module_B elf_fixture (Ok tt)
           (cache_kernel_module_sections module_B elf_fixture).2).
  vm_compute. reflexivity.
Defined.

(** X11, witness: the [.text] section of the file of scenario S5. *)
Lemma cache_kernel_module_sections_frame_witness :
  let scn := {| scn_shdr := {| sh_name := bytes ".text"; sh_flags := 6; sh_addr := 0 |};
                scn_getshdr_ok := true; scn_strptr_ok := true;
                scn_update_ok := true |} in
  exists scn',
    elf_sections (cache_kernel_module_sections module_B elf_fixture).2 !! 0%nat
    = Some scn' /\
    sh_name (scn_shdr scn') = sh_name (scn_shdr scn) /\
    sh_flags (scn_shdr scn') = sh_flags (scn_shdr scn) /\
    scn_getshdr_ok scn' = scn_getshdr_ok scn /\
    scn_strptr_ok scn' = scn_strptr_ok scn /\
    scn_update_ok scn' = scn_update_ok scn /\
    (scn' <> scn ->
     Z.land (sh_flags (scn_shdr scn)) SHF_ALLOC <> 0 /\
     (sh_name (scn_shdr scn), sh_addr (scn_shdr scn')) ∈ lm_sections module_B /\
     forall j scn_j,
       (j < 0)%nat -> elf_sections elf_fixture !! j = Some scn_j ->
       Z.land (sh_flags (scn_shdr scn_j)) SHF_ALLOC <> 0 ->
       sh_name (scn_shdr scn_j) <> sh_name (scn_shdr scn)).
Proof.
  apply (cache_kernel_module_sections_frame module_B elf_fixture (Ok tt)
           (cache_kernel_module_sections module_B elf_fixture).2 0%nat).
  - vm_compute. reflexivity.
  - reflexivity.
Defined.

(** ** Default loading without a depmod index *)

Section DefaultLoading.

Variable h : host.

Variable uninitialized : depmod_out.

(** With neither the table nor the depmod index, the loop does nothing. *)
Lemma report_loaded_kernel_modules_loop_idle modules co :
  report_loaded_kernel_modules_loop h uninitialized modules drgn_stop false false co
  = Some (Ok tt, co).
Proof.
  induction modules as [|m modules IH]; [reflexivity|].
  cbn [report_loaded_kernel_modules_loop].
  unfold report_loaded_kernel_modules_body. cbn [andb]. exact IH.
Qed.

Lemma depmod_index_init_failure_reported modules err co :
  depmod_addr (co_depmod co) = None ->
  (depmod_index_init (host_open h) (co_depmod co) (prog_osrelease h)).1.1 = Err err ->
  err <> drgn_enomem ->
  load_budget (co_load co) = None ->
  exists co',
    report_loaded_kernel_modules_loop h uninitialized modules drgn_stop false true co
    = Some (Ok tt, co') /\
    load_elfs (co_load co') = load_elfs (co_load co) /\
    load_errors (co_load co')
    = load_errors (co_load co)
      ++ (if forallb (fun m => drgn_debug_info_is_indexed (co_load co) (lm_name m))
               modules
          then []
          else [{| ee_name := Some (bytes "kernel modules");
                   ee_message := Some "could not read depmod"%string;
                   ee_err := Some err |}]) /\
    depmod_addr (co_depmod co') = None.
Proof.
  intros Haddr Hinit Herr Hbudget.
  induction modules as [|m modules IH].
  - exists co. cbn. now rewrite app_nil_r.
  - cbn [report_loaded_kernel_modules_loop forallb].
    unfold report_loaded_kernel_modules_body. cbn [andb].
    destruct (drgn_debug_info_is_indexed (co_load co) (lm_name m)) eqn:Hidx;
      cbn [negb andb].
    + exact IH.
    + rewrite Haddr.
      destruct (depmod_index_init (host_open h) (co_depmod co) (prog_osrelease h))
        as [[r d] trace]. cbn [fst] in Hinit. subst r.
      unfold with_load. cbn [co_load co_set_depmod].
      destruct (drgn_debug_info_report_error_unlimited
                  (Some (bytes "kernel modules"))
                  (Some "could not read depmod"%string) (Some err) (co_load co)
                  Hbudget ltac:(congruence)) as (load' & Hreport & Hbudget' & Helfs).
      rewrite Hreport. rewrite report_loaded_kernel_modules_loop_idle.
      eexists. split; [reflexivity|]. cbn [co_load co_set_load co_depmod co_set_depmod
                                           depmod_addr].
      split; [exact Helfs|]. split; [|reflexivity].
      apply drgn_debug_info_report_error_result in Hreport
        as [(_ & Herrors & _)|(Hr & _)]; [exact Herrors|discriminate].
Qed.

(** X12: a depmod index that cannot be opened ends default loading.
    With no candidate files, default loading requested, a module
    iterator that starts and ends normally and an indexer that does not
    abort, a failure of [depmod_index_init] other than memory exhaustion
    is reported exactly once, as [could not read depmod] under the name
    [kernel modules], however many loaded modules are not yet indexed;
    no file is reported for any module, the index is left unopened, and
    the iteration ends in success.  When every loaded module is already
    indexed the index is never opened and nothing is reported. *)
Theorem depmod_failure_disables_default_loading (use_proc_and_sys : bool) err co :
  let source := if use_proc_and_sys then modules_live h else modules_walk h in
  src_init source = Ok tt -> src_end source = drgn_stop ->
  depmod_addr (co_depmod co) = None ->
  (depmod_index_init (host_open h) (co_depmod co) (prog_osrelease h)).1.1 = Err err ->
  err <> drgn_enomem ->
  load_budget (co_load co) = None ->
  exists co',
    report_loaded_kernel_modules h uninitialized false true use_proc_and_sys co
    = Some (Ok tt, co') /\
    load_elfs (co_load co') = load_elfs (co_load co) /\
    load_errors (co_load co')
    = load_errors (co_load co)
      ++ (if forallb (fun m => drgn_debug_info_is_indexed (co_load co) (lm_name m))
               (src_modules source)
          then []
          else [{| ee_name := Some (bytes "kernel modules");
                   ee_message := Some "could not read depmod"%string;
                   ee_err := Some err |}]) /\
    depmod_addr (co_depmod co') = None.
Proof.
  intros source Hinit Hend Haddr Hfail Herr Hbudget.
  unfold report_loaded_kernel_modules. fold source. rewrite Hinit, Hend.
  now apply depmod_index_init_failure_reported.
Qed.

End DefaultLoading.

(** X12, witness: two loaded modules on a host without
    [modules.dep.bin]. *)
Lemma depmod_failure_disables_default_loading_witness :
  exists co',
    report_loaded_kernel_modules (host_without_depmod [module_B; module_no_build_id])
      depmod_out_stale false true false
      {| co_load := load_fixture true; co_kmods := []; co_table := ∅;
         co_depmod := depmod_unmapped |}
    = Some (Ok tt, co') /\
    load_elfs (co_load co') = [] /\
    load_errors (co_load co')
    = [{| ee_name := Some (bytes "kernel modules");
          ee_message := Some "could not read depmod"%string;
          ee_err := Some (drgn_error_create_os "open" ENOENT
                            (Some (bytes "/lib/modules/6.1.0/modules.dep.bin"))) |}] /\
    depmod_addr (co_depmod co') = None.
Proof.
  apply (depmod_failure_disables_default_loading
           (host_without_depmod [module_B; module_no_build_id]) depmod_out_stale false
           (drgn_error_create_os "open" ENOENT
              (Some (bytes "/lib/modules/6.1.0/modules.dep.bin")))
           {| co_load := load_fixture true; co_kmods := []; co_table := ∅;
              co_depmod := depmod_unmapped |});
    first [reflexivity | discriminate].
Defined.

(** ** Files no module claims *)

Lemma drgn_debug_info_report_flush_unlimited load :
  load_budget load = None ->
  exists load',
    drgn_debug_info_report_flush load = (Ok tt, load') /\
    load_budget load' = None /\ load_elfs load' = load_elfs load.
Proof.
  intros Hbudget. unfold drgn_debug_info_report_flush, load_spend.
  rewrite Hbudget. simpl. eexists. split; [reflexivity|]. easy.
Qed.

Lemma chain_of_key orig key i :
  i ∈ chain_of orig key <-> orig !! i ≫= kmod_key = Some key.
Proof.
  unfold chain_of, files_with_key. rewrite elem_of_reverse, list_elem_of_filter.
  rewrite elem_of_seq. split; [now intros [? _]|].
  intros Hkey. split; [exact Hkey|].
  destruct (orig !! i) as [kmod|] eqn:Hi; [|discriminate].
  apply lookup_lt_Some in Hi. lia.
Qed.

Lemma chain_of_NoDup orig key : NoDup (chain_of orig key).
Proof. unfold chain_of. rewrite reverse_Permutation. apply files_with_key_NoDup. Qed.

Lemma report_unloaded_chain_linked (orig : list kernel_module_file) l :
  forall fuel k co,
    linked_from (co_kmods co) (Some k) l -> NoDup l -> (length l <= fuel)%nat ->
    load_budget (co_load co) = None ->
    (forall i, i ∈ l ->
       exists kmod, co_kmods co !! i = Some kmod /\ is_Some (kmod_elf kmod) /\
                    is_Some (kmod_key kmod) /\
                    orig !! i ≫= unloaded_report = unloaded_report kmod) ->
    exists co',
      report_unloaded_chain fuel k co = Some (Ok tt, co') /\
      load_elfs (co_load co')
      = load_elfs (co_load co) ++ omap (fun i => orig !! i ≫= unloaded_report) l /\
      load_budget (co_load co') = None /\
      length (co_kmods co') = length (co_kmods co) /\
      co_table co' = co_table co /\
      (forall j, j ∉ l -> co_kmods co' !! j = co_kmods co !! j) /\
      (forall i, i ∈ l ->
         exists kmod', co_kmods co' !! i = Some kmod' /\ kmod_elf kmod' = None /\
                       kmod_fd kmod' = -1).
Proof.
  induction l as [|k0 l IH]; intros fuel k co Hlinked Hnodup Hfuel Hbudget Hfiles.
  { simpl in Hlinked. discriminate. }
  destruct Hlinked as ([= <-] & kmod & Hk & Hnext).
  apply NoDup_cons in Hnodup as [Hnotin Hnodup].
  destruct fuel as [|fuel]; [simpl in Hfuel; lia|].
  destruct (Hfiles k ltac:(left)) as (kmod_k & Hk' & [elf Helf] & [key Hkey] & Hrpt).
  rewrite Hk in Hk'. injection Hk' as <-.
  cbn [report_unloaded_chain]. rewrite Hk, Helf.
  match goal with
  | |- context [with_load (drgn_debug_info_report_elf ?r) ?c] =>
      destruct (drgn_debug_info_report_elf_unlimited r (co_load c))
        as (load' & Hreport & Hbudget' & Helfs); [exact Hbudget|];
      unfold with_load; rewrite Hreport
  end.
  cbn [co_load co_set_kmods co_kmods co_set_load].
  assert (omap (fun i => orig !! i ≫= unloaded_report) (k :: l)
          = {| er_path := kmod_path kmod; er_fd := kmod_fd kmod; er_elf := elf;
               er_start := 0; er_end := 0; er_name := Some (kmod_path kmod) |}
            :: omap (fun i => orig !! i ≫= unloaded_report) l) as ->.
  { cbn [omap list_omap]. rewrite Hrpt. unfold unloaded_report.
    now rewrite Helf, Hkey. }
  assert (k < length (co_kmods co))%nat as Hklt by (now apply lookup_lt_Some in Hk).
  destruct l as [|k' l].
  - simpl in Hnext. rewrite Hnext.
    eexists. split; [reflexivity|].
    cbn [co_load co_set_kmods co_kmods co_set_load co_table omap list_omap].
    split; [exact Helfs|]. split; [exact Hbudget'|].
    split; [now rewrite length_insert|]. split; [reflexivity|]. split.
    + intros j Hj. apply not_elem_of_cons in Hj as [Hj _].
      now rewrite list_lookup_insert_ne by congruence.
    + intros i Hi. apply list_elem_of_singleton in Hi as ->.
      rewrite list_lookup_insert_eq by exact Hklt. eexists. split; [reflexivity|].
      easy.
  - destruct Hnext as (Hnext & Hrest). rewrite Hnext.
    match goal with
    | |- context [report_unloaded_chain fuel k' ?c] =>
        destruct (IH fuel k' c)
          as (co' & Hchain & Helfs' & Hbudget'' & Hlen' & Htable & Hother & Hdone)
    end.
    + simpl. split; [reflexivity|].
      destruct Hrest as (kmod' & Hk' & Hrest). exists kmod'. split.
      * rewrite list_lookup_insert_ne; [assumption|].
        intros ->; apply Hnotin; left.
      * apply linked_from_insert; [now apply not_elem_of_cons in Hnotin|].
        exact Hrest.
    + exact Hnodup.
    + simpl in *. lia.
    + exact Hbudget'.
    + intros i Hi. cbn [co_kmods co_set_kmods co_set_load].
      rewrite list_lookup_insert_ne by (intros ->; contradiction).
      apply Hfiles. now right.
    + exists co'. split; [exact Hchain|].
      cbn [co_load co_set_kmods co_kmods co_set_load co_table] in *.
      split; [rewrite Helfs', Helfs; now rewrite <- app_assoc|].
      split; [exact Hbudget''|].
      split; [rewrite Hlen'; now rewrite length_insert|].
      split; [exact Htable|]. split.
      * intros j Hj. apply not_elem_of_cons in Hj as [Hjk Hj].
        rewrite (Hother j Hj). now rewrite list_lookup_insert_ne by congruence.
      * intros i Hi. apply elem_of_cons in Hi as [->|Hi]; [|now apply Hdone].
        rewrite (Hother k Hnotin).
        rewrite list_lookup_insert_eq by exact Hklt. eexists. split; [reflexivity|].
        easy.
Qed.

Lemma report_unloaded_spec (orig : list kernel_module_file) entries :
  NoDup entries.*1 ->
  forall co,
    chains_pending orig entries co ->
    exists co',
      report_unloaded entries co = Some (Ok tt, co') /\
      load_elfs (co_load co')
      = load_elfs (co_load co)
        ++ omap (fun i => orig !! i ≫= unloaded_report)
             (concat ((fun e => chain_of orig e.1) <$> entries)) /\
      length (co_kmods co') = length orig /\
      (forall j,
         (forall key head, (key, head) ∈ entries -> j ∉ chain_of orig key) ->
         co_kmods co' !! j = co_kmods co !! j) /\
      forall key head i,
        (key, head) ∈ entries -> i ∈ chain_of orig key ->
        exists kmod', co_kmods co' !! i = Some kmod' /\ kmod_elf kmod' = None /\
                      kmod_fd kmod' = -1.
Proof.
  induction entries as [|[key head] entries IH]; intros Hnodup co Hpending.
  - exists co. cbn. rewrite app_nil_r. destruct Hpending as (_ & Hlen & _).
    repeat split; try assumption. intros key head i Hin. now apply elem_of_nil in Hin.
  - cbn [fmap list_fmap fst] in Hnodup. apply NoDup_cons in Hnodup as [Hkey Hnodup].
    destruct Hpending as (Hbudget & Hlen & Hchains).
    destruct (Hchains key head ltac:(left)) as [Hlinked Hfiles].
    cbn [report_unloaded].
    destruct (report_unloaded_chain_linked orig (chain_of orig key)
                (length (co_kmods co)) head
                (co_set_table (delete key (co_table co)) co))
      as (co1 & Hchain & Helfs & Hbudget1 & Hlen1 & _ & Hother & Hdone).
    + exact Hlinked.
    + apply chain_of_NoDup.
    + cbn [co_kmods co_set_table]. rewrite Hlen. unfold chain_of.
      rewrite length_reverse. unfold files_with_key.
      etransitivity; [apply length_filter|]. now rewrite length_seq.
    + exact Hbudget.
    + exact Hfiles.
    + cbn [co_kmods co_set_table co_load] in *. rewrite Hchain.
      assert (forall key' head' i,
                (key', head') ∈ entries -> i ∈ chain_of orig key' ->
                i ∉ chain_of orig key) as Hdisjoint.
      { intros key' head' i Hin Hi Hi'.
        apply chain_of_key in Hi, Hi'. rewrite Hi in Hi'. injection Hi' as ->.
        apply Hkey. apply list_elem_of_fmap. now exists (key, head'). }
      destruct (IH Hnodup co1) as (co' & Hrest & Helfs' & Hlen' & Hother' & Hdone').
      { split; [exact Hbudget1|]. split; [congruence|].
        intros key' head' Hin.
        destruct (Hchains key' head' ltac:(now right)) as [Hlinked' Hfiles'].
        split.
        - clear - Hlinked' Hother Hdisjoint Hin.
          assert (forall l hd,
                    (forall i, i ∈ l -> i ∉ chain_of orig key) ->
                    linked_from (co_kmods co) hd l ->
                    linked_from (co_kmods co1) hd l) as Hkeep.
          { induction l as [|k l IHl]; intros hd Hl; cbn [linked_from]; [easy|].
            intros (-> & kmod & Hk & Hnext). split; [reflexivity|].
            exists kmod. split.
            - rewrite Hother; [exact Hk|]. apply Hl. now left.
            - apply IHl; [|exact Hnext]. intros i Hi. apply Hl. now right. }
          apply Hkeep; [|exact Hlinked'].
          intros i Hi. eapply Hdisjoint; eassumption.
        - intros i Hi. rewrite Hother by (eapply Hdisjoint; eassumption).
          now apply Hfiles'. }
      exists co'. split; [exact Hrest|].
      split; [|split; [exact Hlen'|split]].
      * rewrite Helfs', Helfs. cbn [fmap list_fmap concat fst].
        now rewrite omap_app, <- app_assoc.
      * intros j Hj. rewrite Hother'.
        -- apply Hother. apply (Hj key head). now left.
        -- intros key' head' Hin. apply (Hj key' head'). now right.
      * intros key' head' i Hin Hi.
        apply elem_of_cons in Hin as [[= -> ->]|Hin];
          [|now apply (Hdone' key' head')].
        destruct (Hdone i Hi) as (kmod' & Hkmod' & Helf' & Hfd').
        exists kmod'. split; [|easy]. rewrite Hother'; [exact Hkmod'|].
        intros key' head' Hin Hi'. exact (Hdisjoint key' head' i Hin Hi' Hi).
Qed.

Lemma chains_NoDup (orig : list kernel_module_file) (entries : list (list byte * nat)) :
  NoDup entries.*1 -> NoDup (concat ((fun e => chain_of orig e.1) <$> entries)).
Proof.
  induction entries as [|[key head] entries IH]; intros Hnodup; [constructor|].
  cbn [fmap list_fmap fst] in Hnodup. apply NoDup_cons in Hnodup as [Hkey Hnodup].
  cbn [fmap list_fmap concat fst]. apply NoDup_app.
  split; [apply chain_of_NoDup|]. split; [|now apply IH].
  intros i Hi Hin. apply list_elem_of_In, in_concat in Hin as (l & Hl & Hil).
  apply list_elem_of_In, list_elem_of_fmap in Hl as ([key' head'] & -> & Hin).
  apply list_elem_of_In in Hil. cbn [fst] in Hil.
  apply chain_of_key in Hi, Hil. rewrite Hi in Hil. injection Hil as Heq.
  apply Hkey. apply list_elem_of_fmap. now exists (key', head').
Qed.

Lemma chains_cover (orig kmods : list kernel_module_file)
    (table : gmap (list byte) nat) :
  (forall key, linked_from kmods (table !! key) (chain_of orig key)) ->
  concat ((fun e => chain_of orig e.1) <$> map_to_list table)
  ≡ₚ filter (fun i => is_Some (orig !! i ≫= kmod_key)) (seq 0 (length orig)).
Proof.
  intros Hchains. apply NoDup_Permutation.
  - apply chains_NoDup, NoDup_fst_map_to_list.
  - apply NoDup_filter, NoDup_seq.
  - intros i. rewrite list_elem_of_filter, elem_of_seq. split.
    + intros Hin. apply list_elem_of_In, in_concat in Hin as (l & Hl & Hil).
      apply list_elem_of_In, list_elem_of_fmap in Hl as ([key head] & -> & Hin).
      apply list_elem_of_In, chain_of_key in Hil. cbn [fst] in Hil.
      split; [now rewrite Hil|].
      destruct (orig !! i) as [kmod|] eqn:Hi; [|discriminate].
      apply lookup_lt_Some in Hi. lia.
    + intros [[key Hkey] _]. pose proof Hkey as Hi. apply chain_of_key in Hi.
      specialize (Hchains key).
      destruct (table !! key) as [head|] eqn:Hhead.
      * apply list_elem_of_In, in_concat. exists (chain_of orig key).
        split; [|now apply list_elem_of_In].
        apply list_elem_of_In, list_elem_of_fmap. exists (key, head).
        split; [reflexivity|]. now apply elem_of_map_to_list.
      * destruct (chain_of orig key); [now apply elem_of_nil in Hi|].
        destruct Hchains as [[=] _].
Qed.

Lemma omap_lookup_seq {A B} (f : A -> option B) (l pre : list A) :
  omap (fun i => (pre ++ l) !! i ≫= f) (seq (length pre) (length l)) = omap f l.
Proof.
  revert pre. induction l as [|a l IH]; intros pre; [reflexivity|].
  cbn [length seq omap list_omap].
  rewrite list_lookup_middle by reflexivity. cbn [mbind option_bind].
  specialize (IH (pre ++ [a])). rewrite <- app_assoc, length_app in IH.
  cbn [app length] in IH. rewrite Nat.add_1_r in IH. now rewrite IH.
Qed.

Lemma omap_filter_Some {A B} (f : A -> option B) (P : A -> Prop)
    `{!forall a, Decision (P a)} (l : list A) :
  (forall a, ~ P a -> f a = None) -> omap f (filter P l) = omap f l.
Proof.
  intros Hf. induction l as [|a l IH]; [reflexivity|].
  rewrite filter_cons. cbn [omap list_omap].
  destruct (decide (P a)) as [Ha|Ha]; cbn [omap list_omap]; rewrite IH;
    [reflexivity|].
  now rewrite (Hf a Ha).
Qed.

Section Unloaded.

Variable h : host.

Variable uninitialized : depmod_out.

Lemma report_kernel_modules_unloaded load kmods vmlinux_is_pending :
  load_budget load = None ->
  no_modules (modules_live h) -> no_modules (modules_walk h) ->
  exists load' kmods' reports,
    report_kernel_modules h uninitialized load kmods vmlinux_is_pending
    = Some (Ok tt, load', kmods') /\
    load_elfs load' = load_elfs load ++ reports /\
    reports ≡ₚ omap unloaded_report kmods /\
    forall i kmod,
      kmods !! i = Some kmod -> is_Some (kmod_key kmod) ->
      exists kmod', kmods' !! i = Some kmod' /\ kmod_elf kmod' = None /\
                    kmod_fd kmod' = -1.
Proof.
  intros Hbudget Hlive Hwalk. unfold report_kernel_modules.
  destruct ((length kmods =? 0)%nat && negb (load_default load)) eqn:Hearly.
  { apply andb_true_iff in Hearly as [Hlen _]. apply Nat.eqb_eq in Hlen.
    destruct kmods; [|discriminate].
    exists load, [], []. rewrite app_nil_r. repeat split; try reflexivity.
    intros i kmod Hi. discriminate. }
  set (use_proc_and_sys :=
         prog_is_live h && match host_getenv_proc_and_sys h with
                           | Some env => atoi_true env
                           | None => true
                           end).
  assert (exists load1,
            (if vmlinux_is_pending && negb use_proc_and_sys
             then drgn_debug_info_report_flush load
             else (Ok tt, load)) = (Ok tt, load1) /\
            load_budget load1 = None /\ load_elfs load1 = load_elfs load /\
            load_default load1 = load_default load)
    as (load1 & -> & Hbudget1 & Helfs1 & Hdefault1).
  { destruct (vmlinux_is_pending && negb use_proc_and_sys); [|now exists load].
    destruct (drgn_debug_info_report_flush_unlimited load Hbudget)
      as (load1 & Hflush & Hb & He).
    exists load1. repeat split; try assumption.
    unfold drgn_debug_info_report_flush, load_spend in Hflush.
    rewrite Hbudget in Hflush. now injection Hflush as <-. }
  set (co0 := {| co_load := load1; co_kmods := kmods; co_table := ∅;
                 co_depmod := {| depmod_addr := None; depmod_len := 0;
                                 depmod_path := [] |} |}).
  assert (table_filled kmods 0 co0) as Hfilled0.
  { split; [exact Hbudget1|]. split; [reflexivity|]. split.
    - intros i kmod0 Hi. exists kmod0. easy.
    - intros key. cbn. now rewrite lookup_empty. }
  destruct (kernel_module_table_fill_seq kmods (length kmods) 0 co0 Hfilled0
              ltac:(lia)) as (co1 & -> & Hfilled & Helfs_fill).
  cbn [plus] in Hfilled.
  destruct Hfilled as (Hbudget_fill & Hlen_fill & Hsame & Hchains).
  assert (report_loaded_kernel_modules h uninitialized
            (negb (length kmods =? 0)%nat) (load_default load1) use_proc_and_sys co1
          = Some (Ok tt, co1)) as Hloaded.
  { unfold report_loaded_kernel_modules.
    destruct use_proc_and_sys;
      [destruct Hlive as (-> & -> & ->)|destruct Hwalk as (-> & -> & ->)];
      reflexivity. }
  rewrite Hloaded.
  destruct (report_unloaded_spec kmods (map_to_list (co_table co1))
              (NoDup_fst_map_to_list _) co1)
    as (co' & -> & Helfs' & Hlen' & _ & Hdone).
  { split; [exact Hbudget_fill|]. split; [exact Hlen_fill|].
    intros key head Hin. apply elem_of_map_to_list in Hin.
    pose proof (Hchains key) as Hlinked. rewrite Hin in Hlinked.
    split; [exact Hlinked|].
    intros i Hi. apply chain_of_key in Hi.
    destruct (kmods !! i) as [kmod0|] eqn:Hkmod0; [|discriminate].
    destruct (Hsame i kmod0 Hkmod0) as (kmod & Hkmod & Hpath & Hfd & Helf).
    cbn [mbind option_bind] in Hi |- *.
    exists kmod. split; [exact Hkmod|].
    assert (kmod_key kmod = kmod_key kmod0) as Hkeyeq
      by (unfold kmod_key; now rewrite Helf).
    unfold kmod_key in Hi.
    destruct (kmod_elf kmod0) as [elf|] eqn:Helf0; [|discriminate].
    split; [rewrite Helf; eauto|]. split; [rewrite Hkeyeq; unfold kmod_key;
                                          rewrite Helf0; eauto|].
    unfold unloaded_report. now rewrite Hkeyeq, Hpath, Hfd, Helf, Helf0. }
  eexists _, _, _. split; [reflexivity|]. cbn [fst snd].
  split; [rewrite Helfs', Helfs_fill; cbn [co_load co0]; now rewrite Helfs1|].
  split.
  - rewrite (chains_cover kmods (co_kmods co1) (co_table co1) Hchains).
    rewrite omap_filter_Some.
    + now rewrite <- (omap_lookup_seq unloaded_report kmods []).
    + intros i Hnone. destruct (kmods !! i) as [kmod|]; [|reflexivity].
      cbn [mbind option_bind] in *. unfold unloaded_report.
      destruct (kmod_elf kmod); [|reflexivity].
      destruct (kmod_key kmod); [|reflexivity]. contradict Hnone. eauto.
  - intros i kmod Hi [key Hkey].
    assert (i ∈ chain_of kmods key) as Hin
      by (apply chain_of_key; now rewrite Hi).
    pose proof (Hchains key) as Hlinked. fold (chain_of kmods key) in Hlinked.
    destruct (co_table co1 !! key) as [head|] eqn:Hhead.
    + apply (Hdone key head); [now apply elem_of_map_to_list|exact Hin].
    + destruct (chain_of kmods key); [now apply elem_of_nil in Hin|].
      destruct Hlinked as [[=] _].
Qed.

(** X13: candidate files no loaded module claims.  When the target has
    no module loaded and the indexer does not abort,
    [report_kernel_modules] succeeds and reports every candidate file
    whose build ID could be read, once, at the address range [0, 0]
    under the name of its path, in the order in which the table is
    traversed; each of these files is handed over, its ELF handle
    cleared and its descriptor set to -1. *)
Theorem unloaded_files_reported_at_zero load kmods vmlinux_is_pending :
  load_budget load = None ->
  no_modules (modules_live h) -> no_modules (modules_walk h) ->
  exists load' kmods' reports,
    report_kernel_modules h uninitialized load kmods vmlinux_is_pending
    = Some (Ok tt, load', kmods') /\
    load_elfs load' = load_elfs load ++ reports /\
    reports ≡ₚ omap unloaded_report kmods /\
    forall i kmod,
      kmods !! i = Some kmod -> is_Some (kmod_key kmod) ->
      exists kmod', kmods' !! i = Some kmod' /\ kmod_elf kmod' = None /\
                    kmod_fd kmod' = -1.
Proof. apply report_kernel_modules_unloaded. Qed.

End Unloaded.

(** X13, witness: the two candidate files of scenario S5 with no module
    loaded. *)
Lemma unloaded_files_reported_at_zero_witness :
  exists load' kmods' reports,
    report_kernel_modules (host_fixture []) depmod_out_stale (load_fixture false)
      kmods_fixture false
    = Some (Ok tt, load', kmods') /\
    load_elfs load' = load_elfs (load_fixture false) ++ reports /\
    reports ≡ₚ omap unloaded_report kmods_fixture /\
    forall i kmod,
      kmods_fixture !! i = Some kmod -> is_Some (kmod_key kmod) ->
      exists kmod', kmods' !! i = Some kmod' /\ kmod_elf kmod' = None /\
                    kmod_fd kmod' = -1.
Proof.
  apply (unloaded_files_reported_at_zero (host_fixture []) depmod_out_stale
           (load_fixture false) kmods_fixture false eq_refl);
    repeat split.
Defined.

(** ** Flushing the indexer *)

(** [atoi] keeps the low 32 bits of the number: 2^32 is 0. *)
Lemma atoi_true_low_32_bits :
  atoi_true (bytes "1") = true /\ atoi_true (bytes "0") = false /\
  atoi_true (bytes "-1") = true /\ atoi_true (bytes "4294967296") = false /\
  atoi_true (bytes "4294967297") = true.
Proof. repeat split; vm_compute; reflexivity. Qed.

Lemma reports_only_refl load : reports_only load load.
Proof. unfold reports_only. easy. Qed.

Lemma reports_only_trans load1 load2 load3 :
  reports_only load1 load2 -> reports_only load2 load3 -> reports_only load1 load3.
Proof.
  unfold reports_only.
  intros (Hf & Hm & Hd & He & Hr) (Hf' & Hm' & Hd' & He' & Hr').
  split; [congruence|]. split; [congruence|]. split; [congruence|].
  split; etrans; eassumption.
Qed.

Lemma load_spend_reports_only load load' :
  load_spend load = Some load' ->
  load_flushes load' = load_flushes load /\ load_main load' = load_main load /\
  load_default load' = load_default load /\ load_elfs load' = load_elfs load /\
  load_errors load' = load_errors load.
Proof.
  unfold load_spend. destruct (load_budget load) as [[|n]|]; [discriminate| |];
    intros [= <-]; easy.
Qed.

Lemma drgn_debug_info_report_elf_reports_only report load r load' :
  drgn_debug_info_report_elf report load = (r, load') -> reports_only load load'.
Proof.
  unfold drgn_debug_info_report_elf.
  destruct (load_spend load) as [load1|] eqn:Hspend.
  - apply load_spend_reports_only in Hspend as (Hf & Hm & Hd & He & Hr).
    intros [= <- <-]. unfold reports_only. cbn.
    rewrite He, Hr. split; [exact Hf|]. split; [exact Hm|]. split; [exact Hd|].
    split; [now apply prefix_app_r|reflexivity].
  - intros [= <- <-]. apply reports_only_refl.
Qed.

Lemma drgn_debug_info_report_error_reports_only name message err load r load' :
  drgn_debug_info_report_error name message err load = (r, load') ->
  reports_only load load'.
Proof.
  unfold drgn_debug_info_report_error.
  assert (match load_spend load with
          | Some load0 =>
              (Ok tt,
               {| load_main := load_main load0; load_default := load_default load0;
                  load_indexed := load_indexed load0; load_elfs := load_elfs load0;
                  load_errors := load_errors load0
                                 ++ [{| ee_name := name; ee_message := message;
                                        ee_err := err |}];
                  load_flushes := load_flushes load0;
                  load_budget := load_budget load0 |})
          | None => (Err drgn_enomem, load)
          end = (r, load') -> reports_only load load') as Hspent.
  { destruct (load_spend load) as [load1|] eqn:Hspend.
    - apply load_spend_reports_only in Hspend as (Hf & Hm & Hd & He & Hr).
      intros [= <- <-]. unfold reports_only. cbn.
      rewrite He, Hr. split; [exact Hf|]. split; [exact Hm|]. split; [exact Hd|].
      split; [reflexivity|now apply prefix_app_r].
    - intros [= <- <-]. apply reports_only_refl. }
  destruct err as [[]|]; try exact Hspent.
  intros [= <- <-]. apply reports_only_refl.
Qed.











Section CoordinatorInvariant.

Variable h : host.

Variable uninitialized : depmod_out.





End CoordinatorInvariant.














Section CoordinatorReturns.

Variable h : host.
Variable uninitialized : depmod_out.





End CoordinatorReturns.









(** ** The first pass over the supplied paths *)

Section DiscoveryProperties.

Variable h : host.

Variable open_error : list byte -> drgn_error.

Variable elf_address_range : Elf -> Z -> result (Z * Z).

Variable is_new : drgn_debug_info_load_state -> elf_report -> bool.

Variable prog_kaslr_offset : Z.

Variable kmod_uninitialized : kernel_module_file.

Lemma linux_kernel_report_path_spec path d :
  load_budget (dis_load d) = None ->
  open_error path <> drgn_enomem ->
  (forall elf, elf_address_range elf prog_kaslr_offset <> Err drgn_enomem) ->
  exists d',
    linux_kernel_report_path h open_error elf_address_range is_new prog_kaslr_offset
      kmod_uninitialized path d = (Ok tt, d') /\
    load_budget (dis_load d') = None /\
    dis_kmods d'
    = dis_kmods d ++ option_list (path_set_aside h kmod_uninitialized path) /\
    load_elfs (dis_load d')
    = load_elfs (dis_load d)
      ++ option_list (path_report h elf_address_range prog_kaslr_offset path) /\
    load_errors (dis_load d')
    = load_errors (dis_load d)
      ++ option_list (path_error h open_error elf_address_range prog_kaslr_offset
                        path) /\
    (dis_vmlinux_is_pending d' = true ->
     dis_vmlinux_is_pending d = true \/
     exists report,
       path_report h elf_address_range prog_kaslr_offset path = Some report /\
       er_name report = Some (bytes "kernel") /\
       is_new (dis_load d) report = true).
Proof.
  intros Hbudget Hopen Hrange.
  assert (forall err,
            err <> drgn_enomem ->
            exists d',
              dis_report_error path err d = (Ok tt, d') /\
              load_budget (dis_load d') = None /\
              dis_kmods d' = dis_kmods d /\
              load_elfs (dis_load d') = load_elfs (dis_load d) /\
              load_errors (dis_load d')
              = load_errors (dis_load d)
                ++ [{| ee_name := Some path; ee_message := None;
                       ee_err := Some err |}] /\
              dis_vmlinux_is_pending d' = dis_vmlinux_is_pending d) as Herror.
  { intros err Herr. unfold dis_report_error.
    destruct (drgn_debug_info_report_error_unlimited (Some path) None (Some err)
                (dis_load d) Hbudget ltac:(congruence))
      as (load' & Hreport & Hbudget' & Helfs).
    rewrite Hreport. eexists. split; [reflexivity|]. cbn.
    apply drgn_debug_info_report_error_result in Hreport
      as [(_ & Herrors & _)|(Hr & _)]; [|discriminate].
    easy. }
  unfold linux_kernel_report_path, path_set_aside, path_report, path_error.
  destruct (host_elf h path) as [[fd elf]|].
  2:{ destruct (Herror _ Hopen) as (d' & -> & Hb & Hk & He & Hr & Hp).
      exists d'. cbn [option_list]. rewrite !app_nil_r, Hp.
      split; [reflexivity|]. do 4 (split; [assumption|]). now left. }
  destruct (identify_kernel_elf elf) as [[is_vmlinux is_module]|err] eqn:Hid.
  2:{ assert (err <> drgn_enomem) as Herr.
      { unfold identify_kernel_elf in Hid. intros ->.
        destruct (negb (elf_shstrndx_ok elf)); [discriminate|].
        revert Hid. generalize false. 
        induction (elf_sections elf) as [|scn scns IH]; intros b; cbn;
          [discriminate|].
        repeat case_match; try discriminate; apply IH. }
      destruct (Herror _ Herr) as (d' & -> & Hb & Hk & He & Hr & Hp).
      exists d'. cbn [option_list]. rewrite !app_nil_r, Hp.
      split; [reflexivity|]. do 4 (split; [assumption|]). now left. }
  destruct is_module.
  { eexists. split; [reflexivity|]. cbn.
    destruct is_vmlinux; cbn; rewrite !app_nil_r;
      (do 4 (split; [first [assumption | reflexivity]|])); now left. }
  destruct is_vmlinux.
  - destruct (elf_address_range elf prog_kaslr_offset) as [[start end_]|err]
      eqn:Haddr.
    + match goal with
      | |- context [drgn_debug_info_report_elf ?r (dis_load d)] =>
          destruct (drgn_debug_info_report_elf_unlimited r (dis_load d) Hbudget)
            as (load' & Hreport & Hbudget' & Helfs)
      end.
      rewrite Hreport. eexists. split; [reflexivity|]. cbn.
      rewrite !app_nil_r. split; [exact Hbudget'|]. split; [reflexivity|].
      split; [exact Helfs|].
      split.
      * unfold drgn_debug_info_report_elf, load_spend in Hreport.
        rewrite Hbudget in Hreport. now injection Hreport as <-.
      * destruct (is_new _ _) eqn:Hnew; [|now left].
        intros _. right. eexists. split; [reflexivity|]. easy.
    + assert (err <> drgn_enomem) as Herr
        by (intros ->; now apply (Hrange elf)).
      destruct (Herror _ Herr) as (d' & -> & Hb & Hk & He & Hr & Hp).
      exists d'. cbn [option_list]. rewrite !app_nil_r, Hp.
      split; [reflexivity|]. do 4 (split; [assumption|]). now left.
  - match goal with
    | |- context [drgn_debug_info_report_elf ?r (dis_load d)] =>
        destruct (drgn_debug_info_report_elf_unlimited r (dis_load d) Hbudget)
          as (load' & Hreport & Hbudget' & Helfs)
    end.
    rewrite Hreport. eexists. split; [reflexivity|]. cbn.
    rewrite !app_nil_r. split; [exact Hbudget'|]. split; [reflexivity|].
    split; [exact Helfs|].
    split; [|now left].
    unfold drgn_debug_info_report_elf, load_spend in Hreport.
    rewrite Hbudget in Hreport. now injection Hreport as <-.
Qed.

Lemma linux_kernel_report_paths_spec paths :
  (forall path, path ∈ paths -> open_error path <> drgn_enomem) ->
  (forall elf, elf_address_range elf prog_kaslr_offset <> Err drgn_enomem) ->
  forall d,
    load_budget (dis_load d) = None ->
    exists d',
      linux_kernel_report_paths h open_error elf_address_range is_new
        prog_kaslr_offset kmod_uninitialized paths d = (Ok tt, d') /\
      load_budget (dis_load d') = None /\
      dis_kmods d' = dis_kmods d ++ omap (path_set_aside h kmod_uninitialized) paths /\
      load_elfs (dis_load d')
      = load_elfs (dis_load d)
        ++ omap (path_report h elf_address_range prog_kaslr_offset) paths /\
      load_errors (dis_load d')
      = load_errors (dis_load d)
        ++ omap (path_error h open_error elf_address_range prog_kaslr_offset) paths /\
      (dis_vmlinux_is_pending d' = true ->
       dis_vmlinux_is_pending d = true \/
       exists path report load0,
         path ∈ paths /\
         path_report h elf_address_range prog_kaslr_offset path = Some report /\
         er_name report = Some (bytes "kernel") /\ is_new load0 report = true).
Proof.
  intros Hopen Hrange.
  induction paths as [|path paths IH]; intros d Hbudget.
  - exists d. cbn. rewrite !app_nil_r. do 5 (split; [easy|]). now left.
  - destruct (linux_kernel_report_path_spec path d Hbudget
                (Hopen path ltac:(left)) Hrange)
      as (d1 & Hstep & Hbudget1 & Hkmods1 & Helfs1 & Herrors1 & Hpending1).
    destruct (IH (fun p Hp => Hopen p ltac:(now right)) d1 Hbudget1)
      as (d' & Hrest & Hbudget' & Hkmods' & Helfs' & Herrors' & Hpending').
    exists d'. cbn [linux_kernel_report_paths]. rewrite Hstep.
    split; [exact Hrest|]. split; [exact Hbudget'|].
    cbn [omap list_omap].
    split; [rewrite Hkmods', Hkmods1, <- app_assoc; f_equal;
            now destruct (path_set_aside _ _ _)|].
    split; [rewrite Helfs', Helfs1, <- app_assoc; f_equal;
            now destruct (path_report _ _ _ _)|].
    split; [rewrite Herrors', Herrors1, <- app_assoc; f_equal;
            now destruct (path_error _ _ _ _ _)|].
    intros Hp. destruct (Hpending' Hp) as [Hp1|(p & report & load0 & Hin & Hrest')].
    + destruct (Hpending1 Hp1) as [Hp0|(report & Hreport & Hname & Hnew)];
        [now left|].
      right. exists path, report, (dis_load d). split; [left|]. easy.
    + right. exists p, report, load0. split; [now right|]. exact Hrest'.
Qed.


End DiscoveryProperties.

Section DiscoveryRun.

Variable h : host.

Variable uninitialized : depmod_out.

Variable open_error : list byte -> drgn_error.

Variable elf_address_range : Elf -> Z -> result (Z * Z).

Variable is_new : drgn_debug_info_load_state -> elf_report -> bool.

Variable prog_kaslr_offset : Z.

Variable kmod_uninitialized : kernel_module_file.

Lemma linux_kernel_report_paths_reports_only paths :
  forall d r d',
    linux_kernel_report_paths h open_error elf_address_range is_new
      prog_kaslr_offset kmod_uninitialized paths d = (r, d') ->
    reports_only (dis_load d) (dis_load d').
Proof.
  induction paths as [|path paths IH]; intros d r d'; cbn [linux_kernel_report_paths].
  { intros [= <- <-]. apply reports_only_refl. }
  destruct (linux_kernel_report_path _ _ _ _ _ _ path d) as [r1 d1] eqn:Hstep.
  assert (reports_only (dis_load d) (dis_load d1)) as Hstep'.
  { revert Hstep. unfold linux_kernel_report_path, dis_report_error.
    repeat case_match; intros [= <- <-]; cbn;
      try apply reports_only_refl;
      try (eapply drgn_debug_info_report_error_reports_only; eassumption);
      try (eapply drgn_debug_info_report_elf_reports_only; eassumption). }
  destruct r1 as [[]|err].
  - intros Hrest. apply IH in Hrest. eauto using reports_only_trans.
  - now intros [= <- <-].
Qed.

Lemma report_vmlinux_unlimited load :
  load_budget load = None ->
  (forall elf, elf_address_range elf prog_kaslr_offset <> Err drgn_enomem) ->
  exists load' pending found,
    report_vmlinux h elf_address_range is_new prog_kaslr_offset load
    = (Ok tt, load', pending) /\
    load_budget load' = None /\
    load_elfs load' = load_elfs load ++ found /\
    (found = [] \/
     exists path fd elf start end_,
       find_elf_file h (vmlinux_paths (c_string (prog_osrelease h)))
       = Some (path, fd, elf) /\
       elf_address_range elf prog_kaslr_offset = Ok (start, end_) /\
       found = [{| er_path := path; er_fd := fd; er_elf := elf; er_start := start;
                   er_end := end_; er_name := Some (bytes "kernel") |}]).
Proof.
  intros Hbudget Hrange. unfold report_vmlinux.
  destruct (find_elf_file h _) as [[[path fd] elf]|] eqn:Hfind.
  - destruct (elf_address_range elf prog_kaslr_offset) as [[start end_]|err]
      eqn:Haddr.
    + match goal with
      | |- context [drgn_debug_info_report_elf ?r load] =>
          destruct (drgn_debug_info_report_elf_unlimited r load Hbudget)
            as (load' & Hreport & Hbudget' & Helfs)
      end.
      rewrite Hreport. eexists _, _, _. split; [reflexivity|].
      split; [exact Hbudget'|]. split; [exact Helfs|].
      right. exists path, fd, elf, start, end_. split; [reflexivity|].
      split; [exact Haddr|reflexivity].
    + assert (err <> drgn_enomem) as Herr by (intros ->; now apply (Hrange elf)).
      destruct (drgn_debug_info_report_error_unlimited (Some path) None (Some err)
                  load Hbudget ltac:(congruence))
        as (load' & Hreport & Hbudget' & Helfs).
      rewrite Hreport. exists load', false, []. rewrite app_nil_r.
      split; [reflexivity|]. split; [exact Hbudget'|]. split; [exact Helfs|].
      now left.
  - match goal with
    | |- context [drgn_debug_info_report_error ?n ?m ?e load] =>
        destruct (drgn_debug_info_report_error_unlimited n m e load Hbudget
                    ltac:(discriminate))
          as (load' & Hreport & Hbudget' & Helfs)
    end.
    rewrite Hreport. exists load', false, []. rewrite app_nil_r.
    split; [reflexivity|]. split; [exact Hbudget'|]. split; [exact Helfs|].
    now left.
Qed.

(** X16: [linux_kernel_report_debug_info] on a target with no module
    loaded.  With an indexer that does not abort and no memory
    exhaustion, the call succeeds, and the ELF files it reports are, in
    this order: those of the first pass, in the order of the paths; at
    most one file found by [report_vmlinux], which is the first of the
    standard vmlinux paths that can be opened, reported under the name
    [kernel] at its address range, and only if [load_main] is set; and
    the supplied modules whose build ID can be read, each once, at the
    address range [0, 0] under the name of its path, in the order in
    which the table is traversed. *)
Theorem linux_kernel_report_debug_info_no_modules paths load :
  load_budget load = None ->
  (forall path, path ∈ paths -> open_error path <> drgn_enomem) ->
  (forall elf, elf_address_range elf prog_kaslr_offset <> Err drgn_enomem) ->
  no_modules (modules_live h) -> no_modules (modules_walk h) ->
  exists load' kmods' found reports,
    linux_kernel_report_debug_info h uninitialized open_error elf_address_range
      is_new prog_kaslr_offset kmod_uninitialized paths load
    = Some (Ok tt, load', kmods') /\
    load_elfs load'
    = load_elfs load
      ++ omap (path_report h elf_address_range prog_kaslr_offset) paths
      ++ found ++ reports /\
    reports
    ≡ₚ omap unloaded_report (omap (path_set_aside h kmod_uninitialized) paths) /\
    (found = [] \/
     load_main load = true /\
     exists path fd elf start end_,
       find_elf_file h (vmlinux_paths (c_string (prog_osrelease h)))
       = Some (path, fd, elf) /\
       elf_address_range elf prog_kaslr_offset = Ok (start, end_) /\
       found = [{| er_path := path; er_fd := fd; er_elf := elf; er_start := start;
                   er_end := end_; er_name := Some (bytes "kernel") |}]).
Proof.
  intros Hbudget Hopen Hrange Hlive Hwalk.
  unfold linux_kernel_report_debug_info.
  set (d0 := {| dis_load := load; dis_kmods := [];
                dis_vmlinux_is_pending := false |}).
  destruct (linux_kernel_report_paths_spec h open_error elf_address_range is_new
              prog_kaslr_offset kmod_uninitialized paths Hopen Hrange d0 Hbudget)
    as (d' & Hrun & Hbudget' & Hkmods & Helfs & _).
  rewrite Hrun.
  apply linux_kernel_report_paths_reports_only in Hrun as (_ & Hmain' & _).
  cbn [dis_load d0] in Hmain'.
  assert (exists load2 pending2 found,
            (if load_main (dis_load d') && negb (dis_vmlinux_is_pending d')
                && negb (drgn_debug_info_is_indexed (dis_load d') (bytes "kernel"))
             then report_vmlinux h elf_address_range is_new prog_kaslr_offset
                    (dis_load d')
             else (Ok tt, dis_load d', dis_vmlinux_is_pending d'))
            = (Ok tt, load2, pending2) /\
            load_budget load2 = None /\
            load_elfs load2 = load_elfs (dis_load d') ++ found /\
            (found = [] \/
             load_main load = true /\
             exists path fd elf start end_,
               find_elf_file h (vmlinux_paths (c_string (prog_osrelease h)))
               = Some (path, fd, elf) /\
               elf_address_range elf prog_kaslr_offset = Ok (start, end_) /\
               found = [{| er_path := path; er_fd := fd; er_elf := elf;
                           er_start := start; er_end := end_;
                           er_name := Some (bytes "kernel") |}]))
    as (load2 & pending2 & found & -> & Hbudget2 & Helfs2 & Hfound).
  { destruct (load_main (dis_load d')) eqn:Hmain; cbn [andb].
    2:{ exists (dis_load d'), (dis_vmlinux_is_pending d'), [].
        rewrite app_nil_r. split; [reflexivity|]. split; [exact Hbudget'|].
        split; [reflexivity|]. now left. }
    destruct (negb (dis_vmlinux_is_pending d')
              && negb (drgn_debug_info_is_indexed (dis_load d') (bytes "kernel"))).
    - destruct (report_vmlinux_unlimited (dis_load d') Hbudget' Hrange)
        as (load2 & pending2 & found & Hvmlinux & Hbudget2 & Helfs2 & Hfound).
      exists load2, pending2, found. split; [exact Hvmlinux|].
      split; [exact Hbudget2|]. split; [exact Helfs2|].
      destruct Hfound as [Hnil|Hfound]; [now left|right].
      split; [congruence|exact Hfound].
    - exists (dis_load d'), (dis_vmlinux_is_pending d'), [].
      rewrite app_nil_r. split; [reflexivity|]. split; [exact Hbudget'|].
      split; [reflexivity|]. now left. }
  destruct (report_kernel_modules_unloaded h uninitialized load2
              (dis_kmods d') pending2 Hbudget2 Hlive Hwalk)
    as (load' & kmods' & reports & -> & Helfs' & Hperm & _).
  exists load', kmods', found, reports. split; [reflexivity|].
  split; [rewrite Helfs', Helfs2, Helfs; cbn; now rewrite <- !app_assoc|].
  split; [|exact Hfound].
  rewrite Hperm, Hkmods. reflexivity.
Qed.

End DiscoveryRun.


(** X16, witness: the same four paths. *)
Lemma linux_kernel_report_debug_info_no_modules_witness :
  exists load' kmods' found reports,
    linux_kernel_report_debug_info host_candidates depmod_out_stale
      open_error_fixture elf_address_range_fixture is_new_fixture 0x1a000000
      (kmod_fixture "" 0) candidate_paths (load_fixture true)
    = Some (Ok tt, load', kmods') /\
    load_elfs load'
    = load_elfs (load_fixture true)
      ++ omap (path_report host_candidates elf_address_range_fixture 0x1a000000)
           candidate_paths
      ++ found ++ reports /\
    reports
    ≡ₚ omap unloaded_report
         (omap (path_set_aside host_candidates (kmod_fixture "" 0)) candidate_paths) /\
    (found = [] \/
     load_main (load_fixture true) = true /\
     exists path fd elf start end_,
       find_elf_file host_candidates
         (vmlinux_paths (c_string (prog_osrelease host_candidates)))
       = Some (path, fd, elf) /\
       elf_address_range_fixture elf 0x1a000000 = Ok (start, end_) /\
       found = [{| er_path := path; er_fd := fd; er_elf := elf; er_start := start;
                   er_end := end_; er_name := Some (bytes "kernel") |}]).
Proof.
  apply (linux_kernel_report_debug_info_no_modules host_candidates depmod_out_stale
           open_error_fixture elf_address_range_fixture is_new_fixture 0x1a000000
           (kmod_fixture "" 0) candidate_paths (load_fixture true));
    first [reflexivity | (intros; discriminate) | (repeat split)].
Defined.
